(** * Service management engine of dinit, and its control utility

    A shallow embedding of [src/service.cc] (the service records, their
    lifecycle state machine, the propagation of starts and stops and the
    supervision of child processes) and of [src/dinitctl.cc] (the control
    utility), followed by the properties established about them.

    Conventions of the embedding:
    - a service record is addressed by a [handle]; the heap of records is a
      total store [handle -> service_record], so that the pointers the C++
      code keeps between records (dependencies, dependents, soft edges)
      become handles and every mutation goes through the one shared store;
    - a C++ member function [void service_record::f()] becomes
      [f : handle -> sset -> sset]; one that returns a value returns a pair;
    - everything the code asks of the operating system or of the event loop
      is answered by an oracle [sys] carried by the state, read in order;
    - the state carries a [trace] of what the engine did: entries and exits of
      the member functions, log lines, listener notifications and the system
      calls with an effect outside the engine;
    - [int] arithmetic is written with its 32-bit wrap-around. *)

From Stdlib Require Import String ZArith Arith List Bool Lia.
Import ListNotations.
Local Open Scope Z_scope.

(** ** Basic types *)

Definition handle := nat.
Definition edge_id := nat.

(** [service_type] and [service_state_t] come from [service-constants.h]. *)
Inductive service_type : Type :=
  | DUMMY | PROCESS | BGPROCESS | SCRIPTED | INTERNAL.

Inductive service_state_t : Type :=
  | STOPPED | STARTING | STARTED | STOPPING.

Inductive service_event : Type :=
  | ev_STARTED | ev_STOPPED | ev_FAILEDSTART | ev_STARTCANCELLED | ev_STOPCANCELLED.

Inductive LogLevel : Type := ERROR | INFO.

Inductive pid_result_t : Type := pr_OK | pr_FAILED | pr_TERMINATED.

Definition state_eqb (a b : service_state_t) : bool :=
  match a, b with
  | STOPPED, STOPPED | STARTING, STARTING | STARTED, STARTED | STOPPING, STOPPING => true
  | _, _ => false
  end.

Definition type_eqb (a b : service_type) : bool :=
  match a, b with
  | DUMMY, DUMMY | PROCESS, PROCESS | BGPROCESS, BGPROCESS
  | SCRIPTED, SCRIPTED | INTERNAL, INTERNAL => true
  | _, _ => false
  end.

Lemma state_eqb_eq (a b : service_state_t) : state_eqb a b = true <-> a = b.
Proof. destruct a, b; simpl; split; intro E; try reflexivity; discriminate E. Qed.

Lemma state_eqb_refl (a : service_state_t) : state_eqb a a = true.
Proof. destruct a; reflexivity. Qed.

Lemma type_eqb_eq (a b : service_type) : type_eqb a b = true <-> a = b.
Proof. destruct a, b; simpl; split; intro E; try reflexivity; discriminate E. Qed.

(** The 32-bit two's complement [int] of the target. *)
Definition int_wrap (x : Z) : Z := (x + 2 ^ 31) mod 2 ^ 32 - 2 ^ 31.

Lemma int_wrap_small (x : Z) : - 2 ^ 31 <= x < 2 ^ 31 -> int_wrap x = x.
Proof. intro H. unfold int_wrap. rewrite Z.mod_small; lia. Qed.

(** Modelled from the spec: the reactor's [time_val] (the event loop is not
    under [src/]): a pair of seconds and nanoseconds, compared
    lexicographically and subtracted with a borrow, as a [timespec]. *)
Record time_val : Type := mk_time { tv_sec : Z; tv_nsec : Z }.

Definition time_lt (a b : time_val) : bool :=
  (tv_sec a <? tv_sec b) || ((tv_sec a =? tv_sec b) && (tv_nsec a <? tv_nsec b)).

Definition time_sub (a b : time_val) : time_val :=
  if tv_nsec b <=? tv_nsec a
  then mk_time (tv_sec a - tv_sec b) (tv_nsec a - tv_nsec b)
  else mk_time (tv_sec a - tv_sec b - 1) (1000000000 - tv_nsec b + tv_nsec a).

Definition time_eqb (a b : time_val) : bool :=
  (tv_sec a =? tv_sec b) && (tv_nsec a =? tv_nsec b).

(** The wait status macros of the C library (Linux encoding). *)
Definition WTERMSIG (st : Z) : Z := Z.land st 127.
Definition WEXITSTATUS (st : Z) : Z := Z.shiftr (Z.land st 65280) 8.
Definition WIFEXITED (st : Z) : bool := WTERMSIG st =? 0.
Definition WIFSIGNALED (st : Z) : bool :=
  let low := Z.land st 127 in negb (low =? 0) && negb (low =? 127).

(** ** Configuration and state of a service record *)

Record onstart_flags_t : Type := mk_onstart_flags {
  rw_ready : bool;
  log_ready : bool;
  no_sigterm : bool;
  runs_on_console : bool;
  starts_on_console : bool;
  pass_cs_fd : bool
}.

(** What the loader fixes and the engine only reads. The four lists are the
    edges of the dependency graph: [depends_on] and [dependents] hold handles
    of records, [soft_deps] and [soft_dpts] hold identifiers of soft edges;
    a soft edge is shared by the record it leaves and the record it enters. *)
Record service_config : Type := mk_service_config {
  record_type : service_type;
  depends_on : list handle;
  dependents : list handle;
  soft_deps : list edge_id;
  soft_dpts : list edge_id;
  onstart_flags : onstart_flags_t;
  auto_restart : bool;
  smooth_recovery : bool;
  socket_path : string;
  pid_file : string;
  stop_command : string;
  term_signal : Z;
  restart_delay : time_val;
  restart_interval : time_val;
  max_restart_interval_count : Z
}.

Record service_dep : Type := mk_service_dep {
  dep_from : handle;
  dep_to : handle;
  waiting_on : bool;
  holding_acq : bool
}.

Definition set_waiting_on (v : bool) (d : service_dep) : service_dep :=
  mk_service_dep (dep_from d) (dep_to d) v (holding_acq d).

Definition set_holding_acq (v : bool) (d : service_dep) : service_dep :=
  mk_service_dep (dep_from d) (dep_to d) (waiting_on d) v.

Record service_record : Type := mk_service_record {
  cfg : service_config;
  service_state : service_state_t;
  desired_state : service_state_t;
  pinned_stopped : bool;
  pinned_started : bool;
  waiting_for_deps : bool;
  waiting_for_execstat : bool;
  start_explicit : bool;
  prop_require : bool;
  prop_release : bool;
  prop_failure : bool;
  prop_start : bool;
  prop_stop : bool;
  restarting : bool;
  force_stop : bool;
  required_by : Z;
  socket_fd : Z;
  pid : Z;
  exit_status : Z;
  restart_interval_count : Z;
  restart_interval_time : time_val;
  last_start_time : time_val;
  waiting_restart_timer : bool;
  restart_timer : option time_val;
  doing_recovery : bool;
  tracking_child : bool
}.

Definition set_service_state (v : service_state_t) (r : service_record) : service_record :=
  mk_service_record (cfg r) v (desired_state r) (pinned_stopped r) (pinned_started r)
    (waiting_for_deps r) (waiting_for_execstat r) (start_explicit r) (prop_require r)
    (prop_release r) (prop_failure r) (prop_start r) (prop_stop r) (restarting r)
    (force_stop r) (required_by r) (socket_fd r) (pid r) (exit_status r)
    (restart_interval_count r) (restart_interval_time r) (last_start_time r)
    (waiting_restart_timer r) (restart_timer r) (doing_recovery r) (tracking_child r).

Definition set_desired_state (v : service_state_t) (r : service_record) : service_record :=
  mk_service_record (cfg r) (service_state r) v (pinned_stopped r) (pinned_started r)
    (waiting_for_deps r) (waiting_for_execstat r) (start_explicit r) (prop_require r)
    (prop_release r) (prop_failure r) (prop_start r) (prop_stop r) (restarting r)
    (force_stop r) (required_by r) (socket_fd r) (pid r) (exit_status r)
    (restart_interval_count r) (restart_interval_time r) (last_start_time r)
    (waiting_restart_timer r) (restart_timer r) (doing_recovery r) (tracking_child r).

Definition set_pinned_stopped (v : bool) (r : service_record) : service_record :=
  mk_service_record (cfg r) (service_state r) (desired_state r) v (pinned_started r)
    (waiting_for_deps r) (waiting_for_execstat r) (start_explicit r) (prop_require r)
    (prop_release r) (prop_failure r) (prop_start r) (prop_stop r) (restarting r)
    (force_stop r) (required_by r) (socket_fd r) (pid r) (exit_status r)
    (restart_interval_count r) (restart_interval_time r) (last_start_time r)
    (waiting_restart_timer r) (restart_timer r) (doing_recovery r) (tracking_child r).

Definition set_pinned_started (v : bool) (r : service_record) : service_record :=
  mk_service_record (cfg r) (service_state r) (desired_state r) (pinned_stopped r) v
    (waiting_for_deps r) (waiting_for_execstat r) (start_explicit r) (prop_require r)
    (prop_release r) (prop_failure r) (prop_start r) (prop_stop r) (restarting r)
    (force_stop r) (required_by r) (socket_fd r) (pid r) (exit_status r)
    (restart_interval_count r) (restart_interval_time r) (last_start_time r)
    (waiting_restart_timer r) (restart_timer r) (doing_recovery r) (tracking_child r).

Definition set_waiting_for_deps (v : bool) (r : service_record) : service_record :=
  mk_service_record (cfg r) (service_state r) (desired_state r) (pinned_stopped r)
    (pinned_started r) v (waiting_for_execstat r) (start_explicit r) (prop_require r)
    (prop_release r) (prop_failure r) (prop_start r) (prop_stop r) (restarting r)
    (force_stop r) (required_by r) (socket_fd r) (pid r) (exit_status r)
    (restart_interval_count r) (restart_interval_time r) (last_start_time r)
    (waiting_restart_timer r) (restart_timer r) (doing_recovery r) (tracking_child r).

Definition set_waiting_for_execstat (v : bool) (r : service_record) : service_record :=
  mk_service_record (cfg r) (service_state r) (desired_state r) (pinned_stopped r)
    (pinned_started r) (waiting_for_deps r) v (start_explicit r) (prop_require r)
    (prop_release r) (prop_failure r) (prop_start r) (prop_stop r) (restarting r)
    (force_stop r) (required_by r) (socket_fd r) (pid r) (exit_status r)
    (restart_interval_count r) (restart_interval_time r) (last_start_time r)
    (waiting_restart_timer r) (restart_timer r) (doing_recovery r) (tracking_child r).

Definition set_start_explicit (v : bool) (r : service_record) : service_record :=
  mk_service_record (cfg r) (service_state r) (desired_state r) (pinned_stopped r)
    (pinned_started r) (waiting_for_deps r) (waiting_for_execstat r) v (prop_require r)
    (prop_release r) (prop_failure r) (prop_start r) (prop_stop r) (restarting r)
    (force_stop r) (required_by r) (socket_fd r) (pid r) (exit_status r)
    (restart_interval_count r) (restart_interval_time r) (last_start_time r)
    (waiting_restart_timer r) (restart_timer r) (doing_recovery r) (tracking_child r).

Definition set_prop_require (v : bool) (r : service_record) : service_record :=
  mk_service_record (cfg r) (service_state r) (desired_state r) (pinned_stopped r)
    (pinned_started r) (waiting_for_deps r) (waiting_for_execstat r) (start_explicit r) v
    (prop_release r) (prop_failure r) (prop_start r) (prop_stop r) (restarting r)
    (force_stop r) (required_by r) (socket_fd r) (pid r) (exit_status r)
    (restart_interval_count r) (restart_interval_time r) (last_start_time r)
    (waiting_restart_timer r) (restart_timer r) (doing_recovery r) (tracking_child r).

Definition set_prop_release (v : bool) (r : service_record) : service_record :=
  mk_service_record (cfg r) (service_state r) (desired_state r) (pinned_stopped r)
    (pinned_started r) (waiting_for_deps r) (waiting_for_execstat r) (start_explicit r)
    (prop_require r) v (prop_failure r) (prop_start r) (prop_stop r) (restarting r)
    (force_stop r) (required_by r) (socket_fd r) (pid r) (exit_status r)
    (restart_interval_count r) (restart_interval_time r) (last_start_time r)
    (waiting_restart_timer r) (restart_timer r) (doing_recovery r) (tracking_child r).

Definition set_prop_failure (v : bool) (r : service_record) : service_record :=
  mk_service_record (cfg r) (service_state r) (desired_state r) (pinned_stopped r)
    (pinned_started r) (waiting_for_deps r) (waiting_for_execstat r) (start_explicit r)
    (prop_require r) (prop_release r) v (prop_start r) (prop_stop r) (restarting r)
    (force_stop r) (required_by r) (socket_fd r) (pid r) (exit_status r)
    (restart_interval_count r) (restart_interval_time r) (last_start_time r)
    (waiting_restart_timer r) (restart_timer r) (doing_recovery r) (tracking_child r).

Definition set_prop_start (v : bool) (r : service_record) : service_record :=
  mk_service_record (cfg r) (service_state r) (desired_state r) (pinned_stopped r)
    (pinned_started r) (waiting_for_deps r) (waiting_for_execstat r) (start_explicit r)
    (prop_require r) (prop_release r) (prop_failure r) v (prop_stop r) (restarting r)
    (force_stop r) (required_by r) (socket_fd r) (pid r) (exit_status r)
    (restart_interval_count r) (restart_interval_time r) (last_start_time r)
    (waiting_restart_timer r) (restart_timer r) (doing_recovery r) (tracking_child r).

Definition set_prop_stop (v : bool) (r : service_record) : service_record :=
  mk_service_record (cfg r) (service_state r) (desired_state r) (pinned_stopped r)
    (pinned_started r) (waiting_for_deps r) (waiting_for_execstat r) (start_explicit r)
    (prop_require r) (prop_release r) (prop_failure r) (prop_start r) v (restarting r)
    (force_stop r) (required_by r) (socket_fd r) (pid r) (exit_status r)
    (restart_interval_count r) (restart_interval_time r) (last_start_time r)
    (waiting_restart_timer r) (restart_timer r) (doing_recovery r) (tracking_child r).

Definition set_restarting (v : bool) (r : service_record) : service_record :=
  mk_service_record (cfg r) (service_state r) (desired_state r) (pinned_stopped r)
    (pinned_started r) (waiting_for_deps r) (waiting_for_execstat r) (start_explicit r)
    (prop_require r) (prop_release r) (prop_failure r) (prop_start r) (prop_stop r) v
    (force_stop r) (required_by r) (socket_fd r) (pid r) (exit_status r)
    (restart_interval_count r) (restart_interval_time r) (last_start_time r)
    (waiting_restart_timer r) (restart_timer r) (doing_recovery r) (tracking_child r).

Definition set_force_stop (v : bool) (r : service_record) : service_record :=
  mk_service_record (cfg r) (service_state r) (desired_state r) (pinned_stopped r)
    (pinned_started r) (waiting_for_deps r) (waiting_for_execstat r) (start_explicit r)
    (prop_require r) (prop_release r) (prop_failure r) (prop_start r) (prop_stop r)
    (restarting r) v (required_by r) (socket_fd r) (pid r) (exit_status r)
    (restart_interval_count r) (restart_interval_time r) (last_start_time r)
    (waiting_restart_timer r) (restart_timer r) (doing_recovery r) (tracking_child r).

Definition set_required_by (v : Z) (r : service_record) : service_record :=
  mk_service_record (cfg r) (service_state r) (desired_state r) (pinned_stopped r)
    (pinned_started r) (waiting_for_deps r) (waiting_for_execstat r) (start_explicit r)
    (prop_require r) (prop_release r) (prop_failure r) (prop_start r) (prop_stop r)
    (restarting r) (force_stop r) v (socket_fd r) (pid r) (exit_status r)
    (restart_interval_count r) (restart_interval_time r) (last_start_time r)
    (waiting_restart_timer r) (restart_timer r) (doing_recovery r) (tracking_child r).

Definition set_socket_fd (v : Z) (r : service_record) : service_record :=
  mk_service_record (cfg r) (service_state r) (desired_state r) (pinned_stopped r)
    (pinned_started r) (waiting_for_deps r) (waiting_for_execstat r) (start_explicit r)
    (prop_require r) (prop_release r) (prop_failure r) (prop_start r) (prop_stop r)
    (restarting r) (force_stop r) (required_by r) v (pid r) (exit_status r)
    (restart_interval_count r) (restart_interval_time r) (last_start_time r)
    (waiting_restart_timer r) (restart_timer r) (doing_recovery r) (tracking_child r).

Definition set_pid (v : Z) (r : service_record) : service_record :=
  mk_service_record (cfg r) (service_state r) (desired_state r) (pinned_stopped r)
    (pinned_started r) (waiting_for_deps r) (waiting_for_execstat r) (start_explicit r)
    (prop_require r) (prop_release r) (prop_failure r) (prop_start r) (prop_stop r)
    (restarting r) (force_stop r) (required_by r) (socket_fd r) v (exit_status r)
    (restart_interval_count r) (restart_interval_time r) (last_start_time r)
    (waiting_restart_timer r) (restart_timer r) (doing_recovery r) (tracking_child r).

Definition set_exit_status (v : Z) (r : service_record) : service_record :=
  mk_service_record (cfg r) (service_state r) (desired_state r) (pinned_stopped r)
    (pinned_started r) (waiting_for_deps r) (waiting_for_execstat r) (start_explicit r)
    (prop_require r) (prop_release r) (prop_failure r) (prop_start r) (prop_stop r)
    (restarting r) (force_stop r) (required_by r) (socket_fd r) (pid r) v
    (restart_interval_count r) (restart_interval_time r) (last_start_time r)
    (waiting_restart_timer r) (restart_timer r) (doing_recovery r) (tracking_child r).

Definition set_restart_interval_count (v : Z) (r : service_record) : service_record :=
  mk_service_record (cfg r) (service_state r) (desired_state r) (pinned_stopped r)
    (pinned_started r) (waiting_for_deps r) (waiting_for_execstat r) (start_explicit r)
    (prop_require r) (prop_release r) (prop_failure r) (prop_start r) (prop_stop r)
    (restarting r) (force_stop r) (required_by r) (socket_fd r) (pid r) (exit_status r) v
    (restart_interval_time r) (last_start_time r) (waiting_restart_timer r) (restart_timer
    r) (doing_recovery r) (tracking_child r).

Definition set_restart_interval_time (v : time_val) (r : service_record) : service_record :=
  mk_service_record (cfg r) (service_state r) (desired_state r) (pinned_stopped r)
    (pinned_started r) (waiting_for_deps r) (waiting_for_execstat r) (start_explicit r)
    (prop_require r) (prop_release r) (prop_failure r) (prop_start r) (prop_stop r)
    (restarting r) (force_stop r) (required_by r) (socket_fd r) (pid r) (exit_status r)
    (restart_interval_count r) v (last_start_time r) (waiting_restart_timer r)
    (restart_timer r) (doing_recovery r) (tracking_child r).

Definition set_last_start_time (v : time_val) (r : service_record) : service_record :=
  mk_service_record (cfg r) (service_state r) (desired_state r) (pinned_stopped r)
    (pinned_started r) (waiting_for_deps r) (waiting_for_execstat r) (start_explicit r)
    (prop_require r) (prop_release r) (prop_failure r) (prop_start r) (prop_stop r)
    (restarting r) (force_stop r) (required_by r) (socket_fd r) (pid r) (exit_status r)
    (restart_interval_count r) (restart_interval_time r) v (waiting_restart_timer r)
    (restart_timer r) (doing_recovery r) (tracking_child r).

Definition set_waiting_restart_timer (v : bool) (r : service_record) : service_record :=
  mk_service_record (cfg r) (service_state r) (desired_state r) (pinned_stopped r)
    (pinned_started r) (waiting_for_deps r) (waiting_for_execstat r) (start_explicit r)
    (prop_require r) (prop_release r) (prop_failure r) (prop_start r) (prop_stop r)
    (restarting r) (force_stop r) (required_by r) (socket_fd r) (pid r) (exit_status r)
    (restart_interval_count r) (restart_interval_time r) (last_start_time r) v
    (restart_timer r) (doing_recovery r) (tracking_child r).

Definition set_restart_timer (v : option time_val) (r : service_record) : service_record :=
  mk_service_record (cfg r) (service_state r) (desired_state r) (pinned_stopped r)
    (pinned_started r) (waiting_for_deps r) (waiting_for_execstat r) (start_explicit r)
    (prop_require r) (prop_release r) (prop_failure r) (prop_start r) (prop_stop r)
    (restarting r) (force_stop r) (required_by r) (socket_fd r) (pid r) (exit_status r)
    (restart_interval_count r) (restart_interval_time r) (last_start_time r)
    (waiting_restart_timer r) v (doing_recovery r) (tracking_child r).

Definition set_doing_recovery (v : bool) (r : service_record) : service_record :=
  mk_service_record (cfg r) (service_state r) (desired_state r) (pinned_stopped r)
    (pinned_started r) (waiting_for_deps r) (waiting_for_execstat r) (start_explicit r)
    (prop_require r) (prop_release r) (prop_failure r) (prop_start r) (prop_stop r)
    (restarting r) (force_stop r) (required_by r) (socket_fd r) (pid r) (exit_status r)
    (restart_interval_count r) (restart_interval_time r) (last_start_time r)
    (waiting_restart_timer r) (restart_timer r) v (tracking_child r).

Definition set_tracking_child (v : bool) (r : service_record) : service_record :=
  mk_service_record (cfg r) (service_state r) (desired_state r) (pinned_stopped r)
    (pinned_started r) (waiting_for_deps r) (waiting_for_execstat r) (start_explicit r)
    (prop_require r) (prop_release r) (prop_failure r) (prop_start r) (prop_stop r)
    (restarting r) (force_stop r) (required_by r) (socket_fd r) (pid r) (exit_status r)
    (restart_interval_count r) (restart_interval_time r) (last_start_time r)
    (waiting_restart_timer r) (restart_timer r) (doing_recovery r) v.

(** ** The trace, the oracle and the service set *)

(** The member functions whose entry and exit the trace records. *)
Inductive call_t : Type :=
  | c_require
  | c_release
  | c_release_dependencies
  | c_start (activate : bool)
  | c_do_stop
  | c_do_start
  | c_stop (bring_down : bool)
  | c_forceStop
  | c_stopDependents
  | c_startCheckDependencies (start_deps : bool)
  | c_dependencyStarted
  | c_dependentStopped
  | c_interrupt_start
  | c_started
  | c_stopped
  | c_failed_to_start (depfailed : bool)
  | c_emergency_stop
  | c_open_socket
  | c_allDepsStarted (has_console : bool)
  | c_acquiredConsole
  | c_all_deps_stopped
  | c_start_ps_process
  | c_start_ps_process_cmd (on_console : bool)
  | c_restart_ps_process
  | c_do_restart
  | c_read_pid_file
  | c_execute_transition
  | c_do_propagation
  | c_unpin
  | c_handle_exit_status (status : Z)
  | c_status_change (status : Z)
  | c_fd_event
  | c_timer_expiry
  | c_process_queues
  | c_pull_console_queue.

(** Effects that leave the engine. *)
Inductive effect_t : Type :=
  | fx_tcsetpgrp
  | fx_discard_console_log_buffer
  | fx_close (fd : Z)
  | fx_kill (target : Z) (signal : Z)
  | fx_sigterm (target : Z)
  | fx_arm_timer (timeout : time_val)
  | fx_stop_timer
  | fx_deregister_child (child : Z)
  | fx_add_child_watch (child : Z)
  | fx_open_control_socket
  | fx_setup_external_log.

Inductive log_msg : Type :=
  | msg_service_started
  | msg_service_stopped
  | msg_service_failed
  | msg_text (lvl : LogLevel).

Inductive event : Type :=
  | Enter (c : call_t) (h : handle)
  | Leave (c : call_t) (h : handle)
  | Log (m : log_msg) (h : handle)
  | Notify (h : handle) (e : service_event)
  | Effect (x : effect_t) (h : handle).

(** What the operating system and the event loop answer when the engine next
    consults them: the clock for [get_time]; the system calls of
    [open_socket], of [start_ps_process], of [read_pid_file] and the
    [waitpid] of [all_deps_stopped]. A process identifier returned by [fork]
    to the daemon is positive; the child side of [fork] ([run_child_proc],
    which never returns to the engine) is not part of the engine's state
    machine. *)
Record sys_answers : Type := mk_sys_answers {
  a_now : time_val;
  a_malloc_ok : bool;
  a_socket : Z;
  a_bind : Z;
  a_chown : Z;
  a_chmod : Z;
  a_listen : Z;
  a_pipe2 : Z;
  a_socketpair : Z;
  a_conn_ok : bool;
  a_fork : option positive;
  a_pf_open : Z;
  a_pf_read : Z;
  a_pf_pid : Z;
  a_waitpid : Z;
  a_echild : bool;
  a_wstatus : Z;
  a_kill0 : Z
}.

Record sset : Type := mk_sset {
  records : handle -> service_record;
  edges : edge_id -> service_dep;
  prop_queue : list handle;
  start_queue : list handle;
  stop_queue : list handle;
  console_queue : list handle;
  active_services : Z;
  restart_enabled : bool;
  trace : list event;
  sys : nat -> sys_answers;
  sys_pos : nat;
  out_of_fuel : bool
}.

Definition set_records (v : handle -> service_record) (s : sset) : sset :=
  mk_sset v (edges s) (prop_queue s) (start_queue s) (stop_queue s) (console_queue s)
    (active_services s) (restart_enabled s) (trace s) (sys s) (sys_pos s) (out_of_fuel s).

Definition set_edges (v : edge_id -> service_dep) (s : sset) : sset :=
  mk_sset (records s) v (prop_queue s) (start_queue s) (stop_queue s) (console_queue s)
    (active_services s) (restart_enabled s) (trace s) (sys s) (sys_pos s) (out_of_fuel s).

Definition set_prop_queue (v : list handle) (s : sset) : sset :=
  mk_sset (records s) (edges s) v (start_queue s) (stop_queue s) (console_queue s)
    (active_services s) (restart_enabled s) (trace s) (sys s) (sys_pos s) (out_of_fuel s).

Definition set_start_queue (v : list handle) (s : sset) : sset :=
  mk_sset (records s) (edges s) (prop_queue s) v (stop_queue s) (console_queue s)
    (active_services s) (restart_enabled s) (trace s) (sys s) (sys_pos s) (out_of_fuel s).

Definition set_stop_queue (v : list handle) (s : sset) : sset :=
  mk_sset (records s) (edges s) (prop_queue s) (start_queue s) v (console_queue s)
    (active_services s) (restart_enabled s) (trace s) (sys s) (sys_pos s) (out_of_fuel s).

Definition set_console_queue (v : list handle) (s : sset) : sset :=
  mk_sset (records s) (edges s) (prop_queue s) (start_queue s) (stop_queue s) v
    (active_services s) (restart_enabled s) (trace s) (sys s) (sys_pos s) (out_of_fuel s).

Definition set_active_services (v : Z) (s : sset) : sset :=
  mk_sset (records s) (edges s) (prop_queue s) (start_queue s) (stop_queue s)
    (console_queue s) v (restart_enabled s) (trace s) (sys s) (sys_pos s) (out_of_fuel s).

Definition set_restart_enabled (v : bool) (s : sset) : sset :=
  mk_sset (records s) (edges s) (prop_queue s) (start_queue s) (stop_queue s)
    (console_queue s) (active_services s) v (trace s) (sys s) (sys_pos s) (out_of_fuel s).

Definition set_trace (v : list event) (s : sset) : sset :=
  mk_sset (records s) (edges s) (prop_queue s) (start_queue s) (stop_queue s)
    (console_queue s) (active_services s) (restart_enabled s) v (sys s) (sys_pos s)
    (out_of_fuel s).

Definition set_sys_pos (v : nat) (s : sset) : sset :=
  mk_sset (records s) (edges s) (prop_queue s) (start_queue s) (stop_queue s)
    (console_queue s) (active_services s) (restart_enabled s) (trace s) (sys s) v
    (out_of_fuel s).

Definition set_out_of_fuel (v : bool) (s : sset) : sset :=
  mk_sset (records s) (edges s) (prop_queue s) (start_queue s) (stop_queue s)
    (console_queue s) (active_services s) (restart_enabled s) (trace s) (sys s) (sys_pos s)
    v.

(** ** Primitive operations on the store *)

Definition upd (h : handle) (f : service_record -> service_record) (s : sset) : sset :=
  set_records (fun h' => if Nat.eqb h' h then f (records s h') else records s h') s.

Definition upd_edge (e : edge_id) (f : service_dep -> service_dep) (s : sset) : sset :=
  set_edges (fun e' => if Nat.eqb e' e then f (edges s e') else edges s e') s.

Definition emit (e : event) (s : sset) : sset := set_trace (trace s ++ [e]) s.

(** A member function: its body between the two marks of the trace. *)
Definition call (c : call_t) (h : handle) (body : sset -> sset) (s : sset) : sset :=
  emit (Leave c h) (body (emit (Enter c h) s)).

Definition callv {A : Type} (c : call_t) (h : handle) (body : sset -> A * sset)
    (s : sset) : A * sset :=
  let r := body (emit (Enter c h) s) in (fst r, emit (Leave c h) (snd r)).

(** The answers for the next consultation of the environment. *)
Definition ask (s : sset) : sys_answers := sys s (sys_pos s).
Definition asked (s : sset) : sset := set_sys_pos (S (sys_pos s)) s.

Definition flags (s : sset) (h : handle) : onstart_flags_t := onstart_flags (cfg (records s h)).
Definition state_is (s : sset) (h : handle) (st : service_state_t) : bool :=
  state_eqb (service_state (records s h)) st.
Definition is_process_variant (t : service_type) : bool :=
  match t with PROCESS | BGPROCESS => true | _ => false end.
Definition has_process (t : service_type) : bool :=
  match t with PROCESS | BGPROCESS | SCRIPTED => true | _ => false end.
Definition str_empty (x : string) : bool :=
  match x with EmptyString => true | _ => false end.

(** *** The service set's own members ([service.h])

    Modelled from the spec: [service.h] is not under [src/]. The set keeps a
    propagate, a start, a stop and a console queue, each storing a record at
    most once; [service_active] and [service_inactive] adjust the counter of
    active records; [notifyListeners] reports a service event;
    [is_stopped] tests for STOPPED; [get_auto_restart] reads the set's
    restart switch. *)
Definition queued (h : handle) (q : list handle) : bool := existsb (Nat.eqb h) q.
Definition enqueue (h : handle) (q : list handle) : list handle :=
  if queued h q then q else q ++ [h].

Definition addToPropQueue (h : handle) (s : sset) : sset :=
  set_prop_queue (enqueue h (prop_queue s)) s.
Definition addToStartQueue (h : handle) (s : sset) : sset :=
  set_start_queue (enqueue h (start_queue s)) s.
Definition addToStopQueue (h : handle) (s : sset) : sset :=
  set_stop_queue (enqueue h (stop_queue s)) s.
Definition append_console_queue (h : handle) (s : sset) : sset :=
  set_console_queue (enqueue h (console_queue s)) s.
Definition unqueue_console (h : handle) (s : sset) : sset :=
  set_console_queue (filter (fun x => negb (Nat.eqb x h)) (console_queue s)) s.
Definition service_active (h : handle) (s : sset) : sset :=
  set_active_services (int_wrap (active_services s + 1)) s.
Definition service_inactive (h : handle) (s : sset) : sset :=
  set_active_services (int_wrap (active_services s - 1)) s.
Definition notifyListeners (h : handle) (e : service_event) (s : sset) : sset :=
  emit (Notify h e) s.
Definition is_stopped (h : handle) (s : sset) : bool := state_is s h STOPPED.
Definition get_auto_restart (s : sset) : bool := restart_enabled s.

(** Open recursion through the members of the set that call back into the
    records, and the two queries of a record that [service.h] defines per
    variant. The engine below is written against this interface;
    [engine_ops] closes it. *)
Class SetOps : Type := {
  process_queues : sset -> sset;
  pull_console_queue : sset -> sset;
  can_interrupt_start : handle -> sset -> bool;
  can_interrupt_stop : handle -> sset -> bool;
  goto_fuel : nat
}.

(** ** The engine ([src/service.cc]) *)

Definition SIGTERM : Z := 15.

Section Engine.

Context {ops : SetOps}.

Definition release_console (h : handle) (s : sset) : sset := pull_console_queue s.

Definition queue_for_console (h : handle) (s : sset) : sset := append_console_queue h s.

Definition do_auto_restart (h : handle) (s : sset) : bool :=
  if auto_restart (cfg (records s h)) then get_auto_restart s else false.

(** [service_record::require] *)
Definition require (h : handle) : sset -> sset :=
  call c_require h (fun s =>
    let old := required_by (records s h) in
    let s := upd h (set_required_by (int_wrap (old + 1))) s in
    if old =? 0 then
      let s := upd h (fun r => set_prop_require (negb (prop_release r)) r) s in
      let s := upd h (set_prop_release false) s in
      addToPropQueue h s
    else s).

(** [service_record::forceStop] *)
Definition forceStop (h : handle) : sset -> sset :=
  call c_forceStop h (fun s =>
    if negb (state_is s h STOPPED)
    then addToStopQueue h (upd h (set_force_stop true) s)
    else s).

(** [service_record::dependentStopped] *)
Definition dependentStopped (h : handle) : sset -> sset :=
  call c_dependentStopped h (fun s =>
    if state_is s h STOPPING && waiting_for_deps (records s h)
    then addToStopQueue h s
    else s).

(** [service_record::dependencyStarted] *)
Definition dependencyStarted (h : handle) : sset -> sset :=
  call c_dependencyStarted h (fun s =>
    if state_is s h STARTING && waiting_for_deps (records s h)
    then addToStartQueue h s
    else s).

(** [service_record::stopCheckDependents]: the loop leaves at the first
    dependent that is not stopped. *)
Definition stopCheckDependents (h : handle) (s : sset) : bool :=
  forallb (fun i => is_stopped i s) (dependents (cfg (records s h))).

(** [service_record::stopDependents] *)
Definition stopDependents_step (h : handle) (acc : bool * sset) (i : handle) : bool * sset :=
  let all := if negb (is_stopped i (snd acc)) then false else fst acc in
  let s := if force_stop (records (snd acc) h) then forceStop i (snd acc) else snd acc in
  let s := upd i (set_prop_stop true) s in
  (all, addToPropQueue i s).

Definition stopDependents (h : handle) : sset -> bool * sset :=
  callv c_stopDependents h (fun s =>
    fold_left (stopDependents_step h) (dependents (cfg (records s h))) (true, s)).

(** [service_record::interrupt_start] and its override in
    [base_process_service]. *)
Definition service_record_interrupt_start (h : handle) (s : sset) : sset :=
  unqueue_console h s.

Definition base_process_service_interrupt_start (h : handle) (s : sset) : sset :=
  let s := if waiting_restart_timer (records s h)
           then upd h (set_waiting_restart_timer false)
                  (upd h (set_restart_timer None) (emit (Effect fx_stop_timer h) s))
           else s in
  service_record_interrupt_start h s.

Definition interrupt_start (h : handle) : sset -> sset :=
  call c_interrupt_start h (fun s =>
    if has_process (record_type (cfg (records s h)))
    then base_process_service_interrupt_start h s
    else service_record_interrupt_start h s).

(** [service_record::do_stop] from the point where the state is set to
    STOPPING. *)
Definition do_stop_tail (h : handle) (s : sset) : sset :=
  let s := upd h (set_service_state STOPPING) s in
  let s := upd h (set_waiting_for_deps true) s in
  let r := stopDependents h s in
  if fst r then addToStopQueue h (snd r) else snd r.

(** [service_record::do_stop], with the [release] it calls as a parameter. *)
Definition do_stop_with (release_k : handle -> sset -> sset) (h : handle) : sset -> sset :=
  call c_do_stop h (fun s =>
    if pinned_started (records s h) then s else
    let explicit := start_explicit (records s h) && negb (do_auto_restart h s) in
    let s := if explicit then release_k h (upd h (set_start_explicit false) s) else s in
    if explicit && (required_by (records s h) =? 0) then s else
    if negb (state_is s h STARTED) then
      if state_is s h STARTING then
        if negb (can_interrupt_start h s) then snd (stopDependents h s)
        else do_stop_tail h (interrupt_start h (notifyListeners h ev_STARTCANCELLED s))
      else s
    else do_stop_tail h s).

(** [service_record::release], with the [do_stop] it calls as a parameter. *)
Definition release_with (do_stop_k : handle -> sset -> sset) (h : handle) : sset -> sset :=
  call c_release h (fun s =>
    let s := upd h (fun r => set_required_by (int_wrap (required_by r - 1)) r) s in
    if required_by (records s h) =? 0 then
      let s := upd h (set_desired_state STOPPED) s in
      let s := upd h (fun r => set_prop_release (negb (prop_require r)) r) s in
      let s := upd h (set_prop_require false) s in
      let s := addToPropQueue h s in
      if state_is s h STOPPED then service_inactive h s else do_stop_k h s
    else s).

(** [do_stop] and [release] call each other. [do_stop] calls [release] only
    after it has cleared [start_explicit], and [release] does not set it, so
    the [do_stop] entered from that [release] never calls [release] again:
    the mutual recursion is four calls deep at most and is written out.
    [do_stop_with_start_explicit_clear] below shows that the parameter of the
    innermost [do_stop] is never used. *)
Definition do_stop_leaf : handle -> sset -> sset :=
  do_stop_with (fun _ s => set_out_of_fuel true s).

Definition release_inner : handle -> sset -> sset := release_with do_stop_leaf.

Definition do_stop : handle -> sset -> sset := do_stop_with release_inner.

Definition release : handle -> sset -> sset := release_with do_stop.

(** [service_record::startCheckDependencies]: the loop over the hard
    dependencies, then the loop over the soft edges. Either loop can leave
    the function with [false]; the first component of the result tells
    whether it did. *)
Fixpoint check_hard_deps (start_deps : bool) (l : list handle) (all : bool) (s : sset)
    : bool * (bool * sset) :=
  match l with
  | [] => (false, (all, s))
  | i :: l' =>
      if negb (state_is s i STARTED) then
        if start_deps
        then check_hard_deps start_deps l' false
               (addToPropQueue i (upd i (set_prop_start true) s))
        else (true, (false, s))
      else check_hard_deps start_deps l' all s
  end.

Fixpoint check_soft_deps (start_deps : bool) (l : list edge_id) (all : bool) (s : sset)
    : bool * (bool * sset) :=
  match l with
  | [] => (false, (all, s))
  | e :: l' =>
      let to := dep_to (edges s e) in
      if start_deps then
        if negb (state_is s to STARTED) then
          let s := upd to (set_prop_start true) s in
          let s := addToPropQueue to s in
          let s := upd_edge e (set_waiting_on true) s in
          check_soft_deps start_deps l' false s
        else check_soft_deps start_deps l' all (upd_edge e (set_waiting_on false) s)
      else if waiting_on (edges s e) then
        if negb (state_is s to STARTING)
        then check_soft_deps start_deps l' all (upd_edge e (set_waiting_on false) s)
        else (true, (false, s))
      else check_soft_deps start_deps l' all s
  end.

Definition startCheckDependencies (h : handle) (start_deps : bool) : sset -> bool * sset :=
  callv (c_startCheckDependencies start_deps) h (fun s =>
    let c := cfg (records s h) in
    let r1 := check_hard_deps start_deps (depends_on c) true s in
    if fst r1 then snd r1 else
    let r2 := check_soft_deps start_deps (soft_deps c) (fst (snd r1)) (snd (snd r1)) in
    snd r2).

(** [service_record::start] *)
Definition start_transition (h : handle) (s : sset) : sset :=
  let s := upd h (set_service_state STARTING) s in
  let s := upd h (set_waiting_for_deps true) s in
  let r := startCheckDependencies h true s in
  if fst r then addToStartQueue h (snd r) else snd r.

Definition start (h : handle) (activate : bool) : sset -> sset :=
  call (c_start activate) h (fun s =>
    let s := if activate && negb (start_explicit (records s h))
             then upd h (set_start_explicit true) (require h s)
             else s in
    if state_eqb (desired_state (records s h)) STARTED && negb (state_is s h STOPPED)
    then s else
    let was_active := negb (state_is s h STOPPED)
                      || negb (state_eqb (desired_state (records s h)) STOPPED) in
    let s := upd h (set_desired_state STARTED) s in
    if negb (state_is s h STOPPED) then
      if negb (state_is s h STOPPING) || negb (can_interrupt_stop h s) then s
      else start_transition h (notifyListeners h ev_STOPCANCELLED s)
    else if negb was_active then start_transition h (service_active h s)
    else start_transition h s).

(** [service_record::open_socket]: the system calls in the order of the
    source; the first that fails ends the function. *)
Definition open_socket (h : handle) : sset -> bool * sset :=
  callv c_open_socket h (fun s =>
    if str_empty (socket_path (cfg (records s h))) || negb (socket_fd (records s h) =? -1)
    then (true, s) else
    let a := ask s in
    let s := asked s in
    let err := emit (Log (msg_text ERROR) h) s in
    let sockfd := a_socket a in
    if negb (a_malloc_ok a) then (false, err) else
    if sockfd =? -1 then (false, err) else
    if a_bind a =? -1 then (false, emit (Effect (fx_close sockfd) h) err) else
    if negb (a_chown a =? 0) then (false, emit (Effect (fx_close sockfd) h) err) else
    if a_chmod a =? -1 then (false, emit (Effect (fx_close sockfd) h) err) else
    if a_listen a =? -1 then (false, emit (Effect (fx_close sockfd) h) err) else
    (true, upd h (set_socket_fd sockfd) s)).

(** [service_record::failed_to_start] *)
Definition failed_to_start (h : handle) (depfailed : bool) : sset -> sset :=
  call (c_failed_to_start depfailed) h (fun s =>
    let s := if negb depfailed && starts_on_console (flags s h)
             then release_console h (emit (Effect fx_tcsetpgrp h) s)
             else s in
    let s := emit (Log msg_service_failed h) s in
    let s := upd h (set_service_state STOPPED) s in
    let s := if start_explicit (records s h)
             then release h (upd h (set_start_explicit false) s)
             else s in
    let s := notifyListeners h ev_FAILEDSTART s in
    let s := fold_left (fun s i =>
                 if state_is s i STARTING
                 then addToPropQueue i (upd i (set_prop_failure true) s)
                 else s)
               (dependents (cfg (records s h))) s in
    fold_left (fun s e =>
        if waiting_on (edges s e) then
          let s := upd_edge e (set_holding_acq false) s in
          let s := upd_edge e (set_waiting_on false) s in
          let s := dependencyStarted (dep_from (edges s e)) s in
          release h s
        else s)
      (soft_dpts (cfg (records s h))) s).

(** [service_record::started] *)
Definition started (h : handle) : sset -> sset :=
  call c_started h (fun s =>
    let s := if starts_on_console (flags s h) && negb (runs_on_console (flags s h))
             then release_console h (emit (Effect fx_tcsetpgrp h) s)
             else s in
    let s := emit (Log msg_service_started h) s in
    let s := upd h (set_service_state STARTED) s in
    let s := notifyListeners h ev_STARTED s in
    let s := if rw_ready (flags s h) then emit (Effect fx_open_control_socket h) s else s in
    let s := if log_ready (flags s h) then emit (Effect fx_setup_external_log h) s else s in
    if force_stop (records s h) || state_eqb (desired_state (records s h)) STOPPED
    then do_stop h s else
    let s := fold_left (fun s i => dependencyStarted i s) (dependents (cfg (records s h))) s in
    fold_left (fun s e => dependencyStarted (dep_from (edges s e)) s)
      (soft_dpts (cfg (records s h))) s).

(** [service_record::stopped] *)
Definition stopped (h : handle) : sset -> sset :=
  call c_stopped h (fun s =>
    let s := if runs_on_console (flags s h)
             then release_console h
                    (emit (Effect fx_discard_console_log_buffer h)
                       (emit (Effect fx_tcsetpgrp h) s))
             else s in
    let s := upd h (set_force_stop false) s in
    let s := fold_left (fun s e =>
                 if holding_acq (edges s e)
                 then release h (upd_edge e (set_holding_acq false) s)
                 else s)
               (soft_dpts (cfg (records s h))) s in
    let will_restart := state_eqb (desired_state (records s h)) STARTED
                        && get_auto_restart s in
    let s := fold_left (fun s d => dependentStopped d s) (depends_on (cfg (records s h))) s in
    let s := upd h (set_service_state STOPPED) s in
    let s :=
      if will_restart then start h false (upd h (set_restarting true) s)
      else
        let s := if negb (socket_fd (records s h) =? -1)
                 then upd h (set_socket_fd (-1))
                        (emit (Effect (fx_close (socket_fd (records s h))) h) s)
                 else s in
        if start_explicit (records s h)
        then release h (upd h (set_start_explicit false) s)
        else if required_by (records s h) =? 0 then service_inactive h s
        else s in
    let s := emit (Log msg_service_stopped h) s in
    notifyListeners h ev_STOPPED s).

(** [service_record::emergency_stop] *)
Definition emergency_stop (h : handle) : sset -> sset :=
  call c_emergency_stop h (fun s =>
    let s := if negb (do_auto_restart h s) && start_explicit (records s h)
             then release h (upd h (set_start_explicit false) s)
             else s in
    let s := forceStop h s in
    let s := snd (stopDependents h s) in
    stopped h s).

(** [base_process_service::start_ps_process(cmd, on_console)], on the side of
    the daemon: the exec-status pipe, the optional control socket pair, the
    watch on the pipe and the fork. *)
Definition start_ps_process_cmd (h : handle) (on_console : bool) : sset -> bool * sset :=
  callv (c_start_ps_process_cmd on_console) h (fun s =>
    let a := ask s in
    let s := asked s in
    let s := upd h (set_last_start_time (a_now a)) s in
    let err := emit (Log (msg_text ERROR) h) s in
    if negb (a_pipe2 a =? 0) then (false, err) else
    if pass_cs_fd (flags s h) && negb (a_socketpair a =? 0) then (false, err) else
    if pass_cs_fd (flags s h) && negb (a_conn_ok a) then (false, err) else
    match a_fork a with
    | None => (false, err)
    | Some child =>
        let s := upd h (set_pid (Z.pos child)) s in
        (true, upd h (set_waiting_for_execstat true) s)
    end).

(** [base_process_service::do_restart] *)
Definition do_restart (h : handle) : sset -> sset :=
  call c_do_restart h (fun s =>
    let s := upd h (set_restarting false) s in
    let s := upd h (set_waiting_restart_timer false) s in
    let s := upd h (fun r =>
               set_restart_interval_count (int_wrap (restart_interval_count r + 1)) r) s in
    let on_console := if state_is s h STARTING
                      then starts_on_console (flags s h)
                      else runs_on_console (flags s h) in
    let r := start_ps_process_cmd h on_console s in
    if negb (fst r) then
      let s := snd r in
      let s := if state_is s h STARTING then failed_to_start h false s
               else forceStop h (upd h (set_desired_state STOPPED) s) in
      process_queues s
    else snd r).

(** [base_process_service::restart_ps_process] *)
Definition restart_ps_process (h : handle) : sset -> bool * sset :=
  callv c_restart_ps_process h (fun s =>
    let current_time := a_now (ask s) in
    let s := asked s in
    let c := cfg (records s h) in
    let limited := negb (max_restart_interval_count c =? 0) in
    let int_diff := time_sub current_time (restart_interval_time (records s h)) in
    let in_interval := time_lt int_diff (restart_interval c) in
    if limited && in_interval
       && (max_restart_interval_count c <=? restart_interval_count (records s h))
    then (false, emit (Log (msg_text ERROR) h) s) else
    let s := if limited && negb in_interval
             then upd h (set_restart_interval_count 0)
                    (upd h (set_restart_interval_time current_time) s)
             else s in
    let tdiff := time_sub current_time (last_start_time (records s h)) in
    if time_lt (restart_delay c) tdiff then (true, do_restart h s) else
    let timeout := time_sub (restart_delay c) tdiff in
    let s := emit (Effect (fx_arm_timer timeout) h) s in
    let s := upd h (set_restart_timer (Some timeout)) s in
    (true, upd h (set_waiting_restart_timer true) s)).

(** [process_restart_timer::timer_expiry] *)
Definition timer_expiry (h : handle) : sset -> sset :=
  call c_timer_expiry h (fun s => upd h (set_restart_timer None) (do_restart h s)).

(** [start_ps_process()] is virtual: [service_record] has no process and is
    started at once; [base_process_service] launches or relaunches. *)
Definition service_record_start_ps_process (h : handle) (s : sset) : bool * sset :=
  (true, started h s).

Definition base_process_service_start_ps_process (h : handle) (s : sset) : bool * sset :=
  if restarting (records s h) then restart_ps_process h s else
  let a := ask s in
  let s := asked s in
  let s := upd h (set_restart_interval_time (a_now a)) s in
  let s := upd h (set_restart_interval_count 0) s in
  start_ps_process_cmd h (starts_on_console (flags s h)) s.

Definition start_ps_process (h : handle) : sset -> bool * sset :=
  callv c_start_ps_process h (fun s =>
    if has_process (record_type (cfg (records s h)))
    then base_process_service_start_ps_process h s
    else service_record_start_ps_process h s).

(** [service_record::allDepsStarted] *)
Definition allDepsStarted (h : handle) (has_console : bool) : sset -> sset :=
  call (c_allDepsStarted has_console) h (fun s =>
    if starts_on_console (flags s h) && negb has_console
    then queue_for_console h (upd h (set_waiting_for_deps true) s) else
    let s := upd h (set_waiting_for_deps false) s in
    if can_interrupt_start h s then upd h (set_waiting_for_deps true) s else
    let r := open_socket h s in
    let s := if negb (fst r) then failed_to_start h false (snd r) else snd r in
    let r := start_ps_process h s in
    if negb (fst r) then failed_to_start h false (snd r) else snd r).

(** [service_record::acquiredConsole] *)
Definition acquiredConsole (h : handle) : sset -> sset :=
  call c_acquiredConsole h (fun s =>
    if negb (state_is s h STARTING) then release_console h s else
    let r := startCheckDependencies h false s in
    if fst r then allDepsStarted h true (snd r)
    else release_console h (snd r)).

(** [all_deps_stopped] is virtual, with three bodies. *)
Definition service_record_all_deps_stopped (h : handle) (s : sset) : sset :=
  stopped h (upd h (set_waiting_for_deps false) s).

Definition base_process_service_all_deps_stopped (h : handle) (s : sset) : sset :=
  let s := upd h (set_waiting_for_deps false) s in
  let p := pid (records s h) in
  if negb (p =? -1) then
    let s := if negb (no_sigterm (flags s h))
             then emit (Effect (fx_kill (- p) SIGTERM) h) s else s in
    let sig := term_signal (cfg (records s h)) in
    let s := if negb (sig =? -1) then emit (Effect (fx_kill (- p) sig) h) s else s in
    if type_eqb (record_type (cfg (records s h))) BGPROCESS then
      let a := ask s in
      let s := asked s in
      if (a_waitpid a =? -1) && a_echild a then stopped h s
      else if a_waitpid a =? p then stopped h s
      else s
    else s
  else stopped h s.

Definition scripted_service_all_deps_stopped (h : handle) (s : sset) : sset :=
  let s := upd h (set_waiting_for_deps false) s in
  if str_empty (stop_command (cfg (records s h))) then stopped h s else
  let r := start_ps_process_cmd h false s in
  if negb (fst r) then stopped h (snd r) else snd r.

Definition all_deps_stopped (h : handle) : sset -> sset :=
  call c_all_deps_stopped h (fun s =>
    match record_type (cfg (records s h)) with
    | SCRIPTED => scripted_service_all_deps_stopped h s
    | PROCESS | BGPROCESS => base_process_service_all_deps_stopped h s
    | _ => service_record_all_deps_stopped h s
    end).

(** [service_record::execute_transition] *)
Definition execute_transition (h : handle) : sset -> sset :=
  call c_execute_transition h (fun s =>
    if state_is s h STARTING then
      let r := startCheckDependencies h false s in
      if fst r then allDepsStarted h false (snd r) else snd r
    else if state_is s h STOPPING then
      if stopCheckDependents h s then all_deps_stopped h s else s
    else s).

(** [service_record::release_dependencies] *)
Definition release_dependencies (h : handle) : sset -> sset :=
  call c_release_dependencies h (fun s =>
    let s := fold_left (fun s i => release i s) (depends_on (cfg (records s h))) s in
    fold_left (fun s e =>
        let to := dep_to (edges s e) in
        if holding_acq (edges s e)
        then upd_edge e (set_holding_acq false) (release to s)
        else s)
      (soft_deps (cfg (records s h))) s).

(** [service_record::do_propagation], one sticky bit after the other. *)
Definition propagate_require (h : handle) (s : sset) : sset :=
  if prop_require (records s h) then
    let s := fold_left (fun s i => require i s) (depends_on (cfg (records s h))) s in
    let s := fold_left (fun s e =>
                 let to := dep_to (edges s e) in
                 upd_edge e (set_holding_acq true) (require to s))
               (soft_deps (cfg (records s h))) s in
    upd h (set_prop_require false) s
  else s.

Definition propagate_release (h : handle) (s : sset) : sset :=
  if prop_release (records s h)
  then upd h (set_prop_release false) (release_dependencies h s)
  else s.

Definition propagate_failure (h : handle) (s : sset) : sset :=
  if prop_failure (records s h)
  then failed_to_start h true (upd h (set_prop_failure false) s)
  else s.

Definition propagate_start (h : handle) (s : sset) : sset :=
  if prop_start (records s h)
  then start h false (upd h (set_prop_start false) s)
  else s.

Definition propagate_stop (h : handle) (s : sset) : sset :=
  if prop_stop (records s h)
  then do_stop h (upd h (set_prop_stop false) s)
  else s.

Definition do_propagation (h : handle) : sset -> sset :=
  call c_do_propagation h (fun s =>
    let s := propagate_require h s in
    let s := propagate_release h s in
    let s := propagate_failure h s in
    let s := propagate_start h s in
    propagate_stop h s).

(** [service_record::do_start] *)
Definition do_start (h : handle) : sset -> sset :=
  call c_do_start h (fun s =>
    if pinned_stopped (records s h) then s else
    if negb (state_is s h STARTING) then s else
    let s := upd h (set_service_state STARTING) s in
    let s := upd h (set_waiting_for_deps true) s in
    let r := startCheckDependencies h false s in
    if fst r then allDepsStarted h false (snd r) else snd r).

(** [service_record::stop] *)
Definition stop (h : handle) (bring_down : bool) : sset -> sset :=
  call (c_stop bring_down) h (fun s =>
    let s := if start_explicit (records s h)
             then release h (upd h (set_start_explicit false) s)
             else s in
    if bring_down then do_stop h s else s).

(** [service_set::stopService], once the record is found. *)
Definition stopService (h : handle) (s : sset) : sset :=
  process_queues (stop h true s).

(** [service_record::unpin] *)
Definition unpin (h : handle) : sset -> sset :=
  call c_unpin h (fun s =>
    let s := if pinned_started (records s h) then
               let s := upd h (set_pinned_started false) s in
               if state_eqb (desired_state (records s h)) STOPPED
               then process_queues (do_stop h s) else s
             else s in
    if pinned_stopped (records s h) then
      let s := upd h (set_pinned_stopped false) s in
      if state_eqb (desired_state (records s h)) STARTED
      then process_queues (do_start h s) else s
    else s).

(** [bgproc_service::read_pid_file]: the result, the exit status that
    [waitpid] may have stored through the pointer, and the new state. *)
Definition read_pid_file (h : handle) (exit_status : Z)
    : sset -> (pid_result_t * Z) * sset :=
  callv c_read_pid_file h (fun s =>
    let a := ask s in
    let s := asked s in
    let err := emit (Log (msg_text ERROR) h) s in
    if a_pf_open a =? -1 then ((pr_FAILED, exit_status), err) else
    if a_pf_read a <? 0 then ((pr_FAILED, exit_status), err) else
    let p := a_pf_pid a in
    let s := upd h (set_pid p) s in
    let wait_r := a_waitpid a in
    if (wait_r =? -1) && a_echild a then
      if a_kill0 a =? 0
      then ((pr_OK, exit_status), upd h (set_tracking_child false) s)
      else ((pr_FAILED, exit_status),
            upd h (set_pid (-1)) (emit (Log (msg_text ERROR) h) s))
    else if wait_r =? p then
      ((pr_TERMINATED, a_wstatus a), upd h (set_pid (-1)) s)
    else if wait_r =? 0 then
      ((pr_OK, exit_status),
       upd h (set_tracking_child true) (emit (Effect (fx_add_child_watch p) h) s))
    else ((pr_FAILED, exit_status),
          upd h (set_pid (-1)) (emit (Log (msg_text ERROR) h) s))).

(** The error line that [process_service] and [bgproc_service] log for an
    exit they did not ask for. *)
Definition log_unexpected_exit (h : handle) (exit_status : Z) (s : sset) : sset :=
  if negb (exit_status =? 0) && negb (state_is s h STOPPING) then
    if WIFEXITED exit_status then emit (Log (msg_text ERROR) h) s
    else if WIFSIGNALED exit_status then emit (Log (msg_text ERROR) h) s
    else s
  else s.

(** [process_service::handle_exit_status] *)
Definition process_service_handle_exit_status (h : handle) (exit_status : Z) (s : sset)
    : sset :=
  let did_exit := WIFEXITED exit_status in
  let s := log_unexpected_exit h exit_status s in
  if state_is s h STARTING then
    if did_exit && (WEXITSTATUS exit_status =? 0)
    then process_queues (started h s)
    else process_queues (failed_to_start h false s)
  else if state_is s h STOPPING then process_queues (stopped h s)
  else if smooth_recovery (cfg (records s h)) && state_is s h STARTED
          && state_eqb (desired_state (records s h)) STARTED then
    let r := restart_ps_process h s in
    if negb (fst r) then process_queues (emergency_stop h (snd r)) else snd r
  else process_queues (emergency_stop h s).

(** [bgproc_service::handle_exit_status]: one pass from the label [begin];
    [again] stands for [goto begin]. *)
Definition bgproc_service_pass (again : Z -> sset -> sset) (h : handle) (exit_status : Z)
    (s : sset) : sset :=
  let did_exit := WIFEXITED exit_status in
  let was_signalled := WIFSIGNALED exit_status in
  let s := log_unexpected_exit h exit_status s in
  if doing_recovery (records s h) then
    let s := upd h (set_doing_recovery false) s in
    if (did_exit && negb (WEXITSTATUS exit_status =? 0)) || was_signalled
    then process_queues (emergency_stop h s)
    else if negb (str_empty (pid_file (cfg (records s h)))) then
      let r := read_pid_file h exit_status s in
      match fst (fst r) with
      | pr_FAILED => process_queues (emergency_stop h (snd r))
      | pr_TERMINATED => again (snd (fst r)) (snd r)
      | pr_OK => snd r
      end
    else s
  else if state_is s h STARTING then
    if exit_status =? 0 then
      let r := read_pid_file h exit_status s in
      match fst (fst r) with
      | pr_FAILED => process_queues (failed_to_start h false (snd r))
      | pr_TERMINATED => again (snd (fst r)) (started h (snd r))
      | pr_OK => process_queues (started h (snd r))
      end
    else process_queues (failed_to_start h false s)
  else if state_is s h STOPPING then process_queues (stopped h s)
  else if smooth_recovery (cfg (records s h)) && state_is s h STARTED
          && state_eqb (desired_state (records s h)) STARTED then
    let s := upd h (set_doing_recovery true) s in
    let r := restart_ps_process h s in
    if negb (fst r) then process_queues (emergency_stop h (snd r)) else snd r
  else
    let s := if negb (do_auto_restart h s) && start_explicit (records s h)
             then release h (upd h (set_start_explicit false) s)
             else s in
    let s := forceStop h s in
    let s := snd (stopDependents h s) in
    process_queues (stopped h s).

Fixpoint bgproc_service_loop (n : nat) (h : handle) (exit_status : Z) (s : sset) : sset :=
  bgproc_service_pass
    (match n with
     | O => fun _ s => set_out_of_fuel true s
     | S n' => bgproc_service_loop n' h
     end) h exit_status s.

Definition bgproc_service_handle_exit_status (h : handle) (exit_status : Z) (s : sset)
    : sset :=
  bgproc_service_loop goto_fuel h exit_status s.

(** [scripted_service::handle_exit_status] *)
Definition scripted_service_handle_exit_status (h : handle) (exit_status : Z) (s : sset)
    : sset :=
  let did_exit := WIFEXITED exit_status in
  let was_signalled := WIFSIGNALED exit_status in
  if state_is s h STOPPING then
    let s := if did_exit && (WEXITSTATUS exit_status =? 0) then stopped h s else
             let s := if did_exit then emit (Log (msg_text INFO) h) s
                      else if was_signalled then emit (Log (msg_text INFO) h) s
                      else s in
             stopped h s in
    process_queues s
  else
    let s := if exit_status =? 0 then started h s else
             let s := if did_exit then emit (Log (msg_text ERROR) h) s
                      else if was_signalled then emit (Log (msg_text ERROR) h) s
                      else s in
             failed_to_start h false s in
    process_queues s.

(** [handle_exit_status] is virtual in [base_process_service]; a record
    without a process has no such member and no watcher that calls it. *)
Definition handle_exit_status (h : handle) (exit_status : Z) : sset -> sset :=
  call (c_handle_exit_status exit_status) h (fun s =>
    match record_type (cfg (records s h)) with
    | PROCESS => process_service_handle_exit_status h exit_status s
    | BGPROCESS => bgproc_service_handle_exit_status h exit_status s
    | SCRIPTED => scripted_service_handle_exit_status h exit_status s
    | _ => s
    end).

(** [exec_status_pipe_watcher::fd_event]: [r] is what [read] returned on the
    exec-status pipe. When [exec()] succeeded, a PROCESS service that is
    STARTING is started first, and only then is [pid] tested. *)
Definition fd_event_started (h : handle) (s : sset) : sset :=
  if type_eqb (record_type (cfg (records s h))) PROCESS
  then if state_is s h STARTING then started h s else s
  else s.

Definition fd_event (h : handle) (r : Z) : sset -> sset :=
  call c_fd_event h (fun s =>
    let s := upd h (set_waiting_for_execstat false) s in
    let s :=
      if 0 <? r then
        let p := pid (records s h) in
        let s := if negb (p =? -1) then emit (Effect (fx_deregister_child p) h) s else s in
        let s := upd h (set_pid (-1)) s in
        let s := emit (Log (msg_text ERROR) h) s in
        if state_is s h STARTING then failed_to_start h false s
        else if state_is s h STOPPING then stopped h s
        else s
      else
        let s := fd_event_started h s in
        if pid (records s h) =? -1
        then handle_exit_status h (exit_status (records s h)) s
        else s in
    process_queues s).

(** The state in which [fd_event] tests [pid] when [exec()] succeeded. *)
Definition fd_event_pid_test (h : handle) (s : sset) : sset :=
  fd_event_started h (upd h (set_waiting_for_execstat false) (emit (Enter c_fd_event h) s)).

(** [service_child_watcher::status_change] *)
Definition status_change (h : handle) (child : Z) (status : Z) : sset -> sset :=
  call (c_status_change status) h (fun s =>
    let s := upd h (set_pid (-1)) s in
    let s := upd h (set_exit_status status) s in
    if waiting_for_execstat (records s h) then s else
    handle_exit_status h status (emit (Effect (fx_deregister_child child) h) s)).

(** *** The members of the set that call back into the records

    Modelled from the spec: [service_set::process_queues] and
    [service_set::pull_console_queue] are in [service.h], not under [src/].
    A tick drains the propagate queue through [do_propagation], then the
    start queue and then the stop queue through [execute_transition], and is
    repeated until no queue holds work; releasing the console pops the head of
    the console queue and runs its [acquiredConsole]. The loops are bounded
    by [n]; running out of it raises [out_of_fuel]. *)
Fixpoint drain_queue (n : nat) (q : sset -> list handle)
    (setq : list handle -> sset -> sset) (run : handle -> sset -> sset) (s : sset) : sset :=
  match q s with
  | [] => s
  | h :: rest =>
      match n with
      | O => set_out_of_fuel true s
      | S n' => drain_queue n' q setq run (run h (setq rest s))
      end
  end.

Definition queues_empty (s : sset) : bool :=
  match prop_queue s, start_queue s, stop_queue s with
  | [], [], [] => true
  | _, _, _ => false
  end.

Fixpoint tick_loop (n : nat) (fuel : nat) (s : sset) : sset :=
  if queues_empty s then s else
  match n with
  | O => set_out_of_fuel true s
  | S n' =>
      let s := drain_queue fuel prop_queue set_prop_queue do_propagation s in
      let s := drain_queue fuel start_queue set_start_queue execute_transition s in
      let s := drain_queue fuel stop_queue set_stop_queue execute_transition s in
      tick_loop n' fuel s
  end.

Definition process_queues_impl (fuel : nat) : sset -> sset :=
  call c_process_queues O (tick_loop fuel fuel).

Definition pull_console_queue_impl : sset -> sset :=
  call c_pull_console_queue O (fun s =>
    match console_queue s with
    | [] => s
    | h :: rest => acquiredConsole h (set_console_queue rest s)
    end).

End Engine.

(** The closed engine: [engine_ops n] runs nested queue processing to depth
    [n]. What [service.h] answers for [can_interrupt_start] and
    [can_interrupt_stop] is a parameter of the closure. *)
Fixpoint engine_ops (cis cip : handle -> sset -> bool) (n : nat) : SetOps :=
  match n with
  | O => {| process_queues :=
              call c_process_queues O (fun s =>
                if queues_empty s then s else set_out_of_fuel true s);
            pull_console_queue :=
              call c_pull_console_queue O (fun s =>
                match console_queue s with [] => s | _ => set_out_of_fuel true s end);
            can_interrupt_start := cis;
            can_interrupt_stop := cip;
            goto_fuel := O |}
  | S n' =>
      let inner := engine_ops cis cip n' in
      {| process_queues := @process_queues_impl inner (S n');
         pull_console_queue := @pull_console_queue_impl inner;
         can_interrupt_start := cis;
         can_interrupt_stop := cip;
         goto_fuel := S n' |}
  end.

(** Modelled from the spec: a start is cancellable only by a process variant
    that waits on its restart timer. *)
Definition can_interrupt_start_spec (h : handle) (s : sset) : bool :=
  has_process (record_type (cfg (records s h))) && waiting_restart_timer (records s h).

(** * The control utility ([src/dinitctl.cc])

    Conventions of this part:
    - a C++ function [int f(...)] that reads and writes the control socket
      becomes [f : ... -> ctl Z], a computation over the [client] state that
      returns, throws one of the protocol exceptions, hangs in a loop that
      the daemon never lets end, or is terminated by an exception of the
      standard library that nothing in the utility catches;
    - a [char] buffer is the list of its cells, [None] for a cell that was
      never written; reading it beyond its end gives [None] as well, and every
      [write_all] is recorded with the size of the buffer it was given;
    - a [handle_t] is kept as its object representation, [sizeof_handle]
      bytes: the utility only copies it and compares it;
    - what the utility prints is kept, in order, in [console]. *)

Inductive command_t : Type :=
  | NONE | START_SERVICE | WAKE_SERVICE | STOP_SERVICE | RELEASE_SERVICE
  | UNPIN_SERVICE | UNLOAD_SERVICE | LIST_SERVICES | SHUTDOWN.

Definition command_eqb (a b : command_t) : bool :=
  match a, b with
  | NONE, NONE | START_SERVICE, START_SERVICE | WAKE_SERVICE, WAKE_SERVICE
  | STOP_SERVICE, STOP_SERVICE | RELEASE_SERVICE, RELEASE_SERVICE
  | UNPIN_SERVICE, UNPIN_SERVICE | UNLOAD_SERVICE, UNLOAD_SERVICE
  | LIST_SERVICES, LIST_SERVICES | SHUTDOWN, SHUTDOWN => true
  | _, _ => false
  end.

(** The exceptions of [dinit-client.h] that [main] catches, and
    [std::bad_alloc], which it does not. *)
Inductive cp_exception : Type :=
  | cp_old_client_exception
  | cp_old_server_exception
  | cp_read_exception (errcode : Z)
  | cp_write_exception (errcode : Z)
  | std_bad_alloc.

Inductive ctl_msg : Type :=
  | cout (line : string)
  | cerr (line : string)
  | perror (prefix : string).

Definition handle_t := list Z.

Definition char_buf := list (option Z).

(** One call of [write_all]: the size of the buffer passed, the length asked
    for, and the cells read. *)
Record write_call : Type := mk_write_call {
  wc_alloc : nat;
  wc_len : nat;
  wc_data : list (option Z)
}.

Definition in_bounds (w : write_call) : bool := (wc_len w <=? wc_alloc w)%nat.

(** What the library of [dinit-client.h] and [cpbuffer.h] works on: the read
    buffer, and the bytes the daemon has sent or will send with what [read]
    answers when they are used up (0: closed, -1: error). *)
Record link : Type := mk_link {
  rbuffer : list Z;
  incoming : list Z;
  read_end : Z
}.

Record client : Type := mk_client {
  env_HOME : option string;
  env_pw_dir : option string;
  socket_answer : Z;
  malloc_answer : bool;
  connect_answer : Z;
  alloc_answers : nat -> bool;
  write_answers : nat -> Z;
  allocs : nat;
  lnk : link;
  sent : list write_call;
  console : list ctl_msg
}.

Definition set_allocs (n : nat) (c : client) : client :=
  mk_client (env_HOME c) (env_pw_dir c) (socket_answer c) (malloc_answer c)
    (connect_answer c) (alloc_answers c) (write_answers c) n (lnk c) (sent c) (console c).

Definition set_lnk (l : link) (c : client) : client :=
  mk_client (env_HOME c) (env_pw_dir c) (socket_answer c) (malloc_answer c)
    (connect_answer c) (alloc_answers c) (write_answers c) (allocs c) l (sent c) (console c).

Definition set_sent (w : list write_call) (c : client) : client :=
  mk_client (env_HOME c) (env_pw_dir c) (socket_answer c) (malloc_answer c)
    (connect_answer c) (alloc_answers c) (write_answers c) (allocs c) (lnk c) w (console c).

Definition set_console (m : list ctl_msg) (c : client) : client :=
  mk_client (env_HOME c) (env_pw_dir c) (socket_answer c) (malloc_answer c)
    (connect_answer c) (alloc_answers c) (write_answers c) (allocs c) (lnk c) (sent c) m.

(** ** Computations of the utility *)

(** [Terminated]: [std::length_error] was thrown. No handler of the utility
    names it, or a base of it, so wherever it is thrown [std::terminate] ends
    the process. *)
Inductive outcome (A : Type) : Type :=
  | Returned (a : A) (c : client)
  | Thrown (e : cp_exception) (c : client)
  | Hung (c : client)
  | Terminated (c : client).

Arguments Returned {A} a c.
Arguments Thrown {A} e c.
Arguments Hung {A} c.
Arguments Terminated {A} c.

Definition ctl (A : Type) : Type := client -> outcome A.

Definition ret {A : Type} (a : A) : ctl A := fun c => Returned a c.

Definition bind {A B : Type} (m : ctl A) (k : A -> ctl B) : ctl B :=
  fun c =>
    match m c with
    | Returned a c' => k a c'
    | Thrown e c' => Thrown e c'
    | Hung c' => Hung c'
    | Terminated c' => Terminated c'
    end.

Definition final {A : Type} (o : outcome A) : client :=
  match o with
  | Returned _ c | Thrown _ c | Hung c | Terminated c => c
  end.

Declare Scope ctl_scope.
Delimit Scope ctl_scope with ctl.
Notation "x <- m ;; k" := (bind m (fun x => k))
  (at level 61, m at next level, right associativity) : ctl_scope.
Notation "m ;;; k" := (bind m (fun _ => k))
  (at level 61, right associativity) : ctl_scope.

Definition say (m : ctl_msg) : ctl unit :=
  fun c => Returned tt (set_console (console c ++ [m]) c).

Definition say_if (b : bool) (m : ctl_msg) : ctl unit :=
  if b then say m else ret tt.

(** A library call that works on the link only. *)
Definition on_link (f : link -> cp_exception + link) : ctl unit :=
  fun c =>
    match f (lnk c) with
    | inl e => Thrown e c
    | inr l => Returned tt (set_lnk l c)
    end.

(** [try { m } catch (cp_read_exception &) { }] *)
Definition catch_read (m : ctl unit) : ctl unit :=
  fun c =>
    match m c with
    | Thrown (cp_read_exception _) c' => Returned tt c'
    | o => o
    end.

(** ** Character buffers *)

(** [new char[n]]: the allocation succeeds as the environment says. *)
Definition new_chars (n : nat) : ctl char_buf :=
  fun c =>
    let c' := set_allocs (S (allocs c)) c in
    if alloc_answers c (allocs c) then Returned (repeat None n) c'
    else Thrown std_bad_alloc c'.

Fixpoint poke (i : nat) (v : Z) (buf : char_buf) : char_buf :=
  match buf, i with
  | [], _ => []
  | _ :: rest, O => Some v :: rest
  | x :: rest, S i' => x :: poke i' v rest
  end.

(** [memcpy(buf + off, src, length src)] *)
Fixpoint memcpy (off : nat) (src : list Z) (buf : char_buf) : char_buf :=
  match src with
  | [] => buf
  | b :: rest => memcpy (S off) rest (poke off b buf)
  end.

Definition read_chars (buf : char_buf) (len : nat) : list (option Z) :=
  map (fun i => nth i buf None) (seq 0 len).

(** [write_all(socknum, buf, len)] is declared in [dinit-client.h]: the call
    is recorded and its result (-1 on failure) is the environment's. *)
Definition write_all (buf : char_buf) (len : nat) : ctl Z :=
  fun c =>
    Returned (write_answers c (length (sent c)))
      (set_sent (sent c ++ [mk_write_call (length buf) len (read_chars buf len)]) c).

(** ** The read buffer ([cpbuffer_t]) *)

(** [rbuffer[i]], a [char]. *)
Definition rb_at (i : nat) (c : client) : Z := nth i (rbuffer (lnk c)) 0.

(** [rbuffer.extract(dest, index, length)] *)
Definition rb_extract (index len : nat) (c : client) : list Z :=
  firstn len (skipn index (rbuffer (lnk c))).

(** [rbuffer.consume(n)]; consuming more than the buffer holds empties it. *)
Definition rb_consume (n : nat) : ctl unit :=
  fun c =>
    Returned tt
      (set_lnk (mk_link (skipn n (rbuffer (lnk c))) (incoming (lnk c)) (read_end (lnk c))) c).

Definition unsigned_char (x : Z) : Z := x mod 256.

(** The two bytes of a [uint16_t], low byte first. *)
Definition uint16_bytes (n : Z) : list Z := [n mod 256; (n / 256) mod 256].

Definition chars_of (s : string) : list Z :=
  map (fun a => Z.of_nat (Ascii.nat_of_ascii a)) (list_ascii_of_string s).

Definition string_of_chars (l : list Z) : string :=
  string_of_list_ascii (map (fun b => Ascii.ascii_of_nat (Z.to_nat (b mod 256))) l).

(** ** What the absent headers provide

    [control-cmds.h] (the command, reply and information bytes),
    [service-constants.h] (the values of the enumerators, [sizeof(handle_t)]
    with it), [dinit-client.h] and [cpbuffer.h] are not under [src/]. The
    utility is written against them, and so is the model: the bytes are the
    protocol's choice, and of the library functions only the signature is
    used. *)
Class ClientLib : Type := {
  DINIT_CP_FINDSERVICE : Z;
  DINIT_CP_LOADSERVICE : Z;
  DINIT_CP_STARTSERVICE : Z;
  DINIT_CP_STOPSERVICE : Z;
  DINIT_CP_WAKESERVICE : Z;
  DINIT_CP_RELEASESERVICE : Z;
  DINIT_CP_UNPINSERVICE : Z;
  DINIT_CP_UNLOADSERVICE : Z;
  DINIT_CP_LISTSERVICES : Z;
  DINIT_CP_SHUTDOWN : Z;
  DINIT_RP_ACK : Z;
  DINIT_RP_NAK : Z;
  DINIT_RP_SERVICERECORD : Z;
  DINIT_RP_NOSERVICE : Z;
  DINIT_RP_ALREADYSS : Z;
  DINIT_RP_SVCINFO : Z;
  DINIT_RP_LISTDONE : Z;
  DINIT_IP_SERVICEEVENT : Z;
  DINIT_ROLLBACK_COMPLETED : Z;
  shutdown_type_HALT : Z;
  state_code : service_state_t -> Z;
  event_code : service_event -> Z;
  sizeof_handle : nat;
  check_protocol_version : Z -> Z -> link -> cp_exception + link;
  wait_for_reply : link -> cp_exception + link;
  wait_for_info : link -> cp_exception + link;
  fill_buffer_to : Z -> link -> cp_exception + link;
  fill_to : Z -> link -> Z * link
}.

(** [rbuffer.fill_to(socknum, n)] returns what the last [read] returned. *)
Definition rb_fill_to {lib : ClientLib} (n : Z) : ctl Z :=
  fun c => let '(r, l) := fill_to n (lnk c) in Returned r (set_lnk l c).

Section Dinitctl.
Context {lib : ClientLib}.
Local Open Scope ctl_scope.

Definition peek (i : nat) : ctl Z := fun c => Returned (rb_at i c) c.

Definition extract (index len : nat) : ctl (list Z) :=
  fun c => Returned (rb_extract index len c) c.

(** [try { m } catch (std::bad_alloc &) { ... }]: [None] when the handler is
    to run. *)
Definition try_alloc {A : Type} (m : ctl A) : ctl (option A) :=
  fun c =>
    match m c with
    | Returned a c' => Returned (Some a) c'
    | Thrown std_bad_alloc c' => Returned None c'
    | Thrown e c' => Thrown e c'
    | Hung c' => Hung c'
    | Terminated c' => Terminated c'
    end.

Definition describeState (stopped : bool) : string :=
  if stopped then "stopped"%string else "started"%string.

Definition describeVerb (stop : bool) : string :=
  if stop then "stop"%string else "start"%string.

(** [issue_load_service]: returns 1 on failure, 0 on success. *)
Definition issue_load_service (service_name : string) (find_only : bool) : ctl Z :=
  let sname_len := Z.of_nat (String.length service_name) mod 65536 in
  let bufsize := Z.to_nat (3 + sname_len) in
  tried <- try_alloc (
    buf <- new_chars bufsize ;;
    let buf := poke 0 (if find_only then DINIT_CP_FINDSERVICE else DINIT_CP_LOADSERVICE) buf in
    let buf := memcpy 1 (uint16_bytes sname_len) buf in
    let buf := memcpy 3 (firstn (Z.to_nat sname_len) (chars_of service_name)) buf in
    write_all buf bufsize) ;;
  match tried with
  | None => say (cerr "dinitctl: std::bad_alloc") ;;; ret 1
  | Some r =>
      if r =? -1 then say (perror "dinitctl: write") ;;; ret 1
      else ret 0
  end.

(** [check_load_reply]: the handle and, when [state_p] is not null, the state
    are stored through the pointers; the result carries what they point to
    when the function returns. *)
Definition check_load_reply (handle_p : handle_t) (state_p : option Z)
    : ctl (Z * handle_t * option Z) :=
  b <- peek 0 ;;
  if b =? DINIT_RP_SERVICERECORD then
    on_link (fill_buffer_to (Z.of_nat (2 + sizeof_handle))) ;;;
    handle <- extract 2 sizeof_handle ;;
    st <- peek 1 ;;
    let state_p := match state_p with Some _ => Some st | None => None end in
    rb_consume (3 + sizeof_handle) ;;;
    ret (0, handle, state_p)
  else if b =? DINIT_RP_NOSERVICE then
    say (cerr "dinitctl: failed to find/load service.") ;;;
    ret (1, handle_p, state_p)
  else
    say (cerr "dinitctl: protocol error.") ;;;
    ret (1, handle_p, state_p).

Definition handle_eqb (a b : handle_t) : bool :=
  if list_eq_dec Z.eq_dec a b then true else false.

(** The loop of [start_stop_service] that waits for the service event; [r] is
    what the last [fill_to] returned. *)
Fixpoint wait_for_event (fuel : nat) (handle : handle_t) (do_stop verbose : bool)
    (completionEvent cancelledEvent : Z) (r : Z) : ctl Z :=
  if 0 <? r then
    match fuel with
    | O => fun c => Hung c
    | S fuel' =>
        b0 <- peek 0 ;;
        if 100 <=? b0 then
          b1 <- peek 1 ;;
          let pktlen := unsigned_char b1 in
          on_link (fill_buffer_to pktlen) ;;;
          b0 <- peek 0 ;;
          early <-
            (if b0 =? DINIT_IP_SERVICEEVENT then
               ev_handle <- extract 2 sizeof_handle ;;
               event <- peek (2 + sizeof_handle) ;;
               if handle_eqb ev_handle handle then
                 if event =? completionEvent then
                   say_if verbose
                     (cout ("Service " ++ describeState do_stop ++ ".")) ;;;
                   ret (Some 0)
                 else if event =? cancelledEvent then
                   say_if verbose
                     (cout ("Service " ++ describeVerb do_stop ++ " cancelled.")) ;;;
                   ret (Some 1)
                 else if negb do_stop && (event =? event_code ev_FAILEDSTART) then
                   say_if verbose (cout "Service failed to start.") ;;;
                   ret (Some 1)
                 else ret None
               else ret None
             else ret None) ;;
          match early with
          | Some code => ret code
          | None =>
              rb_consume (Z.to_nat pktlen) ;;;
              r <- rb_fill_to 2 ;;
              wait_for_event fuel' handle do_stop verbose completionEvent cancelledEvent r
          end
        else
          say (cerr "dinitctl: protocol error") ;;;
          ret 1
    end
  else
    (if r =? -1 then say (perror "dinitctl: read")
     else say (cerr "protocol error (connection closed by server)")) ;;;
    ret 1.

(** [start_stop_service]. The locals [handle] and [state] are not
    initialised; they are read only after [check_load_reply] has stored them. *)
Definition start_stop_service (fuel : nat) (service_name : string) (command : command_t)
    (do_pin wait_for_service verbose : bool) : ctl Z :=
  let do_stop := command_eqb command STOP_SERVICE || command_eqb command RELEASE_SERVICE in
  failed <- issue_load_service service_name false ;;
  if negb (failed =? 0) then ret 1 else
  on_link wait_for_reply ;;;
  reply <- check_load_reply [] (Some 0) ;;
  let '(status, handle, state_p) := reply in
  if negb (status =? 0) then ret 0 else
  let state := match state_p with Some st => st | None => 0 end in
  let wanted_state := if do_stop then state_code STOPPED else state_code STARTED in
  let pcommand :=
    match command with
    | STOP_SERVICE => DINIT_CP_STOPSERVICE
    | RELEASE_SERVICE => DINIT_CP_RELEASESERVICE
    | START_SERVICE => DINIT_CP_STARTSERVICE
    | WAKE_SERVICE => DINIT_CP_WAKESERVICE
    | _ => 0
    end in
  buf <- new_chars (2 + sizeof_handle) ;;
  let buf := poke 0 pcommand buf in
  let buf := poke 1 (if do_pin then 1 else 0) buf in
  let buf := memcpy 2 handle buf in
  r <- write_all buf (2 + sizeof_handle) ;;
  if r =? -1 then say (perror "dinitctl: write") ;;; ret 1 else
  on_link wait_for_reply ;;;
  b <- peek 0 ;;
  if b =? DINIT_RP_ALREADYSS then
    let already := state =? wanted_state in
    say_if verbose
      (cout ("Service " ++ (if already then "(already) " else "")
             ++ describeState do_stop ++ ".")) ;;;
    ret 0
  else if negb (b =? DINIT_RP_ACK) then
    say (cerr "dinitctl: Protocol error.") ;;;
    ret 1
  else
  rb_consume 1 ;;;
  if negb wait_for_service then
    say_if verbose
      (cout ("Issued " ++ describeVerb do_stop ++ " command successfully.")) ;;;
    ret 0
  else
  let completionEvent := if do_stop then event_code ev_STOPPED else event_code ev_STARTED in
  let cancelledEvent :=
    if do_stop then event_code ev_STOPCANCELLED else event_code ev_STARTCANCELLED in
  r <- rb_fill_to 2 ;;
  wait_for_event fuel handle do_stop verbose completionEvent cancelledEvent r.

(** [unpin_service] *)
Definition unpin_service (service_name : string) (verbose : bool) : ctl Z :=
  failed <- issue_load_service service_name false ;;
  if failed =? 1 then ret 1 else
  on_link wait_for_reply ;;;
  reply <- check_load_reply [] None ;;
  let '(status, handle, _) := reply in
  if negb (status =? 0) then ret 1 else
  buf <- new_chars (1 + sizeof_handle) ;;
  let buf := poke 0 DINIT_CP_UNPINSERVICE buf in
  let buf := memcpy 1 handle buf in
  r <- write_all buf (2 + sizeof_handle) ;;
  if r =? -1 then say (perror "dinitctl: write") ;;; ret 1 else
  on_link wait_for_reply ;;;
  b <- peek 0 ;;
  if negb (b =? DINIT_RP_ACK) then
    say (cerr "dinitctl: protocol error.") ;;;
    ret 1
  else
  rb_consume 1 ;;;
  say_if verbose (cout "Service unpinned.") ;;;
  ret 0.

(** [unload_service] *)
Definition unload_service (service_name : string) : ctl Z :=
  failed <- issue_load_service service_name true ;;
  if failed =? 1 then ret 1 else
  on_link wait_for_reply ;;;
  reply <- check_load_reply [] None ;;
  let '(status, handle, _) := reply in
  if negb (status =? 0) then ret 1 else
  buf <- new_chars (1 + sizeof_handle) ;;
  let buf := poke 0 DINIT_CP_UNLOADSERVICE buf in
  let buf := memcpy 1 handle buf in
  r <- write_all buf (2 + sizeof_handle) ;;
  if r =? -1 then say (perror "dinitctl: write") ;;; ret 1 else
  on_link wait_for_reply ;;;
  b <- peek 0 ;;
  if b =? DINIT_RP_NAK then
    say (cerr ("dinitctl: Could not unload service; service not stopped, or is a dependency of "
               ++ "other service.")) ;;;
    ret 1
  else if negb (b =? DINIT_RP_ACK) then
    say (cerr "dinitctl: Protocol error.") ;;;
    ret 1
  else
  rb_consume 1 ;;;
  say (cout "Service unloaded.") ;;;
  ret 0.

(** One line of [list_services]. *)
Definition service_line (current target : Z) (name : string) : string :=
  "["
  ++ (if target =? state_code STARTED then "{" else " ")
  ++ (if current =? state_code STARTED then "+" else " ")
  ++ (if target =? state_code STARTED then "}" else " ")
  ++ (if current =? state_code STARTING then "<<"
      else if current =? state_code STOPPING then ">>"
      else "  ")
  ++ (if target =? state_code STOPPED then "{" else " ")
  ++ (if current =? state_code STOPPED then "-" else " ")
  ++ (if target =? state_code STOPPED then "}" else " ")
  ++ "] " ++ name.

(** The loop of [list_services]. [nameLen] is an [int] that takes the value
    of a [char]: where [char] is signed it is negative for a byte above 127,
    and [std::string(name_ptr, clength)] is then given a length that, as a
    [size_t], is beyond [max_size()]: it throws [std::length_error]. *)
Fixpoint list_services_loop (fuel : nat) : ctl unit :=
  b <- peek 0 ;;
  if b =? DINIT_RP_SVCINFO then
    match fuel with
    | O => fun c => Hung c
    | S fuel' =>
        on_link (fill_buffer_to 8) ;;;
        nameLen <- peek 1 ;;
        current <- peek 2 ;;
        target <- peek 3 ;;
        on_link (fill_buffer_to (nameLen + 8)) ;;;
        if nameLen <? 0 then (fun c => Terminated c) else
        name <- extract 8 (Z.to_nat nameLen) ;;
        say (cout (service_line current target (string_of_chars name))) ;;;
        rb_consume (Z.to_nat (8 + nameLen)) ;;;
        on_link wait_for_reply ;;;
        list_services_loop fuel'
    end
  else ret tt.

(** [list_services] *)
Definition list_services (fuel : nat) : ctl Z :=
  r <- write_all [Some DINIT_CP_LISTSERVICES] 1 ;;
  if r =? -1 then say (perror "dinitctl: write") ;;; ret 1 else
  on_link wait_for_reply ;;;
  list_services_loop fuel ;;;
  b <- peek 0 ;;
  if negb (b =? DINIT_RP_LISTDONE) then
    say (cerr "dinitctl: Control socket protocol error") ;;;
    ret 1
  else ret 0.

Fixpoint rollback_loop (fuel : nat) : ctl unit :=
  match fuel with
  | O => fun c => Hung c
  | S fuel' =>
      on_link wait_for_info ;;;
      b <- peek 0 ;;
      if b =? DINIT_ROLLBACK_COMPLETED then ret tt else rollback_loop fuel'
  end.

(** [shutdown_dinit] *)
Definition shutdown_dinit (fuel : nat) : ctl Z :=
  r <- write_all [Some DINIT_CP_SHUTDOWN; Some shutdown_type_HALT] 2 ;;
  if r =? -1 then say (perror "write") ;;; ret 1 else
  on_link wait_for_reply ;;;
  b <- peek 0 ;;
  if negb (b =? DINIT_RP_ACK) then
    say (cerr "dinitctl: Control socket protocol error") ;;;
    ret 1
  else
  catch_read (rollback_loop fuel) ;;;
  ret 0.

(** The locals of [main] when its loop over the arguments has ended without
    returning. *)
Record parsed_args : Type := mk_parsed_args {
  arg_show_help : bool;
  arg_service_name : option string;
  arg_verbose : bool;
  arg_sys_dinit : bool;
  arg_wait_for_service : bool;
  arg_do_pin : bool;
  arg_command : command_t
}.

Definition is_some {A : Type} (o : option A) : bool :=
  match o with Some _ => true | None => false end.

(** The [try] block of [main]. *)
Definition main_try (fuel : nat) (a : parsed_args) : ctl Z :=
  let service_name :=
    match arg_service_name a with Some n => n | None => EmptyString end in
  on_link (check_protocol_version 0 0) ;;;
  match arg_command a with
  | UNPIN_SERVICE => unpin_service service_name (arg_verbose a)
  | UNLOAD_SERVICE => unload_service service_name
  | LIST_SERVICES => list_services fuel
  | SHUTDOWN => shutdown_dinit fuel
  | command =>
      start_stop_service fuel service_name command (arg_do_pin a)
        (arg_wait_for_service a) (arg_verbose a)
  end.

(** The four handlers of [main]; [std::bad_alloc] is not caught. The message
    of the last one is kept without the text of its error code. *)
Definition main_catch (m : ctl Z) : ctl Z :=
  fun c =>
    match m c with
    | Thrown cp_old_client_exception c' =>
        (say (cerr "dinitctl: too old (server reports newer protocol version)") ;;; ret 1) c'
    | Thrown cp_old_server_exception c' =>
        (say (cerr "dinitctl: server too old or protocol error") ;;; ret 1) c'
    | Thrown (cp_read_exception _) c' =>
        (say (cerr "dinitctl: control socket read failure or protocol error") ;;; ret 1) c'
    | Thrown (cp_write_exception _) c' =>
        (say (cerr "dinitctl: control socket write error") ;;; ret 1) c'
    | o => o
    end.

(** [main], from the end of the loop over the arguments; the value returned
    is the exit code of the process. The usage text is kept by its first
    line. *)
Definition main (fuel : nat) (a : parsed_args) : ctl Z :=
  let command := arg_command a in
  let no_service_cmd := command_eqb command LIST_SERVICES || command_eqb command SHUTDOWN in
  let show_help := arg_show_help a in
  let show_help := if is_some (arg_service_name a) && no_service_cmd then true else show_help in
  let show_help :=
    if (negb (is_some (arg_service_name a)) && negb no_service_cmd) || command_eqb command NONE
    then true else show_help in
  if show_help then say (cout "dinitctl:   control Dinit services") ;;; ret 1 else
  fun c =>
    let userhome := match env_HOME c with Some d => Some d | None => env_pw_dir c end in
    if negb (arg_sys_dinit a) && negb (is_some userhome) then
      (say (cerr "Cannot locate user home directory (set HOME or check /etc/passwd file)") ;;;
       ret 1) c
    else if socket_answer c =? -1 then (say (perror "dinitctl: socket") ;;; ret 1) c
    else if negb (malloc_answer c) then (say (cerr "dinitctl: Out of memory") ;;; ret 1) c
    else if connect_answer c =? -1 then (say (perror "dinitctl: connect") ;;; ret 1) c
    else main_catch (main_try fuel a) c.

End Dinitctl.

(** ** Concrete service sets *)

Definition time0 : time_val := mk_time 0 0.

Definition no_flags : onstart_flags_t := mk_onstart_flags false false false false false false.

Definition plain_config (t : service_type) : service_config :=
  mk_service_config t [] [] [] [] no_flags false false EmptyString EmptyString EmptyString
    (-1) (mk_time 0 200000000) (mk_time 10 0) 3.

(** A record as its constructor leaves it. *)
Definition fresh_record (c : service_config) : service_record :=
  mk_service_record c STOPPED STOPPED false false false false false false false false false
    false false false 0 (-1) (-1) 0 0 time0 time0 false None false false.

Definition no_edge : service_dep := mk_service_dep O O false false.

(** An environment in which every system call succeeds, [fork] returns
    [child] and the clock reads [now]. *)
Definition calm (now : time_val) (child : positive) : sys_answers :=
  mk_sys_answers now true 7 0 0 0 0 0 0 true (Some child) 5 3 (Z.pos child) 0 false 0 0.

Definition fresh_set (recs : handle -> service_record) (world : nat -> sys_answers) : sset :=
  mk_sset recs (fun _ => no_edge) [] [] [] [] 0 true [] world O false.

(** ** Reading the trace *)

Definition is_mark (e : event) : bool :=
  match e with Enter _ _ | Leave _ _ => true | _ => false end.

(** The reactor callbacks and the exit handler they dispatch to; every other
    member function is [quiet]. *)
Definition quiet (c : call_t) : bool :=
  match c with
  | c_handle_exit_status _ | c_status_change _ | c_fd_event => false
  | _ => true
  end.

(** A well-bracketed run of events in which only quiet functions are
    entered. *)
Inductive good : list event -> Prop :=
  | good_nil : good []
  | good_atom (e : event) : is_mark e = false -> good [e]
  | good_call (c : call_t) (h : handle) (t : list event) :
      quiet c = true -> good t -> good (Enter c h :: t ++ [Leave c h])
  | good_app (t1 t2 : list event) : good t1 -> good t2 -> good (t1 ++ t2).

(** The events at nesting depth [k], reading from depth [d]: the entries of
    the calls made at that depth, and the log lines, notifications and
    effects emitted at that depth. *)
Fixpoint at_depth (k d : nat) (t : list event) : list event :=
  match t with
  | [] => []
  | Enter c h :: t' => (if Nat.eqb d k then [Enter c h] else []) ++ at_depth k (S d) t'
  | Leave _ _ :: t' => at_depth k (Nat.pred d) t'
  | e :: t' => (if Nat.eqb d k then [e] else []) ++ at_depth k d t'
  end.

(** Every entry of the exit handler, at any depth, with its argument. *)
Fixpoint exit_calls (t : list event) : list (handle * Z) :=
  match t with
  | [] => []
  | Enter (c_handle_exit_status st) h :: t' => (h, st) :: exit_calls t'
  | _ :: t' => exit_calls t'
  end.

(** The events a step added to the trace. *)
Definition news (s s' : sset) : list event := skipn (length (trace s)) (trace s').

(** What a member function does itself, in order: the calls it makes (each
    shown by its entry) and the events it emits, without what the functions
    it calls do in turn. *)
Definition direct (s s' : sset) : list event := at_depth 1 0 (news s s').

Lemma news_app (s s' : sset) (t : list event) :
  trace s' = trace s ++ t -> news s s' = t.
Proof.
  intro E. unfold news. rewrite E.
  rewrite skipn_app, skipn_all, Nat.sub_diag. reflexivity.
Qed.

Lemma exit_calls_app (t u : list event) :
  exit_calls (t ++ u) = exit_calls t ++ exit_calls u.
Proof.
  induction t as [|e t IH]; [reflexivity|].
  destruct e as [c h|c h|m h|h e|x h]; simpl; try exact IH.
  destruct c; simpl; try exact IH. now rewrite IH.
Qed.

Lemma good_exit_calls (t : list event) : good t -> exit_calls t = [].
Proof.
  induction 1 as [|e He|c h t Hq _ IH|t1 t2 _ IH1 _ IH2].
  - reflexivity.
  - destruct e; try reflexivity; discriminate He.
  - change (Enter c h :: t ++ [Leave c h]) with ([Enter c h] ++ t ++ [Leave c h]).
    rewrite !exit_calls_app, IH. destruct c; try reflexivity; discriminate Hq.
  - now rewrite exit_calls_app, IH1, IH2.
Qed.

Lemma at_depth_good (k : nat) (t : list event) :
  good t -> forall (d : nat) (u : list event),
  at_depth k d (t ++ u) = at_depth k d t ++ at_depth k d u.
Proof.
  induction 1 as [|e He|c h t Hq _ IH|t1 t2 _ IH1 _ IH2]; intros d u.
  - reflexivity.
  - destruct e; try discriminate He; cbn [app at_depth]; now rewrite app_nil_r.
  - cbn [app at_depth]. rewrite <- (app_assoc t [Leave c h] u).
    rewrite (IH (S d) ([Leave c h] ++ u)), (IH (S d) [Leave c h]).
    cbn [app at_depth Nat.pred]. rewrite app_nil_r, <- !app_assoc. reflexivity.
  - rewrite <- app_assoc, IH1, IH2, IH1, app_assoc. reflexivity.
Qed.

Lemma at_depth_deeper (k : nat) (t : list event) :
  good t -> forall d : nat, (k < d)%nat -> at_depth k d t = [].
Proof.
  induction 1 as [|e He|c h t Hq Ht IH|t1 t2 Ht1 IH1 _ IH2]; intros d Hd.
  - reflexivity.
  - assert (Nat.eqb d k = false) as E by (apply Nat.eqb_neq; lia).
    destruct e; try discriminate He; cbn [at_depth]; now rewrite E.
  - cbn [at_depth]. rewrite (at_depth_good k t Ht). cbn [at_depth].
    rewrite IH by lia. replace (Nat.eqb d k) with false; [reflexivity|].
    symmetry. apply Nat.eqb_neq. lia.
  - rewrite (at_depth_good k t1 Ht1), IH1, IH2 by assumption. reflexivity.
Qed.

(** A bracketed call shows as its entry alone at its own depth. *)
Lemma at_depth_call (k : nat) (c : call_t) (h : handle) (t : list event) :
  good t -> at_depth k k (Enter c h :: t ++ [Leave c h]) = [Enter c h].
Proof.
  intro Ht. cbn [at_depth]. rewrite Nat.eqb_refl.
  rewrite (at_depth_good k t Ht). rewrite (at_depth_deeper k t Ht) by lia.
  reflexivity.
Qed.

Lemma at_depth_atom (k : nat) (e : event) :
  is_mark e = false -> at_depth k k [e] = [e].
Proof.
  intro H. destruct e; try discriminate H; cbn [at_depth]; now rewrite Nat.eqb_refl.
Qed.

(** ** The discipline of the quiet functions

    [steady s s'] relates the states before and after a quiet function: the
    trace grew by a good run of events, and what no quiet function writes is
    unchanged (the configuration of every record, the exit status stored by
    the child watcher, the end points of every soft edge, the oracle). *)
Record steady_by (G : list event -> Prop) (s s' : sset) : Prop := mk_steady {
  st_trace : exists t, trace s' = trace s ++ t /\ G t;
  st_cfg : forall h, cfg (records s' h) = cfg (records s h);
  st_exit : forall h, exit_status (records s' h) = exit_status (records s h);
  st_from : forall e, dep_from (edges s' e) = dep_from (edges s e);
  st_to : forall e, dep_to (edges s' e) = dep_to (edges s e);
  st_sys : sys s' = sys s
}.

Definition steady : sset -> sset -> Prop := steady_by good.

(** The events of one call of [c] on [h]. *)
Definition framed (c : call_t) (h : handle) (t : list event) : Prop :=
  exists t', t = Enter c h :: t' ++ [Leave c h] /\ good t'.

Lemma steady_refl (s : sset) : steady s s.
Proof.
  split; try reflexivity. exists []. split; [now rewrite app_nil_r | constructor].
Qed.

Lemma steady_trans (a b c : sset) : steady a b -> steady b c -> steady a c.
Proof.
  intros [[t1 [E1 G1]] C1 X1 F1 T1 S1] [[t2 [E2 G2]] C2 X2 F2 T2 S2].
  split.
  - exists (t1 ++ t2). split; [now rewrite E2, E1, app_assoc | now constructor].
  - intro h. now rewrite C2.
  - intro h. now rewrite X2.
  - intro e. now rewrite F2.
  - intro e. now rewrite T2.
  - now rewrite S2.
Qed.

Lemma framed_good (c : call_t) (h : handle) (t : list event) :
  quiet c = true -> framed c h t -> good t.
Proof. intros Hq [t' [-> Ht']]. now constructor. Qed.

Lemma steady_by_weaken (G G' : list event -> Prop) (s s' : sset) :
  (forall t, G t -> G' t) -> steady_by G s s' -> steady_by G' s s'.
Proof.
  intros HG [[t [E Ht]] C X F T S]. split; try assumption.
  exists t. split; [exact E | now apply HG].
Qed.

Class Disc (f : sset -> sset) : Prop :=
  disc : forall s, steady s (f s).

Class DiscV {A : Type} (f : sset -> A * sset) : Prop :=
  discv : forall s, steady s (snd (f s)).

Definition Shaped (c : call_t) (h : handle) (f : sset -> sset) : Prop :=
  forall s, steady_by (framed c h) s (f s).

Definition ShapedV {A : Type} (c : call_t) (h : handle) (f : sset -> A * sset) : Prop :=
  forall s, steady_by (framed c h) s (snd (f s)).

Class Quiet (c : call_t) : Prop :=
  quiet_true : quiet c = true.

#[global] Hint Extern 0 (Quiet _) => exact (eq_refl true) : typeclass_instances.

Lemma steady_app (f : sset -> sset) (s s' : sset) :
  Disc f -> steady s s' -> steady s (f s').
Proof. intros Hf H. exact (steady_trans _ _ _ H (Hf s')). Qed.

Lemma steady_appv {A : Type} (f : sset -> A * sset) (s s' : sset) :
  DiscV f -> steady s s' -> steady s (snd (f s')).
Proof. intros Hf H. exact (steady_trans _ _ _ H (Hf s')). Qed.

Lemma shaped_disc (c : call_t) (h : handle) (f : sset -> sset) :
  Shaped c h f -> Quiet c -> Disc f.
Proof.
  intros Hs Hq s. apply (steady_by_weaken (framed c h)); [|apply Hs].
  intro t. now apply framed_good.
Qed.

Lemma shapedv_discv {A : Type} (c : call_t) (h : handle)
    (f : sset -> A * sset) :
  ShapedV c h f -> Quiet c -> DiscV f.
Proof.
  intros Hs Hq s. apply (steady_by_weaken (framed c h)); [|apply Hs].
  intro t. now apply framed_good.
Qed.

(** A step that leaves the trace and the framed fields alone. *)
Lemma steady_silent (s s1 s2 : sset) :
  trace s2 = trace s1 ->
  (forall h, cfg (records s2 h) = cfg (records s1 h)) ->
  (forall h, exit_status (records s2 h) = exit_status (records s1 h)) ->
  (forall e, dep_from (edges s2 e) = dep_from (edges s1 e)) ->
  (forall e, dep_to (edges s2 e) = dep_to (edges s1 e)) ->
  sys s2 = sys s1 ->
  steady s s1 -> steady s s2.
Proof.
  intros E C X F T S H. apply (steady_trans _ _ _ H).
  split; try assumption. exists []. split; [now rewrite app_nil_r | constructor].
Qed.

Lemma steady_upd (h : handle) (f : service_record -> service_record) (s s' : sset) :
  (forall r, cfg (f r) = cfg r) ->
  (forall r, exit_status (f r) = exit_status r) ->
  steady s s' -> steady s (upd h f s').
Proof.
  intros Hc Hx. apply steady_silent; try reflexivity.
  - intro k. simpl. destruct (Nat.eqb k h); [apply Hc | reflexivity].
  - intro k. simpl. destruct (Nat.eqb k h); [apply Hx | reflexivity].
Qed.

Lemma steady_upd_edge (e : edge_id) (f : service_dep -> service_dep) (s s' : sset) :
  (forall d, dep_from (f d) = dep_from d) ->
  (forall d, dep_to (f d) = dep_to d) ->
  steady s s' -> steady s (upd_edge e f s').
Proof.
  intros Hf Ht. apply steady_silent; try reflexivity.
  - intro k. simpl. destruct (Nat.eqb k e); [apply Hf | reflexivity].
  - intro k. simpl. destruct (Nat.eqb k e); [apply Ht | reflexivity].
Qed.

Lemma steady_emit (e : event) (s s' : sset) :
  is_mark e = false -> steady s s' -> steady s (emit e s').
Proof.
  intros He H. apply (steady_trans _ _ _ H).
  split; try reflexivity. exists [e]. split; [reflexivity | now constructor].
Qed.

Lemma steady_fold {A : Type} (step : sset -> A -> sset) (l : list A) (s : sset) :
  (forall a x, steady s x -> steady s (step x a)) ->
  forall s0, steady s s0 -> steady s (fold_left step l s0).
Proof.
  intro Hstep. induction l as [|a l IH]; intros s0 H0; simpl.
  - exact H0.
  - apply IH. now apply Hstep.
Qed.

(** The body of a call determines the shape of the call. *)
Lemma call_shaped (c : call_t) (h : handle) (body : sset -> sset) :
  (forall x, steady x (body x)) -> Shaped c h (call c h body).
Proof.
  intros Hb s. unfold call.
  destruct (Hb (emit (Enter c h) s)) as [[t [E Ht]] C X F T S].
  split; simpl; try assumption.
  exists (Enter c h :: t ++ [Leave c h]). split.
  - rewrite E. simpl. rewrite <- !app_assoc. reflexivity.
  - exists t. now split.
Qed.

Lemma callv_shaped {A : Type} (c : call_t) (h : handle) (body : sset -> A * sset) :
  (forall x, steady x (snd (body x))) -> ShapedV c h (callv c h body).
Proof.
  intros Hb s. unfold callv. cbn [snd].
  destruct (Hb (emit (Enter c h) s)) as [[t [E Ht]] C X F T S].
  split; simpl; try assumption.
  exists (Enter c h :: t ++ [Leave c h]). split.
  - rewrite E. simpl. rewrite <- !app_assoc. reflexivity.
  - exists t. now split.
Qed.

(** What the engine assumes of the members of the set it calls back. *)
Class OpsOk (ops : SetOps) : Prop := {
  process_queues_shaped : Shaped c_process_queues O (@process_queues ops);
  pull_console_queue_shaped : Shaped c_pull_console_queue O (@pull_console_queue ops)
}.

#[global] Instance disc_process_queues (ops : SetOps) (ok : OpsOk ops) :
  Disc (@process_queues ops).
Proof. exact (shaped_disc _ _ _ process_queues_shaped (eq_refl true)). Qed.

#[global] Instance disc_pull_console_queue (ops : SetOps) (ok : OpsOk ops) :
  Disc (@pull_console_queue ops).
Proof. exact (shaped_disc _ _ _ pull_console_queue_shaped (eq_refl true)). Qed.

Ltac steady_side := intros; reflexivity.

(** A [let] is crossed by naming what it binds: an intermediate state keeps
    only the fact that it is steady, so that goals stay small. *)
Ltac steady_bind x a K :=
  change (steady x (K a));
  let T := type of a in
  let H := fresh "H" in
  lazymatch T with
  | sset =>
      assert (H : steady x a);
      [ | revert H; generalize a; intros ? H; cbv beta ]
  | prod _ sset =>
      assert (H : steady x (snd a));
      [ | revert H; generalize a; intros ? H; cbv beta ]
  | _ => generalize a; intro; cbv beta
  end.

Ltac steady_struct :=
  lazymatch goal with
  | |- steady ?x (let v := ?a in @?k v) => steady_bind x a k
  | |- steady ?x (snd (let v := ?a in @?k v)) =>
      let K := constr:(fun v => snd (k v)) in steady_bind x a K
  | |- steady _ (if ?c then _ else _) => destruct c
  | |- steady _ (match ?c with _ => _ end) => destruct c
  | |- steady _ (snd (if ?c then _ else _)) => destruct c
  | |- steady _ (snd (match ?c with _ => _ end)) => destruct c
  | |- steady _ (snd (_, _)) => cbn [snd]
  | |- steady _ (emit _ _) => apply steady_emit; [reflexivity|]
  | |- steady _ (upd _ _ _) => apply steady_upd; [steady_side|steady_side|]
  | |- steady _ (upd_edge _ _ _) => apply steady_upd_edge; [steady_side|steady_side|]
  | |- steady _ (fold_left _ _ _) =>
      apply steady_fold; [let a := fresh "a" in let x := fresh "x" in
                          let H := fresh "H" in intros a x H; cbv beta|]
  | |- steady _ (snd (?f _)) => eapply steady_appv; [typeclasses eauto|]
  | |- steady _ (?f _) => eapply steady_app; [typeclasses eauto|]
  end.

(** The end of a chain is recognised by syntax, never by conversion. *)
Ltac steady_step :=
  lazymatch goal with
  | |- steady ?a ?b =>
      first [ constr_eq a b; apply steady_refl
            | is_var b; assumption
            | lazymatch b with snd ?p => is_var p; assumption end
            | steady_struct ]
  end.

Ltac steady_go := cbv beta; repeat steady_step.

Ltac shaped_call := apply call_shaped; intro; steady_go.
Ltac shaped_callv := apply callv_shaped; intro; steady_go.

(** Resolution of [Disc] goes by the name of the function. *)
#[global] Typeclasses Opaque
  upd upd_edge emit call callv asked
  addToPropQueue addToStartQueue addToStopQueue append_console_queue unqueue_console
  service_active service_inactive notifyListeners
  release_console queue_for_console require forceStop dependentStopped
  dependencyStarted stopDependents interrupt_start do_stop_tail do_stop_with
  release_with do_stop_leaf release_inner do_stop release startCheckDependencies
  start_transition start open_socket failed_to_start started stopped emergency_stop
  start_ps_process_cmd do_restart restart_ps_process timer_expiry start_ps_process
  allDepsStarted acquiredConsole all_deps_stopped execute_transition
  release_dependencies propagate_require propagate_release propagate_failure
  propagate_start propagate_stop do_propagation do_start stop stopService unpin
  read_pid_file log_unexpected_exit process_service_handle_exit_status
  bgproc_service_pass bgproc_service_loop bgproc_service_handle_exit_status
  scripted_service_handle_exit_status handle_exit_status fd_event_started fd_event
  status_change
  process_queues_impl pull_console_queue_impl drain_queue tick_loop.

(** The primitives of the set. *)
#[global] Instance disc_addToPropQueue (h : handle) : Disc (addToPropQueue h).
Proof. intro s. apply (steady_silent s s); try reflexivity. apply steady_refl. Qed.

#[global] Instance disc_addToStartQueue (h : handle) : Disc (addToStartQueue h).
Proof. intro s. apply (steady_silent s s); try reflexivity. apply steady_refl. Qed.

#[global] Instance disc_addToStopQueue (h : handle) : Disc (addToStopQueue h).
Proof. intro s. apply (steady_silent s s); try reflexivity. apply steady_refl. Qed.

#[global] Instance disc_append_console_queue (h : handle) : Disc (append_console_queue h).
Proof. intro s. apply (steady_silent s s); try reflexivity. apply steady_refl. Qed.

#[global] Instance disc_unqueue_console (h : handle) : Disc (unqueue_console h).
Proof. intro s. apply (steady_silent s s); try reflexivity. apply steady_refl. Qed.

#[global] Instance disc_service_active (h : handle) : Disc (service_active h).
Proof. intro s. apply (steady_silent s s); try reflexivity. apply steady_refl. Qed.

#[global] Instance disc_service_inactive (h : handle) : Disc (service_inactive h).
Proof. intro s. apply (steady_silent s s); try reflexivity. apply steady_refl. Qed.

#[global] Instance disc_asked : Disc asked.
Proof. intro s. apply (steady_silent s s); try reflexivity. apply steady_refl. Qed.

#[global] Instance disc_set_out_of_fuel (b : bool) : Disc (set_out_of_fuel b).
Proof. intro s. apply (steady_silent s s); try reflexivity. apply steady_refl. Qed.

#[global] Instance disc_set_prop_queue (q : list handle) : Disc (set_prop_queue q).
Proof. intro s. apply (steady_silent s s); try reflexivity. apply steady_refl. Qed.

#[global] Instance disc_set_start_queue (q : list handle) : Disc (set_start_queue q).
Proof. intro s. apply (steady_silent s s); try reflexivity. apply steady_refl. Qed.

#[global] Instance disc_set_stop_queue (q : list handle) : Disc (set_stop_queue q).
Proof. intro s. apply (steady_silent s s); try reflexivity. apply steady_refl. Qed.

#[global] Instance disc_set_console_queue (q : list handle) : Disc (set_console_queue q).
Proof. intro s. apply (steady_silent s s); try reflexivity. apply steady_refl. Qed.

#[global] Instance disc_notifyListeners (h : handle) (e : service_event) :
  Disc (notifyListeners h e).
Proof. intro s. unfold notifyListeners. steady_go. Qed.

(** ** Every quiet member function keeps the discipline *)

Section EngineDiscipline.

Context {ops : SetOps} {ok : OpsOk ops}.

#[global] Instance disc_release_console (h : handle) : Disc (release_console h).
Proof. intro s. cbv beta delta [release_console]. steady_go. Qed.

#[global] Instance disc_queue_for_console (h : handle) : Disc (queue_for_console h).
Proof. intro s. cbv beta delta [queue_for_console]. steady_go. Qed.

Lemma shaped_require (h : handle) :
  Shaped c_require h (require h).
Proof. cbv beta delta [require]. shaped_call. Qed.

#[global] Instance disc_require (h : handle) : Disc (require h).
Proof. exact (shaped_disc _ _ _ (shaped_require h) (eq_refl true)). Qed.

Lemma shaped_forceStop (h : handle) :
  Shaped c_forceStop h (forceStop h).
Proof. cbv beta delta [forceStop]. shaped_call. Qed.

#[global] Instance disc_forceStop (h : handle) : Disc (forceStop h).
Proof. exact (shaped_disc _ _ _ (shaped_forceStop h) (eq_refl true)). Qed.

Lemma shaped_dependentStopped (h : handle) :
  Shaped c_dependentStopped h (dependentStopped h).
Proof. cbv beta delta [dependentStopped]. shaped_call. Qed.

#[global] Instance disc_dependentStopped (h : handle) : Disc (dependentStopped h).
Proof. exact (shaped_disc _ _ _ (shaped_dependentStopped h) (eq_refl true)). Qed.

Lemma shaped_dependencyStarted (h : handle) :
  Shaped c_dependencyStarted h (dependencyStarted h).
Proof. cbv beta delta [dependencyStarted]. shaped_call. Qed.

#[global] Instance disc_dependencyStarted (h : handle) : Disc (dependencyStarted h).
Proof. exact (shaped_disc _ _ _ (shaped_dependencyStarted h) (eq_refl true)). Qed.

Lemma steady_stopDependents_fold (h : handle) (l : list handle) (s : sset) :
  forall acc, steady s (snd acc) -> steady s (snd (fold_left (stopDependents_step h) l acc)).
Proof.
  induction l as [|i l IH]; intros acc H; simpl; [exact H|].
  apply IH. cbv beta delta [stopDependents_step]. cbn [snd]. steady_go.
Qed.

Lemma shapedv_stopDependents (h : handle) :
  ShapedV c_stopDependents h (stopDependents h).
Proof.
  cbv beta delta [stopDependents]. apply callv_shaped. intro x.
  apply steady_stopDependents_fold. apply steady_refl.
Qed.

#[global] Instance discv_stopDependents (h : handle) : DiscV (stopDependents h).
Proof. exact (shapedv_discv _ _ _ (shapedv_stopDependents h) (eq_refl true)). Qed.

Lemma shaped_interrupt_start (h : handle) :
  Shaped c_interrupt_start h (interrupt_start h).
Proof.
  cbv beta delta [interrupt_start base_process_service_interrupt_start service_record_interrupt_start]. shaped_call.
Qed.

#[global] Instance disc_interrupt_start (h : handle) : Disc (interrupt_start h).
Proof. exact (shaped_disc _ _ _ (shaped_interrupt_start h) (eq_refl true)). Qed.

#[global] Instance disc_do_stop_tail (h : handle) : Disc (do_stop_tail h).
Proof. intro s. cbv beta delta [do_stop_tail]. steady_go. Qed.

Lemma shaped_do_stop_with (k : handle -> sset -> sset) (h : handle) :
  (forall i, Disc (k i)) -> Shaped c_do_stop h (do_stop_with k h).
Proof. intro Hk. cbv beta delta [do_stop_with]. shaped_call. Qed.

Lemma shaped_release_with (k : handle -> sset -> sset) (h : handle) :
  (forall i, Disc (k i)) -> Shaped c_release h (release_with k h).
Proof. intro Hk. cbv beta delta [release_with]. shaped_call. Qed.

Lemma shaped_do_stop_leaf (h : handle) :
  Shaped c_do_stop h (do_stop_leaf h).
Proof. apply shaped_do_stop_with. intros i s. steady_go. Qed.

#[global] Instance disc_do_stop_leaf (h : handle) : Disc (do_stop_leaf h).
Proof. exact (shaped_disc _ _ _ (shaped_do_stop_leaf h) (eq_refl true)). Qed.

Lemma shaped_release_inner (h : handle) :
  Shaped c_release h (release_inner h).
Proof. apply shaped_release_with. intro i. typeclasses eauto. Qed.

#[global] Instance disc_release_inner (h : handle) : Disc (release_inner h).
Proof. exact (shaped_disc _ _ _ (shaped_release_inner h) (eq_refl true)). Qed.

Lemma shaped_do_stop (h : handle) :
  Shaped c_do_stop h (do_stop h).
Proof. apply shaped_do_stop_with. intro i. typeclasses eauto. Qed.

#[global] Instance disc_do_stop (h : handle) : Disc (do_stop h).
Proof. exact (shaped_disc _ _ _ (shaped_do_stop h) (eq_refl true)). Qed.

Lemma shaped_release (h : handle) :
  Shaped c_release h (release h).
Proof. apply shaped_release_with. intro i. typeclasses eauto. Qed.

#[global] Instance disc_release (h : handle) : Disc (release h).
Proof. exact (shaped_disc _ _ _ (shaped_release h) (eq_refl true)). Qed.

Lemma steady_check_hard_deps (b : bool) (l : list handle) (s : sset) :
  forall all s0, steady s s0 -> steady s (snd (snd (check_hard_deps b l all s0))).
Proof.
  induction l as [|i l IH]; intros all s0 H; simpl; [exact H|].
  destruct (negb (state_is s0 i STARTED)); [destruct b|]; try apply IH; simpl;
    steady_go.
Qed.

Lemma steady_check_soft_deps (b : bool) (l : list edge_id) (s : sset) :
  forall all s0, steady s s0 -> steady s (snd (snd (check_soft_deps b l all s0))).
Proof.
  induction l as [|e l IH]; intros all s0 H; simpl; [exact H|].
  destruct b.
  - destruct (negb (state_is s0 (dep_to (edges s0 e)) STARTED)); apply IH; steady_go.
  - destruct (waiting_on (edges s0 e)); [|now apply IH].
    destruct (negb (state_is s0 (dep_to (edges s0 e)) STARTING)); [apply IH|simpl];
      steady_go.
Qed.

Lemma shapedv_startCheckDependencies (h : handle) (b : bool) :
  ShapedV (c_startCheckDependencies b) h (startCheckDependencies h b).
Proof.
  cbv beta delta [startCheckDependencies]. apply callv_shaped. intro x. cbv zeta.
  destruct (fst (check_hard_deps b (depends_on (cfg (records x h))) true x)).
  - apply steady_check_hard_deps, steady_refl.
  - apply steady_check_soft_deps, steady_check_hard_deps, steady_refl.
Qed.

#[global] Instance discv_startCheckDependencies (h : handle) (b : bool) : DiscV (startCheckDependencies h b).
Proof. exact (shapedv_discv _ _ _ (shapedv_startCheckDependencies h b) (eq_refl true)). Qed.

#[global] Instance disc_start_transition (h : handle) : Disc (start_transition h).
Proof. intro s. cbv beta delta [start_transition]. steady_go. Qed.

Lemma shaped_start (h : handle) (a : bool) :
  Shaped (c_start a) h (start h a).
Proof. cbv beta delta [start]. shaped_call. Qed.

#[global] Instance disc_start (h : handle) (a : bool) : Disc (start h a).
Proof. exact (shaped_disc _ _ _ (shaped_start h a) (eq_refl true)). Qed.

Lemma shapedv_open_socket (h : handle) :
  ShapedV c_open_socket h (open_socket h).
Proof. cbv beta delta [open_socket]. shaped_callv. Qed.

#[global] Instance discv_open_socket (h : handle) : DiscV (open_socket h).
Proof. exact (shapedv_discv _ _ _ (shapedv_open_socket h) (eq_refl true)). Qed.

Lemma shaped_failed_to_start (h : handle) (d : bool) :
  Shaped (c_failed_to_start d) h (failed_to_start h d).
Proof. cbv beta delta [failed_to_start]. shaped_call. Qed.

#[global] Instance disc_failed_to_start (h : handle) (d : bool) : Disc (failed_to_start h d).
Proof. exact (shaped_disc _ _ _ (shaped_failed_to_start h d) (eq_refl true)). Qed.

Lemma shaped_started (h : handle) :
  Shaped c_started h (started h).
Proof. cbv beta delta [started]. shaped_call. Qed.

#[global] Instance disc_started (h : handle) : Disc (started h).
Proof. exact (shaped_disc _ _ _ (shaped_started h) (eq_refl true)). Qed.

Lemma shaped_stopped (h : handle) :
  Shaped c_stopped h (stopped h).
Proof. cbv beta delta [stopped]. shaped_call. Qed.

#[global] Instance disc_stopped (h : handle) : Disc (stopped h).
Proof. exact (shaped_disc _ _ _ (shaped_stopped h) (eq_refl true)). Qed.

Lemma shaped_emergency_stop (h : handle) :
  Shaped c_emergency_stop h (emergency_stop h).
Proof. cbv beta delta [emergency_stop]. shaped_call. Qed.

#[global] Instance disc_emergency_stop (h : handle) : Disc (emergency_stop h).
Proof. exact (shaped_disc _ _ _ (shaped_emergency_stop h) (eq_refl true)). Qed.

Lemma shapedv_start_ps_process_cmd (h : handle) (b : bool) :
  ShapedV (c_start_ps_process_cmd b) h (start_ps_process_cmd h b).
Proof. cbv beta delta [start_ps_process_cmd]. shaped_callv. Qed.

#[global] Instance discv_start_ps_process_cmd (h : handle) (b : bool) : DiscV (start_ps_process_cmd h b).
Proof. exact (shapedv_discv _ _ _ (shapedv_start_ps_process_cmd h b) (eq_refl true)). Qed.

Lemma shaped_do_restart (h : handle) :
  Shaped c_do_restart h (do_restart h).
Proof. cbv beta delta [do_restart]. shaped_call. Qed.

#[global] Instance disc_do_restart (h : handle) : Disc (do_restart h).
Proof. exact (shaped_disc _ _ _ (shaped_do_restart h) (eq_refl true)). Qed.

Lemma shapedv_restart_ps_process (h : handle) :
  ShapedV c_restart_ps_process h (restart_ps_process h).
Proof. cbv beta delta [restart_ps_process]. shaped_callv. Qed.

#[global] Instance discv_restart_ps_process (h : handle) : DiscV (restart_ps_process h).
Proof. exact (shapedv_discv _ _ _ (shapedv_restart_ps_process h) (eq_refl true)). Qed.

Lemma shaped_timer_expiry (h : handle) :
  Shaped c_timer_expiry h (timer_expiry h).
Proof. cbv beta delta [timer_expiry]. shaped_call. Qed.

#[global] Instance disc_timer_expiry (h : handle) : Disc (timer_expiry h).
Proof. exact (shaped_disc _ _ _ (shaped_timer_expiry h) (eq_refl true)). Qed.

Lemma shapedv_start_ps_process (h : handle) :
  ShapedV c_start_ps_process h (start_ps_process h).
Proof.
  cbv beta delta [start_ps_process base_process_service_start_ps_process service_record_start_ps_process]. shaped_callv.
Qed.

#[global] Instance discv_start_ps_process (h : handle) : DiscV (start_ps_process h).
Proof. exact (shapedv_discv _ _ _ (shapedv_start_ps_process h) (eq_refl true)). Qed.

Lemma shaped_allDepsStarted (h : handle) (b : bool) :
  Shaped (c_allDepsStarted b) h (allDepsStarted h b).
Proof. cbv beta delta [allDepsStarted]. shaped_call. Qed.

#[global] Instance disc_allDepsStarted (h : handle) (b : bool) : Disc (allDepsStarted h b).
Proof. exact (shaped_disc _ _ _ (shaped_allDepsStarted h b) (eq_refl true)). Qed.

Lemma shaped_acquiredConsole (h : handle) :
  Shaped c_acquiredConsole h (acquiredConsole h).
Proof. cbv beta delta [acquiredConsole]. shaped_call. Qed.

#[global] Instance disc_acquiredConsole (h : handle) : Disc (acquiredConsole h).
Proof. exact (shaped_disc _ _ _ (shaped_acquiredConsole h) (eq_refl true)). Qed.

Lemma shaped_all_deps_stopped (h : handle) :
  Shaped c_all_deps_stopped h (all_deps_stopped h).
Proof.
  cbv beta delta [all_deps_stopped scripted_service_all_deps_stopped base_process_service_all_deps_stopped service_record_all_deps_stopped].
  shaped_call.
Qed.

#[global] Instance disc_all_deps_stopped (h : handle) : Disc (all_deps_stopped h).
Proof. exact (shaped_disc _ _ _ (shaped_all_deps_stopped h) (eq_refl true)). Qed.

Lemma shaped_execute_transition (h : handle) :
  Shaped c_execute_transition h (execute_transition h).
Proof. cbv beta delta [execute_transition]. shaped_call. Qed.

#[global] Instance disc_execute_transition (h : handle) : Disc (execute_transition h).
Proof. exact (shaped_disc _ _ _ (shaped_execute_transition h) (eq_refl true)). Qed.

Lemma shaped_release_dependencies (h : handle) :
  Shaped c_release_dependencies h (release_dependencies h).
Proof. cbv beta delta [release_dependencies]. shaped_call. Qed.

#[global] Instance disc_release_dependencies (h : handle) : Disc (release_dependencies h).
Proof. exact (shaped_disc _ _ _ (shaped_release_dependencies h) (eq_refl true)). Qed.

#[global] Instance disc_propagate_require (h : handle) : Disc (propagate_require h).
Proof. intro s. cbv beta delta [propagate_require]. steady_go. Qed.

#[global] Instance disc_propagate_release (h : handle) : Disc (propagate_release h).
Proof. intro s. cbv beta delta [propagate_release]. steady_go. Qed.

#[global] Instance disc_propagate_failure (h : handle) : Disc (propagate_failure h).
Proof. intro s. cbv beta delta [propagate_failure]. steady_go. Qed.

#[global] Instance disc_propagate_start (h : handle) : Disc (propagate_start h).
Proof. intro s. cbv beta delta [propagate_start]. steady_go. Qed.

#[global] Instance disc_propagate_stop (h : handle) : Disc (propagate_stop h).
Proof. intro s. cbv beta delta [propagate_stop]. steady_go. Qed.

Lemma shaped_do_propagation (h : handle) :
  Shaped c_do_propagation h (do_propagation h).
Proof. cbv beta delta [do_propagation]. shaped_call. Qed.

#[global] Instance disc_do_propagation (h : handle) : Disc (do_propagation h).
Proof. exact (shaped_disc _ _ _ (shaped_do_propagation h) (eq_refl true)). Qed.

Lemma shaped_do_start (h : handle) :
  Shaped c_do_start h (do_start h).
Proof. cbv beta delta [do_start]. shaped_call. Qed.

#[global] Instance disc_do_start (h : handle) : Disc (do_start h).
Proof. exact (shaped_disc _ _ _ (shaped_do_start h) (eq_refl true)). Qed.

Lemma shaped_stop (h : handle) (b : bool) :
  Shaped (c_stop b) h (stop h b).
Proof. cbv beta delta [stop]. shaped_call. Qed.

#[global] Instance disc_stop (h : handle) (b : bool) : Disc (stop h b).
Proof. exact (shaped_disc _ _ _ (shaped_stop h b) (eq_refl true)). Qed.

#[global] Instance disc_stopService (h : handle) : Disc (stopService h).
Proof. intro s. cbv beta delta [stopService]. steady_go. Qed.

Lemma shaped_unpin (h : handle) :
  Shaped c_unpin h (unpin h).
Proof. cbv beta delta [unpin]. shaped_call. Qed.

#[global] Instance disc_unpin (h : handle) : Disc (unpin h).
Proof. exact (shaped_disc _ _ _ (shaped_unpin h) (eq_refl true)). Qed.

Lemma shapedv_read_pid_file (h : handle) (st : Z) :
  ShapedV c_read_pid_file h (read_pid_file h st).
Proof. cbv beta delta [read_pid_file]. shaped_callv. Qed.

#[global] Instance discv_read_pid_file (h : handle) (st : Z) : DiscV (read_pid_file h st).
Proof. exact (shapedv_discv _ _ _ (shapedv_read_pid_file h st) (eq_refl true)). Qed.

#[global] Instance disc_log_unexpected_exit (h : handle) (st : Z) :
  Disc (log_unexpected_exit h st).
Proof. intro s. cbv beta delta [log_unexpected_exit]. steady_go. Qed.

(** The three bodies of [handle_exit_status] enter quiet functions only. *)
#[global] Instance disc_process_service_handle_exit_status (h : handle) (st : Z) :
  Disc (process_service_handle_exit_status h st).
Proof. intro s. cbv beta delta [process_service_handle_exit_status]. steady_go. Qed.

Lemma disc_bgproc_service_pass (again : Z -> sset -> sset) (h : handle) (st : Z) :
  (forall v, Disc (again v)) -> Disc (bgproc_service_pass again h st).
Proof. intros Ha s. cbv beta delta [bgproc_service_pass]. steady_go. Qed.

#[global] Instance disc_bgproc_service_loop (n : nat) (h : handle) (st : Z) :
  Disc (bgproc_service_loop n h st).
Proof.
  revert st. induction n as [|n IH]; intro st; simpl;
    apply disc_bgproc_service_pass; intro v.
  - typeclasses eauto.
  - apply IH.
Qed.

#[global] Instance disc_bgproc_service_handle_exit_status (h : handle) (st : Z) :
  Disc (bgproc_service_handle_exit_status h st).
Proof. intro s. apply disc_bgproc_service_loop. Qed.

#[global] Instance disc_scripted_service_handle_exit_status (h : handle) (st : Z) :
  Disc (scripted_service_handle_exit_status h st).
Proof. intro s. cbv beta delta [scripted_service_handle_exit_status]. steady_go. Qed.

#[global] Instance disc_fd_event_started (h : handle) : Disc (fd_event_started h).
Proof. intro s. cbv beta delta [fd_event_started]. steady_go. Qed.

Lemma shaped_handle_exit_status (h : handle) (st : Z) :
  Shaped (c_handle_exit_status st) h (handle_exit_status h st).
Proof. cbv beta delta [handle_exit_status]. shaped_call. Qed.

(** The two members of the set, as modelled, keep it as well. *)
Lemma steady_drain_queue (n : nat) (q : sset -> list handle)
    (setq : list handle -> sset -> sset) (run : handle -> sset -> sset) (s : sset) :
  (forall l, Disc (setq l)) -> (forall h, Disc (run h)) ->
  forall s0, steady s s0 -> steady s (drain_queue n q setq run s0).
Proof.
  intros Hq Hr. induction n as [|n IH]; intros s0 H; simpl;
    destruct (q s0) as [|h rest]; try exact H.
  - steady_go.
  - apply IH. steady_go.
Qed.

Lemma steady_tick_loop (n fuel : nat) (s : sset) :
  forall s0, steady s s0 -> steady s (tick_loop n fuel s0).
Proof.
  induction n as [|n IH]; intros s0 H; simpl; destruct (queues_empty s0); try exact H.
  - steady_go.
  - apply IH. repeat (apply steady_drain_queue; [typeclasses eauto..|]). exact H.
Qed.

Lemma shaped_process_queues_impl (fuel : nat) :
  Shaped c_process_queues O (process_queues_impl fuel).
Proof.
  cbv beta delta [process_queues_impl]. apply call_shaped. intro x.
  apply steady_tick_loop, steady_refl.
Qed.

Lemma shaped_pull_console_queue_impl :
  Shaped c_pull_console_queue O pull_console_queue_impl.
Proof. cbv beta delta [pull_console_queue_impl]. shaped_call. Qed.

End EngineDiscipline.

(** ** The steps of a function body

    [steps s s' l]: from [s] to [s'] the trace grew by a good run of events
    whose outermost layer is [l]. Inside the brackets of a call this layer is
    what the call did itself. *)
Definition steps (s s' : sset) (l : list event) : Prop :=
  exists t, trace s' = trace s ++ t /\ good t /\ at_depth 1 1 t = l.

Lemma steps_refl (s : sset) : steps s s [].
Proof. exists []. repeat split; [now rewrite app_nil_r | constructor]. Qed.

Lemma steps_trans (a b c : sset) (l1 l2 : list event) :
  steps a b l1 -> steps b c l2 -> steps a c (l1 ++ l2).
Proof.
  intros [t1 [E1 [G1 L1]]] [t2 [E2 [G2 L2]]]. exists (t1 ++ t2). repeat split.
  - now rewrite E2, E1, app_assoc.
  - now constructor.
  - now rewrite (at_depth_good 1 t1 G1), L1, L2.
Qed.

Lemma steps_silent (s s1 s2 : sset) (l : list event) :
  trace s2 = trace s1 -> steps s s1 l -> steps s s2 l.
Proof. intros E [t [E1 H]]. exists t. split; [now rewrite E | exact H]. Qed.

Lemma steps_emit (e : event) (s s1 : sset) (l : list event) :
  is_mark e = false -> steps s s1 l -> steps s (emit e s1) (l ++ [e]).
Proof.
  intros He H. apply (steps_trans _ _ _ _ _ H). exists [e]. repeat split.
  - now constructor.
  - now apply at_depth_atom.
Qed.

Lemma steps_call (c : call_t) (h : handle) (f : sset -> sset) (s s1 : sset)
    (l : list event) :
  Shaped c h f -> quiet c = true -> steps s s1 l -> steps s (f s1) (l ++ [Enter c h]).
Proof.
  intros Hf Hq H. apply (steps_trans _ _ _ _ _ H).
  destruct (Hf s1) as [[t [E [t' [-> Gt']]]] _ _ _ _ _].
  exists (Enter c h :: t' ++ [Leave c h]). repeat split.
  - exact E.
  - now constructor.
  - now apply at_depth_call.
Qed.

Lemma steps_callv {A : Type} (c : call_t) (h : handle) (f : sset -> A * sset)
    (s s1 : sset) (l : list event) :
  ShapedV c h f -> quiet c = true -> steps s s1 l ->
  steps s (snd (f s1)) (l ++ [Enter c h]).
Proof.
  intros Hf Hq H. apply (steps_trans _ _ _ _ _ H).
  destruct (Hf s1) as [[t [E [t' [-> Gt']]]] _ _ _ _ _].
  exists (Enter c h :: t' ++ [Leave c h]). repeat split.
  - exact E.
  - now constructor.
  - now apply at_depth_call.
Qed.

Lemma steps_fold {A : Type} (step : sset -> A -> sset) (ev : A -> list event)
    (l : list A) (s : sset) :
  (forall a x acc, steps s x acc -> steps s (step x a) (acc ++ ev a)) ->
  forall s0 acc, steps s s0 acc ->
  steps s (fold_left step l s0) (acc ++ flat_map ev l).
Proof.
  intro Hstep. induction l as [|a l IH]; intros s0 acc H; simpl.
  - now rewrite app_nil_r.
  - rewrite app_assoc. apply IH. now apply Hstep.
Qed.

(** The outermost layer inside the brackets of a call is what the call did
    itself. *)
Lemma direct_call (c : call_t) (h : handle) (body : sset -> sset) (s : sset)
    (l : list event) :
  steps (emit (Enter c h) s) (body (emit (Enter c h) s)) l ->
  direct s (call c h body s) = l.
Proof.
  intros [t [E [G L]]]. unfold direct, call.
  rewrite (news_app s _ (Enter c h :: t ++ [Leave c h])).
  - cbn [at_depth Nat.eqb]. rewrite (at_depth_good 1 t G). cbn [at_depth Nat.pred].
    rewrite L. now rewrite app_nil_r.
  - simpl. rewrite E. simpl. rewrite <- !app_assoc. reflexivity.
Qed.

Lemma direct_callv {A : Type} (c : call_t) (h : handle) (body : sset -> A * sset)
    (s : sset) (l : list event) :
  steps (emit (Enter c h) s) (snd (body (emit (Enter c h) s))) l ->
  direct s (snd (callv c h body s)) = l.
Proof.
  intros [t [E [G L]]]. unfold direct, callv. cbn [snd].
  rewrite (news_app s _ (Enter c h :: t ++ [Leave c h])).
  - cbn [at_depth Nat.eqb]. rewrite (at_depth_good 1 t G). cbn [at_depth Nat.pred].
    rewrite L. now rewrite app_nil_r.
  - simpl. rewrite E. simpl. rewrite <- !app_assoc. reflexivity.
Qed.

(** ** The closed engine keeps the discipline *)

Lemma engine_ops_ok (cis cip : handle -> sset -> bool) (n : nat) :
  OpsOk (engine_ops cis cip n).
Proof.
  induction n as [|n IH]; simpl; split; simpl.
  - apply call_shaped. intro x. steady_go.
  - apply call_shaped. intro x. steady_go.
  - apply (@shaped_process_queues_impl _ IH).
  - apply (@shaped_pull_console_queue_impl _ IH).
Qed.

#[global] Existing Instance engine_ops_ok.

Create HintDb shaped discriminated.

#[global] Hint Resolve
  shaped_require shaped_forceStop shaped_dependentStopped shaped_dependencyStarted
  shapedv_stopDependents shaped_interrupt_start shaped_do_stop_leaf shaped_release_inner
  shaped_do_stop shaped_release shapedv_startCheckDependencies shaped_start
  shapedv_open_socket shaped_failed_to_start shaped_started shaped_stopped
  shaped_emergency_stop shapedv_start_ps_process_cmd shaped_do_restart
  shapedv_restart_ps_process shaped_timer_expiry shapedv_start_ps_process
  shaped_allDepsStarted shaped_acquiredConsole shaped_all_deps_stopped
  shaped_execute_transition shaped_release_dependencies shaped_do_propagation
  shaped_do_start shaped_stop shaped_unpin shapedv_read_pid_file
  process_queues_shaped pull_console_queue_shaped : shaped.

#[global] Hint Extern 1 (OpsOk _) => typeclasses eauto : shaped.

(** One step of a body, read off its outermost function. *)
Ltac steps_step :=
  lazymatch goal with
  | |- steps ?x ?y _ =>
      first
        [ constr_eq x y; apply steps_refl
        | is_var y; apply steps_refl
        | lazymatch y with
          | emit _ _ => eapply steps_emit; [reflexivity|]
          | notifyListeners _ _ _ => eapply steps_emit; [reflexivity|]
          | snd (?f _) => eapply steps_callv; [solve [auto with shaped] | reflexivity |]
          | ?f ?z =>
              first [ eapply steps_call; [solve [auto with shaped] | reflexivity |]
                    | eapply (steps_silent x z); [reflexivity|] ]
          end ]
  end.

Ltac steps_go := repeat steps_step.

Lemma direct_call_eq (c : call_t) (h : handle) (body : sset -> sset) (s : sset)
    (l l' : list event) :
  steps (emit (Enter c h) s) (body (emit (Enter c h) s)) l -> l = l' ->
  direct s (call c h body s) = l'.
Proof. intros H <-. now apply direct_call. Qed.

Lemma direct_steps (c : call_t) (h : handle) (s s1 : sset) (l l' : list event) :
  steps (emit (Enter c h) s) s1 l -> l = l' ->
  direct s (emit (Leave c h) s1) = l'.
Proof. intros H E. exact (direct_call_eq c h (fun _ => s1) s l l' H E). Qed.

Lemma direct_callv_eq {A : Type} (c : call_t) (h : handle) (body : sset -> A * sset)
    (s : sset) (l l' : list event) :
  steps (emit (Enter c h) s) (snd (body (emit (Enter c h) s))) l -> l = l' ->
  direct s (snd (callv c h body s)) = l'.
Proof. intros H <-. now apply direct_callv. Qed.

(** ** Reading and writing the store *)

Lemma records_upd_eq (h : handle) (f : service_record -> service_record) (s : sset) :
  records (upd h f s) h = f (records s h).
Proof. unfold upd. cbn [records set_records]. now rewrite Nat.eqb_refl. Qed.

Lemma records_upd_neq (h k : handle) (f : service_record -> service_record) (s : sset) :
  k <> h -> records (upd h f s) k = records s k.
Proof.
  intro N. unfold upd. cbn [records set_records].
  destruct (Nat.eqb k h) eqn:E; [|reflexivity]. apply Nat.eqb_eq in E. contradiction.
Qed.

Lemma edges_upd_edge_eq (e : edge_id) (f : service_dep -> service_dep) (s : sset) :
  edges (upd_edge e f s) e = f (edges s e).
Proof. unfold upd_edge. cbn [edges set_edges]. now rewrite Nat.eqb_refl. Qed.

Lemma edges_upd_edge_neq (e k : edge_id) (f : service_dep -> service_dep) (s : sset) :
  k <> e -> edges (upd_edge e f s) k = edges s k.
Proof.
  intro N. unfold upd_edge. cbn [edges set_edges].
  destruct (Nat.eqb k e) eqn:E; [|reflexivity]. apply Nat.eqb_eq in E. contradiction.
Qed.

Lemma engine_can_interrupt_start (cis cip : handle -> sset -> bool) (n : nat) :
  @can_interrupt_start (engine_ops cis cip n) = cis.
Proof. destruct n; reflexivity. Qed.

Lemma engine_can_interrupt_stop (cis cip : handle -> sset -> bool) (n : nat) :
  @can_interrupt_stop (engine_ops cis cip n) = cip.
Proof. destruct n; reflexivity. Qed.

(** ** The starting sequence *)

(** Whether [open_socket] has a socket to open, and whether the system calls
    it then makes all succeed. *)
Definition socket_wanted (h : handle) (s : sset) : bool :=
  negb (str_empty (socket_path (cfg (records s h)))) && (socket_fd (records s h) =? -1).

Definition socket_calls_succeed (a : sys_answers) : bool :=
  a_malloc_ok a && negb (a_socket a =? -1) && negb (a_bind a =? -1)
  && (a_chown a =? 0) && negb (a_chmod a =? -1) && negb (a_listen a =? -1).

Lemma open_socket_result {ops : SetOps} (h : handle) (s : sset) :
  fst (open_socket h s) = negb (socket_wanted h s) || socket_calls_succeed (ask s).
Proof.
  unfold open_socket, callv, socket_wanted, socket_calls_succeed. cbn [fst].
  change (records (emit (Enter c_open_socket h) s)) with (records s).
  change (ask (emit (Enter c_open_socket h) s)) with (ask s).
  destruct (str_empty (socket_path (cfg (records s h)))); [reflexivity|].
  destruct (socket_fd (records s h) =? -1); [|reflexivity]. cbn [negb orb andb].
  destruct (a_malloc_ok (ask s)); [|reflexivity].
  destruct (a_socket (ask s) =? -1); [reflexivity|].
  destruct (a_bind (ask s) =? -1); [reflexivity|].
  destruct (a_chown (ask s) =? 0); [|reflexivity].
  destruct (a_chmod (ask s) =? -1); [reflexivity|].
  destruct (a_listen (ask s) =? -1); reflexivity.
Qed.

(** A PROCESS service with an activation socket, in a world where the socket
    cannot be created and [fork] returns child 42. *)
Definition socket_config : service_config :=
  mk_service_config PROCESS [] [] [] [] no_flags false false "/run/app.sock" EmptyString
    EmptyString (-1) (mk_time 0 200000000) (mk_time 10 0) 3.

Definition no_socket_world : sys_answers :=
  mk_sys_answers (mk_time 100 0) true (-1) 0 0 0 0 0 0 true (Some 42%positive)
    5 3 42 0 false 0 0.

Definition socket_failure_set : sset :=
  fresh_set (fun _ => fresh_record socket_config) (fun _ => no_socket_world).

(** The engine used on concrete sets: the spec's [can_interrupt_start], a
    [can_interrupt_stop] that always refuses, nesting depth 5. *)
Definition engine5 : SetOps := engine_ops can_interrupt_start_spec (fun _ _ => false) 5.

(** C1. The claim: in [allDepsStarted], when [open_socket()] fails,
    [failed_to_start()] is called and [start_ps_process()] is not executed.
    The code has no [return] after that [failed_to_start()]: whenever the
    first two gates pass and the socket cannot be opened, [allDepsStarted]
    itself calls [open_socket], then [failed_to_start], and then
    [start_ps_process] all the same. *)
Theorem allDepsStarted_starts_process_after_socket_failure
    (cip : handle -> sset -> bool) (n : nat) (h : handle) (has_console : bool) (s : sset) :
  let ops := engine_ops can_interrupt_start_spec cip n in
  starts_on_console (flags s h) && negb has_console = false ->
  can_interrupt_start_spec h s = false ->
  socket_wanted h s = true ->
  socket_calls_succeed (ask s) = false ->
  exists rest,
    direct s (allDepsStarted h has_console s)
    = Enter c_open_socket h :: Enter (c_failed_to_start false) h
        :: Enter c_start_ps_process h :: rest.
Proof.
  intros ops Hcon Hcis Hw Hs. unfold allDepsStarted.
  set (s0 := emit (Enter (c_allDepsStarted has_console) h) s).
  set (s1 := upd h (set_waiting_for_deps false) s0).
  assert (E1 : can_interrupt_start h s1 = false).
  { unfold ops. rewrite engine_can_interrupt_start. unfold can_interrupt_start_spec, s1.
    rewrite records_upd_eq. exact Hcis. }
  assert (E2 : fst (open_socket h s1) = false).
  { rewrite open_socket_result. unfold socket_wanted, s1. rewrite records_upd_eq.
    change (ask (upd h (set_waiting_for_deps false) s0)) with (ask s).
    unfold socket_wanted in Hw. cbn [cfg socket_fd set_waiting_for_deps].
    change (records s0 h) with (records s h). rewrite Hw, Hs. reflexivity. }
  destruct (fst (start_ps_process h (failed_to_start h false (snd (open_socket h s1)))))
    eqn:E3; eexists; (eapply direct_call_eq; [|]).
  all: try (fold s0; change (flags s0 h) with (flags s h); rewrite Hcon; cbv zeta;
            fold s1; rewrite E1, E2; cbn [negb]; rewrite E3; cbn [negb]).
  - steps_go. apply (steps_silent s0 s0 s1); [reflexivity | apply steps_refl].
  - reflexivity.
  - steps_go. apply (steps_silent s0 s0 s1); [reflexivity | apply steps_refl].
  - reflexivity.
Qed.

Lemma allDepsStarted_starts_process_after_socket_failure_witness :
  (starts_on_console (flags socket_failure_set 0%nat) && negb false = false
   /\ can_interrupt_start_spec 0%nat socket_failure_set = false
   /\ socket_wanted 0%nat socket_failure_set = true
   /\ socket_calls_succeed (ask socket_failure_set) = false)
  /\ exists rest,
       direct socket_failure_set (@allDepsStarted engine5 0%nat false socket_failure_set)
       = Enter c_open_socket 0%nat :: Enter (c_failed_to_start false) 0%nat
           :: Enter c_start_ps_process 0%nat :: rest.
Proof.
  split.
  - repeat split; reflexivity.
  - apply (allDepsStarted_starts_process_after_socket_failure (fun _ _ => false) 5 0%nat
             false socket_failure_set); reflexivity.
Defined.

(** C2. The claim: after every engine operation has run to completion, a
    process-variant record that is STOPPED has [pid == -1]. Control request
    "start" on the service above, queues processed until empty: the record is
    STOPPED (its start failed on the socket) and holds the pid of the child
    that [allDepsStarted] forked nevertheless. *)
Theorem stopped_process_keeps_forked_pid :
  let after := @process_queues engine5 (@start engine5 0%nat true socket_failure_set) in
  is_process_variant (record_type (cfg (records after 0%nat))) = true
  /\ service_state (records after 0%nat) = STOPPED
  /\ pid (records after 0%nat) = 42
  /\ pid (records after 0%nat) <> -1
  /\ queues_empty after = true
  /\ out_of_fuel after = false.
Proof. vm_compute. repeat split; intro E; discriminate E. Qed.

(** ** The restart delay *)

(** A [time_val] in normal form, and its value in nanoseconds. *)
Definition normal (t : time_val) : Prop := 0 <= tv_nsec t < 1000000000.

Definition to_ns (t : time_val) : Z := tv_sec t * 1000000000 + tv_nsec t.

Lemma time_lt_ns (a b : time_val) :
  normal a -> normal b -> (time_lt a b = true <-> to_ns a < to_ns b).
Proof.
  unfold normal, to_ns, time_lt. intros Ha Hb.
  rewrite orb_true_iff, andb_true_iff, !Z.ltb_lt, Z.eqb_eq. nia.
Qed.

Lemma time_sub_ns (a b : time_val) :
  normal a -> normal b ->
  normal (time_sub a b) /\ to_ns (time_sub a b) = to_ns a - to_ns b.
Proof.
  unfold normal, to_ns, time_sub. intros Ha Hb.
  destruct (tv_nsec b <=? tv_nsec a) eqn:E; cbn [tv_sec tv_nsec].
  - apply Z.leb_le in E. lia.
  - apply Z.leb_gt in E. lia.
Qed.

(** C6, as amended. Once the rate-limit check of [restart_ps_process] has
    passed: when more than [restart_delay] has elapsed since
    [last_start_time], [do_restart] is called at once and is all that
    [restart_ps_process] does; otherwise, and also when exactly
    [restart_delay] has elapsed, no [do_restart] is called, the restart timer
    is armed for the remaining delay (zero at equality) and
    [waiting_restart_timer] is set. *)
Theorem restart_ps_process_delay (ops : SetOps) (ok : OpsOk ops) (h : handle) (s : sset) :
  let now := a_now (ask s) in
  let last := last_start_time (records s h) in
  let delay := restart_delay (cfg (records s h)) in
  let after := snd (restart_ps_process h s) in
  normal now -> normal last -> normal delay ->
  fst (restart_ps_process h s) = true ->
  (to_ns delay < to_ns now - to_ns last ->
     direct s after = [Enter c_do_restart h])
  /\ (to_ns now - to_ns last <= to_ns delay ->
      exists timeout,
        direct s after = [Effect (fx_arm_timer timeout) h]
        /\ normal timeout
        /\ to_ns timeout = to_ns delay - (to_ns now - to_ns last)
        /\ restart_timer (records after h) = Some timeout
        /\ waiting_restart_timer (records after h) = true).
Proof.
  intros now last delay after Hn Hl Hd Hpass.
  destruct (time_sub_ns now last Hn Hl) as [Ntd Etd].
  pose proof (time_lt_ns delay (time_sub now last) Hd Ntd) as Hlt.
  destruct (time_sub_ns delay (time_sub now last) Hd Ntd) as [Nto Eto].
  revert Hpass. unfold after, restart_ps_process, callv. cbn [fst snd].
  set (s0 := emit (Enter c_restart_ps_process h) s).
  change (ask s0) with (ask s). fold now. cbv zeta.
  change (records (asked s0) h) with (records s h).
  match goal with |- context [if ?c then (false, _) else _] => destruct c end;
    [intro E; discriminate E|]. intros _.
  match goal with
  | |- context [last_start_time (records ?x h)] =>
      replace (last_start_time (records x h)) with last
  end.
  2:{ match goal with |- context [if ?c then _ else _] => destruct c end;
      [now rewrite !records_upd_eq | reflexivity]. }
  fold delay.
  match goal with
  | |- context [do_restart h ?x] => set (s2 := x)
  end.
  assert (S2 : steps s0 s2 []).
  { unfold s2. match goal with |- context [if ?c then _ else _] => destruct c end;
      steps_go. }
  destruct (time_lt delay (time_sub now last)) eqn:E; cbn [snd]; split; intro Hcmp.
  - eapply direct_steps; [eapply steps_call; [auto with shaped | reflexivity | exact S2]|].
    reflexivity.
  - destruct Hlt as [Hf _]. specialize (Hf eq_refl). lia.
  - destruct Hlt as [_ Hb]. assert (false = true) as E' by (apply Hb; lia).
    discriminate E'.
  - exists (time_sub delay (time_sub now last)). repeat split.
    + eapply direct_steps; [|reflexivity].
      eapply (steps_silent s0); [reflexivity|]. eapply (steps_silent s0); [reflexivity|].
      change [Effect (fx_arm_timer (time_sub delay (time_sub now last))) h]
        with ([] ++ [Effect (fx_arm_timer (time_sub delay (time_sub now last))) h]).
      apply steps_emit; [reflexivity | exact S2].
    + apply Nto.
    + apply Nto.
    + rewrite Eto, Etd. reflexivity.
    + change (records (emit ?e ?x) h) with (records x h).
      now rewrite records_upd_eq, records_upd_eq.
    + change (records (emit ?e ?x) h) with (records x h).
      now rewrite records_upd_eq.
Qed.

(** A PROCESS service whose process was last started at 100 s and whose
    restart delay is 200 ms, in a world whose clock reads [now]. *)
Definition restarting_record : service_record :=
  set_last_start_time (mk_time 100 0)
    (set_restarting true
       (set_service_state STARTING
          (set_desired_state STARTED (fresh_record (plain_config PROCESS))))).

Definition restart_set (now : time_val) : sset :=
  fresh_set (fun _ => restarting_record) (fun _ => calm now 42%positive).

Lemma restart_ps_process_delay_witness :
  let s := restart_set (mk_time 101 0) in
  let now := a_now (ask s) in
  let last := last_start_time (records s 0%nat) in
  let delay := restart_delay (cfg (records s 0%nat)) in
  (normal now /\ normal last /\ normal delay
   /\ fst (@restart_ps_process engine5 0%nat s) = true
   /\ to_ns delay < to_ns now - to_ns last)
  /\ direct s (snd (@restart_ps_process engine5 0%nat s)) = [Enter c_do_restart 0%nat].
Proof.
  intros s now last delay.
  assert (Nn : normal now) by (vm_compute; split; [intro E; discriminate E | reflexivity]).
  assert (Nl : normal last) by (vm_compute; split; [intro E; discriminate E | reflexivity]).
  assert (Nd : normal delay) by (vm_compute; split; [intro E; discriminate E | reflexivity]).
  assert (P : fst (@restart_ps_process engine5 0%nat s) = true) by reflexivity.
  assert (L : to_ns delay < to_ns now - to_ns last) by reflexivity.
  split; [exact (conj Nn (conj Nl (conj Nd (conj P L))))|].
  destruct (restart_ps_process_delay engine5 (engine_ops_ok _ _ 5) 0%nat s Nn Nl Nd P)
    as [Fast _].
  exact (Fast L).
Defined.

(** C6, as stated, at its boundary: exactly [restart_delay] after the last
    start the rate-limit check passes, yet [restart_ps_process] does not call
    [do_restart]; it arms the timer, for a zero timeout. *)
Lemma restart_at_exact_delay_arms_timer :
  let s := restart_set (mk_time 100 200000000) in
  let after := snd (@restart_ps_process engine5 0%nat s) in
  fst (@restart_ps_process engine5 0%nat s) = true
  /\ to_ns (a_now (ask s)) - to_ns (last_start_time (records s 0%nat))
     = to_ns (restart_delay (cfg (records s 0%nat)))
  /\ direct s after = [Effect (fx_arm_timer (mk_time 0 0)) 0%nat]
  /\ ~ In (Enter c_do_restart 0%nat) (direct s after)
  /\ waiting_restart_timer (records after 0%nat) = true.
Proof.
  vm_compute. repeat split. intros [E|[]]. discriminate E.
Qed.

(** ** Exit of the command of a scripted service *)

(** What [scripted_service::handle_exit_status] logs for a command that
    failed: one line when the command exited or was killed by a signal. *)
Definition scripted_failure_log (lvl : LogLevel) (h : handle) (st : Z) : list event :=
  if WIFEXITED st then [Log (msg_text lvl) h]
  else if WIFSIGNALED st then [Log (msg_text lvl) h]
  else [].

(** C8. For a SCRIPTED service in STOPPING, [handle_exit_status] calls
    [stopped()] for every exit status of the stop command, after logging a
    failure at INFO when the command did not exit with code 0, and then
    processes the queues. In STARTING, status 0 leads to [started()] and every
    other status to [failed_to_start()]. *)
Theorem scripted_handle_exit_status_outcome (ops : SetOps) (ok : OpsOk ops) (h : handle)
    (st : Z) (s : sset) :
  record_type (cfg (records s h)) = SCRIPTED ->
  (service_state (records s h) = STOPPING ->
     direct s (handle_exit_status h st s)
     = (if WIFEXITED st && (WEXITSTATUS st =? 0) then []
        else scripted_failure_log INFO h st)
       ++ [Enter c_stopped h; Enter c_process_queues O])
  /\ (service_state (records s h) = STARTING ->
      direct s (handle_exit_status h st s)
      = if st =? 0 then [Enter c_started h; Enter c_process_queues O]
        else scripted_failure_log ERROR h st
             ++ [Enter (c_failed_to_start false) h; Enter c_process_queues O]).
Proof.
  intro Ht. split; intro Hs; unfold handle_exit_status, call;
    set (s0 := emit (Enter (c_handle_exit_status st) h) s);
    change (records s0 h) with (records s h); rewrite Ht;
    unfold scripted_service_handle_exit_status, state_is, scripted_failure_log;
    change (records s0 h) with (records s h); rewrite Hs; cbn [state_eqb]; cbv zeta.
  - destruct (WIFEXITED st && (WEXITSTATUS st =? 0));
      [|destruct (WIFEXITED st); [|destruct (WIFSIGNALED st)]];
      (eapply direct_steps; [steps_go | reflexivity]).
  - destruct (st =? 0);
      [|destruct (WIFEXITED st); [|destruct (WIFSIGNALED st)]];
      (eapply direct_steps; [steps_go | reflexivity]).
Qed.

(** A SCRIPTED service that is STOPPING; its stop command exits with code 1
    (wait status 256). *)
Definition stopping_script_set : sset :=
  fresh_set
    (fun _ => set_service_state STOPPING (fresh_record (plain_config SCRIPTED)))
    (fun _ => calm time0 42%positive).

Lemma scripted_handle_exit_status_outcome_witness :
  let s := stopping_script_set in
  (record_type (cfg (records s 0%nat)) = SCRIPTED
   /\ service_state (records s 0%nat) = STOPPING)
  /\ direct s (@handle_exit_status engine5 0%nat 256 s)
     = [Log (msg_text INFO) 0%nat; Enter c_stopped 0%nat; Enter c_process_queues O].
Proof.
  intro s.
  destruct (scripted_handle_exit_status_outcome engine5 (engine_ops_ok _ _ 5) 0%nat 256 s
              eq_refl) as [Stopping _].
  split; [split; reflexivity|].
  exact (Stopping eq_refl).
Defined.

(** ** What a step leaves unchanged

    [kept obs s s']: every observation [obs _ k] is the same in [s'] as in
    [s]. Three observations are used: the activation of a record, a soft
    edge, and the two together. *)
Section Kept.

Context {K X : Type} (obs : sset -> K -> X).

Definition kept (s s' : sset) : Prop := forall k, obs s' k = obs s k.

Definition Kept (f : sset -> sset) : Prop := forall s, kept s (f s).

Definition KeptV {A : Type} (f : sset -> A * sset) : Prop :=
  forall s, kept s (snd (f s)).

Lemma kept_refl (s : sset) : kept s s.
Proof. intro k. reflexivity. Qed.

Lemma kept_trans (a b c : sset) : kept a b -> kept b c -> kept a c.
Proof. intros H1 H2 k. now rewrite H2. Qed.

Lemma kept_app (f : sset -> sset) (s s' : sset) : Kept f -> kept s s' -> kept s (f s').
Proof. intros Hf H. exact (kept_trans _ _ _ H (Hf s')). Qed.

Lemma kept_appv {A : Type} (f : sset -> A * sset) (s s' : sset) :
  KeptV f -> kept s s' -> kept s (snd (f s')).
Proof. intros Hf H. exact (kept_trans _ _ _ H (Hf s')). Qed.

Lemma kept_silent (s s1 s2 : sset) :
  (forall k, obs s2 k = obs s1 k) -> kept s s1 -> kept s s2.
Proof. intros E H k. rewrite E. apply H. Qed.

Lemma kept_fold {A : Type} (step : sset -> A -> sset) (l : list A) (s : sset) :
  (forall a x, kept s x -> kept s (step x a)) ->
  forall s0, kept s s0 -> kept s (fold_left step l s0).
Proof.
  intro Hstep. induction l as [|a l IH]; intros s0 H0; simpl.
  - exact H0.
  - apply IH. now apply Hstep.
Qed.

End Kept.

(** The part of a record that counts activations: the reference count, the
    explicit-activation mark and the two sticky bits that carry a pending
    require or release to the dependencies. *)
Definition activation (r : service_record) : Z * bool * bool * bool :=
  (required_by r, start_explicit r, prop_require r, prop_release r).

Definition act_at (s : sset) (k : handle) : Z * bool * bool * bool :=
  activation (records s k).

Definition edge_at (s : sset) (e : edge_id) : service_dep := edges s e.

Definition pid_at (s : sset) (k : handle) : Z := pid (records s k).

Definition both_at (s : sset) (p : handle * edge_id)
    : (Z * bool * bool * bool) * Z * service_dep :=
  (act_at s (fst p), pid_at s (fst p), edge_at s (snd p)).

Lemma kept_both_act (s s' : sset) : kept both_at s s' -> kept act_at s s'.
Proof. intros H k. exact (f_equal (fun x => fst (fst x)) (H (k, O))). Qed.

Lemma kept_both_pid (s s' : sset) : kept both_at s s' -> kept pid_at s s'.
Proof. intros H k. exact (f_equal (fun x => snd (fst x)) (H (k, O))). Qed.

Lemma kept_both_edge (s s' : sset) : kept both_at s s' -> kept edge_at s s'.
Proof. intros H e. exact (f_equal snd (H (O, e))). Qed.

Lemma Kept_both_pid (f : sset -> sset) : Kept both_at f -> Kept pid_at f.
Proof. intros H s. apply kept_both_pid, H. Qed.

Lemma KeptV_both_pid {A : Type} (f : sset -> A * sset) :
  KeptV both_at f -> KeptV pid_at f.
Proof. intros H s. apply kept_both_pid, H. Qed.

Lemma Kept_both_act (f : sset -> sset) : Kept both_at f -> Kept act_at f.
Proof. intros H s. apply kept_both_act, H. Qed.

Lemma Kept_both_edge (f : sset -> sset) : Kept both_at f -> Kept edge_at f.
Proof. intros H s. apply kept_both_edge, H. Qed.

Lemma KeptV_both_act {A : Type} (f : sset -> A * sset) :
  KeptV both_at f -> KeptV act_at f.
Proof. intros H s. apply kept_both_act, H. Qed.

Lemma KeptV_both_edge {A : Type} (f : sset -> A * sset) :
  KeptV both_at f -> KeptV edge_at f.
Proof. intros H s. apply kept_both_edge, H. Qed.

Create HintDb kept discriminated.

(** A primitive keeps an observation when the observation reads through it. *)
Ltac kept_side :=
  let k := fresh "k" in
  intro k;
  first
    [ reflexivity
    | cbv beta delta [both_at act_at pid_at edge_at];
      cbn [records edges upd upd_edge set_records set_edges fst snd];
      repeat match goal with
             | |- context [Nat.eqb ?a ?b] => destruct (Nat.eqb a b)
             end;
      reflexivity ].

Ltac kept_bind o x a K :=
  change (kept o x (K a));
  let T := type of a in
  let H := fresh "H" in
  lazymatch T with
  | sset =>
      assert (H : kept o x a);
      [ | revert H; generalize a; intros ? H; cbv beta ]
  | prod _ sset =>
      assert (H : kept o x (snd a));
      [ | revert H; generalize a; intros ? H; cbv beta ]
  | _ => generalize a; intro; cbv beta
  end.

Ltac kept_step :=
  lazymatch goal with
  | |- kept ?o ?x ?y =>
      first
        [ constr_eq x y; apply kept_refl
        | is_var y; assumption
        | lazymatch y with snd ?p => is_var p; assumption end
        | lazymatch y with
          | (let v := ?a in @?k v) => kept_bind o x a k
          | snd (let v := ?a in @?k v) =>
              let K := constr:(fun v => snd (k v)) in kept_bind o x a K
          | (if ?c then _ else _) => destruct c
          | (match ?c with _ => _ end) => destruct c
          | snd (if ?c then _ else _) => destruct c
          | snd (_, _) => cbn [snd]
          | fold_left _ _ _ =>
              apply kept_fold; [let a := fresh "a" in let x := fresh "x" in
                                let H := fresh "H" in intros a x H; cbv beta|]
          | snd (?f _) => eapply kept_appv; [solve [auto with kept]|]
          | ?f ?z =>
              first [ eapply kept_app; [solve [auto with kept]|]
                    | eapply (kept_silent o x z); [kept_side|] ]
          end ]
  end.

Ltac kept_go := cbv beta; repeat kept_step.

Ltac kept_call := cbv beta delta [call]; intro; kept_go.

(** ** Activation: [require], [release], [start] *)

Section Activation.

Context {ops : SetOps}.

(** The leaves of the stop cascade touch neither activations nor edges. *)
Lemma both_forceStop (h : handle) : Kept both_at (forceStop h).
Proof. cbv beta delta [forceStop]. kept_call. Qed.

Lemma both_dependencyStarted (h : handle) : Kept both_at (dependencyStarted h).
Proof. cbv beta delta [dependencyStarted]. kept_call. Qed.

#[local] Hint Resolve both_forceStop both_dependencyStarted : kept.

Lemma both_stopDependents_fold (h : handle) (l : list handle) (s : sset) :
  forall acc, kept both_at s (snd acc) ->
  kept both_at s (snd (fold_left (stopDependents_step h) l acc)).
Proof.
  induction l as [|i l IH]; intros acc H; simpl; [exact H|].
  apply IH. cbv beta delta [stopDependents_step]. cbn [snd]. kept_go.
Qed.

Lemma both_stopDependents (h : handle) : KeptV both_at (stopDependents h).
Proof.
  intro s. cbv beta delta [stopDependents callv]. cbn [snd].
  eapply (kept_silent both_at s); [kept_side|].
  apply both_stopDependents_fold. cbn [snd].
  eapply (kept_silent both_at s s); [kept_side | apply kept_refl].
Qed.

Lemma both_interrupt_start (h : handle) : Kept both_at (interrupt_start h).
Proof.
  cbv beta delta [interrupt_start base_process_service_interrupt_start
                    service_record_interrupt_start]. kept_call.
Qed.

#[local] Hint Resolve both_stopDependents both_interrupt_start : kept.

Lemma both_do_stop_tail (h : handle) : Kept both_at (do_stop_tail h).
Proof. intro s. cbv beta delta [do_stop_tail]. kept_go. Qed.

Lemma still_forceStop (h : handle) : Kept act_at (forceStop h).
Proof. apply Kept_both_act, both_forceStop. Qed.

Lemma still_dependencyStarted (h : handle) : Kept act_at (dependencyStarted h).
Proof. apply Kept_both_act, both_dependencyStarted. Qed.

Lemma still_stopDependents (h : handle) : KeptV act_at (stopDependents h).
Proof. apply KeptV_both_act, both_stopDependents. Qed.

Lemma still_interrupt_start (h : handle) : Kept act_at (interrupt_start h).
Proof. apply Kept_both_act, both_interrupt_start. Qed.

Lemma still_do_stop_tail (h : handle) : Kept act_at (do_stop_tail h).
Proof. apply Kept_both_act, both_do_stop_tail. Qed.

Lemma edges_forceStop (h : handle) : Kept edge_at (forceStop h).
Proof. apply Kept_both_edge, both_forceStop. Qed.

Lemma edges_stopDependents (h : handle) : KeptV edge_at (stopDependents h).
Proof. apply KeptV_both_edge, both_stopDependents. Qed.

Lemma edges_interrupt_start (h : handle) : Kept edge_at (interrupt_start h).
Proof. apply Kept_both_edge, both_interrupt_start. Qed.

Lemma edges_do_stop_tail (h : handle) : Kept edge_at (do_stop_tail h).
Proof. apply Kept_both_edge, both_do_stop_tail. Qed.

#[local] Hint Resolve still_forceStop still_dependencyStarted still_stopDependents
  still_interrupt_start still_do_stop_tail edges_forceStop edges_stopDependents
  edges_interrupt_start edges_do_stop_tail : kept.

Lemma pid_forceStop (h : handle) : Kept pid_at (forceStop h).
Proof. apply Kept_both_pid, both_forceStop. Qed.

Lemma pid_dependencyStarted (h : handle) : Kept pid_at (dependencyStarted h).
Proof. apply Kept_both_pid, both_dependencyStarted. Qed.

Lemma pid_stopDependents (h : handle) : KeptV pid_at (stopDependents h).
Proof. apply KeptV_both_pid, both_stopDependents. Qed.

Lemma pid_interrupt_start (h : handle) : Kept pid_at (interrupt_start h).
Proof. apply Kept_both_pid, both_interrupt_start. Qed.

Lemma pid_do_stop_tail (h : handle) : Kept pid_at (do_stop_tail h).
Proof. apply Kept_both_pid, both_do_stop_tail. Qed.

#[local] Hint Resolve pid_forceStop pid_dependencyStarted pid_stopDependents
  pid_interrupt_start pid_do_stop_tail : kept.

(** [do_stop] and [release] leave every pid as it is. *)
Lemma pid_do_stop_with (k0 : handle -> sset -> sset) (h : handle) :
  (forall i, Kept pid_at (k0 i)) -> Kept pid_at (do_stop_with k0 h).
Proof. intro Hk. cbv beta delta [do_stop_with]. kept_call. Qed.

Lemma pid_release_with (k0 : handle -> sset -> sset) (h : handle) :
  (forall i, Kept pid_at (k0 i)) -> Kept pid_at (release_with k0 h).
Proof. intro Hk. cbv beta delta [release_with]. kept_call. Qed.

Lemma pid_do_stop_leaf (h : handle) : Kept pid_at (do_stop_leaf h).
Proof. apply pid_do_stop_with. intros i s e. reflexivity. Qed.

Lemma pid_release_inner (h : handle) : Kept pid_at (release_inner h).
Proof. apply pid_release_with. intro i. apply pid_do_stop_leaf. Qed.

Lemma pid_do_stop (h : handle) : Kept pid_at (do_stop h).
Proof. apply pid_do_stop_with. intro i. apply pid_release_inner. Qed.

#[local] Hint Resolve pid_do_stop : kept.

(** A service that does not hand over the console when it has started keeps
    every pid through [started]. *)
Lemma pid_started_without_console (h : handle) (s : sset) :
  starts_on_console (flags s h) && negb (runs_on_console (flags s h)) = false ->
  kept pid_at s (started h s).
Proof.
  intro E. cbv beta delta [started call].
  change (flags (emit (Enter c_started h) s) h) with (flags s h). rewrite E.
  kept_go.
Qed.

(** [do_stop], [release] and [require] leave every soft edge as it is. *)
Lemma edges_do_stop_with (k0 : handle -> sset -> sset) (h : handle) :
  (forall i, Kept edge_at (k0 i)) -> Kept edge_at (do_stop_with k0 h).
Proof. intro Hk. cbv beta delta [do_stop_with]. kept_call. Qed.

Lemma edges_release_with (k0 : handle -> sset -> sset) (h : handle) :
  (forall i, Kept edge_at (k0 i)) -> Kept edge_at (release_with k0 h).
Proof. intro Hk. cbv beta delta [release_with]. kept_call. Qed.

Lemma edges_do_stop_leaf (h : handle) : Kept edge_at (do_stop_leaf h).
Proof. apply edges_do_stop_with. intros i s e. reflexivity. Qed.

Lemma edges_release_inner (h : handle) : Kept edge_at (release_inner h).
Proof. apply edges_release_with. intro i. apply edges_do_stop_leaf. Qed.

Lemma edges_do_stop (h : handle) : Kept edge_at (do_stop h).
Proof. apply edges_do_stop_with. intro i. apply edges_release_inner. Qed.

Lemma edges_release (h : handle) : Kept edge_at (release h).
Proof. apply edges_release_with. intro i. apply edges_do_stop. Qed.

Lemma edges_require (h : handle) : Kept edge_at (require h).
Proof. cbv beta delta [require]. kept_call. Qed.

Lemma still_check_hard_deps (b : bool) (l : list handle) (s : sset) :
  forall all s0, kept act_at s s0 -> kept act_at s (snd (snd (check_hard_deps b l all s0))).
Proof.
  induction l as [|i l IH]; intros all s0 H; simpl; [exact H|].
  destruct (negb (state_is s0 i STARTED)); [destruct b|]; try apply IH; simpl; kept_go.
Qed.

Lemma still_check_soft_deps (b : bool) (l : list edge_id) (s : sset) :
  forall all s0, kept act_at s s0 -> kept act_at s (snd (snd (check_soft_deps b l all s0))).
Proof.
  induction l as [|e l IH]; intros all s0 H; simpl; [exact H|].
  destruct b.
  - destruct (negb (state_is s0 (dep_to (edges s0 e)) STARTED)); apply IH; kept_go.
  - destruct (waiting_on (edges s0 e)); [|now apply IH].
    destruct (negb (state_is s0 (dep_to (edges s0 e)) STARTING)); [apply IH|simpl];
      kept_go.
Qed.

Lemma still_startCheckDependencies (h : handle) (b : bool) :
  KeptV act_at (startCheckDependencies h b).
Proof.
  intro s. cbv beta delta [startCheckDependencies callv]. cbn [snd].
  eapply (kept_silent act_at s); [kept_side|]. cbv zeta.
  set (s0 := emit (Enter (c_startCheckDependencies b) h) s).
  assert (H0 : kept act_at s s0) by (intro k; reflexivity).
  destruct (fst (check_hard_deps b (depends_on (cfg (records s0 h))) true s0)).
  - now apply still_check_hard_deps.
  - now apply still_check_soft_deps, still_check_hard_deps.
Qed.

#[local] Hint Resolve still_startCheckDependencies : kept.

Lemma still_start_transition (h : handle) : Kept act_at (start_transition h).
Proof. intro s. cbv beta delta [start_transition]. kept_go. Qed.

#[local] Hint Resolve still_start_transition : kept.

(** What [require] does to the record it is called on. *)
Definition require_record (r : service_record) : service_record :=
  let r1 := set_required_by (int_wrap (required_by r + 1)) r in
  if required_by r =? 0
  then set_prop_release false (set_prop_require (negb (prop_release r1)) r1)
  else r1.

Lemma records_require (h : handle) (s : sset) (k : handle) :
  records (require h s) k
  = if Nat.eqb k h then require_record (records s h) else records s k.
Proof.
  unfold require, call, require_record. cbv zeta.
  change (records (emit ?e ?x)) with (records x).
  change (records (emit (Enter c_require h) s) h) with (records s h).
  destruct (required_by (records s h) =? 0).
  - change (records (addToPropQueue h ?x)) with (records x).
    destruct (Nat.eqb k h) eqn:E.
    + apply Nat.eqb_eq in E. subst k. rewrite !records_upd_eq. reflexivity.
    + apply Nat.eqb_neq in E. rewrite !records_upd_neq by exact E. reflexivity.
  - destruct (Nat.eqb k h) eqn:E.
    + apply Nat.eqb_eq in E. subst k. rewrite !records_upd_eq. reflexivity.
    + apply Nat.eqb_neq in E. rewrite !records_upd_neq by exact E. reflexivity.
Qed.

Lemma prop_queue_require (h : handle) (s : sset) :
  prop_queue (require h s)
  = if required_by (records s h) =? 0 then enqueue h (prop_queue s) else prop_queue s.
Proof.
  unfold require, call. cbv zeta.
  change (records (emit (Enter c_require h) s) h) with (records s h).
  destruct (required_by (records s h) =? 0); reflexivity.
Qed.

(** [start] changes the activation of a record only in its first statement. *)
Definition start_prelude (h : handle) (activate : bool) (s : sset) : sset :=
  if activate && negb (start_explicit (records s h))
  then upd h (set_start_explicit true) (require h s)
  else s.

Lemma still_start (h : handle) (a : bool) (s : sset) :
  kept act_at (start_prelude h a (emit (Enter (c_start a) h) s)) (start h a s).
Proof.
  unfold start, call, start_prelude.
  set (s0 := emit (Enter (c_start a) h) s).
  eapply (kept_silent act_at _ _ _); [kept_side|].
  cbv zeta.
  set (s1 := if a && negb (start_explicit (records s0 h)) then _ else s0).
  clearbody s1.
  kept_go.
Qed.

Lemma activation_start (h : handle) (a : bool) (s : sset) :
  activation (records (start h a s) h)
  = if a && negb (start_explicit (records s h))
    then activation (set_start_explicit true (require_record (records s h)))
    else activation (records s h).
Proof.
  pose proof (still_start h a s h) as E. unfold act_at in E. rewrite E.
  unfold start_prelude.
  change (records (emit (Enter (c_start a) h) s) h) with (records s h).
  destruct (a && negb (start_explicit (records s h))); [|reflexivity].
  rewrite records_upd_eq, records_require, Nat.eqb_refl. reflexivity.
Qed.

Lemma activation_fields (r : service_record) (a : Z) (b c d : bool) :
  activation r = (a, b, c, d) ->
  required_by r = a /\ start_explicit r = b /\ prop_require r = c /\ prop_release r = d.
Proof. unfold activation. intro E. injection E as E1 E2 E3 E4. auto. Qed.

(** C7. From [required_by == 0] and [start_explicit] clear, [start(true)]
    twice in succession leaves [required_by == 1]: the first call requires
    the record and sets [start_explicit]; the second finds it set, does not
    call [require()] and leaves the count alone. *)
Theorem start_twice_requires_once (h : handle) (s : sset) :
  required_by (records s h) = 0 ->
  start_explicit (records s h) = false ->
  let once := start h true s in
  let twice := start h true once in
  required_by (records once h) = 1
  /\ start_explicit (records once h) = true
  /\ required_by (records twice h) = 1
  /\ ~ In (Enter c_require h) (direct once twice).
Proof.
  intros Hr He once twice.
  assert (A1 : activation (records once h)
               = (1, true, negb (prop_release (records s h)), false)).
  { unfold once. rewrite activation_start, He. cbn [andb negb]. unfold require_record.
    rewrite Hr. reflexivity. }
  destruct (activation_fields _ _ _ _ _ A1) as (R1 & E1 & P1 & Q1).
  assert (A2 : activation (records twice h) = activation (records once h)).
  { unfold twice. rewrite activation_start, E1. reflexivity. }
  rewrite A1 in A2.
  destruct (activation_fields _ _ _ _ _ A2) as (R2 & E2 & P2 & Q2).
  repeat split.
  - exact R1.
  - exact E1.
  - exact R2.
  - unfold twice. clearbody once. clear twice A2 R2 E2 P2 Q2. unfold start, call.
    set (s0 := emit (Enter (c_start true) h) once).
    change (records s0 h) with (records once h). rewrite E1. cbn [andb negb]. cbv zeta.
    unfold start_transition, state_is. cbv zeta.
    repeat match goal with
    | |- context [if ?c then _ else _] => destruct c
    end.
    all: match goal with
         | |- ~ In ?e (direct ?a ?b) =>
             let H := fresh in
             assert (H : exists l, direct a b = l /\ ~ In e l);
             [ eexists; split;
               [ eapply direct_steps; [steps_go | reflexivity]
               | cbn; intuition discriminate ]
             | destruct H as [l [-> Hl]]; exact Hl ]
         end.
Qed.

(** The two sticky bits of activation. *)
Definition bits (r : service_record) : bool * bool := (prop_require r, prop_release r).

Lemma still_bits (s s' : sset) (k : handle) :
  kept act_at s s' -> bits (records s' k) = bits (records s k).
Proof.
  intro H. specialize (H k). unfold act_at, activation in H. unfold bits.
  injection H as _ _ -> ->. reflexivity.
Qed.

(** A [release] that does not bring the count to zero only decrements it. *)
Lemma records_release_no_hit (k0 : handle -> sset -> sset) (h : handle) (s : sset) :
  int_wrap (required_by (records s h) - 1) <> 0 ->
  records (release_with k0 h s)
  = records (upd h (fun r => set_required_by (int_wrap (required_by r - 1)) r) s).
Proof.
  intro N. unfold release_with, call. cbv zeta.
  change (records (emit ?e ?x)) with (records x).
  rewrite records_upd_eq. cbn [required_by set_required_by].
  change (records (emit (Enter c_release h) s) h) with (records s h).
  destruct (int_wrap (required_by (records s h) - 1) =? 0) eqn:E.
  - apply Z.eqb_eq in E. contradiction.
  - reflexivity.
Qed.

(** [do_stop] on a record that nobody requires leaves the bits of every
    record alone: the [release] it may call takes the count below zero. *)
Lemma do_stop_bits (h : handle) (s : sset) (k : handle) :
  required_by (records s h) = 0 ->
  bits (records (do_stop h s) k) = bits (records s k).
Proof.
  intro R0. unfold do_stop, do_stop_with, call.
  change (records (emit ?e ?x)) with (records x).
  set (s0 := emit (Enter c_do_stop h) s).
  destruct (pinned_started (records s0 h)); [reflexivity|]. cbv zeta.
  set (explicit := start_explicit (records s0 h) && negb (do_auto_restart h s0)).
  set (s1 := if explicit then release_inner h (upd h (set_start_explicit false) s0) else s0).
  assert (B1 : forall j, bits (records s1 j) = bits (records s j)).
  { intro j. unfold s1. destruct explicit; [|reflexivity].
    unfold release_inner. rewrite records_release_no_hit.
    - destruct (Nat.eq_dec j h) as [->|N].
      + rewrite !records_upd_eq. reflexivity.
      + rewrite !records_upd_neq by exact N. reflexivity.
    - rewrite records_upd_eq. cbn [required_by set_start_explicit].
      change (records s0 h) with (records s h). rewrite R0. vm_compute. discriminate. }
  assert (E1 : explicit && (required_by (records s1 h) =? 0) = false).
  { unfold s1. destruct explicit; [|reflexivity]. cbn [andb].
    unfold release_inner. rewrite records_release_no_hit.
    - rewrite !records_upd_eq. cbn [required_by set_required_by set_start_explicit].
      change (records s0 h) with (records s h). rewrite R0. reflexivity.
    - rewrite records_upd_eq. cbn [required_by set_start_explicit].
      change (records s0 h) with (records s h). rewrite R0. vm_compute. discriminate. }
  rewrite E1. rewrite <- (B1 k). clearbody s1. apply still_bits. kept_go.
Qed.

(** The innermost [do_stop] never uses its parameter: a [do_stop] entered
    with [start_explicit] clear makes no call to [release]. *)
Lemma do_stop_with_start_explicit_clear (k1 k2 : handle -> sset -> sset) (h : handle)
    (s : sset) :
  start_explicit (records s h) = false ->
  do_stop_with k1 h s = do_stop_with k2 h s.
Proof.
  intro E. unfold do_stop_with, call.
  change (records (emit (Enter c_do_stop h) s) h) with (records s h).
  rewrite E. reflexivity.
Qed.

Lemma release_inner_keeps_start_explicit (h : handle) (s : sset) :
  start_explicit (records s h) = false ->
  forall x, records x h = records
    (upd h (fun r => set_required_by (int_wrap (required_by r - 1)) r)
       (emit (Enter c_release h) s)) h ->
  start_explicit (records x h) = false.
Proof. intros E x ->. rewrite records_upd_eq. exact E. Qed.

Lemma In_enqueue (h : handle) (q : list handle) : In h (enqueue h q).
Proof.
  unfold enqueue, queued. destruct (existsb (Nat.eqb h) q) eqn:E.
  - apply existsb_exists in E. destruct E as [x [Hx Ex]].
    apply Nat.eqb_eq in Ex. now subst x.
  - apply in_or_app. right. now left.
Qed.

(** What [release] does to the bits of the record it brings to zero. *)
Lemma bits_release_to_zero (h : handle) (s : sset) :
  required_by (records s h) = 1 ->
  bits (records (release h s) h) = (false, negb (prop_require (records s h))).
Proof.
  intro R1. unfold release, release_with, call. cbv zeta.
  change (records (emit ?e ?x)) with (records x).
  set (s0 := emit (Enter c_release h) s).
  rewrite records_upd_eq. cbn [required_by set_required_by].
  change (records s0 h) with (records s h). rewrite R1. cbn [Z.sub Z.eqb int_wrap].
  change (int_wrap (1 - 1) =? 0) with true. cbv iota.
  match goal with
  | |- context [do_stop h ?x] => set (s3 := x)
  end.
  assert (B3 : bits (records s3 h) = (false, negb (prop_require (records s h)))).
  { unfold s3. change (records (addToPropQueue h ?x)) with (records x).
    rewrite !records_upd_eq. reflexivity. }
  assert (R3 : required_by (records s3 h) = 0).
  { unfold s3. change (records (addToPropQueue h ?x)) with (records x).
    rewrite !records_upd_eq. cbn [required_by set_prop_require set_prop_release
      set_desired_state set_required_by].
    change (records s0 h) with (records s h). rewrite R1. reflexivity. }
  clearbody s3. destruct (state_is s3 h STOPPED).
  - exact B3.
  - now rewrite do_stop_bits.
Qed.

(** C4, as amended. [require()] increments [required_by]; on the 0 to 1
    transition it enqueues the record on the propagate queue and sets
    [prop_require], unless [prop_release] is pending, in which case the two
    cancel and neither bit is set. [require()] on the 0 to 1 transition
    followed by [release()], both before propagation runs, leaves
    [prop_require] clear and [prop_release] as it was before the
    [require()]: neither bit is set when no release was pending. *)
Theorem require_release_cancel (h : handle) (s : sset) :
  let r := records s h in
  let required := require h s in
  let released := release h required in
  required_by (records required h) = int_wrap (required_by r + 1)
  /\ (- 2 ^ 31 <= required_by r < 2 ^ 31 - 1 ->
      required_by (records required h) = required_by r + 1)
  /\ (required_by r = 0 ->
      prop_require (records required h) = negb (prop_release r)
      /\ prop_release (records required h) = false
      /\ In h (prop_queue required)
      /\ prop_require (records released h) = false
      /\ prop_release (records released h) = prop_release r).
Proof.
  intros r required released.
  assert (Rq : records required h = require_record r).
  { unfold required. rewrite records_require, Nat.eqb_refl. reflexivity. }
  split; [|split].
  - rewrite Rq. unfold require_record. cbv zeta.
    destruct (required_by r =? 0); reflexivity.
  - intro Hr. rewrite Rq. unfold require_record. cbv zeta.
    destruct (required_by r =? 0); cbn [required_by set_prop_release set_prop_require
      set_required_by]; apply int_wrap_small; lia.
  - intro R0.
    assert (Rq' : records required h
                  = set_prop_release false
                      (set_prop_require (negb (prop_release r))
                         (set_required_by 1 r))).
    { rewrite Rq. unfold require_record. rewrite R0. reflexivity. }
    assert (B : bits (records released h) = (false, prop_release r)).
    { unfold released. rewrite bits_release_to_zero.
      - rewrite Rq'. cbn [prop_require set_prop_release set_prop_require].
        now rewrite negb_involutive.
      - rewrite Rq'. reflexivity. }
    unfold bits in B. injection B as B1 B2.
    repeat split.
    + rewrite Rq'. reflexivity.
    + rewrite Rq'. reflexivity.
    + unfold required. rewrite prop_queue_require. fold r. rewrite R0.
      apply In_enqueue.
    + exact B1.
    + exact B2.
Qed.

End Activation.

(** A stopped record that nobody requires and whose release is still
    pending on the propagate queue. *)
Definition pending_release_set : sset :=
  set_prop_queue [O]
    (fresh_set (fun _ => set_prop_release true (fresh_record (plain_config INTERNAL)))
       (fun _ => calm time0 42%positive)).

Lemma start_twice_requires_once_witness :
  let s := fresh_set (fun _ => fresh_record (plain_config INTERNAL))
             (fun _ => calm time0 42%positive) in
  let once := @start engine5 O true s in
  let twice := @start engine5 O true once in
  (required_by (records s O) = 0 /\ start_explicit (records s O) = false)
  /\ required_by (records once O) = 1
  /\ start_explicit (records once O) = true
  /\ required_by (records twice O) = 1
  /\ ~ In (Enter c_require O) (direct once twice).
Proof.
  intros s once twice. split.
  - split; reflexivity.
  - apply (@start_twice_requires_once engine5 O s); reflexivity.
Defined.

Lemma require_release_cancel_witness :
  let s := fresh_set (fun _ => fresh_record (plain_config INTERNAL))
             (fun _ => calm time0 42%positive) in
  let required := require O s in
  let released := @release engine5 O required in
  required_by (records s O) = 0
  /\ required_by (records required O) = 1
  /\ prop_require (records required O) = true
  /\ prop_release (records required O) = false
  /\ In O (prop_queue required)
  /\ prop_require (records released O) = false
  /\ prop_release (records released O) = false.
Proof.
  intros s required released.
  destruct (@require_release_cancel engine5 O s) as (_ & Inc & Zero).
  destruct (Zero eq_refl) as (P & Q & I & P' & Q').
  split; [reflexivity|]. split; [apply Inc; split; [discriminate | reflexivity]|].
  split; [exact P|]. split; [exact Q|]. split; [exact I|]. split; [exact P' | exact Q'].
Defined.

(** C4, as stated, where a release is pending: [require()] on the 0 to 1
    transition followed by [release()] back to 0 leaves [prop_release] set. *)
Lemma require_release_keeps_pending_release :
  let s := pending_release_set in
  let released := @release engine5 O (require O s) in
  required_by (records s O) = 0
  /\ required_by (records (require O s) O) = 1
  /\ required_by (records released O) = 0
  /\ prop_release (records released O) = true
  /\ ~ (prop_require (records released O) = false
        /\ prop_release (records released O) = false).
Proof.
  vm_compute. repeat split. intros [_ E]. discriminate E.
Qed.

(** ** Propagation *)

Lemma flat_map_single {A B : Type} (f : A -> B) (l : list A) :
  flat_map (fun a => [f a]) l = map f l.
Proof. induction l as [|a l IH]; simpl; [reflexivity | now rewrite IH]. Qed.

Lemma steps_fold_inv {A : Type} (I : sset -> Prop) (step : sset -> A -> sset)
    (ev : A -> list event) (l : list A) (s : sset) :
  (forall a x acc, I x -> steps s x acc -> I (step x a) /\ steps s (step x a) (acc ++ ev a)) ->
  forall s0 acc, I s0 -> steps s s0 acc ->
  I (fold_left step l s0) /\ steps s (fold_left step l s0) (acc ++ flat_map ev l).
Proof.
  intro Hstep. induction l as [|a l IH]; intros s0 acc H0 H; simpl.
  - rewrite app_nil_r. now split.
  - rewrite app_assoc. destruct (Hstep a s0 acc H0 H) as [H1 H2]. now apply IH.
Qed.

Section Propagation.

Context {ops : SetOps} {ok : OpsOk ops}.

(** The soft edges of [h] after [h] has required them: each is marked. *)
Definition require_soft (s : sset) (e : edge_id) : sset :=
  upd_edge e (set_holding_acq true) (require (dep_to (edges s e)) s).

Definition release_soft (s : sset) (e : edge_id) : sset :=
  if holding_acq (edges s e)
  then upd_edge e (set_holding_acq false) (release (dep_to (edges s e)) s)
  else s.

Lemma edges_require_soft (s : sset) (e k : edge_id) :
  edges (require_soft s e) k
  = if Nat.eqb k e then set_holding_acq true (edges s e) else edges s k.
Proof.
  unfold require_soft. destruct (Nat.eqb k e) eqn:E.
  - apply Nat.eqb_eq in E. subst k. rewrite edges_upd_edge_eq.
    f_equal. apply (edges_require _ s e).
  - apply Nat.eqb_neq in E. rewrite edges_upd_edge_neq by exact E.
    apply (edges_require _ s k).
Qed.

Lemma edges_release_soft (s : sset) (e k : edge_id) :
  edges (release_soft s e) k
  = if Nat.eqb k e then set_holding_acq false (edges s e) else edges s k.
Proof.
  unfold release_soft. destruct (holding_acq (edges s e)) eqn:Ha.
  - destruct (Nat.eqb k e) eqn:E.
    + apply Nat.eqb_eq in E. subst k. rewrite edges_upd_edge_eq.
      f_equal. apply (edges_release _ s e).
    + apply Nat.eqb_neq in E. rewrite edges_upd_edge_neq by exact E.
      apply (edges_release _ s k).
  - destruct (Nat.eqb k e) eqn:E; [|reflexivity].
    apply Nat.eqb_eq in E. subst k. destruct (edges s e) as [f t w a].
    cbn in Ha. subst a. reflexivity.
Qed.

Lemma require_soft_marks (l : list edge_id) :
  forall s0,
  (forall e, In e l -> holding_acq (edges (fold_left require_soft l s0) e) = true)
  /\ (forall e, holding_acq (edges s0 e) = true ->
      holding_acq (edges (fold_left require_soft l s0) e) = true)
  /\ (forall e, dep_to (edges (fold_left require_soft l s0) e) = dep_to (edges s0 e)).
Proof.
  induction l as [|a l IH]; intro s0; simpl.
  - repeat split; auto; intros e [].
  - destruct (IH (require_soft s0 a)) as (M1 & M2 & M3).
    assert (Ma : holding_acq (edges (require_soft s0 a) a) = true).
    { rewrite edges_require_soft, Nat.eqb_refl. reflexivity. }
    repeat split.
    + intros e [<-|He]; [now apply M2 | now apply M1].
    + intros e He. apply M2. rewrite edges_require_soft.
      destruct (Nat.eqb e a); [reflexivity | exact He].
    + intro e. rewrite M3, edges_require_soft.
      destruct (Nat.eqb e a) eqn:E; [|reflexivity].
      apply Nat.eqb_eq in E. now subst e.
Qed.

Lemma release_soft_marks (l : list edge_id) :
  forall s0,
  (forall e, In e l -> holding_acq (edges (fold_left release_soft l s0) e) = false)
  /\ (forall e, holding_acq (edges s0 e) = false ->
      holding_acq (edges (fold_left release_soft l s0) e) = false).
Proof.
  induction l as [|a l IH]; intro s0; simpl.
  - split; auto; intros e [].
  - destruct (IH (release_soft s0 a)) as (M1 & M2).
    assert (Ma : holding_acq (edges (release_soft s0 a) a) = false).
    { rewrite edges_release_soft, Nat.eqb_refl. reflexivity. }
    split.
    + intros e [<-|He]; [now apply M2 | now apply M1].
    + intros e He. apply M2. rewrite edges_release_soft.
      destruct (Nat.eqb e a); [reflexivity | exact He].
Qed.

(** The calls of the two loops of the require step. *)
Lemma steps_require_hard (l : list handle) (s s0 : sset) (acc : list event) :
  steps s s0 acc ->
  steps s (fold_left (fun x i => require i x) l s0) (acc ++ map (Enter c_require) l).
Proof.
  intro H. rewrite <- flat_map_single.
  apply (steps_fold (fun x i => require i x) (fun i => [Enter c_require i])); [|exact H].
  intros a x acc' Hx. steps_go. exact Hx.
Qed.

Lemma steps_require_soft (l : list edge_id) (s s0 : sset) (acc : list event) :
  steps s s0 acc ->
  steps s (fold_left require_soft l s0)
    (acc ++ map (fun e => Enter c_require (dep_to (edges s0 e))) l).
Proof.
  intro H. rewrite <- flat_map_single.
  apply (steps_fold_inv (fun x => forall e, dep_to (edges x e) = dep_to (edges s0 e))
           require_soft (fun e => [Enter c_require (dep_to (edges s0 e))]));
    [|reflexivity|exact H].
  intros a x acc' Ix Hx. split.
  - intro e. rewrite edges_require_soft.
    destruct (Nat.eqb e a) eqn:E; [|apply Ix].
    apply Nat.eqb_eq in E. subst e. apply Ix.
  - unfold require_soft. rewrite Ix. steps_go. exact Hx.
Qed.

(** The calls of the two loops of [release_dependencies]. *)
Lemma steps_release_hard (l : list handle) (s s0 : sset) (acc : list event) :
  steps s s0 acc ->
  steps s (fold_left (fun x i => release i x) l s0) (acc ++ map (Enter c_release) l).
Proof.
  intro H. rewrite <- flat_map_single.
  apply (steps_fold (fun x i => release i x) (fun i => [Enter c_release i])); [|exact H].
  intros a x acc' Hx. steps_go. exact Hx.
Qed.

Lemma edges_release_hard (l : list handle) (s0 : sset) (e : edge_id) :
  edges (fold_left (fun x i => release i x) l s0) e = edges s0 e.
Proof.
  revert s0. induction l as [|a l IH]; intro s0; simpl; [reflexivity|].
  rewrite IH. apply (edges_release _ s0 e).
Qed.

Lemma steps_release_soft (l : list edge_id) (s : sset) :
  NoDup l ->
  forall s0 acc, steps s s0 acc ->
  steps s (fold_left release_soft l s0)
    (acc ++ map (fun e => Enter c_release (dep_to (edges s0 e)))
              (filter (fun e => holding_acq (edges s0 e)) l)).
Proof.
  induction 1 as [|a l Ha Hl IH]; intros s0 acc H; simpl.
  - now rewrite app_nil_r.
  - assert (Hrest : forall e, In e l -> edges (release_soft s0 a) e = edges s0 e).
    { intros e He. rewrite edges_release_soft.
      destruct (Nat.eqb e a) eqn:E; [|reflexivity].
      apply Nat.eqb_eq in E. subst e. contradiction. }
    assert (Hmap : map (fun e => Enter c_release (dep_to (edges (release_soft s0 a) e)))
                     (filter (fun e => holding_acq (edges (release_soft s0 a) e)) l)
                   = map (fun e => Enter c_release (dep_to (edges s0 e)))
                       (filter (fun e => holding_acq (edges s0 e)) l)).
    { clear IH H Hl Ha. induction l as [|b l IHl]; simpl; [reflexivity|].
      rewrite (Hrest b) by now left.
      destruct (holding_acq (edges s0 b)); simpl;
        rewrite ?(Hrest b) by (now left); rewrite IHl; try reflexivity;
        intros e He; apply Hrest; now right. }
    destruct (holding_acq (edges s0 a)) eqn:Hacq; simpl.
    + rewrite <- Hmap.
      change (Enter c_release (dep_to (edges s0 a)) :: ?m)
        with ([Enter c_release (dep_to (edges s0 a))] ++ m).
      rewrite app_assoc. apply IH.
      unfold release_soft. rewrite Hacq. steps_go. exact H.
    + rewrite <- Hmap. apply IH. unfold release_soft. rewrite Hacq. exact H.
Qed.

(** What each step of [do_propagation] does itself, as a function of the
    state in which the step tests its bit. *)
Definition require_layer (h : handle) (s : sset) : list event :=
  if prop_require (records s h)
  then map (Enter c_require) (depends_on (cfg (records s h)))
       ++ map (fun e => Enter c_require (dep_to (edges s e)))
            (soft_deps (cfg (records s h)))
  else [].

Definition release_layer (h : handle) (s : sset) : list event :=
  if prop_release (records s h) then [Enter c_release_dependencies h] else [].

Definition failure_layer (h : handle) (s : sset) : list event :=
  if prop_failure (records s h) then [Enter (c_failed_to_start true) h] else [].

Definition start_layer (h : handle) (s : sset) : list event :=
  if prop_start (records s h) then [Enter (c_start false) h] else [].

Definition stop_layer (h : handle) (s : sset) : list event :=
  if prop_stop (records s h) then [Enter c_do_stop h] else [].

Lemma cfg_require_hard (l : list handle) (s : sset) (h : handle) :
  cfg (records (fold_left (fun x i => require i x) l s) h) = cfg (records s h).
Proof.
  apply st_cfg with (G := good).
  apply (steady_fold (fun x i => require i x)); [|apply steady_refl].
  intros a x Hx. steady_go.
Qed.

Lemma cfg_release_hard (l : list handle) (s : sset) (h : handle) :
  cfg (records (fold_left (fun x i => release i x) l s) h) = cfg (records s h).
Proof.
  apply st_cfg with (G := good).
  apply (steady_fold (fun x i => release i x)); [|apply steady_refl].
  intros a x Hx. steady_go.
Qed.

Lemma edges_require_hard (l : list handle) (s : sset) (e : edge_id) :
  edges (fold_left (fun x i => require i x) l s) e = edges s e.
Proof.
  revert s. induction l as [|a l IH]; intro s; simpl; [reflexivity|].
  rewrite IH. apply (edges_require a s e).
Qed.

Lemma propagate_require_fold (h : handle) (s : sset) :
  prop_require (records s h) = true ->
  propagate_require h s
  = upd h (set_prop_require false)
      (fold_left require_soft (soft_deps (cfg (records s h)))
         (fold_left (fun x i => require i x) (depends_on (cfg (records s h))) s)).
Proof.
  intro E. unfold propagate_require. rewrite E. cbv zeta.
  rewrite cfg_require_hard. reflexivity.
Qed.

Lemma steps_propagate_require (h : handle) (s x : sset) (acc : list event) :
  steps s x acc -> steps s (propagate_require h x) (acc ++ require_layer h x).
Proof.
  intro H. unfold require_layer. destruct (prop_require (records x h)) eqn:E.
  - rewrite propagate_require_fold by exact E.
    eapply (steps_silent s); [reflexivity|].
    rewrite app_assoc.
    set (x1 := fold_left (fun x i => require i x) (depends_on (cfg (records x h))) x).
    replace (map (fun e => Enter c_require (dep_to (edges x e)))
               (soft_deps (cfg (records x h))))
      with (map (fun e => Enter c_require (dep_to (edges x1 e)))
              (soft_deps (cfg (records x h)))).
    2:{ apply map_ext. intro e. unfold x1. now rewrite edges_require_hard. }
    apply steps_require_soft. apply steps_require_hard. exact H.
  - unfold propagate_require. rewrite E. now rewrite app_nil_r.
Qed.

Lemma steps_propagate_release (h : handle) (s x : sset) (acc : list event) :
  steps s x acc -> steps s (propagate_release h x) (acc ++ release_layer h x).
Proof.
  intro H. unfold release_layer, propagate_release.
  destruct (prop_release (records x h)); [|now rewrite app_nil_r].
  steps_go. exact H.
Qed.

Lemma steps_propagate_failure (h : handle) (s x : sset) (acc : list event) :
  steps s x acc -> steps s (propagate_failure h x) (acc ++ failure_layer h x).
Proof.
  intro H. unfold failure_layer, propagate_failure.
  destruct (prop_failure (records x h)); [|now rewrite app_nil_r].
  steps_go. exact H.
Qed.

Lemma steps_propagate_start (h : handle) (s x : sset) (acc : list event) :
  steps s x acc -> steps s (propagate_start h x) (acc ++ start_layer h x).
Proof.
  intro H. unfold start_layer, propagate_start.
  destruct (prop_start (records x h)); [|now rewrite app_nil_r].
  steps_go. exact H.
Qed.

Lemma steps_propagate_stop (h : handle) (s x : sset) (acc : list event) :
  steps s x acc -> steps s (propagate_stop h x) (acc ++ stop_layer h x).
Proof.
  intro H. unfold stop_layer, propagate_stop.
  destruct (prop_stop (records x h)); [|now rewrite app_nil_r].
  steps_go. exact H.
Qed.

Lemma propagate_require_clears (h : handle) (s : sset) :
  prop_require (records (propagate_require h s) h) = false.
Proof.
  destruct (prop_require (records s h)) eqn:E.
  - rewrite propagate_require_fold by exact E. now rewrite records_upd_eq.
  - unfold propagate_require. now rewrite E.
Qed.

Lemma propagate_release_clears (h : handle) (s : sset) :
  prop_release (records (propagate_release h s) h) = false.
Proof.
  unfold propagate_release. destruct (prop_release (records s h)) eqn:E.
  - now rewrite records_upd_eq.
  - exact E.
Qed.

Lemma propagate_require_marks (h : handle) (s : sset) (e : edge_id) :
  prop_require (records s h) = true ->
  In e (soft_deps (cfg (records s h))) ->
  holding_acq (edges (propagate_require h s) e) = true.
Proof.
  intros E He. rewrite propagate_require_fold by exact E.
  change (edges (upd h (set_prop_require false) ?x)) with (edges x).
  match goal with
  | |- holding_acq (edges (fold_left require_soft ?l ?x) e) = true =>
      destruct (require_soft_marks l x) as (M1 & _ & _)
  end.
  now apply M1.
Qed.

(** [release_dependencies] releases every hard dependency, then the target
    of every soft edge that holds an acquisition, and clears the mark. *)
Lemma release_dependencies_fold (h : handle) (s : sset) :
  release_dependencies h s
  = emit (Leave c_release_dependencies h)
      (fold_left release_soft (soft_deps (cfg (records s h)))
         (fold_left (fun x i => release i x) (depends_on (cfg (records s h)))
            (emit (Enter c_release_dependencies h) s))).
Proof.
  unfold release_dependencies, call. cbv zeta. rewrite cfg_release_hard. reflexivity.
Qed.

Lemma direct_release_dependencies (h : handle) (s : sset) :
  NoDup (soft_deps (cfg (records s h))) ->
  direct s (release_dependencies h s)
  = map (Enter c_release) (depends_on (cfg (records s h)))
    ++ map (fun e => Enter c_release (dep_to (edges s e)))
         (filter (fun e => holding_acq (edges s e)) (soft_deps (cfg (records s h)))).
Proof.
  intro N. rewrite release_dependencies_fold.
  set (s0 := emit (Enter c_release_dependencies h) s).
  set (s1 := fold_left (fun x i => release i x) (depends_on (cfg (records s h))) s0).
  eapply direct_steps.
  - apply (steps_release_soft _ s0 N s1).
    apply steps_release_hard. apply steps_refl.
  - cbn [app]. f_equal.
    assert (Ee : forall e, edges s1 e = edges s e).
    { intro e. unfold s1. now rewrite edges_release_hard. }
    assert (Ef : filter (fun e => holding_acq (edges s1 e)) (soft_deps (cfg (records s h)))
                 = filter (fun e => holding_acq (edges s e))
                     (soft_deps (cfg (records s h)))).
    { apply filter_ext. intro e. now rewrite Ee. }
    rewrite Ef. apply map_ext. intro e. now rewrite Ee.
Qed.

Lemma release_dependencies_marks (h : handle) (s : sset) (e : edge_id) :
  In e (soft_deps (cfg (records s h))) ->
  holding_acq (edges (release_dependencies h s) e) = false.
Proof.
  intro He. rewrite release_dependencies_fold.
  change (edges (emit ?ev ?x)) with (edges x).
  match goal with
  | |- holding_acq (edges (fold_left release_soft ?l ?x) e) = false =>
      destruct (release_soft_marks l x) as (M1 & _)
  end.
  apply M1. exact He.
Qed.


End Propagation.

(** A service (handle 0) with one hard dependency (handle 1) and one soft
    edge (edge 0, to handle 2), queued for propagation with [prop_require] and
    [prop_start] set. *)
Definition propagating_record : service_record :=
  set_prop_start true
    (set_prop_require true
       (fresh_record
          (mk_service_config INTERNAL [1%nat] [] [0%nat] [] no_flags false false
             EmptyString EmptyString EmptyString
             (-1) (mk_time 0 200000000) (mk_time 10 0) 3))).

Definition propagating_set : sset :=
  mk_sset
    (fun k => match k with
              | O => propagating_record
              | _ => fresh_record (plain_config INTERNAL)
              end)
    (fun _ => mk_service_dep 0%nat 2%nat false false)
    [] [] [] [] 0 true [] (fun _ => calm time0 42%positive) O false.


(** ** A child that exits before its exec status is read

    [service_child_watcher::status_change] runs when the child is reaped,
    [exec_status_pipe_watcher::fd_event] when the exec-status pipe becomes
    readable; [r] is what [read] returned on the pipe: more than zero when the
    child wrote an [errno] because [exec()] failed, zero or less when the pipe
    was closed by a successful [exec()]. *)

Section ExecStatus.
Context {ops : SetOps} {ok : OpsOk ops}.

Lemma steady_extends (s s' : sset) :
  steady s s' -> exists t, trace s' = trace s ++ t /\ exit_calls t = [].
Proof.
  intros [[t [E G]] _ _ _ _ _]. exists t.
  split; [exact E | now apply good_exit_calls].
Qed.

(** What [status_change] does to a record that still waits for its exec
    status: two assignments and nothing else. *)
Lemma status_change_suppressed (h : handle) (child status : Z) (s : sset) :
  waiting_for_execstat (records s h) = true ->
  status_change h child status s
  = emit (Leave (c_status_change status) h)
      (upd h (set_exit_status status)
         (upd h (set_pid (-1)) (emit (Enter (c_status_change status) h) s))).
Proof.
  intro W. unfold status_change, call. cbv zeta. rewrite !records_upd_eq.
  cbn [waiting_for_execstat set_exit_status set_pid].
  change (records (emit ?e s) h) with (records s h). now rewrite W.
Qed.

(** The pid that [fd_event] tests is still -1 when the service does not hand
    over the console on becoming started. *)
Lemma fd_event_pid_test_without_console (h : handle) (s1 : sset) :
  pid (records s1 h) = -1 ->
  starts_on_console (flags s1 h) && negb (runs_on_console (flags s1 h)) = false ->
  pid (records (fd_event_pid_test h s1) h) = -1.
Proof.
  intros P F. unfold fd_event_pid_test, fd_event_started.
  set (x0 := upd h (set_waiting_for_execstat false) (emit (Enter c_fd_event h) s1)).
  assert (P0 : pid (records x0 h) = -1).
  { unfold x0. rewrite records_upd_eq. exact P. }
  assert (F0 : starts_on_console (flags x0 h) && negb (runs_on_console (flags x0 h)) = false).
  { unfold x0, flags. rewrite records_upd_eq. exact F. }
  destruct (type_eqb _ PROCESS); [|exact P0].
  destruct (state_is x0 h STARTING); [|exact P0].
  pose proof (pid_started_without_console h x0 F0 h) as K.
  unfold pid_at in K. now rewrite K.
Qed.


End ExecStatus.

(** A PROCESS service that has just been forked (pid 42) and waits for its
    exec status. *)
Definition forked_record : service_record :=
  set_pid 42
    (set_waiting_for_execstat true
       (set_service_state STARTING
          (set_desired_state STARTED (fresh_record (plain_config PROCESS))))).

Definition forked_set : sset :=
  fresh_set (fun _ => forked_record) (fun _ => calm (mk_time 100 0) 42%positive).



(** ** The control utility: exit codes and command buffers *)

Lemma poke_length (i : nat) (v : Z) (buf : char_buf) :
  length (poke i v buf) = length buf.
Proof. revert i. induction buf as [|x rest IH]; intros [|i]; simpl; auto. Qed.

Lemma memcpy_length (src : list Z) :
  forall (off : nat) (buf : char_buf), length (memcpy off src buf) = length buf.
Proof.
  induction src as [|b rest IH]; intros off buf; simpl; [reflexivity|].
  rewrite IH. apply poke_length.
Qed.

Lemma read_chars_length (buf : char_buf) (len : nat) :
  length (read_chars buf len) = len.
Proof. unfold read_chars. now rewrite length_map, length_seq. Qed.

(** A cell read at or beyond the end of the buffer is not one of its cells. *)
Lemma read_chars_beyond (buf : char_buf) (len i : nat) :
  (length buf <= i < len)%nat -> nth i (read_chars buf len) (Some 0) = None.
Proof.
  intros [Hl Hi]. unfold read_chars.
  rewrite (nth_indep _ (Some 0) ((fun i => nth i buf None) O))
    by (rewrite length_map, length_seq; exact Hi).
  rewrite (map_nth (fun i => nth i buf None)).
  rewrite seq_nth by exact Hi. simpl. apply nth_overflow. exact Hl.
Qed.

Lemma nth_error_second {A : Type} (l : list A) (a b w : A) :
  nth_error (l ++ [a; b]) (S (length l)) = Some w -> w = b.
Proof.
  intro H. rewrite nth_error_app2 in H by lia.
  replace (S (length l) - length l)%nat with 1%nat in H by lia.
  simpl in H. now inversion H.
Qed.

Lemma nth_error_beyond {A : Type} (l : list A) (a w : A) :
  nth_error (l ++ [a]) (S (length l)) = Some w -> False.
Proof.
  intro H. assert (N : nth_error (l ++ [a]) (S (length l)) = None).
  { apply nth_error_None. rewrite length_app. simpl. lia. }
  congruence.
Qed.

Lemma nth_error_beyond0 {A : Type} (l : list A) (w : A) :
  nth_error l (S (length l)) = Some w -> False.
Proof.
  intro H. assert (N : nth_error l (S (length l)) = None).
  { apply nth_error_None. lia. }
  congruence.
Qed.

(** Case analysis on the next test of a computation, innermost first. *)
Ltac split_match :=
  match goal with
  | |- context [match ?x with _ => _ end] =>
      lazymatch x with
      | context [match _ with _ => _ end] => fail
      | _ => destruct x eqn:?
      end
  end.

Ltac outcome_inv :=
  repeat match goal with
         | H : Returned _ _ = Returned _ _ |- _ => inversion H; subst; clear H
         | H : Thrown _ _ = Thrown _ _ |- _ => inversion H; subst; clear H
         | H : Hung _ = Hung _ |- _ => inversion H; subst; clear H
         | H : Terminated _ = Terminated _ |- _ => inversion H; subst; clear H
         end.

Ltac ctl_unfold :=
  unfold check_load_reply, bind, on_link, peek, extract, rb_consume, new_chars,
    write_all, say_if, say, ret.

(** The environment lets [main] reach its [try] block. *)
Definition env_ok (a : parsed_args) (c : client) : bool :=
  (arg_sys_dinit a
   || is_some (match env_HOME c with Some d => Some d | None => env_pw_dir c end))
  && negb (socket_answer c =? -1)
  && malloc_answer c
  && negb (connect_answer c =? -1).

Definition with_command (command : command_t) (a : parsed_args) : parsed_args :=
  mk_parsed_args (arg_show_help a) (arg_service_name a) (arg_verbose a) (arg_sys_dinit a)
    (arg_wait_for_service a) (arg_do_pin a) command.

Definition load_failure_msg {lib : ClientLib} (reply : Z) : ctl_msg :=
  if reply =? DINIT_RP_NOSERVICE then cerr "dinitctl: failed to find/load service."
  else cerr "dinitctl: protocol error.".

Section ControlUtility.
Context {lib : ClientLib}.

(** [issue_load_service] returns 0 or 1, never throws, and has written once
    when it returns 0. *)
Lemma issue_load_service_writes (name : string) (find_only : bool) (c : client) :
  match issue_load_service name find_only c with
  | Returned r c' =>
      (r = 1 /\ (sent c' = sent c \/ exists w, sent c' = sent c ++ [w]))
      \/ (r = 0 /\ exists w, sent c' = sent c ++ [w])
  | _ => False
  end.
Proof.
  unfold issue_load_service, try_alloc, bind, new_chars, write_all, say, ret.
  repeat split_match; cbn [sent set_sent set_console set_allocs];
    try discriminate; try contradiction.
  all: outcome_inv.
  all: cbn [sent set_sent set_console set_allocs]; eauto.
Qed.

Lemma check_load_reply_failure (handle_p : handle_t) (state_p : option Z) (c : client) :
  rb_at 0 c <> DINIT_RP_SERVICERECORD ->
  check_load_reply handle_p state_p c
  = Returned (1, handle_p, state_p)
      (set_console (console c ++ [load_failure_msg (rb_at 0 c)]) c).
Proof.
  intro N. unfold check_load_reply, bind, peek, load_failure_msg.
  destruct (rb_at 0 c =? DINIT_RP_SERVICERECORD) eqn:E.
  - apply Z.eqb_eq in E. contradiction.
  - destruct (rb_at 0 c =? DINIT_RP_NOSERVICE); reflexivity.
Qed.

(** What the three commands do with a reply to the load command that is not
    a service record. *)
Lemma start_stop_service_load_failure (fuel : nat) (name : string) (command : command_t)
    (do_pin wait_for_service verbose : bool) (c c0 : client) (l1 : link) :
  issue_load_service name false c = Returned 0 c0 ->
  wait_for_reply (lnk c0) = inr l1 ->
  nth 0 (rbuffer l1) 0 <> DINIT_RP_SERVICERECORD ->
  start_stop_service fuel name command do_pin wait_for_service verbose c
  = Returned 0
      (set_console (console c0 ++ [load_failure_msg (nth 0 (rbuffer l1) 0)]) (set_lnk l1 c0)).
Proof.
  intros I W N. unfold start_stop_service. unfold bind at 1. rewrite I.
  cbn [Z.eqb negb]. unfold bind at 1. unfold on_link. rewrite W.
  unfold bind at 1. rewrite check_load_reply_failure by exact N. reflexivity.
Qed.

Lemma unpin_service_load_failure (name : string) (verbose : bool) (c c0 : client) (l1 : link) :
  issue_load_service name false c = Returned 0 c0 ->
  wait_for_reply (lnk c0) = inr l1 ->
  nth 0 (rbuffer l1) 0 <> DINIT_RP_SERVICERECORD ->
  unpin_service name verbose c
  = Returned 1
      (set_console (console c0 ++ [load_failure_msg (nth 0 (rbuffer l1) 0)]) (set_lnk l1 c0)).
Proof.
  intros I W N. unfold unpin_service. unfold bind at 1. rewrite I.
  cbn [Z.eqb negb]. unfold bind at 1. unfold on_link. rewrite W.
  unfold bind at 1. rewrite check_load_reply_failure by exact N. reflexivity.
Qed.

Lemma unload_service_load_failure (name : string) (c c0 : client) (l1 : link) :
  issue_load_service name true c = Returned 0 c0 ->
  wait_for_reply (lnk c0) = inr l1 ->
  nth 0 (rbuffer l1) 0 <> DINIT_RP_SERVICERECORD ->
  unload_service name c
  = Returned 1
      (set_console (console c0 ++ [load_failure_msg (nth 0 (rbuffer l1) 0)]) (set_lnk l1 c0)).
Proof.
  intros I W N. unfold unload_service. unfold bind at 1. rewrite I.
  cbn [Z.eqb negb]. unfold bind at 1. unfold on_link. rewrite W.
  unfold bind at 1. rewrite check_load_reply_failure by exact N. reflexivity.
Qed.

(** [main] reaches its [try] block when nothing before it fails. *)
Lemma main_reaches_try (fuel : nat) (a : parsed_args) (name : string) (c : client) :
  arg_show_help a = false ->
  arg_service_name a = Some name ->
  In (arg_command a)
     [START_SERVICE; WAKE_SERVICE; STOP_SERVICE; RELEASE_SERVICE; UNPIN_SERVICE;
      UNLOAD_SERVICE] ->
  env_ok a c = true ->
  main fuel a c = main_catch (main_try fuel a) c.
Proof.
  intros H S C E. unfold main. rewrite H, S. cbn [is_some negb andb orb].
  unfold env_ok in E.
  apply andb_prop in E. destruct E as [E E4].
  apply andb_prop in E. destruct E as [E E3].
  apply andb_prop in E. destruct E as [E1 E2].
  assert (X : command_eqb (arg_command a) LIST_SERVICES = false
              /\ command_eqb (arg_command a) SHUTDOWN = false
              /\ command_eqb (arg_command a) NONE = false).
  { cbn [In] in C. repeat destruct C as [C|C]; try contradiction;
      rewrite <- C; repeat split; reflexivity. }
  destruct X as (X1 & X2 & X3). rewrite X1, X2, X3. cbn [orb andb].
  apply negb_true_iff in E2, E4. rewrite E2, E3, E4. cbn [negb].
  destruct (arg_sys_dinit a); cbn [negb andb orb] in *; [reflexivity|].
  rewrite E1. reflexivity.
Qed.

(** C9. A start, wake, stop or release command whose load request is
    answered by anything but a service record - an unknown reply byte, which
    the utility reports as a protocol error, or NOSERVICE - makes [main]
    return 0, where the claim has 1 for a protocol error. The unpin command
    returns 1 at the same point, on the same replies. *)
Theorem main_exit_code_0_on_load_reply_error
    (fuel : nat) (a : parsed_args) (name : string) (c c0 : client) (l0 l1 : link) :
  arg_show_help a = false ->
  arg_service_name a = Some name ->
  In (arg_command a) [START_SERVICE; WAKE_SERVICE; STOP_SERVICE; RELEASE_SERVICE] ->
  env_ok a c = true ->
  check_protocol_version 0 0 (lnk c) = inr l0 ->
  issue_load_service name false (set_lnk l0 c) = Returned 0 c0 ->
  wait_for_reply (lnk c0) = inr l1 ->
  nth 0 (rbuffer l1) 0 <> DINIT_RP_SERVICERECORD ->
  let c1 := set_console (console c0 ++ [load_failure_msg (nth 0 (rbuffer l1) 0)])
              (set_lnk l1 c0) in
  main fuel a c = Returned 0 c1
  /\ main fuel (with_command UNPIN_SERVICE a) c = Returned 1 c1.
Proof.
  intros H S C E V I W N c1. split.
  - rewrite (main_reaches_try fuel a name c H S) by (cbn [In] in *; tauto || exact E).
    unfold main_catch, main_try. rewrite S. unfold bind at 1. unfold on_link at 1.
    rewrite V.
    cbn [In] in C.
    destruct (arg_command a); try (exfalso; intuition discriminate).
    all: rewrite (start_stop_service_load_failure fuel name _ _ _ _ _ c0 l1 I W N).
    all: reflexivity.
  - rewrite (main_reaches_try fuel (with_command UNPIN_SERVICE a) name c H S)
      by (cbn; tauto || exact E).
    unfold main_catch, main_try. cbn [with_command arg_service_name arg_command arg_verbose].
    rewrite S. unfold bind at 1. unfold on_link at 1. rewrite V.
    rewrite (unpin_service_load_failure name _ _ c0 l1 I W N).
    reflexivity.
Qed.

(** X2. Every exception that [main] catches gives exit code 1. *)
Lemma main_catch_exit_code (m : ctl Z) (c c' : client) (e : cp_exception) :
  m c = Thrown e c' -> e <> std_bad_alloc ->
  exists msg, main_catch m c = Returned 1 (set_console (console c' ++ [msg]) c').
Proof.
  intros E N. unfold main_catch. rewrite E.
  destruct e; try contradiction; eexists; reflexivity.
Qed.

(** The command write of [unpin_service] and of [unload_service] is the
    call of [write_all] that follows the one of [issue_load_service]: the
    second the function makes. *)
Definition command_write (c : client) (o : outcome Z) : option write_call :=
  nth_error (sent (final o)) (S (length (sent c))).

(** A run reaches the command write when the load command has been sent, a
    reply came that is a service record, the record arrived whole, and the
    command buffer was allocated. *)
Definition reaches_command_write (name : string) (find_only : bool) (c : client) : Prop :=
  exists (c0 : client) (l1 l2 : link),
    issue_load_service name find_only c = Returned 0 c0
    /\ wait_for_reply (lnk c0) = inr l1
    /\ nth 0 (rbuffer l1) 0 = DINIT_RP_SERVICERECORD
    /\ fill_buffer_to (Z.of_nat (2 + sizeof_handle)) l1 = inr l2
    /\ alloc_answers c0 (allocs c0) = true.

(** The write is given a buffer of [1 + sizeof(handle)] bytes and a length of
    [2 + sizeof(handle)]: the last cell it reads is not a cell of the
    buffer. *)
Definition past_allocation (w : write_call) : Prop :=
  wc_alloc w = (1 + sizeof_handle)%nat
  /\ wc_len w = (2 + sizeof_handle)%nat
  /\ in_bounds w = false
  /\ length (wc_data w) = (2 + sizeof_handle)%nat
  /\ nth (1 + sizeof_handle) (wc_data w) (Some 0) = None.

Lemma nth_0_poke_S (i : nat) (v : Z) (buf : char_buf) (d : option Z) :
  nth 0 (poke (S i) v buf) d = nth 0 buf d.
Proof. destruct buf; reflexivity. Qed.

Lemma nth_0_memcpy_S (src : list Z) :
  forall (off : nat) (buf : char_buf) (d : option Z),
    nth 0 (memcpy (S off) src buf) d = nth 0 buf d.
Proof.
  induction src as [|b rest IH]; intros off buf d; simpl; [reflexivity|].
  rewrite IH. apply nth_0_poke_S.
Qed.

(** The write of a command buffer as the two functions build it. *)
Lemma command_buffer_write (command : Z) (handle : handle_t) :
  let buf := memcpy 1 handle (poke 0 command (repeat None (1 + sizeof_handle))) in
  let w := mk_write_call (length buf) (2 + sizeof_handle)
             (read_chars buf (2 + sizeof_handle)) in
  past_allocation w /\ nth 0 (wc_data w) None = Some command.
Proof.
  intros buf w.
  assert (Hb : length buf = (1 + sizeof_handle)%nat).
  { unfold buf. now rewrite memcpy_length, poke_length, repeat_length. }
  split.
  - unfold past_allocation, w, in_bounds. cbn [wc_alloc wc_len wc_data]. rewrite Hb.
    split; [reflexivity|]. split; [reflexivity|]. repeat split.
    + apply Nat.leb_gt. lia.
    + apply read_chars_length.
    + apply read_chars_beyond. lia.
  - unfold w, buf. cbn [wc_data]. unfold read_chars.
    change (seq 0 (2 + sizeof_handle)) with (0%nat :: seq 1 (1 + sizeof_handle)).
    cbn [map nth]. rewrite nth_0_memcpy_S. reflexivity.
Qed.

(** C10. In [unpin_service] and in [unload_service] the write that follows
    the load command - the command write - is given a buffer of
    [1 + sizeof(handle)] bytes and a length of [2 + sizeof(handle)]: it is out
    of bounds, and the last cell it reads is not a cell of the buffer. This
    holds of each of the two functions, on every run that makes the write,
    whatever the handle and whatever happens afterwards; and each of the two
    makes the write, with its command byte in the first cell, on every run
    that reaches it. *)
Theorem unpin_unload_write_past_allocation
    (name : string) (verbose : bool) (c : client) :
  (forall w, command_write c (unpin_service name verbose c) = Some w -> past_allocation w)
  /\ (forall w, command_write c (unload_service name c) = Some w -> past_allocation w)
  /\ (reaches_command_write name false c ->
      exists w, command_write c (unpin_service name verbose c) = Some w
                /\ nth 0 (wc_data w) None = Some DINIT_CP_UNPINSERVICE)
  /\ (reaches_command_write name true c ->
      exists w, command_write c (unload_service name c) = Some w
                /\ nth 0 (wc_data w) None = Some DINIT_CP_UNLOADSERVICE).
Proof.
  unfold command_write.
  split; [|split; [|split]].
  - intro w. unfold unpin_service. unfold bind at 1.
    pose proof (issue_load_service_writes name false c) as L.
    destruct (issue_load_service name false c) as [r c0|e c0|c0|c0]; try contradiction.
    destruct L as [[-> L]|[-> [w0 L]]].
    + cbn [Z.eqb Pos.eqb ret final]. destruct L as [L|[w0 L]]; rewrite L; intro H; exfalso.
      * eapply nth_error_beyond0; eauto.
      * eapply nth_error_beyond; eauto.
    + cbn [Z.eqb]. ctl_unfold.
      repeat split_match; cbn [final sent set_sent set_console set_allocs set_lnk].
      all: try discriminate.
      all: outcome_inv.
      all: cbn [final sent set_sent set_console set_allocs set_lnk]; rewrite ?L.
      all: try (intro H; exfalso; eapply nth_error_beyond; eauto; fail).
      all: rewrite <- ?app_assoc; cbn [app].
      all: intro H; apply nth_error_second in H; subst w.
      all: apply (command_buffer_write DINIT_CP_UNPINSERVICE).
  - intro w. unfold unload_service. unfold bind at 1.
    pose proof (issue_load_service_writes name true c) as L.
    destruct (issue_load_service name true c) as [r c0|e c0|c0|c0]; try contradiction.
    destruct L as [[-> L]|[-> [w0 L]]].
    + cbn [Z.eqb Pos.eqb ret final]. destruct L as [L|[w0 L]]; rewrite L; intro H; exfalso.
      * eapply nth_error_beyond0; eauto.
      * eapply nth_error_beyond; eauto.
    + cbn [Z.eqb]. ctl_unfold.
      repeat split_match; cbn [final sent set_sent set_console set_allocs set_lnk].
      all: try discriminate.
      all: outcome_inv.
      all: cbn [final sent set_sent set_console set_allocs set_lnk]; rewrite ?L.
      all: try (intro H; exfalso; eapply nth_error_beyond; eauto; fail).
      all: rewrite <- ?app_assoc; cbn [app].
      all: intro H; apply nth_error_second in H; subst w.
      all: apply (command_buffer_write DINIT_CP_UNLOADSERVICE).
  - intros (c0 & l1 & l2 & I & W & B & F & A).
    pose proof (issue_load_service_writes name false c) as L. rewrite I in L.
    destruct L as [[L _]|[_ [w0 L]]]; [discriminate|].
    destruct (command_buffer_write DINIT_CP_UNPINSERVICE
                (rb_extract 2 sizeof_handle (set_lnk l2 (set_lnk l1 c0)))) as (_ & K0).
    match type of K0 with nth 0 (wc_data ?x) None = _ => exists x end.
    split; [|exact K0].
    unfold unpin_service. unfold bind at 1. rewrite I. cbn [Z.eqb].
    ctl_unfold. rewrite W. unfold rb_at. cbn [lnk set_lnk rbuffer].
    rewrite B, Z.eqb_refl.
    change (lnk (set_lnk l1 c0)) with l1. rewrite F.
    cbn [alloc_answers allocs set_lnk set_allocs Z.eqb negb]. rewrite A.
    cbn [sent set_sent set_lnk set_allocs].
    repeat split_match; cbn [final sent set_sent set_console set_allocs set_lnk].
    all: rewrite L, <- app_assoc; cbn [app].
    all: rewrite nth_error_app2 by lia.
    all: replace (S (length (sent c)) - length (sent c))%nat with 1%nat by lia.
    all: reflexivity.
  - intros (c0 & l1 & l2 & I & W & B & F & A).
    pose proof (issue_load_service_writes name true c) as L. rewrite I in L.
    destruct L as [[L _]|[_ [w0 L]]]; [discriminate|].
    destruct (command_buffer_write DINIT_CP_UNLOADSERVICE
                (rb_extract 2 sizeof_handle (set_lnk l2 (set_lnk l1 c0)))) as (_ & K0).
    match type of K0 with nth 0 (wc_data ?x) None = _ => exists x end.
    split; [|exact K0].
    unfold unload_service. unfold bind at 1. rewrite I. cbn [Z.eqb].
    ctl_unfold. rewrite W. unfold rb_at. cbn [lnk set_lnk rbuffer].
    rewrite B, Z.eqb_refl.
    change (lnk (set_lnk l1 c0)) with l1. rewrite F.
    cbn [alloc_answers allocs set_lnk set_allocs Z.eqb negb]. rewrite A.
    cbn [sent set_sent set_lnk set_allocs].
    repeat split_match; cbn [final sent set_sent set_console set_allocs set_lnk].
    all: rewrite L, <- app_assoc; cbn [app].
    all: rewrite nth_error_app2 by lia.
    all: replace (S (length (sent c)) - length (sent c))%nat with 1%nat by lia.
    all: reflexivity.
Qed.

(** *** Computations that write nothing *)

Definition keeps_sent {A : Type} (m : ctl A) : Prop :=
  forall c, sent (final (m c)) = sent c.

Lemma keeps_sent_ret {A : Type} (a : A) : keeps_sent (ret a).
Proof. intro c. reflexivity. Qed.

Lemma keeps_sent_bind {A B : Type} (m : ctl A) (k : A -> ctl B) :
  keeps_sent m -> (forall a, keeps_sent (k a)) -> keeps_sent (bind m k).
Proof.
  intros Hm Hk c. unfold bind. specialize (Hm c).
  destruct (m c) as [a c'|e c'|c'|c']; cbn [final] in *; [|exact Hm..].
  now rewrite Hk.
Qed.

Lemma keeps_sent_say (m : ctl_msg) : keeps_sent (say m).
Proof. intro c. reflexivity. Qed.

Lemma keeps_sent_say_if (b : bool) (m : ctl_msg) : keeps_sent (say_if b m).
Proof. destruct b; intro c; reflexivity. Qed.

Lemma keeps_sent_on_link (f : link -> cp_exception + link) : keeps_sent (on_link f).
Proof. intro c. unfold on_link. destruct (f (lnk c)); reflexivity. Qed.

Lemma keeps_sent_peek (i : nat) : keeps_sent (peek i).
Proof. intro c. reflexivity. Qed.

Lemma keeps_sent_extract (i n : nat) : keeps_sent (extract i n).
Proof. intro c. reflexivity. Qed.

Lemma keeps_sent_rb_consume (n : nat) : keeps_sent (rb_consume n).
Proof. intro c. reflexivity. Qed.

Lemma keeps_sent_rb_fill_to (n : Z) : keeps_sent (rb_fill_to n).
Proof. intro c. unfold rb_fill_to. destruct (fill_to n (lnk c)). reflexivity. Qed.

Lemma keeps_sent_hung {A : Type} : keeps_sent (fun c => @Hung A c).
Proof. intro c. reflexivity. Qed.

Lemma keeps_sent_terminated {A : Type} : keeps_sent (fun c => @Terminated A c).
Proof. intro c. reflexivity. Qed.

Ltac keeps_go :=
  repeat first
    [ apply keeps_sent_ret | apply keeps_sent_say | apply keeps_sent_say_if
    | apply keeps_sent_on_link | apply keeps_sent_peek | apply keeps_sent_extract
    | apply keeps_sent_rb_consume | apply keeps_sent_rb_fill_to | apply keeps_sent_hung
    | apply keeps_sent_terminated
    | assumption
    | apply keeps_sent_bind; [|intro]
    | match goal with
      | |- keeps_sent (if ?b then _ else _) => destruct b
      | |- keeps_sent (match ?o with Some _ => _ | None => _ end) => destruct o
      end ].

(** Waiting for the service event writes nothing, however long it lasts. *)
Lemma keeps_sent_wait_for_event (fuel : nat) :
  forall (handle : handle_t) (do_stop verbose : bool) (ce cc r : Z),
    keeps_sent (wait_for_event fuel handle do_stop verbose ce cc r).
Proof.
  induction fuel as [|fuel IH]; intros handle do_stop verbose ce cc r;
    cbn [wait_for_event]; keeps_go.
  apply IH.
Qed.

(** X1. The command write of [start_stop_service], for contrast: the buffer and
    the length are both [2 + sizeof(handle)], on every run that makes the
    write. *)
Theorem start_stop_service_write_within_allocation
    (fuel : nat) (name : string) (command : command_t)
    (do_pin wait_for_service verbose : bool) (c : client) (w : write_call) :
  nth_error
    (sent (final (start_stop_service fuel name command do_pin wait_for_service verbose c)))
    (S (length (sent c))) = Some w ->
  wc_alloc w = (2 + sizeof_handle)%nat
  /\ wc_len w = (2 + sizeof_handle)%nat
  /\ in_bounds w = true.
Proof.
  assert (K : forall (b : char_buf),
             length b = (2 + sizeof_handle)%nat ->
             let x := mk_write_call (length b) (2 + sizeof_handle)
                        (read_chars b (2 + sizeof_handle)) in
             wc_alloc x = (2 + sizeof_handle)%nat
             /\ wc_len x = (2 + sizeof_handle)%nat
             /\ in_bounds x = true).
  { intros b Hb x. subst x. unfold in_bounds. cbn [wc_alloc wc_len wc_data]. rewrite Hb.
    split; [reflexivity|]. split; [reflexivity|]. apply Nat.leb_refl. }
  unfold start_stop_service. unfold bind at 1.
  pose proof (issue_load_service_writes name false c) as L.
  destruct (issue_load_service name false c) as [r c0|e c0|c0|c0]; try contradiction.
  destruct L as [[-> L]|[-> [w0 L]]].
  - cbn [Z.eqb Pos.eqb negb ret final]. destruct L as [L|[w0 L]]; rewrite L; intro H; exfalso.
    + eapply nth_error_beyond0; eauto.
    + eapply nth_error_beyond; eauto.
  - cbn [Z.eqb negb]. ctl_unfold. unfold rb_fill_to.
    repeat split_match; cbn [final sent set_sent set_console set_allocs set_lnk].
    all: try discriminate.
    all: outcome_inv.
    all: rewrite ?keeps_sent_wait_for_event.
    all: cbn [final sent set_sent set_console set_allocs set_lnk]; rewrite ?L.
    all: try (intro H; exfalso; eapply nth_error_beyond; eauto; fail).
    all: rewrite <- ?app_assoc; cbn [app].
    all: intro H; apply nth_error_second in H; subst w; apply K.
    all: now rewrite memcpy_length, !poke_length, repeat_length.
Qed.

End ControlUtility.

(** ** Running the utility on concrete replies

    Modelled from the spec: a library to run the utility with. It follows
    the wire vocabulary of the spec: a reply is a packet whose first byte is
    below 100, an information packet has a first byte of at least 100 and its
    length in its second byte, and waiting for a reply discards the
    information packets that precede it. The numbering of the bytes and the
    four bytes of a handle are a sample: only the runs below depend on them. *)

Definition take_bytes (n : nat) (l : link) : link :=
  mk_link (rbuffer l ++ firstn n (incoming l)) (skipn n (incoming l)) (read_end l).

Definition drop_bytes (n : nat) (l : link) : link :=
  mk_link (skipn n (rbuffer l)) (incoming l) (read_end l).

(** A [read] returns everything the daemon has sent. *)
Definition sample_fill_to (n : Z) (l : link) : Z * link :=
  let have := Z.of_nat (length (rbuffer l)) in
  if n <=? have then (1, l)
  else
    let l' := take_bytes (length (incoming l)) l in
    if n <=? Z.of_nat (length (rbuffer l')) then (1, l') else (read_end l, l').

Definition sample_fill_buffer_to (n : Z) (l : link) : cp_exception + link :=
  let '(r, l') := sample_fill_to n l in
  if r =? -1 then inl (cp_read_exception 5)
  else if r =? 0 then inl (cp_read_exception 0)
  else inr l'.

Fixpoint sample_skip_info (fuel : nat) (l : link) : cp_exception + link :=
  if 100 <=? nth 0 (rbuffer l) 0 then
    match fuel with
    | O => inl (cp_read_exception 0)
    | S fuel' =>
        match sample_fill_buffer_to 2 l with
        | inl e => inl e
        | inr l1 =>
            let pktlen := unsigned_char (nth 1 (rbuffer l1) 0) in
            match sample_fill_buffer_to pktlen (drop_bytes 1 l1) with
            | inl e => inl e
            | inr l2 => sample_skip_info fuel' (drop_bytes (Z.to_nat (pktlen - 1)) l2)
            end
        end
    end
  else inr l.

Definition sample_wait_for_reply (l : link) : cp_exception + link :=
  match sample_fill_buffer_to 1 l with
  | inl e => inl e
  | inr l1 => sample_skip_info (length (rbuffer l1) + length (incoming l1)) l1
  end.

Definition sample_wait_for_info (l : link) : cp_exception + link :=
  match sample_fill_buffer_to 2 l with
  | inl e => inl e
  | inr l1 =>
      if nth 0 (rbuffer l1) 0 <? 100 then inl (cp_read_exception 0)
      else sample_fill_buffer_to (unsigned_char (nth 1 (rbuffer l1) 0)) l1
  end.

(** The daemon answers the version query with byte 58 and four bytes of
    version numbers. *)
Definition sample_check_protocol_version (min_version max_version : Z) (l : link)
    : cp_exception + link :=
  match sample_wait_for_reply l with
  | inl e => inl e
  | inr l1 =>
      if nth 0 (rbuffer l1) 0 =? 58 then
        match sample_fill_buffer_to 5 l1 with
        | inl e => inl e
        | inr l2 => inr (drop_bytes 5 l2)
        end
      else inl cp_old_server_exception
  end.

Definition sample_lib : ClientLib := {|
  DINIT_CP_FINDSERVICE := 1;
  DINIT_CP_LOADSERVICE := 2;
  DINIT_CP_STARTSERVICE := 3;
  DINIT_CP_STOPSERVICE := 4;
  DINIT_CP_WAKESERVICE := 5;
  DINIT_CP_RELEASESERVICE := 6;
  DINIT_CP_UNPINSERVICE := 7;
  DINIT_CP_UNLOADSERVICE := 9;
  DINIT_CP_LISTSERVICES := 8;
  DINIT_CP_SHUTDOWN := 10;
  DINIT_RP_ACK := 50;
  DINIT_RP_NAK := 51;
  DINIT_RP_SERVICERECORD := 59;
  DINIT_RP_NOSERVICE := 60;
  DINIT_RP_ALREADYSS := 61;
  DINIT_RP_SVCINFO := 62;
  DINIT_RP_LISTDONE := 63;
  DINIT_IP_SERVICEEVENT := 100;
  DINIT_ROLLBACK_COMPLETED := 101;
  shutdown_type_HALT := 1;
  state_code := fun st =>
    match st with STOPPED => 0 | STARTING => 1 | STARTED => 2 | STOPPING => 3 end;
  event_code := fun ev =>
    match ev with
    | ev_STARTED => 0 | ev_STOPPED => 1 | ev_FAILEDSTART => 2
    | ev_STARTCANCELLED => 3 | ev_STOPCANCELLED => 4
    end;
  sizeof_handle := 4;
  check_protocol_version := sample_check_protocol_version;
  wait_for_reply := sample_wait_for_reply;
  wait_for_info := sample_wait_for_info;
  fill_buffer_to := sample_fill_buffer_to;
  fill_to := sample_fill_to
|}.

(** A client of a user daemon whose every system call succeeds, and to which
    the daemon sends [replies] and then closes the connection. *)
Definition sample_client (replies : list Z) : client :=
  mk_client (Some "/home/user"%string) None 3 true 0 (fun _ => true) (fun _ => 0) 0
    (mk_link [] replies 0) [] [].

Definition sample_args (command : command_t) : parsed_args :=
  mk_parsed_args false (Some "web"%string) true false true false command.

(** The reply to the version query. *)
Definition version_reply : list Z := [58; 0; 0; 0; 0].

(** The service record of a STOPPED service whose handle is 1. *)
Definition record_reply : list Z := [59; 0; 1; 0; 0; 0; 0].

(** The service event [ev] of the service whose handle is 1. *)
Definition event_packet (ev : Z) : list Z := [100; 7; 1; 0; 0; 0; ev].

(** The daemon answers the load command with byte 99, which is no reply of
    the protocol: [main] prints the protocol error and the exit code is 0 for
    the start command, 1 for the unpin command. *)
Lemma main_exit_code_0_on_load_reply_error_witness :
  let c := sample_client (version_reply ++ [99]) in
  let a := sample_args START_SERVICE in
  exists c1 : client,
    @main sample_lib 5 a c = Returned 0 c1
    /\ @main sample_lib 5 (with_command UNPIN_SERVICE a) c = Returned 1 c1
    /\ console c1 = [cerr "dinitctl: protocol error."].
Proof.
  intros c a.
  pose (l0 := mk_link [99] [] 0).
  pose (c0 := set_sent [mk_write_call 6 6 [Some 2; Some 3; Some 0; Some 119; Some 101; Some 98]]
                (set_allocs 1 (set_lnk l0 c))).
  pose (l1 := mk_link [99] [] 0).
  assert (N : nth 0 (rbuffer l1) 0 <> @DINIT_RP_SERVICERECORD sample_lib).
  { intro E. discriminate E. }
  destruct (main_exit_code_0_on_load_reply_error (lib := sample_lib)
              5 a "web" c c0 l0 l1 eq_refl eq_refl (or_introl eq_refl) eq_refl
              eq_refl eq_refl eq_refl N) as [M U].
  eexists. split; [exact M|]. split; [exact U|]. reflexivity.
Defined.

(** The same utility on replies that keep to the protocol: the exit code is 0
    when the service starts or was already in the state asked for, and 1 when
    the start fails or is cancelled. *)
Lemma main_exit_codes_on_protocol_replies :
  let run := fun replies =>
    match @main sample_lib 5 (sample_args START_SERVICE) (sample_client replies) with
    | Returned code c => Some (code, console c)
    | _ => None
    end in
  run (version_reply ++ record_reply ++ [50] ++ event_packet 0)
    = Some (0, [cout "Service started."])
  /\ run (version_reply ++ record_reply ++ [61])
     = Some (0, [cout "Service started."])
  /\ run (version_reply ++ record_reply ++ [50] ++ event_packet 2)
     = Some (1, [cout "Service failed to start."])
  /\ run (version_reply ++ record_reply ++ [50] ++ event_packet 3)
     = Some (1, [cout "Service start cancelled."])
  /\ run (version_reply ++ record_reply ++ [50])
     = Some (1, [cerr "protocol error (connection closed by server)"])
  /\ run (version_reply ++ record_reply ++ [77])
     = Some (1, [cerr "dinitctl: Protocol error."])
  /\ run [58]
     = Some (1, [cerr "dinitctl: control socket read failure or protocol error"]).
Proof. vm_compute. repeat split. Qed.

(** The unpin and the unload command on replies that keep to the protocol:
    each run reaches the command write, which is the second write, of six
    bytes from a buffer of five, with the command byte first. *)
Lemma unpin_unload_write_past_allocation_witness :
  let c := set_lnk (mk_link [] (record_reply ++ [50]) 0) (sample_client []) in
  let unpin := mk_write_call 5 6 [Some 7; Some 1; Some 0; Some 0; Some 0; None] in
  let unload := mk_write_call 5 6 [Some 9; Some 1; Some 0; Some 0; Some 0; None] in
  @reaches_command_write sample_lib "web" false c
  /\ @reaches_command_write sample_lib "web" true c
  /\ command_write c (@unpin_service sample_lib "web" true c) = Some unpin
  /\ command_write c (@unload_service sample_lib "web" c) = Some unload
  /\ @past_allocation sample_lib unpin
  /\ @past_allocation sample_lib unload.
Proof.
  intros c unpin unload.
  destruct (unpin_unload_write_past_allocation (lib := sample_lib) "web" true c)
    as (PU & PL & EU & EL).
  assert (RU : @reaches_command_write sample_lib "web" false c).
  { eexists _, _, _. repeat split; reflexivity. }
  assert (RL : @reaches_command_write sample_lib "web" true c).
  { eexists _, _, _. repeat split; reflexivity. }
  destruct (EU RU) as (wu & Eu & _).
  destruct (EL RL) as (wl & El & _).
  assert (Xu : wu = unpin).
  { assert (X : Some wu = Some unpin) by (rewrite <- Eu; reflexivity).
    now inversion X. }
  assert (Xl : wl = unload).
  { assert (X : Some wl = Some unload) by (rewrite <- El; reflexivity).
    now inversion X. }
  split; [exact RU|]. split; [exact RL|].
  split; [rewrite <- Xu; exact Eu|]. split; [rewrite <- Xl; exact El|].
  split.
  - rewrite <- Xu. exact (PU wu Eu).
  - rewrite <- Xl. exact (PL wl El).
Defined.

(** The start command on replies that keep to the protocol: the command write
    is the second write, of six bytes from a buffer of six. *)
Lemma start_stop_service_write_within_allocation_witness :
  let c := set_lnk (mk_link [] (record_reply ++ [50] ++ event_packet 0) 0) (sample_client []) in
  let o := @start_stop_service sample_lib 5 "web" START_SERVICE false true true c in
  let w := mk_write_call 6 6 [Some 3; Some 0; Some 1; Some 0; Some 0; Some 0] in
  nth_error (sent (final o)) (S (length (sent c))) = Some w
  /\ wc_alloc w = 6%nat /\ wc_len w = 6%nat /\ in_bounds w = true.
Proof.
  intros c o w.
  assert (R : nth_error (sent (final o)) (S (length (sent c))) = Some w) by reflexivity.
  split; [exact R|].
  exact (start_stop_service_write_within_allocation (lib := sample_lib)
           5 "web" START_SERVICE false true true c w R).
Defined.

(** The daemon closes the connection in the middle of its answer to the
    version query: the read exception is caught and the exit code is 1. *)
Lemma main_catch_exit_code_witness :
  let c := sample_client [58] in
  let m := @main_try sample_lib 5 (sample_args START_SERVICE) in
  m c = Thrown (cp_read_exception 0) c
  /\ exists msg, main_catch m c = Returned 1 (set_console (console c ++ [msg]) c).
Proof.
  intros c m.
  assert (T : m c = Thrown (cp_read_exception 0) c) by reflexivity.
  split; [exact T|].
  assert (N : cp_read_exception 0 <> std_bad_alloc) by discriminate.
  exact (main_catch_exit_code m c _ _ T N).
Defined.

(** * More of the engine

    ** How an exit is handled *)

(** The restart window of [restart_ps_process]: the time since the window
    was opened is below [restart_interval]. *)
Definition in_restart_window (h : handle) (s : sset) : bool :=
  time_lt (time_sub (a_now (ask s)) (restart_interval_time (records s h)))
    (restart_interval (cfg (records s h))).

Definition restart_refused (h : handle) (s : sset) : bool :=
  negb (max_restart_interval_count (cfg (records s h)) =? 0)
  && in_restart_window h s
  && (max_restart_interval_count (cfg (records s h))
      <=? restart_interval_count (records s h)).

(** The line that [process_service] and [bgproc_service] log for an exit
    with a status other than 0, outside STOPPING. *)
Definition unexpected_exit_log (h : handle) (st : Z) : list event :=
  if st =? 0 then []
  else if WIFEXITED st then [Log (msg_text ERROR) h]
  else if WIFSIGNALED st then [Log (msg_text ERROR) h]
  else [].

Lemma records_emit (e : event) (x : sset) : records (emit e x) = records x.
Proof. reflexivity. Qed.

Lemma restart_refused_emit (h : handle) (e : event) (s : sset) :
  restart_refused h (emit e s) = restart_refused h s.
Proof. reflexivity. Qed.

Section EngineOutcomes.
Context {ops : SetOps} {ok : OpsOk ops}.

(** [restart_ps_process] returns false exactly when the restart is refused,
    and what it emits before does not bear on that. *)
Lemma restart_ps_process_accepts (h : handle) (s : sset) :
  fst (restart_ps_process h s) = negb (restart_refused h s).
Proof.
  unfold restart_refused, in_restart_window, restart_ps_process, callv.
  cbn [fst snd]. cbv zeta.
  change (ask (emit (Enter c_restart_ps_process h) s)) with (ask s).
  change (records (asked (emit (Enter c_restart_ps_process h) s)) h) with (records s h).
  destruct (negb (max_restart_interval_count (cfg (records s h)) =? 0)
            && time_lt (time_sub (a_now (ask s)) (restart_interval_time (records s h)))
                 (restart_interval (cfg (records s h)))
            && (max_restart_interval_count (cfg (records s h))
                <=? restart_interval_count (records s h))); [reflexivity|].
  destruct (time_lt (restart_delay (cfg (records s h))) _); reflexivity.
Qed.

(** X3. [process_service::handle_exit_status], by the state of the service: in
    STARTING the service is started when the process exited with code 0 and
    fails to start otherwise; in STOPPING it is stopped and nothing is logged;
    under smooth recovery (STARTED, and wanted STARTED) the process is
    restarted, and exactly when the restart is refused - the limit on
    restarts is set, the window is open and the count has reached the limit -
    is the service stopped in an emergency; in every other case it is stopped
    in an emergency. The queues are processed last, except after a restart
    that was accepted. *)
Theorem process_handle_exit_status_outcome (h : handle) (st : Z) (s : sset) :
  record_type (cfg (records s h)) = PROCESS ->
  let recovering :=
    smooth_recovery (cfg (records s h)) && state_is s h STARTED
    && state_eqb (desired_state (records s h)) STARTED in
  (service_state (records s h) = STARTING ->
     direct s (handle_exit_status h st s)
     = unexpected_exit_log h st
       ++ [if WIFEXITED st && (WEXITSTATUS st =? 0) then Enter c_started h
           else Enter (c_failed_to_start false) h;
           Enter c_process_queues O])
  /\ (service_state (records s h) = STOPPING ->
      direct s (handle_exit_status h st s) = [Enter c_stopped h; Enter c_process_queues O])
  /\ (service_state (records s h) <> STARTING ->
      service_state (records s h) <> STOPPING ->
      recovering = false ->
      direct s (handle_exit_status h st s)
      = unexpected_exit_log h st ++ [Enter c_emergency_stop h; Enter c_process_queues O])
  /\ (recovering = true ->
      direct s (handle_exit_status h st s)
      = unexpected_exit_log h st
        ++ Enter c_restart_ps_process h
           :: (if restart_refused h s
               then [Enter c_emergency_stop h; Enter c_process_queues O]
               else [])).
Proof.
  intros Ht recovering.
  unfold handle_exit_status, call.
  change (records (emit ?e s) h) with (records s h). rewrite Ht.
  unfold process_service_handle_exit_status, log_unexpected_exit, unexpected_exit_log,
    state_is.
  cbv zeta. rewrite ?records_emit.
  split; [|split; [|split]].
  - intro Hs. rewrite Hs. cbn [state_eqb negb andb].
    destruct (st =? 0), (WIFEXITED st), (WIFSIGNALED st), (WEXITSTATUS st =? 0);
      cbn [negb andb]; rewrite ?records_emit, ?Hs; cbn [state_eqb].
    all: eapply direct_steps; [steps_go | reflexivity].
  - intro Hs. rewrite Hs. cbn [state_eqb negb andb]. rewrite ?andb_false_r.
    rewrite ?records_emit, ?Hs. cbn [state_eqb].
    eapply direct_steps; [steps_go | reflexivity].
  - intros N1 N2 Hr. unfold recovering, state_is in Hr.
    destruct (service_state (records s h)) eqn:Hs; try contradiction;
      cbn [state_eqb negb andb];
      destruct (st =? 0), (WIFEXITED st), (WIFSIGNALED st); cbn [negb andb];
      rewrite ?records_emit, ?Hs; cbn [state_eqb] in *; rewrite ?Hr.
    all: eapply direct_steps; [steps_go | reflexivity].
  - intro Hr. unfold recovering, state_is in Hr.
    assert (Hs : service_state (records s h) = STARTED).
    { apply andb_prop in Hr. destruct Hr as [Hr _]. apply andb_prop in Hr.
      destruct Hr as [_ Hr]. now apply state_eqb_eq. }
    rewrite Hs in Hr. cbn [state_eqb] in Hr.
    rewrite Hs. cbn [state_eqb negb andb].
    destruct (st =? 0), (WIFEXITED st), (WIFSIGNALED st); cbn [negb andb];
      rewrite ?records_emit, ?Hs; cbn [state_eqb]; rewrite ?Hr.
    all: rewrite restart_ps_process_accepts, ?restart_refused_emit.
    all: destruct (restart_refused h s); cbn [negb].
    all: eapply direct_steps; [steps_go | reflexivity].
Qed.

(** X4. A child that exits when no exec status is awaited is handled at once:
    the watcher clears [pid], stores the status, removes its watch and calls
    [handle_exit_status] with that status; in all that follows the exit is
    handled that one time. *)
Theorem status_change_handles_exit_at_once (h : handle) (child status : Z) (s : sset) :
  waiting_for_execstat (records s h) = false ->
  let s1 := status_change h child status s in
  exit_calls (news s s1) = [(h, status)]
  /\ exists x,
       s1 = emit (Leave (c_status_change status) h) (handle_exit_status h status x)
       /\ pid (records x h) = -1
       /\ exit_status (records x h) = status
       /\ news s x = [Enter (c_status_change status) h; Effect (fx_deregister_child child) h].
Proof.
  intros W s1.
  set (x := emit (Effect (fx_deregister_child child) h)
              (upd h (set_exit_status status)
                 (upd h (set_pid (-1)) (emit (Enter (c_status_change status) h) s)))).
  assert (E1 : s1 = emit (Leave (c_status_change status) h) (handle_exit_status h status x)).
  { unfold s1, status_change, call. cbv zeta. rewrite !records_upd_eq.
    cbn [waiting_for_execstat set_exit_status set_pid].
    rewrite records_emit, W. reflexivity. }
  assert (Tx : trace x = trace s
                 ++ [Enter (c_status_change status) h; Effect (fx_deregister_child child) h]).
  { unfold x. cbn. rewrite <- app_assoc. reflexivity. }
  split.
  - destruct (shaped_handle_exit_status h status x) as [[tb [Tb [tb' [-> Gb]]]] _ _ _ _ _].
    rewrite E1. erewrite news_app.
    2:{ cbn [trace emit set_trace]. rewrite Tb, Tx. rewrite <- !app_assoc. reflexivity. }
    cbn [app exit_calls]. rewrite !exit_calls_app, (good_exit_calls _ Gb). reflexivity.
  - exists x. split; [exact E1|]. repeat split.
    + unfold x. rewrite records_emit, !records_upd_eq. reflexivity.
    + unfold x. rewrite records_emit, !records_upd_eq. reflexivity.
    + now apply news_app.
Qed.

(** ** The activation socket *)

(** X5. [open_socket] asks nothing of the system when the service has no socket
    path or its socket is open already. Otherwise it succeeds exactly when
    every call succeeds, and then stores the descriptor; when a call fails it
    logs one line, leaves [socket_fd] at -1 and, if the socket had been
    created, closes it. *)
Theorem open_socket_closes_what_it_opened (h : handle) (s : sset) :
  let r := open_socket h s in
  let a := ask s in
  (socket_wanted h s = false ->
     fst r = true /\ direct s (snd r) = [] /\ records (snd r) = records s
     /\ sys_pos (snd r) = sys_pos s)
  /\ (socket_wanted h s = true ->
      if fst r
      then socket_calls_succeed a = true
           /\ socket_fd (records (snd r) h) = a_socket a
           /\ a_socket a <> -1
           /\ direct s (snd r) = []
      else socket_calls_succeed a = false
           /\ socket_fd (records (snd r) h) = -1
           /\ direct s (snd r)
              = Log (msg_text ERROR) h
                :: (if a_malloc_ok a && negb (a_socket a =? -1)
                    then [Effect (fx_close (a_socket a)) h] else [])).
Proof.
  intros r a. unfold socket_wanted. split; intro W.
  - unfold r, open_socket, callv. cbn [fst snd]. rewrite !records_emit.
    replace (str_empty (socket_path (cfg (records s h)))
             || negb (socket_fd (records s h) =? -1)) with true.
    2:{ destruct (str_empty _); [reflexivity|]. cbn [negb andb orb] in *.
        now rewrite W. }
    cbn [fst snd]. repeat split.
    eapply direct_steps; [steps_go | reflexivity].
  - apply andb_prop in W. destruct W as [W1 W2].
    apply negb_true_iff in W1. apply Z.eqb_eq in W2.
    unfold r, open_socket, callv, socket_calls_succeed. cbn [fst snd].
    rewrite !records_emit. rewrite W1, W2. cbn [Z.eqb Pos.eqb negb orb]. cbv zeta.
    change (ask (emit (Enter c_open_socket h) s)) with a.
    assert (F : forall x, records x = records s ->
                socket_fd (records (emit (Leave c_open_socket h) x) h) = -1).
    { intros x Ex. rewrite records_emit, Ex. exact W2. }
    destruct (a_malloc_ok a); cbn [negb andb fst snd];
      [|split; [reflexivity|split; [now apply F|
         eapply direct_steps; [steps_go | reflexivity]]]].
    destruct (a_socket a =? -1) eqn:E1; cbn [negb andb fst snd];
      [split; [reflexivity|split; [now apply F|
         eapply direct_steps; [steps_go | reflexivity]]]|].
    destruct (a_bind a =? -1); cbn [negb andb fst snd];
      [split; [reflexivity|split; [now apply F|
         eapply direct_steps; [steps_go | reflexivity]]]|].
    destruct (a_chown a =? 0); cbn [negb andb fst snd];
      [|split; [reflexivity|split; [now apply F|
         eapply direct_steps; [steps_go | reflexivity]]]].
    destruct (a_chmod a =? -1); cbn [negb andb fst snd];
      [split; [reflexivity|split; [now apply F|
         eapply direct_steps; [steps_go | reflexivity]]]|].
    destruct (a_listen a =? -1); cbn [negb andb fst snd];
      [split; [reflexivity|split; [now apply F|
         eapply direct_steps; [steps_go | reflexivity]]]|].
    split; [reflexivity|]. split; [|split].
    + rewrite ?records_emit, records_upd_eq. reflexivity.
    + now apply Z.eqb_neq.
    + eapply direct_steps; [steps_go | reflexivity].
Qed.

(** ** The limit on restarts *)

(** X6. [restart_ps_process] refuses, with one error line and nothing else, when
    the limit is set, the restart window is still open and the count of
    restarts has reached the limit; in every other case it returns true. When
    the window has expired and the restart must wait for its delay, the window
    is opened anew: the count is 0, the window starts now, and the timer is
    awaited. *)
Theorem restart_ps_process_rate_limit (h : handle) (s : sset) :
  let r := restart_ps_process h s in
  let c := cfg (records s h) in
  fst r = negb (restart_refused h s)
  /\ (restart_refused h s = true ->
      direct s (snd r) = [Log (msg_text ERROR) h] /\ records (snd r) = records s)
  /\ (max_restart_interval_count c = 0 -> fst r = true)
  /\ (max_restart_interval_count c <> 0 -> in_restart_window h s = false ->
      time_lt (restart_delay c) (time_sub (a_now (ask s)) (last_start_time (records s h)))
      = false ->
      restart_interval_count (records (snd r) h) = 0
      /\ restart_interval_time (records (snd r) h) = a_now (ask s)
      /\ waiting_restart_timer (records (snd r) h) = true).
Proof.
  intros r c. unfold restart_refused, in_restart_window.
  unfold r, restart_ps_process, callv. cbn [fst snd]. cbv zeta.
  change (ask (emit (Enter c_restart_ps_process h) s)) with (ask s).
  change (records (asked (emit (Enter c_restart_ps_process h) s)) h) with (records s h).
  fold c.
  set (lim := negb (max_restart_interval_count c =? 0)).
  set (inw := time_lt (time_sub (a_now (ask s)) (restart_interval_time (records s h)))
                (restart_interval c)).
  set (over := max_restart_interval_count c <=? restart_interval_count (records s h)).
  split; [|split; [|split]].
  - destruct (lim && inw && over); [reflexivity|].
    destruct (time_lt (restart_delay c) _); reflexivity.
  - intro R. rewrite R. cbn [fst snd]. split; [|reflexivity].
    eapply direct_steps; [steps_go | reflexivity].
  - intro Z0. unfold lim. rewrite Z0. cbn [Z.eqb negb andb].
    destruct (time_lt (restart_delay c) _); reflexivity.
  - intros NZ W D. unfold lim. apply Z.eqb_neq in NZ. rewrite NZ, W. cbn [negb andb].
    rewrite !records_upd_eq. cbn [last_start_time set_restart_interval_count
      set_restart_interval_time].
    change (records (asked (emit (Enter c_restart_ps_process h) s)) h) with (records s h).
    rewrite D. cbn [fst snd].
    rewrite records_emit, !records_upd_eq.
    change (records (emit ?e ?x)) with (records x). rewrite !records_upd_eq.
    repeat split.
Qed.

End EngineOutcomes.

(** ** Activation across [start] and [stop] *)

Section ActivationMore.
Context {ops : SetOps}.

#[local] Hint Resolve still_forceStop still_dependencyStarted still_stopDependents
  still_interrupt_start still_do_stop_tail still_startCheckDependencies
  still_start_transition : kept.

(** A [do_stop] entered with [start_explicit] clear changes no activation. *)
Lemma still_do_stop_clear (h : handle) (s : sset) :
  start_explicit (records s h) = false -> kept act_at s (do_stop h s).
Proof.
  intro E. unfold do_stop, do_stop_with, call.
  rewrite !records_emit, E. cbn [andb]. cbv zeta.
  kept_go.
Qed.

Lemma activation_release_to_zero (h : handle) (s : sset) :
  required_by (records s h) = 1 ->
  start_explicit (records s h) = false ->
  activation (records (release h s) h)
  = (0, false, false, negb (prop_require (records s h))).
Proof.
  intros R1 E. unfold release, release_with, call. cbv zeta.
  rewrite records_emit.
  set (s0 := emit (Enter c_release h) s).
  rewrite records_upd_eq. cbn [required_by set_required_by].
  change (records s0 h) with (records s h). rewrite R1.
  change (int_wrap (1 - 1) =? 0) with true. cbv iota.
  match goal with
  | |- context [do_stop h ?x] => set (s3 := x)
  end.
  assert (A3 : activation (records s3 h) = (0, false, false, negb (prop_require (records s h)))).
  { unfold s3. change (records (addToPropQueue h ?x)) with (records x).
    rewrite !records_upd_eq. unfold activation.
    cbn [required_by start_explicit prop_require prop_release set_prop_require
         set_prop_release set_desired_state set_required_by].
    change (records s0 h) with (records s h). rewrite R1, E. reflexivity. }
  clearbody s3. destruct (state_is s3 h STOPPED).
  - exact A3.
  - assert (E3 : start_explicit (records s3 h) = false)
      by now destruct (activation_fields _ _ _ _ _ A3) as (_ & X & _).
    pose proof (still_do_stop_clear h s3 E3 h) as K. unfold act_at in K.
    rewrite K. exact A3.
Qed.

(** X7. [start(true)] followed by [stop], with no queue processed in between,
    undoes the activation: the count is back at 0, the explicit mark is
    clear, no require is pending, and a release is pending only if one was
    before. *)
Theorem start_then_stop_restores_activation (h : handle) (bring_down : bool) (s : sset) :
  required_by (records s h) = 0 ->
  start_explicit (records s h) = false ->
  let started := start h true s in
  let stopped := stop h bring_down started in
  required_by (records started h) = 1
  /\ start_explicit (records started h) = true
  /\ required_by (records stopped h) = 0
  /\ start_explicit (records stopped h) = false
  /\ prop_require (records stopped h) = false
  /\ prop_release (records stopped h) = prop_release (records s h).
Proof.
  intros Hr He s1 s2.
  assert (A1 : activation (records s1 h)
               = (1, true, negb (prop_release (records s h)), false)).
  { unfold s1. rewrite activation_start, He. cbn [andb negb]. unfold require_record.
    rewrite Hr. reflexivity. }
  destruct (activation_fields _ _ _ _ _ A1) as (R1 & E1 & P1 & Q1).
  assert (A2 : activation (records s2 h) = (0, false, false, prop_release (records s h))).
  { unfold s2, stop, call. rewrite !records_emit, E1.
    set (x := upd h (set_start_explicit false) (emit (Enter (c_stop bring_down) h) s1)).
    assert (Rx : required_by (records x h) = 1).
    { unfold x. rewrite records_upd_eq. exact R1. }
    assert (Ex : start_explicit (records x h) = false).
    { unfold x. now rewrite records_upd_eq. }
    assert (Px : prop_require (records x h) = negb (prop_release (records s h))).
    { unfold x. rewrite records_upd_eq. exact P1. }
    pose proof (activation_release_to_zero h x Rx Ex) as A.
    rewrite Px, negb_involutive in A.
    destruct bring_down; [|exact A].
    assert (Er : start_explicit (records (release h x) h) = false)
      by now destruct (activation_fields _ _ _ _ _ A) as (_ & X & _).
    pose proof (still_do_stop_clear h (release h x) Er h) as K. unfold act_at in K.
    rewrite K. exact A. }
  destruct (activation_fields _ _ _ _ _ A2) as (R2 & E2 & P2 & Q2).
  repeat split; assumption.
Qed.
End ActivationMore.

(** ** What a control request leaves alone *)

(** An event that is an effect outside the records and the queues; with
    [timers] set, the stop of a restart timer is not counted. *)
Definition outside_effect (timers : bool) (e : event) : bool :=
  match e with
  | Effect fx_stop_timer _ => negb timers
  | Effect _ _ => true
  | _ => false
  end.

(** What the operating system sees of a record: its process, how many times
    the engine has consulted the system, and the effects so far. *)
Definition os_at (timers : bool) (s : sset) (k : handle) : Z * nat * list event :=
  (pid (records s k), sys_pos s, filter (outside_effect timers) (trace s)).

Ltac kept_side ::=
  let k := fresh "k" in
  intro k;
  first
    [ reflexivity
    | cbv beta delta [both_at act_at pid_at edge_at os_at];
      cbn [records edges sys_pos trace upd upd_edge set_records set_edges fst snd];
      repeat match goal with
             | |- context [Nat.eqb ?a ?b] => destruct (Nat.eqb a b)
             end;
      reflexivity
    | cbv beta delta [os_at emit notifyListeners];
      cbn [records sys_pos trace set_trace];
      rewrite filter_app; cbn [filter outside_effect negb]; rewrite app_nil_r;
      reflexivity ].

(** The events a function added hold no effect when the effects of the whole
    trace are those that were there. *)
Lemma no_effect_in_news (timers : bool) (s s' : sset) :
  steady s s' ->
  filter (outside_effect timers) (trace s') = filter (outside_effect timers) (trace s) ->
  filter (outside_effect timers) (news s s') = [].
Proof.
  intros [[t [E _]] _ _ _ _ _] H. rewrite (news_app s s' t E).
  rewrite E, filter_app in H.
  apply (app_inv_head (filter (outside_effect timers) (trace s))).
  now rewrite app_nil_r.
Qed.

Section Untouched.
Context {ops : SetOps}.

Lemma os_forceStop (tm : bool) (h : handle) : Kept (os_at tm) (forceStop h).
Proof. cbv beta delta [forceStop]. kept_call. Qed.

Lemma os_dependencyStarted (tm : bool) (h : handle) : Kept (os_at tm) (dependencyStarted h).
Proof. cbv beta delta [dependencyStarted]. kept_call. Qed.

#[local] Hint Resolve os_forceStop os_dependencyStarted : kept.

Lemma os_stopDependents_fold (tm : bool) (h : handle) (l : list handle) (s : sset) :
  forall acc, kept (os_at tm) s (snd acc) ->
  kept (os_at tm) s (snd (fold_left (stopDependents_step h) l acc)).
Proof.
  induction l as [|i l IH]; intros acc H; simpl; [exact H|].
  apply IH. cbv beta delta [stopDependents_step]. cbn [snd]. kept_go.
Qed.

Lemma os_stopDependents (tm : bool) (h : handle) : KeptV (os_at tm) (stopDependents h).
Proof.
  intro s. cbv beta delta [stopDependents callv]. cbn [snd].
  match goal with
  | |- kept _ _ (emit _ ?x) => eapply (kept_silent (os_at tm) s x); [kept_side|]
  end.
  apply os_stopDependents_fold. cbn [snd].
  eapply (kept_silent (os_at tm) s s); [kept_side | apply kept_refl].
Qed.

Lemma os_interrupt_start (h : handle) : Kept (os_at true) (interrupt_start h).
Proof.
  cbv beta delta [interrupt_start base_process_service_interrupt_start
                    service_record_interrupt_start]. kept_call.
Qed.

#[local] Hint Resolve os_stopDependents os_interrupt_start : kept.

Lemma os_do_stop_tail (tm : bool) (h : handle) : Kept (os_at tm) (do_stop_tail h).
Proof. intro s. cbv beta delta [do_stop_tail]. kept_go. Qed.

#[local] Hint Resolve os_do_stop_tail : kept.

Lemma os_do_stop_with (k0 : handle -> sset -> sset) (h : handle) :
  (forall i, Kept (os_at true) (k0 i)) -> Kept (os_at true) (do_stop_with k0 h).
Proof. intro Hk. cbv beta delta [do_stop_with]. kept_call. Qed.

Lemma os_release_with (k0 : handle -> sset -> sset) (h : handle) :
  (forall i, Kept (os_at true) (k0 i)) -> Kept (os_at true) (release_with k0 h).
Proof. intro Hk. cbv beta delta [release_with]. kept_call. Qed.

Lemma os_do_stop (h : handle) : Kept (os_at true) (do_stop h).
Proof.
  apply os_do_stop_with. intro i. apply os_release_with. intro j.
  apply os_do_stop_with. intros x s e. reflexivity.
Qed.

Lemma os_release (h : handle) : Kept (os_at true) (release h).
Proof. apply os_release_with. intro i. apply os_do_stop. Qed.

Lemma os_require (tm : bool) (h : handle) : Kept (os_at tm) (require h).
Proof. cbv beta delta [require]. kept_call. Qed.

#[local] Hint Resolve os_do_stop os_release os_require : kept.

Lemma os_check_hard_deps (tm b : bool) (l : list handle) (s : sset) :
  forall all s0,
    kept (os_at tm) s s0 -> kept (os_at tm) s (snd (snd (check_hard_deps b l all s0))).
Proof.
  induction l as [|i l IH]; intros all s0 H; simpl; [exact H|].
  destruct (negb (state_is s0 i STARTED)); [destruct b|]; try apply IH; simpl; kept_go.
Qed.

Lemma os_check_soft_deps (tm b : bool) (l : list edge_id) (s : sset) :
  forall all s0,
    kept (os_at tm) s s0 -> kept (os_at tm) s (snd (snd (check_soft_deps b l all s0))).
Proof.
  induction l as [|e l IH]; intros all s0 H; simpl; [exact H|].
  destruct b.
  - destruct (negb (state_is s0 (dep_to (edges s0 e)) STARTED)); apply IH; kept_go.
  - destruct (waiting_on (edges s0 e)); [|now apply IH].
    destruct (negb (state_is s0 (dep_to (edges s0 e)) STARTING)); [apply IH|simpl];
      kept_go.
Qed.

Lemma os_startCheckDependencies (tm : bool) (h : handle) (b : bool) :
  KeptV (os_at tm) (startCheckDependencies h b).
Proof.
  intro s. cbv beta delta [startCheckDependencies callv]. cbn [snd].
  match goal with
  | |- kept _ _ (emit _ ?x) => eapply (kept_silent (os_at tm) s x); [kept_side|]
  end.
  cbv zeta.
  set (s0 := emit (Enter (c_startCheckDependencies b) h) s).
  assert (H0 : kept (os_at tm) s s0) by (unfold s0; kept_side).
  destruct (fst (check_hard_deps b (depends_on (cfg (records s0 h))) true s0)).
  - now apply os_check_hard_deps.
  - now apply os_check_soft_deps, os_check_hard_deps.
Qed.

#[local] Hint Resolve os_startCheckDependencies : kept.

Lemma os_start_transition (tm : bool) (h : handle) : Kept (os_at tm) (start_transition h).
Proof. intro s. cbv beta delta [start_transition]. kept_go. Qed.

#[local] Hint Resolve os_start_transition : kept.

Lemma os_start (tm : bool) (h : handle) (a : bool) : Kept (os_at tm) (start h a).
Proof. cbv beta delta [start]. kept_call. Qed.

Lemma os_stop (h : handle) (b : bool) : Kept (os_at true) (stop h b).
Proof. cbv beta delta [stop]. kept_call. Qed.

(** X8. [start], [stop] and [forceStop] only mark records and fill queues: no
    record's [pid] changes, the system is not consulted, and among the events
    they add there is no effect outside the records and the queues, but for
    the stop of a restart timer that [stop] may cause when it interrupts a
    start. Launching and signalling are left to the processing of the
    queues. *)
Theorem start_and_stop_leave_processes_alone (h k : handle) (b : bool) (s : sset) :
  (pid (records (start h b s) k) = pid (records s k)
   /\ sys_pos (start h b s) = sys_pos s)
  /\ (pid (records (stop h b s) k) = pid (records s k)
      /\ sys_pos (stop h b s) = sys_pos s)
  /\ (pid (records (forceStop h s) k) = pid (records s k)
      /\ sys_pos (forceStop h s) = sys_pos s)
  /\ filter (outside_effect false) (news s (start h b s)) = []
  /\ filter (outside_effect false) (news s (forceStop h s)) = []
  /\ filter (outside_effect true) (news s (stop h b s)) = [].
Proof.
  pose proof (os_start false h b s k) as A. pose proof (os_stop h b s k) as B.
  pose proof (os_forceStop false h s k) as C.
  unfold os_at in A, B, C. injection A as A1 A2 A3. injection B as B1 B2 B3.
  injection C as C1 C2 C3.
  repeat split; try assumption.
  - apply no_effect_in_news; [apply disc_start | exact A3].
  - apply no_effect_in_news; [apply disc_forceStop | exact C3].
  - apply no_effect_in_news; [apply disc_stop | exact B3].
Qed.
End Untouched.

(** ** A service that has started *)

(** A whole record. *)
Definition rec_at (s : sset) (k : handle) : service_record := records s k.

Ltac kept_side ::=
  let k := fresh "k" in
  intro k;
  first
    [ reflexivity
    | cbv beta delta [both_at act_at pid_at edge_at os_at rec_at];
      cbn [records edges sys_pos upd upd_edge set_records set_edges fst snd];
      repeat match goal with
             | |- context [Nat.eqb ?a ?b] => destruct (Nat.eqb a b)
             end;
      reflexivity ].

Section Started.
Context {ops : SetOps} {ok : OpsOk ops}.

Lemma rec_dependencyStarted (h : handle) : Kept rec_at (dependencyStarted h).
Proof. cbv beta delta [dependencyStarted]. kept_call. Qed.

Lemma rec_dependentStopped (h : handle) : Kept rec_at (dependentStopped h).
Proof. cbv beta delta [dependentStopped]. kept_call. Qed.

(** The calls of the two loops that tell the dependents of a start. *)
Lemma steps_dependencyStarted_hard (l : list handle) (s s0 : sset) (acc : list event) :
  steps s s0 acc ->
  steps s (fold_left (fun x i => dependencyStarted i x) l s0)
    (acc ++ map (Enter c_dependencyStarted) l).
Proof.
  intro H. rewrite <- flat_map_single.
  apply (steps_fold (fun x i => dependencyStarted i x)
           (fun i => [Enter c_dependencyStarted i])); [|exact H].
  intros a x acc' Hx. steps_go. exact Hx.
Qed.

Lemma steps_dependencyStarted_soft (l : list edge_id) (s s0 : sset) (acc : list event) :
  steps s s0 acc ->
  steps s (fold_left (fun x e => dependencyStarted (dep_from (edges x e)) x) l s0)
    (acc ++ map (fun e => Enter c_dependencyStarted (dep_from (edges s0 e))) l).
Proof.
  intro H. rewrite <- flat_map_single.
  apply (steps_fold_inv (fun x => forall e, edges x e = edges s0 e)
           (fun x e => dependencyStarted (dep_from (edges x e)) x)
           (fun e => [Enter c_dependencyStarted (dep_from (edges s0 e))]));
    [|reflexivity|exact H].
  intros a x acc' Ix Hx. split.
  - intro e. rewrite <- Ix. unfold dependencyStarted, call.
    destruct (_ && _); reflexivity.
  - rewrite Ix. steps_go. exact Hx.
Qed.

Lemma edges_dependencyStarted_hard (l : list handle) (x : sset) (e : edge_id) :
  edges (fold_left (fun x i => dependencyStarted i x) l x) e = edges x e.
Proof.
  revert x. induction l as [|a l IH]; intro x; simpl; [reflexivity|].
  rewrite IH. unfold dependencyStarted, call. destruct (_ && _); reflexivity.
Qed.

Lemma records_fold_kept {A : Type} (step : sset -> A -> sset) (l : list A) :
  (forall a, Kept rec_at (fun x => step x a)) ->
  forall s0 k, records (fold_left step l s0) k = records s0 k.
Proof.
  intro H. induction l as [|a l IH]; intros s0 k; simpl; [reflexivity|].
  rewrite IH. apply (H a s0 k).
Qed.

(** X9. [started]: after the console has been handed over (when the service
    starts on it but does not run on it), the start is logged and notified
    and the control socket and the log are set up as the flags ask. Then
    either the service is stopped again at once - a forced stop is pending
    or it is no longer wanted - or every hard dependent and every soft
    dependent is told, in that order, and the service is STARTED. *)
Theorem started_tells_dependents_or_stops (h : handle) (s : sset) :
  let f := flags s h in
  let c := cfg (records s h) in
  let s0 := emit (Enter c_started h) s in
  let handover := starts_on_console f && negb (runs_on_console f) in
  let s1 := if handover then pull_console_queue (emit (Effect fx_tcsetpgrp h) s0) else s0 in
  let prelude :=
    (if handover then [Effect fx_tcsetpgrp h; Enter c_pull_console_queue O] else [])
    ++ [Log msg_service_started h; Notify h ev_STARTED]
    ++ (if rw_ready f then [Effect fx_open_control_socket h] else [])
    ++ (if log_ready f then [Effect fx_setup_external_log h] else []) in
  let stop_now :=
    force_stop (records s1 h) || state_eqb (desired_state (records s1 h)) STOPPED in
  (stop_now = true -> direct s (started h s) = prelude ++ [Enter c_do_stop h])
  /\ (stop_now = false ->
      direct s (started h s)
      = prelude ++ map (Enter c_dependencyStarted) (dependents c)
        ++ map (fun e => Enter c_dependencyStarted (dep_from (edges s e))) (soft_dpts c)
      /\ service_state (records (started h s) h) = STARTED).
Proof.
  unfold flags. cbv zeta.
  set (s0 := emit (Enter c_started h) s).
  set (c := cfg (records s h)).
  set (handover := starts_on_console (onstart_flags c)
                   && negb (runs_on_console (onstart_flags c))).
  set (s1 := if handover then pull_console_queue (emit (Effect fx_tcsetpgrp h) s0) else s0).
  set (stop_now := force_stop (records s1 h)
                   || state_eqb (desired_state (records s1 h)) STOPPED).
  set (console := if handover then [Effect fx_tcsetpgrp h; Enter c_pull_console_queue O]
                  else []).
  assert (S1 : steady s0 s1).
  { unfold s1. destruct handover; [steady_go|apply steady_refl]. }
  assert (T1 : steps s0 s1 console).
  { unfold s1, console. destruct handover; [|apply steps_refl].
    change [Effect fx_tcsetpgrp h; Enter c_pull_console_queue O]
      with (([] ++ [Effect fx_tcsetpgrp h]) ++ [Enter c_pull_console_queue O]).
    steps_go. }
  assert (C1 : cfg (records s1 h) = c) by apply (st_cfg _ _ _ S1).
  assert (E1 : forall e, dep_from (edges s1 e) = dep_from (edges s e)).
  { intro e. apply (st_from _ _ _ S1). }
  set (y := upd h (set_service_state STARTED) (emit (Log msg_service_started h) s1)).
  assert (Cy : forall x, records x = records y -> cfg (records x h) = c).
  { intros x ->. unfold y. rewrite records_upd_eq, records_emit. exact C1. }
  assert (Dy : forall x, records x = records y ->
               force_stop (records x h) || state_eqb (desired_state (records x h)) STOPPED
               = stop_now).
  { intros x ->. unfold y. rewrite records_upd_eq, records_emit. reflexivity. }
  unfold started, call. fold s0. unfold flags. change (cfg (records s0 h)) with c.
  fold handover. unfold release_console. fold s1. cbv zeta. fold y.
  unfold notifyListeners.
  assert (M : map (fun e => Enter c_dependencyStarted (dep_from (edges s e))) (soft_dpts c)
              = map (fun e => Enter c_dependencyStarted (dep_from (edges s1 e)))
                  (soft_dpts c)).
  { apply map_ext. intro e. now rewrite E1. }
  rewrite M. clear M.
  destruct (rw_ready (onstart_flags c)) eqn:Rw, (log_ready (onstart_flags c)) eqn:Lr.
  all: repeat (match goal with
               | |- context [cfg (records (emit ?e ?x) ?k)] =>
                   rewrite (Cy (emit e x) eq_refl)
               end; rewrite ?Rw, ?Lr).
  all: match goal with
       | |- context [force_stop (records ?x ?k)] => rewrite (Dy x eq_refl)
       end.
  all: (split; intro D; rewrite D; [|split]).
  all: rewrite ?records_emit,
         ?(records_fold_kept (fun x e => dependencyStarted (dep_from (edges x e)) x) _
             (fun a x => rec_dependencyStarted (dep_from (edges x a)) x)),
         ?(records_fold_kept (fun x i => dependencyStarted i x) _
             (fun a => rec_dependencyStarted a)),
         ?records_emit.
  all: try (unfold y; rewrite records_upd_eq; reflexivity).
  all: rewrite ?(Cy y eq_refl).
  all: unfold y.
  all: try (eapply direct_steps;
            [ steps_go; exact T1 | rewrite <- ?app_assoc; reflexivity ]).
  all: match goal with
       | |- direct _ (emit _ (fold_left _ _ ?b)) = _ =>
           rewrite (map_ext (fun e => Enter c_dependencyStarted (dep_from (edges s1 e)))
                      (fun e => Enter c_dependencyStarted (dep_from (edges b e))))
             by (intro e; rewrite edges_dependencyStarted_hard; reflexivity)
       end.
  all: eapply direct_steps;
         [ apply steps_dependencyStarted_soft, steps_dependencyStarted_hard;
           steps_go; exact T1
         | rewrite <- ?app_assoc; reflexivity ].
Qed.
End Started.

(** ** Stopping *)

Lemma In_enqueue_keeps (h k : handle) (q : list handle) : In k q -> In k (enqueue h q).
Proof.
  intro H. unfold enqueue. destruct (queued h q); [exact H|].
  apply in_or_app. now left.
Qed.

Lemma forallb_same {A : Type} (f g : A -> bool) (l : list A) :
  (forall a, f a = g a) -> forallb f l = forallb g l.
Proof. intro H. induction l as [|a l IH]; simpl; [reflexivity | now rewrite H, IH]. Qed.

Section Stopping.
Context {ops : SetOps}.

(** [do_stop] returns at once on a record that is pinned started. *)
Lemma do_stop_pinned (h : handle) (s : sset) :
  pinned_started (records s h) = true ->
  do_stop h s = emit (Leave c_do_stop h) (emit (Enter c_do_stop h) s).
Proof.
  intro P. unfold do_stop, do_stop_with, call. rewrite records_emit, P. reflexivity.
Qed.

Lemma release_pinned (h : handle) (s : sset) (k : handle) :
  pinned_started (records s h) = true ->
  service_state (records (release h s) k) = service_state (records s k)
  /\ pinned_started (records (release h s) k) = pinned_started (records s k)
  /\ start_explicit (records (release h s) k) = start_explicit (records s k)
  /\ (required_by (records s h) = 1 -> desired_state (records (release h s) h) = STOPPED).
Proof.
  intro P. unfold release, release_with, call. cbv zeta.
  rewrite records_emit.
  set (s0 := emit (Enter c_release h) s).
  set (s1 := upd h (fun r => set_required_by (int_wrap (required_by r - 1)) r) s0).
  assert (F : forall x (f : service_record -> service_record),
              (forall r, service_state (f r) = service_state r) ->
              (forall r, pinned_started (f r) = pinned_started r) ->
              (forall r, start_explicit (f r) = start_explicit r) ->
              forall j, service_state (records (upd h f x) j) = service_state (records x j)
                        /\ pinned_started (records (upd h f x) j) = pinned_started (records x j)
                        /\ start_explicit (records (upd h f x) j) = start_explicit (records x j)).
  { intros x f F1 F2 F3 j. destruct (Nat.eq_dec j h) as [->|N].
    - rewrite records_upd_eq. auto.
    - rewrite records_upd_neq by exact N. auto. }
  destruct (required_by (records s1 h) =? 0) eqn:Z0.
  - set (s4 := addToPropQueue h
                 (upd h (set_prop_require false)
                    (upd h (fun r => set_prop_release (negb (prop_require r)) r)
                       (upd h (set_desired_state STOPPED) s1)))).
    assert (R4 : forall j,
               service_state (records s4 j) = service_state (records s j)
               /\ pinned_started (records s4 j) = pinned_started (records s j)
               /\ start_explicit (records s4 j) = start_explicit (records s j)).
    { intro j. unfold s4. change (records (addToPropQueue h ?x)) with (records x).
      destruct (F (upd h (fun r => set_prop_release (negb (prop_require r)) r)
                     (upd h (set_desired_state STOPPED) s1)) (set_prop_require false)
                  (fun _ => eq_refl) (fun _ => eq_refl) (fun _ => eq_refl) j) as (a1 & a2 & a3).
      destruct (F (upd h (set_desired_state STOPPED) s1)
                  (fun r => set_prop_release (negb (prop_require r)) r)
                  (fun _ => eq_refl) (fun _ => eq_refl) (fun _ => eq_refl) j) as (b1 & b2 & b3).
      destruct (F s1 (set_desired_state STOPPED)
                  (fun _ => eq_refl) (fun _ => eq_refl) (fun _ => eq_refl) j) as (c1 & c2 & c3).
      destruct (F s0 (fun r => set_required_by (int_wrap (required_by r - 1)) r)
                  (fun _ => eq_refl) (fun _ => eq_refl) (fun _ => eq_refl) j) as (d1 & d2 & d3).
      fold s1 in d1, d2, d3.
      rewrite a1, a2, a3, b1, b2, b3, c1, c2, c3, d1, d2, d3. auto. }
    assert (D4 : desired_state (records s4 h) = STOPPED).
    { unfold s4. change (records (addToPropQueue h ?x)) with (records x).
      rewrite !records_upd_eq. reflexivity. }
    assert (P4 : pinned_started (records s4 h) = true).
    { destruct (R4 h) as (_ & -> & _). exact P. }
    fold s4. clearbody s4.
    destruct (state_is s4 h STOPPED).
    + change (records (service_inactive h s4)) with (records s4).
      destruct (R4 k) as (a & b & c). repeat split; auto.
    + rewrite (do_stop_pinned h s4 P4), !records_emit.
      destruct (R4 k) as (a & b & c). repeat split; auto.
  - destruct (F s0 (fun r => set_required_by (int_wrap (required_by r - 1)) r)
                (fun _ => eq_refl) (fun _ => eq_refl) (fun _ => eq_refl) k) as (d1 & d2 & d3).
    fold s1 in d1, d2, d3. repeat split; auto.
    intro R1. exfalso. unfold s1 in Z0. rewrite records_upd_eq in Z0.
    cbn [required_by set_required_by] in Z0.
    change (records s0 h) with (records s h) in Z0. rewrite R1 in Z0. discriminate Z0.
Qed.

(** X10. While a record is pinned started, [stop] brings nothing down: no record
    changes its state and the pin stays. The explicit activation is given up
    all the same, and when it was the last activation the record is marked as
    wanted STOPPED, for [unpin] to act on. *)
Theorem pinned_started_survives_stop (h k : handle) (bring_down : bool) (s : sset) :
  pinned_started (records s h) = true ->
  let after := stop h bring_down s in
  service_state (records after k) = service_state (records s k)
  /\ pinned_started (records after h) = true
  /\ start_explicit (records after h) = false
  /\ (start_explicit (records s h) = true -> required_by (records s h) = 1 ->
      desired_state (records after h) = STOPPED).
Proof.
  intros P after. unfold after, stop, call. rewrite !records_emit.
  set (s0 := emit (Enter (c_stop bring_down) h) s).
  destruct (start_explicit (records s h)) eqn:E.
  - set (x := upd h (set_start_explicit false) s0).
    assert (Px : pinned_started (records x h) = true).
    { unfold x. rewrite records_upd_eq. exact P. }
    assert (Sx : forall j, service_state (records x j) = service_state (records s j)).
    { intro j. unfold x. destruct (Nat.eq_dec j h) as [->|N].
      - rewrite records_upd_eq. reflexivity.
      - rewrite records_upd_neq by exact N. reflexivity. }
    destruct (release_pinned h x k Px) as (a & _ & _ & _).
    destruct (release_pinned h x h Px) as (_ & b & c & d).
    assert (Pr : pinned_started (records (release h x) h) = true) by now rewrite b.
    assert (Er : start_explicit (records (release h x) h) = false).
    { rewrite c. unfold x. now rewrite records_upd_eq. }
    assert (Rx : required_by (records x h) = required_by (records s h)).
    { unfold x. rewrite records_upd_eq. reflexivity. }
    destruct bring_down; rewrite ?(do_stop_pinned _ _ Pr), ?records_emit.
    all: rewrite a, Sx; repeat split; auto.
    all: intros _ R1; apply d; now rewrite Rx.
  - destruct bring_down; rewrite ?(do_stop_pinned h s0 P), ?records_emit.
    all: repeat split; auto; intro X; discriminate X.
Qed.

(** What one round of [stopDependents] does to the marks of a record. *)
Lemma stopDependents_step_marks (h i : handle) (b : bool) (x : sset) :
  let r := stopDependents_step h (b, x) i in
  fst r = b && is_stopped i x
  /\ (forall j, service_state (records (snd r) j) = service_state (records x j)
                /\ waiting_for_deps (records (snd r) j) = waiting_for_deps (records x j))
  /\ prop_stop (records (snd r) i) = true
  /\ In i (prop_queue (snd r))
  /\ (forall j, prop_stop (records x j) = true -> prop_stop (records (snd r) j) = true)
  /\ (forall j, In j (prop_queue x) -> In j (prop_queue (snd r)))
  /\ (forall j, force_stop (records x j) = true -> force_stop (records (snd r) j) = true)
  /\ (forall j, In j (stop_queue x) -> In j (stop_queue (snd r)))
  /\ (force_stop (records x h) = true -> is_stopped i x = false ->
      force_stop (records (snd r) i) = true /\ In i (stop_queue (snd r))).
Proof.
  unfold stopDependents_step. cbn [fst snd]. cbv zeta.
  set (y := if force_stop (records x h) then forceStop i x else x).
  assert (Y : forall j,
            service_state (records y j) = service_state (records x j)
            /\ waiting_for_deps (records y j) = waiting_for_deps (records x j)
            /\ prop_stop (records y j) = prop_stop (records x j)
            /\ (force_stop (records x j) = true -> force_stop (records y j) = true)).
  { intro j. unfold y. destruct (force_stop (records x h)); [|auto].
    unfold forceStop, call. rewrite !records_emit.
    destruct (negb (state_is (emit (Enter c_forceStop i) x) i STOPPED)); [|auto].
    change (records (addToStopQueue i ?z)) with (records z).
    destruct (Nat.eq_dec j i) as [->|N].
    - rewrite records_upd_eq, records_emit. auto.
    - rewrite records_upd_neq, records_emit by exact N. auto. }
  assert (Q : prop_queue y = prop_queue x).
  { unfold y. destruct (force_stop (records x h)); [|reflexivity].
    unfold forceStop, call. destruct (negb _); reflexivity. }
  assert (SQ : forall j, In j (stop_queue x) -> In j (stop_queue y)).
  { intros j H. unfold y. destruct (force_stop (records x h)); [|exact H].
    unfold forceStop, call. destruct (negb _); [|exact H].
    cbn [stop_queue emit set_trace addToStopQueue set_stop_queue upd set_records].
    now apply In_enqueue_keeps. }
  change (records (addToPropQueue i ?z)) with (records z).
  change (stop_queue (addToPropQueue i ?z)) with (stop_queue z).
  change (stop_queue (upd i ?f ?z)) with (stop_queue z).
  change (prop_queue (addToPropQueue i (upd i (set_prop_stop true) y)))
    with (enqueue i (prop_queue y)).
  assert (U : forall j (P : service_record -> bool),
            (forall r, P (set_prop_stop true r) = P r) ->
            P (records (upd i (set_prop_stop true) y) j) = P (records y j)).
  { intros j P HP. destruct (Nat.eq_dec j i) as [->|N].
    - rewrite records_upd_eq. apply HP.
    - now rewrite records_upd_neq. }
  split; [|split; [|split; [|split; [|split; [|split; [|split; [|split]]]]]]].
  - unfold is_stopped. destruct (state_is x i STOPPED); cbn [negb];
      [now rewrite andb_true_r | now rewrite andb_false_r].
  - intro j. destruct (Nat.eq_dec j i) as [->|N].
    + rewrite records_upd_eq. split; apply (Y i).
    + rewrite records_upd_neq by exact N. split; apply (Y j).
  - now rewrite records_upd_eq.
  - apply In_enqueue.
  - intros j H. destruct (Nat.eq_dec j i) as [->|N].
    + now rewrite records_upd_eq.
    + rewrite records_upd_neq by exact N. destruct (Y j) as (_ & _ & -> & _). exact H.
  - intros j H. rewrite Q. now apply In_enqueue_keeps.
  - intros j H. rewrite (U j force_stop (fun _ => eq_refl)). now apply (Y j).
  - exact SQ.
  - intros Hf Hs. unfold is_stopped in Hs. split.
    + rewrite (U i force_stop (fun _ => eq_refl)). unfold y. rewrite Hf.
      unfold forceStop, call.
      change (state_is (emit (Enter c_forceStop i) x) i STOPPED) with (state_is x i STOPPED).
      rewrite Hs. cbn [negb]. rewrite records_emit.
      change (records (addToStopQueue i ?z)) with (records z).
      now rewrite records_upd_eq.
    + unfold y. rewrite Hf. unfold forceStop, call.
      change (state_is (emit (Enter c_forceStop i) x) i STOPPED) with (state_is x i STOPPED).
      rewrite Hs. cbn [negb].
      cbn [stop_queue emit set_trace addToStopQueue set_stop_queue upd set_records].
      apply In_enqueue.
Qed.

Lemma stopDependents_fold_marks (h : handle) (l : list handle) :
  forall (b : bool) (x : sset),
  let r := fold_left (stopDependents_step h) l (b, x) in
  fst r = b && forallb (fun i => is_stopped i x) l
  /\ (forall j, service_state (records (snd r) j) = service_state (records x j)
                /\ waiting_for_deps (records (snd r) j) = waiting_for_deps (records x j))
  /\ (forall i, In i l -> prop_stop (records (snd r) i) = true /\ In i (prop_queue (snd r)))
  /\ (forall j, prop_stop (records x j) = true -> prop_stop (records (snd r) j) = true)
  /\ (forall j, In j (prop_queue x) -> In j (prop_queue (snd r)))
  /\ (forall j, force_stop (records x j) = true -> force_stop (records (snd r) j) = true)
  /\ (forall j, In j (stop_queue x) -> In j (stop_queue (snd r)))
  /\ (force_stop (records x h) = true ->
      forall i, In i l -> is_stopped i x = false ->
      force_stop (records (snd r) i) = true /\ In i (stop_queue (snd r))).
Proof.
  induction l as [|a l IH]; intros b x; cbn [fold_left].
  - cbn [fst snd forallb]. rewrite andb_true_r.
    split; [reflexivity|]. split; [intro j; split; reflexivity|].
    split; [intros i []|]. split; [auto|]. split; [auto|]. split; [auto|].
    split; [auto|]. intros _ i [].
  - destruct (stopDependents_step_marks h a b x)
      as (A1 & A2 & A3 & A4 & A5 & A6 & A7 & A8 & A9).
    destruct (stopDependents_step h (b, x) a) as [b' x'] eqn:E. cbn [fst snd] in *.
    destruct (IH b' x') as (I1 & I2 & I3 & I4 & I5 & I6 & I7 & I8).
    assert (St : forall i, is_stopped i x' = is_stopped i x).
    { intro i. unfold is_stopped, state_is. now destruct (A2 i) as [-> _]. }
    split; [|split; [|split; [|split; [|split; [|split; [|split]]]]]].
    + rewrite I1, A1. cbn [forallb]. rewrite andb_assoc. f_equal.
      apply forallb_same. intros z. apply St.
    + intro j. destruct (I2 j) as [-> ->]. apply (A2 j).
    + intros i [<-|H]; [split; [now apply I4 | now apply I5] | now apply I3].
    + intros j H. now apply I4, A5.
    + intros j H. now apply I5, A6.
    + intros j H. now apply I6, A7.
    + intros j H. now apply I7, A8.
    + intros Hf i [<-|H] Hs.
      * destruct (A9 Hf Hs) as [X1 X2]. split; [now apply I6 | now apply I7].
      * apply I8; [now apply A7 | exact H | now rewrite St].
Qed.

(** X11. [do_stop] on a STARTED record that is neither pinned nor explicitly
    activated: the record is STOPPING and waits for its dependents; every
    hard dependent is marked [prop_stop] and queued for propagation; the
    record itself is queued for its stop when all its dependents are stopped
    already; and a forced stop is passed on to every dependent that is not
    stopped. *)
Theorem do_stop_brings_down_started (h : handle) (s : sset) :
  pinned_started (records s h) = false ->
  start_explicit (records s h) = false ->
  service_state (records s h) = STARTED ->
  let after := do_stop h s in
  let deps := dependents (cfg (records s h)) in
  service_state (records after h) = STOPPING
  /\ waiting_for_deps (records after h) = true
  /\ (forall i, In i deps -> prop_stop (records after i) = true /\ In i (prop_queue after))
  /\ (forallb (fun i => is_stopped i s) deps = true -> In h (stop_queue after))
  /\ (force_stop (records s h) = true ->
      forall i, In i deps -> is_stopped i s = false ->
      force_stop (records after i) = true /\ In i (stop_queue after)).
Proof.
  intros P E S after deps.
  set (s0 := emit (Enter c_do_stop h) s).
  set (s1 := upd h (set_waiting_for_deps true) (upd h (set_service_state STOPPING) s0)).
  set (r := fold_left (stopDependents_step h) deps (true, emit (Enter c_stopDependents h) s1)).
  assert (A : after = emit (Leave c_do_stop h)
                (let x := emit (Leave c_stopDependents h) (snd r) in
                 if fst r then addToStopQueue h x else x)).
  { unfold after, do_stop, do_stop_with, call. fold s0.
    change (records s0 h) with (records s h). rewrite P, E. cbn [andb].
    unfold state_is. change (records s0 h) with (records s h). rewrite S.
    cbn [state_eqb negb]. unfold do_stop_tail. cbv zeta. fold s1.
    unfold stopDependents, callv. cbn [fst snd].
    replace (dependents (cfg (records (emit (Enter c_stopDependents h) s1) h))) with deps.
    - fold r. reflexivity.
    - rewrite records_emit. unfold s1. rewrite !records_upd_eq. reflexivity. }
  destruct (stopDependents_fold_marks h deps true (emit (Enter c_stopDependents h) s1))
    as (I1 & I2 & I3 & I4 & I5 & I6 & I7 & I8).
  fold r in I1, I2, I3, I4, I5, I6, I7, I8. cbv zeta in *.
  assert (R1 : forall j, records (emit (Enter c_stopDependents h) s1) j = records s1 j)
    by reflexivity.
  assert (Sh : service_state (records s1 h) = STOPPING
               /\ waiting_for_deps (records s1 h) = true
               /\ force_stop (records s1 h) = force_stop (records s h)).
  { unfold s1. rewrite !records_upd_eq. repeat split. }
  destruct Sh as (Sh1 & Sh2 & Sh3).
  assert (St : forall i, is_stopped i (emit (Enter c_stopDependents h) s1) = is_stopped i s).
  { intro i. unfold is_stopped, state_is. rewrite R1. unfold s1.
    destruct (Nat.eq_dec i h) as [->|N].
    - rewrite !records_upd_eq. cbn [service_state set_waiting_for_deps set_service_state].
      change (records s0 h) with (records s h). now rewrite S.
    - rewrite !records_upd_neq by exact N. reflexivity. }
  rewrite A. cbv zeta. clear A.
  assert (Rf : forall j, records (if fst r then addToStopQueue h
                                      (emit (Leave c_stopDependents h) (snd r))
                                  else emit (Leave c_stopDependents h) (snd r)) j
                         = records (snd r) j).
  { intro j. destruct (fst r); reflexivity. }
  assert (Pq : prop_queue (if fst r then addToStopQueue h
                                      (emit (Leave c_stopDependents h) (snd r))
                           else emit (Leave c_stopDependents h) (snd r))
               = prop_queue (snd r)).
  { destruct (fst r); reflexivity. }
  split; [|split; [|split; [|split]]].
  - rewrite records_emit, Rf. destruct (I2 h) as [-> _]. now rewrite R1.
  - rewrite records_emit, Rf. destruct (I2 h) as [_ ->]. now rewrite R1.
  - intros i Hi. split.
    + rewrite records_emit, Rf. now apply I3.
    + change (prop_queue (emit ?e ?x)) with (prop_queue x). rewrite Pq. now apply I3.
  - intro All. rewrite I1. cbn [andb].
    rewrite (forallb_same _ (fun i => is_stopped i s) _ St), All.
    cbn [stop_queue emit set_trace addToStopQueue set_stop_queue]. apply In_enqueue.
  - intros Hf i Hi Hs.
    assert (X : force_stop (records (snd r) i) = true /\ In i (stop_queue (snd r))).
    { apply I8; [|assumption|now rewrite St]. now rewrite R1, Sh3. }
    destruct X as [X1 X2]. split.
    + now rewrite records_emit, Rf.
    + destruct (fst r); cbn [stop_queue emit set_trace addToStopQueue set_stop_queue];
        [now apply In_enqueue_keeps | exact X2].
Qed.
End Stopping.

(** ** Launching a process

    The system lets a process be launched: the status pipe, the control
    socket pair and its connection when the service is passed one, and the
    fork. *)
Definition launch_calls_succeed (pass_cs : bool) (a : sys_answers) : bool :=
  (a_pipe2 a =? 0)
  && (negb pass_cs || ((a_socketpair a =? 0) && a_conn_ok a))
  && match a_fork a with Some _ => true | None => false end.

(** The child that [fork] returns. *)
Definition forked_child (a : sys_answers) : positive :=
  match a_fork a with Some child => child | None => 1%positive end.

(** The two ways out of [start_ps_process(cmd, on_console)]. *)
Lemma start_ps_process_cmd_eq (h : handle) (on_console : bool) (s : sset) :
  let a := ask s in
  let s1 := upd h (set_last_start_time (a_now a))
              (asked (emit (Enter (c_start_ps_process_cmd on_console) h) s)) in
  start_ps_process_cmd h on_console s
  = if launch_calls_succeed (pass_cs_fd (flags s h)) a
    then (true, emit (Leave (c_start_ps_process_cmd on_console) h)
                  (upd h (set_waiting_for_execstat true)
                     (upd h (set_pid (Z.pos (forked_child a))) s1)))
    else (false, emit (Leave (c_start_ps_process_cmd on_console) h)
                   (emit (Log (msg_text ERROR) h) s1)).
Proof.
  intros a s1. unfold start_ps_process_cmd, callv, launch_calls_succeed, forked_child.
  cbv zeta.
  change (ask (emit (Enter (c_start_ps_process_cmd on_console) h) s)) with a.
  fold s1.
  assert (C : flags s1 h = flags s h).
  { unfold flags, s1. rewrite records_upd_eq. reflexivity. }
  rewrite C.
  destruct (a_pipe2 a =? 0); cbn [negb andb orb fst snd]; [|reflexivity].
  destruct (pass_cs_fd (flags s h)); cbn [negb andb orb fst snd].
  - destruct (a_socketpair a =? 0); cbn [negb andb orb fst snd]; [|reflexivity].
    destruct (a_conn_ok a); cbn [negb andb orb fst snd]; [|reflexivity].
    destruct (a_fork a); reflexivity.
  - destruct (a_fork a); reflexivity.
Qed.

Lemma launch_calls_succeed_fork (b : bool) (a : sys_answers) :
  launch_calls_succeed b a = true -> a_fork a = Some (forked_child a).
Proof.
  unfold launch_calls_succeed, forked_child. destruct (a_fork a); [reflexivity|].
  rewrite andb_false_r. discriminate.
Qed.

Section Launch.
Context {ops : SetOps} {ok : OpsOk ops}.

(** X12. The launch of a process succeeds exactly when the pipe, the control
    socket pair and connection of a service that is passed one, and the fork
    succeed. The start time is recorded either way. On success the record
    holds the positive pid of the child and waits for the status of its
    exec, and nothing is logged; on failure one error is logged and the
    record keeps its pid. *)
Theorem start_ps_process_cmd_outcome (h : handle) (on_console : bool) (s : sset) :
  let r := start_ps_process_cmd h on_console s in
  let a := ask s in
  fst r = launch_calls_succeed (pass_cs_fd (flags s h)) a
  /\ last_start_time (records (snd r) h) = a_now a
  /\ (if fst r
      then (exists child, a_fork a = Some child /\ pid (records (snd r) h) = Z.pos child)
           /\ 0 < pid (records (snd r) h)
           /\ waiting_for_execstat (records (snd r) h) = true
           /\ direct s (snd r) = []
      else pid (records (snd r) h) = pid (records s h)
           /\ waiting_for_execstat (records (snd r) h) = waiting_for_execstat (records s h)
           /\ direct s (snd r) = [Log (msg_text ERROR) h]).
Proof.
  intros r a. unfold r. rewrite start_ps_process_cmd_eq. fold a.
  destruct (launch_calls_succeed (pass_cs_fd (flags s h)) a) eqn:L.
  - cbn [fst snd]. split; [reflexivity|].
    rewrite records_emit, !records_upd_eq.
    split; [reflexivity|].
    split; [exists (forked_child a); split;
            [exact (launch_calls_succeed_fork _ _ L) | reflexivity]|].
    split; [reflexivity|]. split; [reflexivity|].
    eapply direct_steps; [steps_go | reflexivity].
  - cbn [fst snd]. split; [reflexivity|].
    rewrite !records_emit, !records_upd_eq.
    split; [reflexivity|]. split; [reflexivity|]. split; [reflexivity|].
    eapply direct_steps; [steps_go | reflexivity].
Qed.

(** X13. A restart relaunches the process, on the console when the service is
    STARTING and starts on it, or else runs on it. The restart counter is
    incremented and the restart timer is no longer awaited. When the launch
    fails, a STARTING service has failed to start, any other one is given up:
    its desired state becomes STOPPED and it is forced to stop; the queues
    are processed after either. *)
Theorem do_restart_outcome (h : handle) (s : sset) :
  let on_console :=
    if state_is s h STARTING then starts_on_console (flags s h)
    else runs_on_console (flags s h) in
  let launched := launch_calls_succeed (pass_cs_fd (flags s h)) (ask s) in
  direct s (do_restart h s)
  = Enter (c_start_ps_process_cmd on_console) h
    :: (if launched then []
        else [if state_is s h STARTING then Enter (c_failed_to_start false) h
              else Enter c_forceStop h;
              Enter c_process_queues O])
  /\ (launched = true ->
      let r := records (do_restart h s) h in
      0 < pid r /\ waiting_for_execstat r = true
      /\ restarting r = false /\ waiting_restart_timer r = false
      /\ restart_interval_count r = int_wrap (restart_interval_count (records s h) + 1)
      /\ service_state r = service_state (records s h))
  /\ (launched = false -> state_is s h STARTING = false ->
      exists y, do_restart h s
                = emit (Leave c_do_restart h) (process_queues (forceStop h y))
                /\ desired_state (records y h) = STOPPED).
Proof.
  intros on_console launched.
  set (x := upd h (fun r => set_restart_interval_count
                              (int_wrap (restart_interval_count r + 1)) r)
              (upd h (set_waiting_restart_timer false)
                 (upd h (set_restarting false) (emit (Enter c_do_restart h) s)))).
  set (r := start_ps_process_cmd h on_console x).
  assert (Sx : state_is x h STARTING = state_is s h STARTING).
  { unfold state_is, x. rewrite !records_upd_eq. reflexivity. }
  assert (Fx : flags x h = flags s h).
  { unfold flags, x. rewrite !records_upd_eq. reflexivity. }
  assert (B : do_restart h s
              = emit (Leave c_do_restart h)
                  (if negb (fst r) then
                     process_queues
                       (if state_is (snd r) h STARTING then failed_to_start h false (snd r)
                        else forceStop h (upd h (set_desired_state STOPPED) (snd r)))
                   else snd r)).
  { unfold do_restart, call. cbv zeta. fold x. rewrite Sx, Fx. fold on_console. fold r.
    reflexivity. }
  assert (Er := start_ps_process_cmd_eq h on_console x). cbv zeta in Er. fold r in Er.
  rewrite Fx in Er. change (ask x) with (ask s) in Er. fold launched in Er.
  assert (Tr : steps (emit (Enter c_do_restart h) s) (snd r)
                 [Enter (c_start_ps_process_cmd on_console) h]).
  { unfold r, x. change [Enter (c_start_ps_process_cmd on_console) h]
      with ([] ++ [Enter (c_start_ps_process_cmd on_console) h]). steps_go. }
  destruct launched eqn:L.
  - assert (F1 : fst r = true) by now rewrite Er.
    split; [|split; [|discriminate]].
    + rewrite B, F1. cbn [negb]. eapply direct_steps; [exact Tr | reflexivity].
    + intros _. cbv zeta. rewrite B, F1. cbn [negb]. rewrite records_emit, Er. cbn [snd].
      rewrite records_emit, !records_upd_eq.
      change (records (asked (emit (Enter (c_start_ps_process_cmd on_console) h) x)))
        with (records x).
      unfold x. rewrite !records_upd_eq. repeat split.
  - assert (F1 : fst r = false) by now rewrite Er.
    assert (Sr : state_is (snd r) h STARTING = state_is s h STARTING).
    { rewrite <- Sx, Er. cbn [snd]. unfold state_is.
      rewrite !records_emit, !records_upd_eq. reflexivity. }
    split; [|split; [discriminate|]].
    + rewrite B, F1, Sr. cbn [negb].
      destruct (state_is s h STARTING);
        (eapply direct_steps; [steps_go; exact Tr | reflexivity]).
    + intros _ St. rewrite B, F1, Sr, St. cbn [negb].
      eexists. split; [reflexivity|]. now rewrite records_upd_eq.
Qed.
End Launch.

(** ** Stopping once the dependents have stopped *)

(** The signals sent to the process group of [p]: SIGTERM unless the service
    opts out, then the service's own termination signal if it has one. *)
Definition stop_signals (h : handle) (s : sset) : list event :=
  let p := pid (records s h) in
  (if no_sigterm (flags s h) then [] else [Effect (fx_kill (- p) SIGTERM) h])
  ++ (if term_signal (cfg (records s h)) =? -1 then []
      else [Effect (fx_kill (- p) (term_signal (cfg (records s h)))) h]).

(** [waitpid] tells that the process of a BGPROCESS is not there any more. *)
Definition bgprocess_gone (h : handle) (s : sset) : bool :=
  type_eqb (record_type (cfg (records s h))) BGPROCESS
  && (((a_waitpid (ask s) =? -1) && a_echild (ask s))
      || (a_waitpid (ask s) =? pid (records s h))).

Section StopAfterDependents.
Context {ops : SetOps} {ok : OpsOk ops}.

(** X14. A PROCESS or BGPROCESS service whose dependents have stopped: with no
    process (pid -1) it is stopped at once and no signal is sent. With a
    process, its process group is sent SIGTERM unless the service opts out,
    then the service's termination signal if one is set; the service is then
    stopped at once only if it is a BGPROCESS whose process [waitpid] reports
    gone, and otherwise only stops waiting for dependents. *)
Theorem all_deps_stopped_signals_process (h : handle) (s : sset) :
  is_process_variant (record_type (cfg (records s h))) = true ->
  let s' := all_deps_stopped h s in
  (pid (records s h) = -1 -> direct s s' = [Enter c_stopped h])
  /\ (pid (records s h) <> -1 ->
      direct s s'
      = stop_signals h s ++ (if bgprocess_gone h s then [Enter c_stopped h] else [])
      /\ (bgprocess_gone h s = false ->
          records s' = records (upd h (set_waiting_for_deps false) s))).
Proof.
  intros T s'.
  assert (B : s' = emit (Leave c_all_deps_stopped h)
                     (base_process_service_all_deps_stopped h
                        (emit (Enter c_all_deps_stopped h) s))).
  { unfold s', all_deps_stopped, call.
    change (records (emit (Enter c_all_deps_stopped h) s) h) with (records s h).
    destruct (record_type (cfg (records s h))); try discriminate T; reflexivity. }
  rewrite B. unfold base_process_service_all_deps_stopped, stop_signals, bgprocess_gone.
  cbv zeta.
  set (s0 := upd h (set_waiting_for_deps false) (emit (Enter c_all_deps_stopped h) s)).
  assert (R0 : records s0 h = set_waiting_for_deps false (records s h)).
  { unfold s0. now rewrite records_upd_eq. }
  unfold flags. rewrite !R0.
  change (pid (set_waiting_for_deps false (records s h))) with (pid (records s h)).
  change (cfg (set_waiting_for_deps false (records s h))) with (cfg (records s h)).
  set (p := pid (records s h)).
  set (s1 := if negb (no_sigterm (onstart_flags (cfg (records s h))))
             then emit (Effect (fx_kill (- p) SIGTERM) h) s0 else s0).
  assert (R1 : records s1 = records s0) by (unfold s1; now destruct (negb _)).
  assert (A1 : ask s1 = ask s) by (unfold s1; now destruct (negb _)).
  rewrite !R1, !R0.
  change (cfg (set_waiting_for_deps false (records s h))) with (cfg (records s h)).
  set (sig := term_signal (cfg (records s h))).
  set (s2 := if negb (sig =? -1) then emit (Effect (fx_kill (- p) sig) h) s1 else s1).
  assert (R2 : records s2 = records s0) by (unfold s2; destruct (sig =? -1); exact R1).
  assert (A2 : ask s2 = ask s) by (unfold s2; destruct (sig =? -1); exact A1).
  rewrite !R2, !R0, !A2.
  change (cfg (set_waiting_for_deps false (records s h))) with (cfg (records s h)).
  assert (T2 : steps (emit (Enter c_all_deps_stopped h) s) s2
                 ((if no_sigterm (onstart_flags (cfg (records s h))) then []
                   else [Effect (fx_kill (- p) SIGTERM) h])
                  ++ (if sig =? -1 then [] else [Effect (fx_kill (- p) sig) h]))).
  { unfold s2, s1, s0.
    destruct (no_sigterm (onstart_flags (cfg (records s h)))), (sig =? -1);
      cbn [negb app];
      match goal with
      | |- steps ?a ?b _ => let H := fresh in eassert (H : steps a b _) by steps_go; exact H
      end. }
  split.
  - intro P. rewrite P. change (-1 =? -1) with true. cbn [negb].
    eapply direct_steps; [unfold s0; steps_go | reflexivity].
  - intro P. apply Z.eqb_neq in P. rewrite P. cbn [negb].
    destruct (type_eqb (record_type (cfg (records s h))) BGPROCESS); cbn [andb].
    + destruct ((a_waitpid (ask s) =? -1) && a_echild (ask s)); cbn [orb].
      * split; [|discriminate].
        eapply direct_steps; [steps_go; exact T2 | reflexivity].
      * destruct (a_waitpid (ask s) =? p).
        -- split; [|discriminate].
           eapply direct_steps; [steps_go; exact T2 | reflexivity].
        -- split; [|intros _; rewrite records_emit; unfold asked; exact R2].
           eapply direct_steps; [steps_go; exact T2 | now rewrite app_nil_r].
    + split; [|intros _; rewrite records_emit; exact R2].
      eapply direct_steps; [exact T2 | now rewrite app_nil_r].
Qed.

(** X15. A SCRIPTED service whose dependents have stopped: with no stop command
    it is stopped at once; otherwise the stop command is launched, off the
    console, and the service is stopped at once exactly when the launch
    fails. After a launch the service keeps its state and waits for the
    status of the exec. *)
Theorem all_deps_stopped_runs_stop_script (h : handle) (s : sset) :
  record_type (cfg (records s h)) = SCRIPTED ->
  let s' := all_deps_stopped h s in
  let launched := launch_calls_succeed (pass_cs_fd (flags s h)) (ask s) in
  (stop_command (cfg (records s h)) = EmptyString ->
   direct s s' = [Enter c_stopped h])
  /\ (stop_command (cfg (records s h)) <> EmptyString ->
      direct s s'
      = Enter (c_start_ps_process_cmd false) h
        :: (if launched then [] else [Enter c_stopped h])
      /\ (launched = true ->
          service_state (records s' h) = service_state (records s h)
          /\ 0 < pid (records s' h)
          /\ waiting_for_execstat (records s' h) = true)).
Proof.
  intros T s' launched.
  set (x := upd h (set_waiting_for_deps false) (emit (Enter c_all_deps_stopped h) s)).
  assert (B : s' = emit (Leave c_all_deps_stopped h)
                     (if str_empty (stop_command (cfg (records s h))) then stopped h x
                      else let r := start_ps_process_cmd h false x in
                           if negb (fst r) then stopped h (snd r) else snd r)).
  { unfold s', all_deps_stopped, call.
    change (records (emit (Enter c_all_deps_stopped h) s) h) with (records s h).
    rewrite T. unfold scripted_service_all_deps_stopped. cbv zeta. fold x.
    unfold x at 1. rewrite records_upd_eq. reflexivity. }
  assert (Er := start_ps_process_cmd_eq h false x). cbv zeta in Er.
  assert (Fx : flags x h = flags s h).
  { unfold flags, x. rewrite records_upd_eq. reflexivity. }
  rewrite Fx in Er. change (ask x) with (ask s) in Er. fold launched in Er.
  assert (Tr : steps (emit (Enter c_all_deps_stopped h) s)
                 (snd (start_ps_process_cmd h false x))
                 [Enter (c_start_ps_process_cmd false) h]).
  { unfold x. change [Enter (c_start_ps_process_cmd false) h]
      with ([] ++ [Enter (c_start_ps_process_cmd false) h]). steps_go. }
  split.
  - intro E. rewrite B, E. cbn [str_empty].
    eapply direct_steps; [unfold x; steps_go | reflexivity].
  - intro N. rewrite B.
    replace (str_empty (stop_command (cfg (records s h)))) with false
      by (destruct (stop_command (cfg (records s h))); [contradiction|reflexivity]).
    cbv zeta.
    destruct launched eqn:L.
    + rewrite Er in *. cbn [fst snd negb] in *. split.
      * eapply direct_steps; [exact Tr | reflexivity].
      * intros _. rewrite !records_emit, !records_upd_eq.
        change (records (asked (emit (Enter (c_start_ps_process_cmd false) h) x)))
          with (records x).
        unfold x. rewrite !records_upd_eq. repeat split.
    + split; [|discriminate]. pose proof Tr as Tr'. rewrite Er in Tr' |- *.
      cbn [fst snd negb] in *.
      eapply direct_steps; [steps_go; exact Tr' | reflexivity].
Qed.
End StopAfterDependents.

(** ** Checking the dependencies *)

(** A soft dependency still holds the service back: the edge is waited on
    and its target is STARTING. *)
Definition soft_blocked (s : sset) (e : edge_id) : bool :=
  waiting_on (edges s e) && state_is s (dep_to (edges s e)) STARTING.

Lemma set_edges_same (s : sset) : set_edges (edges s) s = s.
Proof. now destruct s. Qed.

Lemma check_hard_deps_check (l : list handle) (all : bool) (s : sset) :
  check_hard_deps false l all s
  = if forallb (fun i => state_is s i STARTED) l then (false, (all, s))
    else (true, (false, s)).
Proof.
  induction l as [|i l IH]; cbn [check_hard_deps forallb]; [reflexivity|].
  destruct (state_is s i STARTED); cbn [negb andb]; [exact IH | reflexivity].
Qed.

Lemma check_soft_deps_check (l : list edge_id) :
  forall (all : bool) (s : sset),
  exists g : edge_id -> service_dep,
    check_soft_deps false l all s
    = (if forallb (fun e => negb (soft_blocked s e)) l
       then (false, (all, set_edges g s)) else (true, (false, set_edges g s)))
    /\ (forall e, g e = edges s e
                  \/ (g e = set_waiting_on false (edges s e) /\ In e l
                      /\ state_is s (dep_to (edges s e)) STARTING = false))
    /\ (forallb (fun e => negb (soft_blocked s e)) l = true ->
        forall e, In e l -> waiting_on (g e) = false).
Proof.
  induction l as [|e l IH]; intros all s.
  - exists (edges s). cbn [check_soft_deps forallb]. rewrite set_edges_same.
    split; [reflexivity|]. split; [now left | intros _ e []].
  - cbn [check_soft_deps forallb].
    assert (Be : soft_blocked s e
                 = waiting_on (edges s e) && state_is s (dep_to (edges s e)) STARTING)
      by reflexivity.
    rewrite Be. clear Be.
    destruct (waiting_on (edges s e)) eqn:W; cbn [andb negb].
    + destruct (state_is s (dep_to (edges s e)) STARTING) eqn:St; cbn [negb andb].
      * exists (edges s). rewrite set_edges_same.
        split; [reflexivity|]. split; [now left | discriminate].
      * set (s1 := upd_edge e (set_waiting_on false) s).
        destruct (IH all s1) as (g & E & G1 & G2).
        assert (Ed : forall k, edges s1 k
                               = if Nat.eqb k e then set_waiting_on false (edges s e)
                                 else edges s k).
        { intro k. unfold s1, upd_edge. cbn [edges set_edges].
          destruct (Nat.eqb k e) eqn:K; [|reflexivity].
          apply Nat.eqb_eq in K. now subst k. }
        assert (B : forall k, soft_blocked s1 k = soft_blocked s k).
        { intro k. unfold soft_blocked, state_is. rewrite Ed.
          change (records s1) with (records s).
          destruct (Nat.eqb k e) eqn:K; [|reflexivity].
          apply Nat.eqb_eq in K. subst k. cbn [waiting_on dep_to set_waiting_on].
          unfold state_is in St. rewrite W, St. reflexivity. }
        rewrite (forallb_same _ (fun k => negb (soft_blocked s k))) in E, G2
          by (intro k; now rewrite B).
        exists g. split; [exact E|]. split.
        -- intro k. destruct (G1 k) as [H|(H & I & Sk)]; rewrite Ed in H.
           ++ destruct (Nat.eqb k e) eqn:K; [|now left].
              apply Nat.eqb_eq in K. subst k. right. repeat split; [exact H|now left|exact St].
           ++ right. change (records s1) with (records s) in Sk. rewrite Ed in Sk.
              destruct (Nat.eqb k e) eqn:K.
              ** apply Nat.eqb_eq in K. subst k.
                 repeat split; [exact H | now left | exact St].
              ** repeat split; [exact H | now right | exact Sk].
        -- intros F k [<-|I]; [|now apply G2].
           destruct (G1 e) as [H|(H & _)]; rewrite H, Ed, Nat.eqb_refl; reflexivity.
    + destruct (IH all s) as (g & E & G1 & G2). exists g.
      split; [exact E|]. split.
      * intro k. destruct (G1 k) as [H|(H & I & Sk)]; [now left|].
        right. repeat split; [exact H | now right | exact Sk].
      * intros F k [<-|I]; [|now apply G2].
        destruct (G1 e) as [H|(H & _)]; rewrite H; [exact W | reflexivity].
Qed.

Lemma existsb_same {A : Type} (f g : A -> bool) (l : list A) :
  (forall a, f a = g a) -> existsb f l = existsb g l.
Proof. intro H. induction l as [|a l IH]; simpl; [reflexivity | now rewrite H, IH]. Qed.

Lemma existsb_eqb_In (k : handle) (l : list handle) :
  In k l -> existsb (Nat.eqb k) l = true.
Proof.
  intro H. apply existsb_exists. exists k. split; [exact H | apply Nat.eqb_refl].
Qed.

(** What one round of either loop of the starting check leaves behind for
    the dependency [i], reached through the edge [e] if through one. *)
Record start_request (started : bool) (i : handle) (s s1 : sset) : Prop := {
  sr_state : forall k, service_state (records s1 k) = service_state (records s k);
  sr_records : forall k, records s1 k
                         = if negb started && Nat.eqb k i
                           then set_prop_start true (records s k) else records s k;
  sr_keeps : forall k, In k (prop_queue s) -> In k (prop_queue s1);
  sr_queued : started = false -> In i (prop_queue s1);
  sr_rest : exists rs g q, s1 = set_prop_queue q (set_edges g (set_records rs s))
}.

Lemma set_all_same (s : sset) :
  set_prop_queue (prop_queue s) (set_edges (edges s) (set_records (records s) s)) = s.
Proof. now destruct s. Qed.

Lemma start_request_hard (i : handle) (s : sset) :
  start_request (state_is s i STARTED) i s
    (if negb (state_is s i STARTED)
     then addToPropQueue i (upd i (set_prop_start true) s) else s).
Proof.
  destruct (state_is s i STARTED) eqn:St; cbn [negb].
  - split; try reflexivity; [tauto | discriminate |].
    exists (records s), (edges s), (prop_queue s). now rewrite set_all_same.
  - split.
    + intro k. change (records (addToPropQueue i ?z)) with (records z).
      destruct (Nat.eq_dec k i) as [->|N];
        [now rewrite records_upd_eq | now rewrite records_upd_neq].
    + intro k. change (records (addToPropQueue i ?z)) with (records z).
      cbn [negb andb]. destruct (Nat.eqb k i) eqn:K.
      * apply Nat.eqb_eq in K. subst k. now rewrite records_upd_eq.
      * apply Nat.eqb_neq in K. now rewrite records_upd_neq.
    + intros k H. now apply In_enqueue_keeps.
    + intros _. apply In_enqueue.
    + eexists _, (edges s), _. unfold addToPropQueue, upd. destruct s. reflexivity.
Qed.

Lemma check_hard_deps_start (l : list handle) :
  forall (all : bool) (s : sset),
  let r := check_hard_deps true l all s in
  fst r = false
  /\ fst (snd r) = all && forallb (fun i => state_is s i STARTED) l
  /\ (forall k, service_state (records (snd (snd r)) k) = service_state (records s k))
  /\ (forall k, records (snd (snd r)) k
                = if negb (state_is s k STARTED) && existsb (Nat.eqb k) l
                  then set_prop_start true (records s k) else records s k)
  /\ edges (snd (snd r)) = edges s
  /\ (forall k, In k (prop_queue s) -> In k (prop_queue (snd (snd r))))
  /\ (forall k, In k l -> state_is s k STARTED = false -> In k (prop_queue (snd (snd r))))
  /\ exists rs g q, snd (snd r) = set_prop_queue q (set_edges g (set_records rs s)).
Proof.
  induction l as [|i l IH]; intros all s.
  - cbn. rewrite ?andb_true_r.
    split; [reflexivity|]. split; [reflexivity|]. split; [reflexivity|].
    split; [intro k; now rewrite andb_false_r|].
    split; [reflexivity|]. split; [tauto|]. split; [intros k []|].
    exists (records s), (edges s), (prop_queue s). now rewrite set_all_same.
  - pose proof (start_request_hard i s) as R.
    set (s1 := if negb (state_is s i STARTED)
               then addToPropQueue i (upd i (set_prop_start true) s) else s) in R.
    assert (E : check_hard_deps true (i :: l) all s
                = check_hard_deps true l (all && state_is s i STARTED) s1).
    { cbn [check_hard_deps]. unfold s1.
      destruct (state_is s i STARTED); cbn [negb]; now rewrite ?andb_true_r, ?andb_false_r. }
    cbv zeta. rewrite E.
    destruct (IH (all && state_is s i STARTED) s1) as (I1 & I2 & I3 & I4 & I5 & I6 & I7 & I8).
    destruct R as [R1 R2 R3 R4 R5].
    assert (St : forall k st, state_is s1 k st = state_is s k st).
    { intros k st. unfold state_is. now rewrite R1. }
    assert (Es : edges s1 = edges s).
    { unfold s1. now destruct (negb _). }
    split; [exact I1|]. split.
    { rewrite I2. cbn [forallb]. rewrite andb_assoc. f_equal.
      apply forallb_same. intro k. apply St. }
    split; [intro k; now rewrite I3, R1|]. split.
    { intro k. rewrite I4, St, R2. cbn [existsb].
      destruct (Nat.eqb k i) eqn:K; cbn [orb andb].
      - apply Nat.eqb_eq in K. subst k. rewrite !andb_true_r.
        destruct (state_is s i STARTED); cbn [negb andb]; [reflexivity|].
        now destruct (existsb (Nat.eqb i) l).
      - now rewrite andb_false_r. }
    split; [now rewrite I5|]. split; [intros k H; now apply I6, R3|]. split.
    { intros k [<-|H] Sk; [apply I6, R4; exact Sk | apply I7; [exact H | now rewrite St]]. }
    destruct I8 as (rs & g & q & ->). destruct R5 as (rs' & g' & q' & ->).
    now exists rs, g, q.
Qed.

Lemma start_request_soft (e : edge_id) (s : sset) :
  let i := dep_to (edges s e) in
  let s1 := if negb (state_is s i STARTED)
            then upd_edge e (set_waiting_on true)
                   (addToPropQueue i (upd i (set_prop_start true) s))
            else upd_edge e (set_waiting_on false) s in
  start_request (state_is s i STARTED) i s s1
  /\ forall k, edges s1 k = if Nat.eqb k e
                            then set_waiting_on (negb (state_is s i STARTED)) (edges s e)
                            else edges s k.
Proof.
  intros i s1. unfold s1.
  destruct (start_request_hard i s) as [R1 R2 R3 R4 (rs & g & q & R5)].
  destruct (state_is s i STARTED) eqn:St; cbn [negb] in *.
  - split.
    + split; try reflexivity; [tauto | discriminate |].
      exists (records s), (edges (upd_edge e (set_waiting_on false) s)), (prop_queue s).
      unfold upd_edge. destruct s. reflexivity.
    + intro k. unfold upd_edge. cbn [edges set_edges].
      destruct (Nat.eqb k e) eqn:K; [|reflexivity]. apply Nat.eqb_eq in K. now subst k.
  - split.
    + split; [exact R1 | exact R2 | exact R3 | exact R4 |].
      rewrite R5.
      now exists rs, (fun k => if Nat.eqb k e then set_waiting_on true (g k) else g k), q.
    + intro k. unfold upd_edge. cbn [edges set_edges addToPropQueue upd set_prop_queue
                                       set_records].
      destruct (Nat.eqb k e) eqn:K; [|reflexivity]. apply Nat.eqb_eq in K. now subst k.
Qed.

Lemma check_soft_deps_start (l : list edge_id) :
  forall (all : bool) (s : sset),
  let r := check_soft_deps true l all s in
  let tgt := fun e => dep_to (edges s e) in
  fst r = false
  /\ fst (snd r) = all && forallb (fun e => state_is s (tgt e) STARTED) l
  /\ (forall k, service_state (records (snd (snd r)) k) = service_state (records s k))
  /\ (forall k, records (snd (snd r)) k
                = if negb (state_is s k STARTED) && existsb (fun e => Nat.eqb k (tgt e)) l
                  then set_prop_start true (records s k) else records s k)
  /\ (forall e, edges (snd (snd r)) e
                = if existsb (Nat.eqb e) l
                  then set_waiting_on (negb (state_is s (tgt e) STARTED)) (edges s e)
                  else edges s e)
  /\ (forall k, In k (prop_queue s) -> In k (prop_queue (snd (snd r))))
  /\ (forall e, In e l -> state_is s (tgt e) STARTED = false ->
                In (tgt e) (prop_queue (snd (snd r))))
  /\ exists rs g q, snd (snd r) = set_prop_queue q (set_edges g (set_records rs s)).
Proof.
  induction l as [|e l IH]; intros all s.
  - cbn. rewrite ?andb_true_r.
    split; [reflexivity|]. split; [reflexivity|]. split; [reflexivity|].
    split; [intro k; now rewrite andb_false_r|].
    split; [reflexivity|]. split; [tauto|]. split; [intros k []|].
    exists (records s), (edges s), (prop_queue s). now rewrite set_all_same.
  - destruct (start_request_soft e s) as [R Ed]. cbv zeta in R, Ed.
    set (i := dep_to (edges s e)) in *.
    set (s1 := if negb (state_is s i STARTED)
               then upd_edge e (set_waiting_on true)
                      (addToPropQueue i (upd i (set_prop_start true) s))
               else upd_edge e (set_waiting_on false) s) in *.
    assert (E : check_soft_deps true (e :: l) all s
                = check_soft_deps true l (all && state_is s i STARTED) s1).
    { cbn [check_soft_deps]. fold i. unfold s1.
      destruct (state_is s i STARTED); cbn [negb]; now rewrite ?andb_true_r, ?andb_false_r. }
    cbv zeta. rewrite E.
    destruct (IH (all && state_is s i STARTED) s1) as (I1 & I2 & I3 & I4 & I5 & I6 & I7 & I8).
    destruct R as [R1 R2 R3 R4 R5].
    assert (St : forall k st, state_is s1 k st = state_is s k st).
    { intros k st. unfold state_is. now rewrite R1. }
    assert (Tg : forall k, dep_to (edges s1 k) = dep_to (edges s k)).
    { intro k. rewrite Ed. destruct (Nat.eqb k e) eqn:K; [|reflexivity].
      apply Nat.eqb_eq in K. now subst k. }
    split; [exact I1|]. split.
    { rewrite I2. cbn [forallb]. rewrite andb_assoc. f_equal.
      apply forallb_same. intro k. now rewrite St, Tg. }
    split; [intro k; now rewrite I3, R1|]. split.
    { intro k. rewrite I4, St, R2. cbn [existsb]. fold i.
      rewrite (existsb_same (fun e0 => Nat.eqb k (dep_to (edges s1 e0)))
                 (fun e0 => Nat.eqb k (dep_to (edges s e0))))
        by (intro e0; now rewrite Tg).
      destruct (Nat.eqb k i) eqn:K; cbn [orb andb].
      - apply Nat.eqb_eq in K. subst k. rewrite !andb_true_r.
        destruct (state_is s i STARTED); cbn [negb andb]; [reflexivity|].
        now destruct (existsb _ l).
      - now rewrite andb_false_r. }
    split.
    { intro k. rewrite I5, St, Tg, Ed. cbn [existsb].
      destruct (Nat.eqb k e) eqn:K; cbn [orb].
      - apply Nat.eqb_eq in K. subst k. fold i. now destruct (existsb (Nat.eqb e) l).
      - reflexivity. }
    split; [intros k H; now apply I6, R3|]. split.
    { intros k [<-|H] Sk.
      - apply I6, R4. exact Sk.
      - rewrite <- Tg. apply I7; [exact H | now rewrite St, Tg]. }
    destruct I8 as (rs & g & q & ->). destruct R5 as (rs' & g' & q' & ->).
    now exists rs, g, q.
Qed.

(** The dependencies of [h] let it go on starting. *)
Definition deps_ready (s : sset) (h : handle) : bool :=
  forallb (fun i => state_is s i STARTED) (depends_on (cfg (records s h)))
  && forallb (fun e => negb (soft_blocked s e)) (soft_deps (cfg (records s h))).

Lemma startCheckDependencies_check_eq (h : handle) (s : sset) :
  exists g : edge_id -> service_dep,
    startCheckDependencies h false s
    = (deps_ready s h,
       emit (Leave (c_startCheckDependencies false) h)
         (set_edges g (emit (Enter (c_startCheckDependencies false) h) s)))
    /\ (forall e, g e = edges s e
                  \/ (g e = set_waiting_on false (edges s e)
                      /\ In e (soft_deps (cfg (records s h)))
                      /\ state_is s (dep_to (edges s e)) STARTING = false))
    /\ (deps_ready s h = true ->
        forall e, In e (soft_deps (cfg (records s h))) -> waiting_on (g e) = false).
Proof.
  unfold startCheckDependencies, callv, deps_ready. cbv zeta.
  set (c := cfg (records s h)).
  set (s0 := emit (Enter (c_startCheckDependencies false) h) s).
  change (cfg (records s0 h)) with c.
  rewrite check_hard_deps_check.
  change (fun i => state_is s0 i STARTED) with (fun i => state_is s i STARTED).
  destruct (forallb (fun i => state_is s i STARTED) (depends_on c)); cbn [fst snd andb].
  - destruct (check_soft_deps_check (soft_deps c) true s0) as (g & E & G1 & G2).
    rewrite E.
    change (fun e => negb (soft_blocked s0 e)) with (fun e => negb (soft_blocked s e)) in *.
    exists g.
    destruct (forallb (fun e => negb (soft_blocked s e)) (soft_deps c)); cbn [fst snd].
    + split; [reflexivity|]. split; [exact G1|]. intros _. now apply G2.
    + split; [reflexivity|]. split; [exact G1|discriminate].
  - exists (edges s0). rewrite (set_edges_same s0).
    split; [reflexivity|]. split; [now left | discriminate].
Qed.

Section DependencyChecks.
Context {ops : SetOps} {ok : OpsOk ops}.

(** X16. A check of the dependencies that starts nothing answers true exactly
    when every hard dependency is STARTED and no soft dependency is both
    waited on and STARTING. It changes nothing but soft edges of the service
    whose target is not STARTING, which stop being waited on; after the
    answer true none of the soft edges is waited on. *)
Theorem startCheckDependencies_check_only (h : handle) (s : sset) :
  let c := cfg (records s h) in
  let r := startCheckDependencies h false s in
  fst r = forallb (fun i => state_is s i STARTED) (depends_on c)
          && forallb (fun e => negb (soft_blocked s e)) (soft_deps c)
  /\ (exists g, snd r = emit (Leave (c_startCheckDependencies false) h)
                          (set_edges g (emit (Enter (c_startCheckDependencies false) h) s)))
  /\ (forall e, edges (snd r) e = edges s e
                \/ (edges (snd r) e = set_waiting_on false (edges s e)
                    /\ In e (soft_deps c)
                    /\ state_is s (dep_to (edges s e)) STARTING = false))
  /\ (fst r = true -> forall e, In e (soft_deps c) -> waiting_on (edges (snd r) e) = false).
Proof.
  intros c r. unfold r.
  destruct (startCheckDependencies_check_eq h s) as (g & -> & G1 & G2). cbn [fst snd].
  split; [reflexivity|]. split; [now exists g|]. split; [exact G1 | exact G2].
Qed.
(** X17. The check of the dependencies that starts them answers true exactly when
    every hard and every soft dependency is STARTED. Each dependency that is
    not STARTED is asked to start (its start is to be propagated) and is in
    the propagation queue; no other record changes and the queue loses
    nothing. Each soft edge of the service is waited on exactly when its
    target is not STARTED. Nothing is called or logged. *)
Theorem startCheckDependencies_requests_start (h : handle) (s : sset) :
  let c := cfg (records s h) in
  let r := startCheckDependencies h true s in
  let tgt := fun e => dep_to (edges s e) in
  let wanted := fun k => existsb (Nat.eqb k) (depends_on c)
                         || existsb (fun e => Nat.eqb k (tgt e)) (soft_deps c) in
  fst r = forallb (fun i => state_is s i STARTED) (depends_on c)
          && forallb (fun e => state_is s (tgt e) STARTED) (soft_deps c)
  /\ (forall k, records (snd r) k
                = if negb (state_is s k STARTED) && wanted k
                  then set_prop_start true (records s k) else records s k)
  /\ (forall k, wanted k = true -> state_is s k STARTED = false ->
                In k (prop_queue (snd r)))
  /\ (forall k, In k (prop_queue s) -> In k (prop_queue (snd r)))
  /\ (forall e, edges (snd r) e
                = if existsb (Nat.eqb e) (soft_deps c)
                  then set_waiting_on (negb (state_is s (tgt e) STARTED)) (edges s e)
                  else edges s e)
  /\ direct s (snd r) = [].
Proof.
  intros c r tgt wanted. unfold r, startCheckDependencies, callv. cbv zeta.
  set (s0 := emit (Enter (c_startCheckDependencies true) h) s).
  change (cfg (records s0 h)) with c.
  destruct (check_hard_deps_start (depends_on c) true s0)
    as (H1 & H2 & H3 & H4 & H5 & H6 & H7 & H8).
  cbv zeta in H1, H2, H3, H4, H5, H6, H7, H8.
  rewrite H1.
  set (sh := snd (snd (check_hard_deps true (depends_on c) true s0))) in *.
  destruct (check_soft_deps_start (soft_deps c)
              (fst (snd (check_hard_deps true (depends_on c) true s0))) sh)
    as (S1 & S2 & S3 & S4 & S5 & S6 & S7 & S8).
  cbv zeta in S1, S2, S3, S4, S5, S6, S7, S8.
  set (r2 := check_soft_deps true (soft_deps c)
               (fst (snd (check_hard_deps true (depends_on c) true s0))) sh) in *.
  assert (St : forall k st, state_is sh k st = state_is s k st).
  { intros k st. unfold state_is. now rewrite H3. }
  cbn [fst snd]. rewrite !records_emit.
  change (edges (emit ?e ?x)) with (edges x).
  change (prop_queue (emit ?e ?x)) with (prop_queue x).
  split.
  { rewrite S2, H2. cbn [andb]. f_equal.
    apply forallb_same. intro e. now rewrite St, H5. }
  split.
  { intro k. rewrite S4, St, H4.
    rewrite (existsb_same (fun e => Nat.eqb k (dep_to (edges sh e)))
               (fun e => Nat.eqb k (tgt e))) by (intro e; now rewrite H5).
    unfold wanted.
    change (state_is s0 k STARTED) with (state_is s k STARTED).
    change (records s0 k) with (records s k).
    destruct (state_is s k STARTED); cbn [negb andb]; [reflexivity|].
    destruct (existsb (Nat.eqb k) (depends_on c)),
             (existsb (fun e => Nat.eqb k (tgt e)) (soft_deps c)); reflexivity. }
  split.
  { intros k W Sk. unfold wanted in W. apply orb_true_iff in W. destruct W as [W|W].
    - apply existsb_exists in W. destruct W as (i & I & K). apply Nat.eqb_eq in K. subst i.
      apply S6, H7; [exact I | exact Sk].
    - apply existsb_exists in W. destruct W as (e & I & K). apply Nat.eqb_eq in K. subst k.
      unfold tgt. change (edges s e) with (edges s0 e). rewrite <- H5.
      apply S7; [exact I | now rewrite St, H5]. }
  split; [intros k H; now apply S6, H6|]. split.
  { intro e. rewrite S5, St, !H5. reflexivity. }
  destruct S8 as (rs & g & q & ->). destruct H8 as (rs' & g' & q' & ->).
  eapply direct_steps; [|reflexivity].
  eapply (steps_silent _ s0); [reflexivity | apply steps_refl].
Qed.
End DependencyChecks.

(** ** Going on with a transition *)

(** The transition of [h] can go on: its dependencies are ready when it is
    STARTING, its dependents are stopped when it is STOPPING. *)
Definition transition_ready (s : sset) (h : handle) : bool :=
  match service_state (records s h) with
  | STARTING => deps_ready s h
  | STOPPING => stopCheckDependents h s
  | _ => false
  end.

Lemma set_service_state_same (r : service_record) :
  set_service_state (service_state r) r = r.
Proof. now destruct r. Qed.

Section TransitionGating.
Context {ops : SetOps} {ok : OpsOk ops}.

(** X18. [execute_transition] goes on with a start only when the dependencies are
    ready and with a stop only when every dependent is stopped; a service
    that is STOPPED or STARTED is left alone. When the transition cannot go
    on, no record changes and the environment is not consulted. *)
Theorem execute_transition_gating (h : handle) (s : sset) :
  let s' := execute_transition h s in
  direct s s'
  = match service_state (records s h) with
    | STARTING => Enter (c_startCheckDependencies false) h
                  :: (if deps_ready s h then [Enter (c_allDepsStarted false) h] else [])
    | STOPPING => if stopCheckDependents h s then [Enter c_all_deps_stopped h] else []
    | _ => []
    end
  /\ (transition_ready s h = false ->
      records s' = records s /\ sys_pos s' = sys_pos s
      /\ prop_queue s' = prop_queue s /\ start_queue s' = start_queue s
      /\ stop_queue s' = stop_queue s).
Proof.
  intro s'. unfold s', execute_transition, call, transition_ready, state_is.
  set (s0 := emit (Enter c_execute_transition h) s).
  change (records s0 h) with (records s h).
  destruct (startCheckDependencies_check_eq h s0) as (g & E & _).
  change (deps_ready s0 h) with (deps_ready s h) in E.
  assert (T : steps s0 (snd (startCheckDependencies h false s0))
                [Enter (c_startCheckDependencies false) h]).
  { change [Enter (c_startCheckDependencies false) h]
      with ([] ++ [Enter (c_startCheckDependencies false) h]). steps_go. }
  destruct (service_state (records s h)); cbn [state_eqb].
  - split; [eapply direct_steps; [steps_go | reflexivity]|]. intros _. repeat split.
  - destruct (deps_ready s h) eqn:D.
    + assert (F : fst (startCheckDependencies h false s0) = true) by now rewrite E.
      rewrite F. split; [|discriminate].
      eapply direct_steps; [steps_go; exact T | reflexivity].
    + assert (F : fst (startCheckDependencies h false s0) = false) by now rewrite E.
      rewrite F. split; [eapply direct_steps; [exact T | reflexivity]|].
      intros _. rewrite E. cbn [snd]. repeat split.
  - split; [eapply direct_steps; [steps_go | reflexivity]|]. intros _. repeat split.
  - change (stopCheckDependents h s0) with (stopCheckDependents h s).
    destruct (stopCheckDependents h s).
    + split; [|discriminate]. eapply direct_steps; [steps_go | reflexivity].
    + split; [eapply direct_steps; [steps_go | reflexivity]|]. intros _. repeat split.
Qed.

(** X19. [do_start] leaves a service alone that is pinned stopped or is not
    STARTING. Otherwise the service waits for its dependencies, and goes on
    starting only when they are ready. *)
Theorem do_start_gating (h : handle) (s : sset) :
  let s' := do_start h s in
  direct s s'
  = (if pinned_stopped (records s h) || negb (state_is s h STARTING) then []
     else Enter (c_startCheckDependencies false) h
          :: (if deps_ready s h then [Enter (c_allDepsStarted false) h] else []))
  /\ (pinned_stopped (records s h) || negb (state_is s h STARTING) = true ->
      s' = emit (Leave c_do_start h) (emit (Enter c_do_start h) s))
  /\ (pinned_stopped (records s h) = false -> state_is s h STARTING = true ->
      deps_ready s h = false ->
      records s' h = set_waiting_for_deps true (records s h)
      /\ forall k, k <> h -> records s' k = records s k).
Proof.
  intro s'. unfold s', do_start, call.
  set (s0 := emit (Enter c_do_start h) s).
  change (records s0 h) with (records s h).
  change (state_is s0 h STARTING) with (state_is s h STARTING).
  destruct (pinned_stopped (records s h)); cbn [orb].
  { split; [eapply direct_steps; [steps_go | reflexivity]|].
    split; [reflexivity | discriminate]. }
  destruct (state_is s h STARTING) eqn:St; cbn [negb].
  2:{ split; [eapply direct_steps; [steps_go | reflexivity]|].
      split; [reflexivity | discriminate]. }
  cbv zeta.
  set (s1 := upd h (set_waiting_for_deps true) (upd h (set_service_state STARTING) s0)).
  assert (Rh : records s1 h = set_waiting_for_deps true (records s h)).
  { assert (Q : service_state (records s h) = STARTING).
    { unfold state_is in St.
      destruct (service_state (records s h)); try discriminate St; reflexivity. }
    unfold s1. rewrite !records_upd_eq. change (records s0 h) with (records s h).
    rewrite <- Q. now rewrite set_service_state_same. }
  assert (Rk : forall k, k <> h -> records s1 k = records s k).
  { intros k N. unfold s1. now rewrite !records_upd_neq. }
  assert (Ss : forall k st, state_is s1 k st = state_is s k st).
  { intros k st. unfold state_is. destruct (Nat.eq_dec k h) as [->|N].
    - now rewrite Rh.
    - now rewrite Rk. }
  assert (D : deps_ready s1 h = deps_ready s h).
  { unfold deps_ready, soft_blocked. rewrite Rh.
    change (cfg (set_waiting_for_deps true (records s h))) with (cfg (records s h)).
    change (edges s1) with (edges s).
    f_equal; apply forallb_same; intro k; now rewrite Ss. }
  destruct (startCheckDependencies_check_eq h s1) as (g & E & _). rewrite D in E.
  assert (T : steps s0 (snd (startCheckDependencies h false s1))
                [Enter (c_startCheckDependencies false) h]).
  { unfold s1. change [Enter (c_startCheckDependencies false) h]
      with ([] ++ [Enter (c_startCheckDependencies false) h]). steps_go. }
  destruct (deps_ready s h) eqn:R.
  - assert (F : fst (startCheckDependencies h false s1) = true) by now rewrite E.
    rewrite F. split; [|split; discriminate].
    eapply direct_steps; [unfold s1; steps_go | reflexivity].
  - assert (F : fst (startCheckDependencies h false s1) = false) by now rewrite E.
    rewrite F. split; [eapply direct_steps; [exact T | reflexivity]|].
    split; [discriminate|]. intros _ _ _. rewrite E. cbn [snd]. rewrite !records_emit.
    change (records (set_edges g ?x)) with (records x). rewrite !records_emit.
    split; [exact Rh | exact Rk].
Qed.
End TransitionGating.

(** ** A failed start *)

(** A step that changes no state, no pending failure, no explicit
    activation, no configuration and no edge, and takes nothing out of the
    propagation queue. *)
Record quiet_step (x x' : sset) : Prop := {
  qs_state : forall k, service_state (records x' k) = service_state (records x k);
  qs_failure : forall k, prop_failure (records x' k) = prop_failure (records x k);
  qs_explicit : forall k, start_explicit (records x' k) = start_explicit (records x k);
  qs_cfg : forall k, cfg (records x' k) = cfg (records x k);
  qs_edges : edges x' = edges x;
  qs_queue : forall k, In k (prop_queue x) -> In k (prop_queue x')
}.

Lemma quiet_refl (x : sset) : quiet_step x x.
Proof. split; try reflexivity. tauto. Qed.

Lemma quiet_trans (x y z : sset) : quiet_step x y -> quiet_step y z -> quiet_step x z.
Proof.
  intros [A1 A2 A3 A4 A5 A6] [B1 B2 B3 B4 B5 B6]. split.
  - intro k. now rewrite B1. - intro k. now rewrite B2. - intro k. now rewrite B3.
  - intro k. now rewrite B4. - now rewrite B5. - intros k H. now apply B6, A6.
Qed.

Lemma upd_field {A : Type} (P : service_record -> A) (h : handle)
    (f : service_record -> service_record) (x : sset) :
  (forall r, P (f r) = P r) -> forall k, P (records (upd h f x) k) = P (records x k).
Proof.
  intros H k. destruct (Nat.eq_dec k h) as [->|N];
    [rewrite records_upd_eq; apply H | now rewrite records_upd_neq].
Qed.

Lemma quiet_upd (h : handle) (f : service_record -> service_record) (x : sset) :
  (forall r, service_state (f r) = service_state r) ->
  (forall r, prop_failure (f r) = prop_failure r) ->
  (forall r, start_explicit (f r) = start_explicit r) ->
  (forall r, cfg (f r) = cfg r) ->
  quiet_step x (upd h f x).
Proof.
  intros H1 H2 H3 H4. split; try reflexivity; try tauto.
  - now apply upd_field. - now apply upd_field. - now apply upd_field.
  - now apply upd_field.
Qed.

Lemma quiet_dependencyStarted (i : handle) (x : sset) : quiet_step x (dependencyStarted i x).
Proof.
  unfold dependencyStarted, call. destruct (_ && _); split; try reflexivity; tauto.
Qed.

Section FailedStart.
Context {ops : SetOps} {ok : OpsOk ops}.

(** [release] of a STOPPED service never stops anything. *)
Lemma quiet_release_stopped (h : handle) (x : sset) :
  state_is x h STOPPED = true -> quiet_step x (release h x).
Proof.
  intro St. unfold release, release_with, call. cbv zeta.
  set (x0 := emit (Enter c_release h) x).
  set (x1 := upd h (fun r => set_required_by (int_wrap (required_by r - 1)) r) x0).
  assert (Q1 : quiet_step x x1).
  { apply (quiet_trans _ x0); [split; try reflexivity; tauto|].
    apply quiet_upd; reflexivity. }
  destruct (required_by (records x1 h) =? 0).
  2:{ destruct Q1. split; try assumption. }
  set (x2 := upd h (set_prop_require false)
               (upd h (fun r => set_prop_release (negb (prop_require r)) r)
                  (upd h (set_desired_state STOPPED) x1))).
  assert (Q2 : quiet_step x x2).
  { apply (quiet_trans _ x1); [exact Q1|].
    eapply quiet_trans; [|apply quiet_upd; reflexivity].
    eapply quiet_trans; [|apply quiet_upd; reflexivity].
    apply quiet_upd; reflexivity. }
  assert (S2 : state_is (addToPropQueue h x2) h STOPPED = true).
  { unfold state_is in *. change (records (addToPropQueue h x2)) with (records x2).
    now rewrite (qs_state _ _ Q2). }
  rewrite S2. destruct Q2 as [A1 A2 A3 A4 A5 A6]. split; try assumption.
  intros k H. cbn [prop_queue emit set_trace service_inactive set_active_services
                   addToPropQueue set_prop_queue].
  now apply In_enqueue_keeps, A6.
Qed.

(** The loop over the hard dependents. *)
Lemma failed_to_start_hard_loop (l : list handle) :
  forall x : sset,
  let x' := fold_left (fun s i =>
                if state_is s i STARTING
                then addToPropQueue i (upd i (set_prop_failure true) s) else s) l x in
  (forall k, service_state (records x' k) = service_state (records x k))
  /\ (forall k, prop_failure (records x' k)
                = prop_failure (records x k)
                  || (existsb (Nat.eqb k) l && state_is x k STARTING))
  /\ (forall k, start_explicit (records x' k) = start_explicit (records x k))
  /\ (forall k, cfg (records x' k) = cfg (records x k))
  /\ edges x' = edges x
  /\ (forall k, In k (prop_queue x) -> In k (prop_queue x'))
  /\ (forall k, In k l -> state_is x k STARTING = true -> In k (prop_queue x')).
Proof.
  induction l as [|i l IH]; intro x.
  - cbn. split; [reflexivity|]. split; [intro k; now rewrite orb_false_r|].
    split; [reflexivity|]. split; [reflexivity|]. split; [reflexivity|].
    split; [tauto | intros k []].
  - cbn [fold_left]. cbv zeta.
    set (x1 := if state_is x i STARTING
               then addToPropQueue i (upd i (set_prop_failure true) x) else x).
    destruct (IH x1) as (I1 & I2 & I3 & I4 & I5 & I6 & I7). cbv zeta in I1, I2, I3, I4, I5, I6, I7.
    assert (R1 : forall k, service_state (records x1 k) = service_state (records x k)).
    { intro k. unfold x1. destruct (state_is x i STARTING); [|reflexivity].
      change (records (addToPropQueue i ?z)) with (records z). now apply upd_field. }
    assert (R2 : forall k, prop_failure (records x1 k)
                           = prop_failure (records x k)
                             || (Nat.eqb k i && state_is x k STARTING)).
    { intro k. unfold x1. destruct (Nat.eqb k i) eqn:K.
      - apply Nat.eqb_eq in K. subst k. destruct (state_is x i STARTING); cbn [andb].
        + change (records (addToPropQueue i ?z)) with (records z).
          rewrite records_upd_eq. now rewrite orb_true_r.
        + now rewrite orb_false_r.
      - apply Nat.eqb_neq in K. cbn [andb]. rewrite orb_false_r.
        destruct (state_is x i STARTING); [|reflexivity].
        change (records (addToPropQueue i ?z)) with (records z).
        now rewrite records_upd_neq. }
    assert (R3 : forall k, start_explicit (records x1 k) = start_explicit (records x k)).
    { intro k. unfold x1. destruct (state_is x i STARTING); [|reflexivity].
      change (records (addToPropQueue i ?z)) with (records z). now apply upd_field. }
    assert (R4 : forall k, cfg (records x1 k) = cfg (records x k)).
    { intro k. unfold x1. destruct (state_is x i STARTING); [|reflexivity].
      change (records (addToPropQueue i ?z)) with (records z). now apply upd_field. }
    assert (R5 : edges x1 = edges x) by (unfold x1; now destruct (state_is x i STARTING)).
    assert (R6 : forall k, In k (prop_queue x) -> In k (prop_queue x1)).
    { intros k H. unfold x1. destruct (state_is x i STARTING); [|exact H].
      now apply In_enqueue_keeps. }
    assert (R7 : state_is x i STARTING = true -> In i (prop_queue x1)).
    { intro H. unfold x1. rewrite H. apply In_enqueue. }
    assert (St : forall k st, state_is x1 k st = state_is x k st).
    { intros k st. unfold state_is. now rewrite R1. }
    split; [intro k; now rewrite I1|]. split.
    { intro k. rewrite I2, R2, St. cbn [existsb].
      destruct (prop_failure (records x k)), (Nat.eqb k i), (existsb (Nat.eqb k) l),
               (state_is x k STARTING); reflexivity. }
    split; [intro k; now rewrite I3|]. split; [intro k; now rewrite I4|].
    split; [now rewrite I5|]. split; [intros k H; now apply I6, R6|].
    intros k [<-|H] Sk; [now apply I6, R7 | apply I7; [exact H | now rewrite St]].
Qed.

(** The loop over the soft dependents, for a service that is STOPPED. *)
Lemma failed_to_start_soft_loop (h : handle) (l : list edge_id) :
  forall x : sset,
  state_is x h STOPPED = true ->
  let x' := fold_left (fun s e =>
                if waiting_on (edges s e) then
                  let s := upd_edge e (set_holding_acq false) s in
                  let s := upd_edge e (set_waiting_on false) s in
                  let s := dependencyStarted (dep_from (edges s e)) s in
                  release h s
                else s) l x in
  (forall k, service_state (records x' k) = service_state (records x k))
  /\ (forall k, prop_failure (records x' k) = prop_failure (records x k))
  /\ (forall k, start_explicit (records x' k) = start_explicit (records x k))
  /\ (forall k, In k (prop_queue x) -> In k (prop_queue x'))
  /\ (forall e, edges x' e
                = if existsb (Nat.eqb e) l && waiting_on (edges x e)
                  then set_waiting_on false (set_holding_acq false (edges x e))
                  else edges x e).
Proof.
  induction l as [|e l IH]; intros x St.
  - cbn. split; [reflexivity|]. split; [reflexivity|]. split; [reflexivity|].
    split; [tauto | reflexivity].
  - cbn [fold_left]. cbv zeta.
    set (x2 := upd_edge e (set_waiting_on false) (upd_edge e (set_holding_acq false) x)).
    set (x1 := if waiting_on (edges x e)
               then release h (dependencyStarted (dep_from (edges x2 e)) x2) else x).
    assert (E2 : forall k, edges x2 k
                           = if Nat.eqb k e
                             then set_waiting_on false (set_holding_acq false (edges x e))
                             else edges x k).
    { intro k. unfold x2, upd_edge. cbn [edges set_edges].
      destruct (Nat.eqb k e) eqn:K; [|reflexivity]. apply Nat.eqb_eq in K. now subst k. }
    assert (Q : quiet_step x2 (release h (dependencyStarted (dep_from (edges x2 e)) x2))).
    { eapply quiet_trans; [apply quiet_dependencyStarted|].
      apply quiet_release_stopped. unfold state_is in *.
      now rewrite (qs_state _ _ (quiet_dependencyStarted _ _)). }
    assert (R : (forall k, service_state (records x1 k) = service_state (records x k))
                /\ (forall k, prop_failure (records x1 k) = prop_failure (records x k))
                /\ (forall k, start_explicit (records x1 k) = start_explicit (records x k))
                /\ (forall k, In k (prop_queue x) -> In k (prop_queue x1))
                /\ (forall k, edges x1 k
                              = if Nat.eqb k e && waiting_on (edges x e)
                                then set_waiting_on false (set_holding_acq false (edges x e))
                                else edges x k)).
    { unfold x1. destruct (waiting_on (edges x e)) eqn:W.
      - destruct Q as [A1 A2 A3 A4 A5 A6].
        split; [exact A1|]. split; [exact A2|]. split; [exact A3|]. split; [exact A6|].
        intro k. rewrite A5, E2. now rewrite andb_true_r.
      - split; [reflexivity|]. split; [reflexivity|]. split; [reflexivity|].
        split; [tauto|]. intro k. now rewrite andb_false_r. }
    destruct R as (R1 & R2 & R3 & R4 & R5).
    assert (St1 : state_is x1 h STOPPED = true).
    { unfold state_is in *. now rewrite R1. }
    destruct (IH x1 St1) as (I1 & I2 & I3 & I4 & I5). cbv zeta in I1, I2, I3, I4, I5.
    split; [intro k; now rewrite I1|]. split; [intro k; now rewrite I2|].
    split; [intro k; now rewrite I3|]. split; [intros k H; now apply I4, R4|].
    intro k. rewrite I5, R5. cbn [existsb].
    destruct (Nat.eqb k e) eqn:K; cbn [andb orb]; [|reflexivity].
    apply Nat.eqb_eq in K. subst k.
    destruct (waiting_on (edges x e)) eqn:W, (existsb (Nat.eqb e) l);
      cbn [andb orb waiting_on set_waiting_on set_holding_acq]; rewrite ?W; reflexivity.
Qed.

(** X20. A failed start, seen from the state [s1] in which the console has been
    given back (if the service started on it and no dependency failed): the
    service is STOPPED and no longer explicitly started, and no other service
    changes state at once. Exactly the hard dependents that are STARTING get
    the failure to propagate and are in the propagation queue. Every soft
    dependent edge that was waited on is no longer waited on nor held. *)
Theorem failed_to_start_cancels_dependents (h : handle) (depfailed : bool) (s : sset) :
  let c := cfg (records s h) in
  let s0 := emit (Enter (c_failed_to_start depfailed) h) s in
  let s1 := if negb depfailed && starts_on_console (flags s h)
            then pull_console_queue (emit (Effect fx_tcsetpgrp h) s0) else s0 in
  let s' := failed_to_start h depfailed s in
  let cancelled := fun k => negb (Nat.eqb k h) && existsb (Nat.eqb k) (dependents c)
                            && state_is s1 k STARTING in
  service_state (records s' h) = STOPPED
  /\ start_explicit (records s' h) = false
  /\ (forall k, k <> h -> service_state (records s' k) = service_state (records s1 k))
  /\ (forall k, prop_failure (records s' k) = prop_failure (records s1 k) || cancelled k)
  /\ (forall k, cancelled k = true -> In k (prop_queue s'))
  /\ (forall e, edges s' e
                = if existsb (Nat.eqb e) (soft_dpts c) && waiting_on (edges s1 e)
                  then set_waiting_on false (set_holding_acq false (edges s1 e))
                  else edges s1 e).
Proof.
  intros c s0 s1 s' cancelled.
  assert (S1 : steady s0 s1).
  { unfold s1. destruct (_ && _); [unfold release_console; steady_go | apply steady_refl]. }
  assert (C1 : cfg (records s1 h) = c) by apply (st_cfg _ _ _ S1).
  set (y := upd h (set_service_state STOPPED) (emit (Log msg_service_failed h) s1)).
  set (y2 := if start_explicit (records y h)
             then release h (upd h (set_start_explicit false) y) else y).
  set (y3 := notifyListeners h ev_FAILEDSTART y2).
  assert (Yh : records y h = set_service_state STOPPED (records s1 h)).
  { unfold y. now rewrite records_upd_eq. }
  assert (Yk : forall k, k <> h -> records y k = records s1 k).
  { intros k N. unfold y. now rewrite records_upd_neq. }
  assert (Sy : state_is y h STOPPED = true).
  { unfold state_is. now rewrite Yh. }
  (* the record of [h] and the others after the release *)
  assert (Y2 : (forall k, service_state (records y2 k) = service_state (records y k))
               /\ (forall k, prop_failure (records y2 k) = prop_failure (records y k))
               /\ start_explicit (records y2 h) = false
               /\ (forall k, k <> h ->
                     start_explicit (records y2 k) = start_explicit (records y k))
               /\ (forall k, cfg (records y2 k) = cfg (records y k))
               /\ edges y2 = edges y
               /\ (forall k, In k (prop_queue y) -> In k (prop_queue y2))).
  { unfold y2. destruct (start_explicit (records y h)) eqn:Ex.
    - set (y1 := upd h (set_start_explicit false) y).
      assert (Sy1 : state_is y1 h STOPPED = true).
      { unfold state_is, y1. rewrite records_upd_eq. exact Sy. }
      destruct (quiet_release_stopped h y1 Sy1) as [A1 A2 A3 A4 A5 A6].
      split; [intro k; rewrite A1; now apply upd_field|].
      split; [intro k; rewrite A2; now apply upd_field|].
      split; [rewrite A3; unfold y1; now rewrite records_upd_eq|].
      split; [intros k N; rewrite A3; unfold y1; now rewrite records_upd_neq|].
      split; [intro k; rewrite A4; now apply upd_field|].
      split; [now rewrite A5 | exact A6].
    - split; [reflexivity|]. split; [reflexivity|]. split; [exact Ex|].
      split; [reflexivity|]. split; [reflexivity|]. split; [reflexivity | tauto]. }
  destruct Y2 as (A1 & A2 & A3 & A4 & A5 & A6 & A7).
  assert (B : s' = emit (Leave (c_failed_to_start depfailed) h)
                     (fold_left (fun s e =>
                          if waiting_on (edges s e) then
                            let s := upd_edge e (set_holding_acq false) s in
                            let s := upd_edge e (set_waiting_on false) s in
                            let s := dependencyStarted (dep_from (edges s e)) s in
                            release h s
                          else s)
                        (soft_dpts c)
                        (fold_left (fun s i =>
                             if state_is s i STARTING
                             then addToPropQueue i (upd i (set_prop_failure true) s) else s)
                           (dependents c) y3))).
  { unfold s', failed_to_start, call. cbv zeta. fold s0. unfold release_console.
    change (flags s0 h) with (flags s h). fold s1.
    change (records (emit (Log msg_service_failed h) s1) h) with (records s1 h).
    fold y. fold y2. fold y3.
    assert (C3 : cfg (records y3 h) = c).
    { change (records y3) with (records y2). rewrite A5, Yh. exact C1. }
    rewrite C3.
    destruct (failed_to_start_hard_loop (dependents c) y3) as (_ & _ & _ & H4 & _).
    cbv zeta in H4. rewrite H4, C3. reflexivity. }
  destruct (failed_to_start_hard_loop (dependents c) y3) as (H1 & H2 & H3 & H4 & H5 & H6 & H7).
  cbv zeta in H1, H2, H3, H4, H5, H6, H7.
  set (y4 := fold_left (fun s i =>
                 if state_is s i STARTING
                 then addToPropQueue i (upd i (set_prop_failure true) s) else s)
               (dependents c) y3) in *.
  assert (S4 : state_is y4 h STOPPED = true).
  { unfold state_is. rewrite H1. change (records y3) with (records y2). rewrite A1. exact Sy. }
  destruct (failed_to_start_soft_loop h (soft_dpts c) y4 S4) as (G1 & G2 & G3 & G4 & G5).
  cbv zeta in G1, G2, G3, G4, G5.
  rewrite B. rewrite !records_emit.
  change (edges (emit ?e ?x)) with (edges x).
  change (prop_queue (emit ?e ?x)) with (prop_queue x).
  assert (St3 : forall k, state_is y3 k STARTING
                          = negb (Nat.eqb k h) && state_is s1 k STARTING).
  { intro k. unfold state_is. change (records y3) with (records y2). rewrite A1.
    destruct (Nat.eqb k h) eqn:K; cbn [negb andb].
    - apply Nat.eqb_eq in K. subst k. now rewrite Yh.
    - apply Nat.eqb_neq in K. now rewrite Yk. }
  split; [rewrite G1, H1; change (records y3) with (records y2); now rewrite A1, Yh|].
  split; [rewrite G3, H3; exact A3|].
  split.
  { intros k N. rewrite G1, H1. change (records y3) with (records y2).
    now rewrite A1, Yk. }
  split.
  { intro k. rewrite G2, H2, St3. change (records y3) with (records y2). rewrite A2.
    assert (P : prop_failure (records y k) = prop_failure (records s1 k)).
    { unfold y. now rewrite (upd_field prop_failure) by reflexivity. }
    rewrite P. unfold cancelled.
    destruct (prop_failure (records s1 k)), (Nat.eqb k h), (existsb (Nat.eqb k) (dependents c)),
             (state_is s1 k STARTING); reflexivity. }
  split.
  { intros k Ck. unfold cancelled in Ck.
    apply andb_true_iff in Ck. destruct Ck as [Ck Sk].
    apply andb_true_iff in Ck. destruct Ck as [Nk Ik].
    apply G4, H7.
    - apply existsb_exists in Ik. destruct Ik as (i & I & K).
      apply Nat.eqb_eq in K. now subst i.
    - now rewrite St3, Nk, Sk. }
  intro e. rewrite G5, H5. change (edges y3) with (edges y2). rewrite A6. reflexivity.
Qed.
End FailedStart.

(** ** Removing the pins *)

Section Unpin.
Context {ops : SetOps} {ok : OpsOk ops}.

(** X21. A stop request that a pin held back takes effect when the pin is
    removed: after [stop] on a service that is pinned started and was
    activated explicitly and by nobody else, [unpin] first brings the service
    down and processes the queues. Without such a request - the service is
    wanted STARTED and is not pinned stopped - [unpin] only clears the pin. *)
Theorem unpin_after_pinned_stop (h : handle) (s : sset) :
  pinned_started (records s h) = true ->
  (start_explicit (records s h) = true -> required_by (records s h) = 1 ->
   let after := stop h true s in
   firstn 2 (direct after (unpin h after)) = [Enter c_do_stop h; Enter c_process_queues O])
  /\ (desired_state (records s h) = STARTED -> pinned_stopped (records s h) = false ->
      direct s (unpin h s) = []
      /\ pinned_started (records (unpin h s) h) = false
      /\ service_state (records (unpin h s) h) = service_state (records s h)).
Proof.
  intro P. split.
  - intros E R1 after.
    assert (A : pinned_started (records after h) = true
                /\ desired_state (records after h) = STOPPED).
    { unfold after, stop, call. rewrite !records_emit.
      set (s0 := emit (Enter (c_stop true) h) s).
      change (records s0 h) with (records s h). rewrite E.
      set (x := upd h (set_start_explicit false) s0).
      assert (Px : pinned_started (records x h) = true).
      { unfold x. rewrite records_upd_eq. exact P. }
      assert (Rx : required_by (records x h) = 1).
      { unfold x. rewrite records_upd_eq. exact R1. }
      destruct (release_pinned h x h Px) as (_ & b & _ & d).
      assert (Pr : pinned_started (records (release h x) h) = true) by now rewrite b.
      rewrite (do_stop_pinned _ _ Pr), !records_emit. split; [exact Pr | exact (d Rx)]. }
    destruct A as [Pa Da]. clearbody after.
    unfold unpin, call.
    set (a0 := emit (Enter c_unpin h) after).
    change (records a0 h) with (records after h). rewrite Pa. cbv zeta.
    rewrite records_upd_eq.
    change (desired_state (set_pinned_started false (records a0 h)))
      with (desired_state (records after h)).
    rewrite Da. cbn [state_eqb].
    set (y := process_queues (do_stop h (upd h (set_pinned_started false) a0))).
    assert (Ty : steps a0 y [Enter c_do_stop h; Enter c_process_queues O]).
    { unfold y. change [Enter c_do_stop h; Enter c_process_queues O]
        with (([] ++ [Enter c_do_stop h]) ++ [Enter c_process_queues O]). steps_go. }
    destruct (pinned_stopped (records y h)).
    + destruct (state_eqb (desired_state (records (upd h (set_pinned_stopped false) y) h))
                  STARTED).
      * erewrite direct_steps; [|steps_go; exact Ty | reflexivity]. reflexivity.
      * erewrite direct_steps;
          [|eapply (steps_silent _ y); [reflexivity | exact Ty] | reflexivity].
        reflexivity.
    + erewrite direct_steps; [|exact Ty | reflexivity]. reflexivity.
  - intros D Q. unfold unpin, call.
    set (a0 := emit (Enter c_unpin h) s).
    change (records a0 h) with (records s h). rewrite P. cbv zeta.
    rewrite records_upd_eq.
    change (desired_state (set_pinned_started false (records a0 h)))
      with (desired_state (records s h)).
    rewrite D. cbn [state_eqb]. rewrite records_upd_eq.
    change (pinned_stopped (set_pinned_started false (records a0 h)))
      with (pinned_stopped (records s h)).
    rewrite Q. rewrite records_emit, records_upd_eq.
    split; [|split; reflexivity].
    eapply direct_steps; [|reflexivity].
    eapply (steps_silent _ a0); [reflexivity | apply steps_refl].
Qed.
End Unpin.

(** ** The pid file of a background process *)

(** What the pid file and the process it names turn out to be. *)
Definition pid_file_result (a : sys_answers) : pid_result_t :=
  if a_pf_open a =? -1 then pr_FAILED
  else if a_pf_read a <? 0 then pr_FAILED
  else if (a_waitpid a =? -1) && a_echild a
       then (if a_kill0 a =? 0 then pr_OK else pr_FAILED)
  else if a_waitpid a =? a_pf_pid a then pr_TERMINATED
  else if a_waitpid a =? 0 then pr_OK
  else pr_FAILED.

(** The pid file was opened and read. *)
Definition pid_file_was_read (a : sys_answers) : bool :=
  negb (a_pf_open a =? -1) && negb (a_pf_read a <? 0).

Lemma read_pid_file_result (h : handle) (st : Z) (s : sset) :
  fst (fst (read_pid_file h st s)) = pid_file_result (ask s).
Proof.
  unfold read_pid_file, callv, pid_file_result. cbv zeta.
  change (ask (emit (Enter c_read_pid_file h) s)) with (ask s).
  repeat match goal with
         | |- context [if ?b then _ else _] => destruct b; cbn [fst snd]
         end; reflexivity.
Qed.

(** When the process of the pid file has terminated already, the status that
    [waitpid] gave is stored through the pointer. *)
Lemma read_pid_file_terminated (h : handle) (st : Z) (s : sset) :
  pid_file_result (ask s) = pr_TERMINATED ->
  snd (fst (read_pid_file h st s)) = a_wstatus (ask s).
Proof.
  unfold read_pid_file, callv, pid_file_result. cbv zeta.
  change (ask (emit (Enter c_read_pid_file h) s)) with (ask s).
  repeat match goal with
         | |- context [if ?b then _ else _] => destruct b; cbn [fst snd]
         end; intro E; try discriminate E; reflexivity.
Qed.

(** [read_pid_file] does not touch [doing_recovery]. *)
Lemma read_pid_file_doing_recovery (h k : handle) (st : Z) (s : sset) :
  doing_recovery (records (snd (read_pid_file h st s)) k) = doing_recovery (records s k).
Proof.
  unfold read_pid_file, callv. cbv zeta.
  repeat match goal with
         | |- context [if ?b then _ else _] => destruct b; cbn [fst snd]
         end.
  all: repeat first [rewrite records_emit | unfold upd at 1; cbn [records set_records]].
  all: change (records (asked ?x)) with (records x); rewrite ?records_emit.
  all: destruct (Nat.eqb k h); reflexivity.
Qed.

Section BackgroundProcess.
Context {ops : SetOps} {ok : OpsOk ops}.

(** X27. [read_pid_file] fails, with one error logged, when the file cannot be
    opened or read - the pid is then untouched - or when the process it names
    is neither a child that still runs nor, for a process that is not a
    child, one that can be signalled - the pid is then -1. It reports
    TERMINATED, with pid -1 and the status of the child, when the child has
    exited already. Otherwise it is OK: the record holds the pid of the file
    and tracks the process exactly when it is a child, through a new watch. *)
Theorem read_pid_file_outcome (h : handle) (st : Z) (s : sset) :
  let r := read_pid_file h st s in
  let a := ask s in
  let res := fst (fst r) in
  let rec' := records (snd r) h in
  res = pid_file_result a
  /\ match res with
     | pr_OK =>
         pid rec' = a_pf_pid a /\ snd (fst r) = st
         /\ tracking_child rec' = (a_waitpid a =? 0)
         /\ direct s (snd r)
            = (if a_waitpid a =? 0 then [Effect (fx_add_child_watch (a_pf_pid a)) h] else [])
     | pr_TERMINATED =>
         pid rec' = -1 /\ snd (fst r) = a_wstatus a /\ direct s (snd r) = []
     | pr_FAILED =>
         pid rec' = (if pid_file_was_read a then -1 else pid (records s h))
         /\ snd (fst r) = st
         /\ direct s (snd r) = [Log (msg_text ERROR) h]
     end.
Proof.
  intros r a res rec'. unfold res, rec', r, read_pid_file, callv, pid_file_result,
    pid_file_was_read.
  cbv zeta.
  change (ask (emit (Enter c_read_pid_file h) s)) with a.
  set (s0 := asked (emit (Enter c_read_pid_file h) s)).
  assert (T0 : steps (emit (Enter c_read_pid_file h) s) s0 []).
  { eapply (steps_silent _ (emit (Enter c_read_pid_file h) s));
      [reflexivity | apply steps_refl]. }
  destruct (a_pf_open a =? -1); cbn [fst snd negb andb].
  { split; [reflexivity|]. repeat first [rewrite records_emit | rewrite records_upd_eq].
    split; [reflexivity|].
    split; [reflexivity|]. eapply direct_steps; [unfold s0; steps_go | reflexivity]. }
  destruct (a_pf_read a <? 0); cbn [fst snd negb andb].
  { split; [reflexivity|]. repeat first [rewrite records_emit | rewrite records_upd_eq].
    split; [reflexivity|].
    split; [reflexivity|]. eapply direct_steps; [unfold s0; steps_go | reflexivity]. }
  destruct ((a_waitpid a =? -1) && a_echild a) eqn:W1; cbn [fst snd].
  - destruct (a_kill0 a =? 0); cbn [fst snd]; (split; [reflexivity|]);
      repeat first [rewrite records_emit | rewrite records_upd_eq].
    + split; [reflexivity|]. split; [reflexivity|].
      assert (W0 : (a_waitpid a =? 0) = false).
      { apply andb_prop in W1. destruct W1 as [W1 _]. apply Z.eqb_eq in W1.
        rewrite W1. reflexivity. }
      rewrite W0. split; [reflexivity|].
      eapply direct_steps; [unfold s0; steps_go | reflexivity].
    + split; [reflexivity|]. split; [reflexivity|].
      eapply direct_steps; [unfold s0; steps_go | reflexivity].
  - destruct (a_waitpid a =? a_pf_pid a); cbn [fst snd].
    + split; [reflexivity|]. repeat first [rewrite records_emit | rewrite records_upd_eq].
      split; [reflexivity|]. split; [reflexivity|].
      eapply direct_steps; [unfold s0; steps_go | reflexivity].
    + destruct (a_waitpid a =? 0); cbn [fst snd]; (split; [reflexivity|]);
        repeat first [rewrite records_emit | rewrite records_upd_eq].
      * split; [reflexivity|]. split; [reflexivity|]. split; [reflexivity|].
        eapply direct_steps; [unfold s0; steps_go | reflexivity].
      * split; [reflexivity|]. split; [reflexivity|].
        eapply direct_steps; [unfold s0; steps_go | reflexivity].
Qed.

Lemma bgproc_service_loop_eq (n : nat) (h : handle) (st : Z) (s : sset) :
  bgproc_service_loop n h st s
  = bgproc_service_pass
      (match n with
       | O => fun _ x => set_out_of_fuel true x
       | S n' => bgproc_service_loop n' h
       end) h st s.
Proof. destruct n; reflexivity. Qed.

(** X28. [bgproc_service::handle_exit_status] outside a recovery, by the state of
    the service. In STARTING the launcher must have exited with status 0 and
    the pid file must name a process for the service to be started; it fails
    to start otherwise; and when the process of the pid file has terminated
    already the service is started and the exit is handled again, from
    [begin], with the status of that process. In STOPPING the service is
    stopped and nothing is logged. Under smooth recovery the process is
    restarted, with an emergency stop exactly when the restart is refused. In
    every other case the service gives up its explicit activation unless it
    restarts automatically, is forced to stop with its dependents and is
    stopped. *)
Theorem bgproc_handle_exit_status_outcome (h : handle) (st : Z) (s : sset) :
  record_type (cfg (records s h)) = BGPROCESS ->
  doing_recovery (records s h) = false ->
  let res := pid_file_result (ask s) in
  let recovering :=
    smooth_recovery (cfg (records s h)) && state_is s h STARTED
    && state_eqb (desired_state (records s h)) STARTED in
  (service_state (records s h) = STARTING -> st <> 0 ->
     direct s (handle_exit_status h st s)
     = unexpected_exit_log h st ++ [Enter (c_failed_to_start false) h; Enter c_process_queues O])
  /\ (service_state (records s h) = STARTING -> st = 0 -> res <> pr_TERMINATED ->
      direct s (handle_exit_status h st s)
      = [Enter c_read_pid_file h;
         match res with pr_OK => Enter c_started h | _ => Enter (c_failed_to_start false) h end;
         Enter c_process_queues O])
  /\ (service_state (records s h) = STOPPING ->
      direct s (handle_exit_status h st s) = [Enter c_stopped h; Enter c_process_queues O])
  /\ (service_state (records s h) <> STARTING ->
      service_state (records s h) <> STOPPING ->
      recovering = false ->
      direct s (handle_exit_status h st s)
      = unexpected_exit_log h st
        ++ (if negb (do_auto_restart h s) && start_explicit (records s h)
            then [Enter c_release h] else [])
        ++ [Enter c_forceStop h; Enter c_stopDependents h; Enter c_stopped h;
            Enter c_process_queues O])
  /\ (recovering = true ->
      direct s (handle_exit_status h st s)
      = unexpected_exit_log h st
        ++ Enter c_restart_ps_process h
           :: (if restart_refused h s
               then [Enter c_emergency_stop h; Enter c_process_queues O]
               else []))
  /\ (service_state (records s h) = STARTING -> st = 0 -> res = pr_TERMINATED ->
      forall n, goto_fuel = S n ->
      handle_exit_status h st s
      = emit (Leave (c_handle_exit_status st) h)
          (bgproc_service_loop n h (a_wstatus (ask s))
             (started h
                (snd (read_pid_file h st (emit (Enter (c_handle_exit_status st) h) s)))))).
Proof.
  intros Ht Hd res recovering.
  unfold handle_exit_status, call.
  change (records (emit ?e s) h) with (records s h). rewrite Ht.
  unfold bgproc_service_handle_exit_status. rewrite bgproc_service_loop_eq.
  set (again := match goto_fuel with
                | O => fun _ x => set_out_of_fuel true x
                | S n' => bgproc_service_loop n' h
                end).
  set (s0 := emit (Enter (c_handle_exit_status st) h) s).
  set (s1 := log_unexpected_exit h st s0).
  assert (R1 : records s1 = records s).
  { unfold s1, log_unexpected_exit.
    repeat match goal with
           | |- context [if ?b then _ else _] => destruct b
           end; reflexivity. }
  assert (A1 : ask s1 = ask s).
  { unfold s1, log_unexpected_exit.
    repeat match goal with
           | |- context [if ?b then _ else _] => destruct b
           end; reflexivity. }
  assert (Q1 : do_auto_restart h s1 = do_auto_restart h s).
  { unfold do_auto_restart, get_auto_restart. rewrite R1.
    unfold s1, log_unexpected_exit.
    repeat match goal with
           | |- context [if ?b then _ else _] => destruct b
           end; reflexivity. }
  assert (T1 : service_state (records s h) <> STOPPING ->
               steps s0 s1 (unexpected_exit_log h st)).
  { intro N. unfold s1, log_unexpected_exit, unexpected_exit_log, state_is.
    change (records s0 h) with (records s h).
    assert (F : state_eqb (service_state (records s h)) STOPPING = false).
    { destruct (service_state (records s h)); try reflexivity. contradiction. }
    rewrite F. cbn [negb]. rewrite andb_true_r.
    destruct (st =? 0); cbn [negb]; [apply steps_refl|].
    destruct (WIFEXITED st).
    { change [Log (msg_text ERROR) h] with ([] ++ [Log (msg_text ERROR) h]). steps_go. }
    destruct (WIFSIGNALED st); [|apply steps_refl].
    change [Log (msg_text ERROR) h] with ([] ++ [Log (msg_text ERROR) h]). steps_go. }
  assert (B : bgproc_service_pass again h st s0
              = (if state_is s h STARTING then
                   if st =? 0 then
                     let r := read_pid_file h st s1 in
                     match fst (fst r) with
                     | pr_FAILED => process_queues (failed_to_start h false (snd r))
                     | pr_TERMINATED => again (snd (fst r)) (started h (snd r))
                     | pr_OK => process_queues (started h (snd r))
                     end
                   else process_queues (failed_to_start h false s1)
                 else if state_is s h STOPPING then process_queues (stopped h s1)
                 else if recovering then
                   let x := upd h (set_doing_recovery true) s1 in
                   let r := restart_ps_process h x in
                   if negb (fst r) then process_queues (emergency_stop h (snd r)) else snd r
                 else
                   let x := if negb (do_auto_restart h s) && start_explicit (records s h)
                            then release h (upd h (set_start_explicit false) s1)
                            else s1 in
                   process_queues (stopped h (snd (stopDependents h (forceStop h x)))))).
  { unfold bgproc_service_pass. cbv zeta. fold s1. unfold state_is. rewrite Q1, !R1, Hd.
    reflexivity. }
  rewrite B. clear B.
  split; [|split; [|split; [|split; [|split]]]].
  - intros Hs N. unfold state_is. rewrite Hs. cbn [state_eqb].
    apply Z.eqb_neq in N. rewrite N.
    eapply direct_steps; [steps_go; apply T1; rewrite Hs; discriminate |].
    rewrite <- !app_assoc. reflexivity.
  - intros Hs E Nt. unfold state_is. rewrite Hs. cbn [state_eqb]. subst st.
    cbn [Z.eqb]. cbv zeta.
    assert (S1 : s1 = s0).
    { unfold s1, log_unexpected_exit. reflexivity. }
    rewrite (read_pid_file_result h 0 s1), A1. fold res.
    assert (Tr : steps s0 (snd (read_pid_file h 0 s1)) [Enter c_read_pid_file h]).
    { rewrite S1. change [Enter c_read_pid_file h] with ([] ++ [Enter c_read_pid_file h]).
      steps_go. }
    destruct res; try contradiction.
    + eapply direct_steps; [steps_go; exact Tr | reflexivity].
    + eapply direct_steps; [steps_go; exact Tr | reflexivity].
  - intro Hs. unfold state_is. rewrite Hs. cbn [state_eqb].
    assert (S1 : s1 = s0).
    { unfold s1, log_unexpected_exit, state_is. change (records s0 h) with (records s h).
      rewrite Hs. cbn [state_eqb negb]. now rewrite andb_false_r. }
    rewrite S1. eapply direct_steps; [steps_go | reflexivity].
  - intros N1 N2 Hr. rewrite Hr.
    assert (F1 : state_is s h STARTING = false).
    { unfold state_is. destruct (service_state (records s h)); try reflexivity.
      contradiction. }
    assert (F2 : state_is s h STOPPING = false).
    { unfold state_is. destruct (service_state (records s h)); try reflexivity.
      contradiction. }
    rewrite F1, F2.
    destruct (negb (do_auto_restart h s) && start_explicit (records s h)); cbv zeta.
    + eapply direct_steps; [steps_go; apply T1; exact N2 | ].
      rewrite <- !app_assoc. reflexivity.
    + eapply direct_steps; [steps_go; apply T1; exact N2 | ].
      rewrite <- !app_assoc. reflexivity.
  - intro Hr. rewrite Hr.
    assert (Hs : service_state (records s h) = STARTED).
    { unfold recovering in Hr. apply andb_prop in Hr. destruct Hr as [Hr _].
      apply andb_prop in Hr. destruct Hr as [_ Hr]. now apply state_eqb_eq. }
    unfold state_is. rewrite Hs. cbn [state_eqb]. cbv zeta.
    set (x := upd h (set_doing_recovery true) s1).
    assert (Rx : restart_refused h x = restart_refused h s).
    { unfold restart_refused, in_restart_window, x. rewrite records_upd_eq.
      change (ask (upd h (set_doing_recovery true) s1)) with (ask s1).
      rewrite A1, R1. reflexivity. }
    assert (Tx : steps s0 (snd (restart_ps_process h x))
                   (unexpected_exit_log h st ++ [Enter c_restart_ps_process h])).
    { unfold x. steps_go. apply T1. rewrite Hs. discriminate. }
    rewrite restart_ps_process_accepts, Rx.
    destruct (restart_refused h s); cbn [negb].
    + eapply direct_steps;
        [steps_go; unfold x; steps_go; apply T1; rewrite Hs; discriminate | ].
      rewrite <- !app_assoc. reflexivity.
    + eapply direct_steps; [exact Tx | ]. reflexivity.
  - intros Hs E Et n G. unfold state_is. rewrite Hs. cbn [state_eqb]. subst st.
    cbn [Z.eqb]. cbv zeta.
    assert (S1 : s1 = s0).
    { unfold s1, log_unexpected_exit. reflexivity. }
    rewrite (read_pid_file_result h 0 s1), A1. fold res. rewrite Et.
    rewrite (read_pid_file_terminated h 0 s1) by (rewrite A1; exact Et).
    rewrite A1, S1. unfold again. rewrite G. reflexivity.
Qed.

(** X29. [bgproc_service::handle_exit_status] during a recovery: the
    [doing_recovery] flag is cleared first, and reading the pid file leaves it
    clear. If the launcher failed, the service is stopped in an emergency. If
    not, the pid file (when there is one) is read again: the service is
    stopped in an emergency if that fails, nothing more is done if the file
    names a process that runs, and if the process has terminated already the
    exit is handled again, from [begin], with the status of that process.
    With no pid file only the flag changes. *)
Theorem bgproc_recovery_outcome (h : handle) (st : Z) (s : sset) :
  record_type (cfg (records s h)) = BGPROCESS ->
  doing_recovery (records s h) = true ->
  let failed_exit := (WIFEXITED st && negb (WEXITSTATUS st =? 0)) || WIFSIGNALED st in
  let log := if state_is s h STOPPING then [] else unexpected_exit_log h st in
  let res := pid_file_result (ask s) in
  let s' := handle_exit_status h st s in
  let leave := emit (Leave (c_handle_exit_status st) h) in
  let x := upd h (set_doing_recovery false)
             (log_unexpected_exit h st (emit (Enter (c_handle_exit_status st) h) s)) in
  let r := read_pid_file h st x in
  (doing_recovery (records x h) = false /\ doing_recovery (records (snd r) h) = false)
  /\ (failed_exit = true ->
      s' = leave (process_queues (emergency_stop h x))
      /\ direct s s' = log ++ [Enter c_emergency_stop h; Enter c_process_queues O])
  /\ (failed_exit = false -> pid_file (cfg (records s h)) = EmptyString ->
      s' = leave x
      /\ direct s s' = log
      /\ records s' h = set_doing_recovery false (records s h)
      /\ forall k, k <> h -> records s' k = records s k)
  /\ (failed_exit = false -> pid_file (cfg (records s h)) <> EmptyString ->
      match res with
      | pr_OK =>
          s' = leave (snd r) /\ direct s s' = log ++ [Enter c_read_pid_file h]
      | pr_FAILED =>
          s' = leave (process_queues (emergency_stop h (snd r)))
          /\ direct s s'
             = log ++ [Enter c_read_pid_file h; Enter c_emergency_stop h;
                       Enter c_process_queues O]
      | pr_TERMINATED =>
          forall n, goto_fuel = S n ->
          s' = leave (bgproc_service_loop n h (a_wstatus (ask s)) (snd r))
      end).
Proof.
  intros Ht Hd failed_exit log res s' leave x0 r.
  unfold s', handle_exit_status, call.
  change (records (emit ?e s) h) with (records s h). rewrite Ht.
  unfold bgproc_service_handle_exit_status. rewrite bgproc_service_loop_eq.
  set (again := match goto_fuel with
                | O => fun _ x => set_out_of_fuel true x
                | S n' => bgproc_service_loop n' h
                end).
  set (s0 := emit (Enter (c_handle_exit_status st) h) s).
  set (s1 := log_unexpected_exit h st s0).
  assert (R1 : records s1 = records s).
  { unfold s1, log_unexpected_exit.
    repeat match goal with
           | |- context [if ?b then _ else _] => destruct b
           end; reflexivity. }
  assert (A1 : ask s1 = ask s).
  { unfold s1, log_unexpected_exit.
    repeat match goal with
           | |- context [if ?b then _ else _] => destruct b
           end; reflexivity. }
  assert (T1 : steps s0 s1 log).
  { unfold s1, log, log_unexpected_exit, unexpected_exit_log.
    change (state_is s0 h STOPPING) with (state_is s h STOPPING).
    destruct (state_is s h STOPPING); cbn [negb];
      [rewrite andb_false_r; apply steps_refl | rewrite andb_true_r].
    destruct (st =? 0); cbn [negb]; [apply steps_refl|].
    destruct (WIFEXITED st).
    { change [Log (msg_text ERROR) h] with ([] ++ [Log (msg_text ERROR) h]). steps_go. }
    destruct (WIFSIGNALED st); [|apply steps_refl].
    change [Log (msg_text ERROR) h] with ([] ++ [Log (msg_text ERROR) h]). steps_go. }
  set (x := upd h (set_doing_recovery false) s1).
  change x0 with x in r. change x0 with x. clear x0.
  assert (Tx : steps s0 x log).
  { unfold x. eapply (steps_silent _ s1); [reflexivity | exact T1]. }
  assert (B : bgproc_service_pass again h st s0
              = (if failed_exit then process_queues (emergency_stop h x)
                 else if negb (str_empty (pid_file (cfg (records s h)))) then
                   match fst (fst r) with
                   | pr_FAILED => process_queues (emergency_stop h (snd r))
                   | pr_TERMINATED => again (snd (fst r)) (snd r)
                   | pr_OK => snd r
                   end
                 else x)).
  { unfold bgproc_service_pass. cbv zeta. fold s1. rewrite !R1, Hd. fold x.
    unfold x at 2. rewrite records_upd_eq, R1. reflexivity. }
  rewrite B. clear B.
  assert (Dx : doing_recovery (records x h) = false).
  { unfold x. now rewrite records_upd_eq. }
  split; [|split; [|split]].
  - split; [exact Dx|]. unfold r. now rewrite read_pid_file_doing_recovery.
  - intro F. rewrite F. split; [reflexivity|].
    eapply direct_steps; [steps_go; exact Tx |]. rewrite <- !app_assoc. reflexivity.
  - intros F E. rewrite F, E. cbn [str_empty negb].
    split; [reflexivity|].
    split; [eapply direct_steps; [exact Tx | reflexivity]|].
    unfold leave. rewrite !records_emit. unfold x. split.
    + now rewrite records_upd_eq, R1.
    + intros k N. now rewrite records_upd_neq, R1.
  - intros F E. rewrite F.
    replace (str_empty (pid_file (cfg (records s h)))) with false
      by (destruct (pid_file (cfg (records s h))); [contradiction | reflexivity]).
    cbn [negb].
    assert (Er : fst (fst r) = res).
    { unfold r. rewrite (read_pid_file_result h st x).
      change (ask x) with (ask s1). now rewrite A1. }
    assert (Tr : steps s0 (snd r) (log ++ [Enter c_read_pid_file h])).
    { unfold r. steps_go. exact Tx. }
    rewrite Er.
    destruct res eqn:Eres.
    + split; [reflexivity|]. eapply direct_steps; [exact Tr | reflexivity].
    + split; [reflexivity|].
      eapply direct_steps; [steps_go; exact Tr |]. rewrite <- !app_assoc. reflexivity.
    + intros n G.
      assert (Es : snd (fst r) = a_wstatus (ask s)).
      { unfold r. rewrite (read_pid_file_terminated h st x).
        - change (ask x) with (ask s1). now rewrite A1.
        - change (ask x) with (ask s1). rewrite A1. exact Eres. }
      rewrite Es. unfold again. rewrite G. reflexivity.
Qed.

End BackgroundProcess.

(** ** The exec status *)

Section ExecStatusMore.
Context {ops : SetOps} {ok : OpsOk ops}.

(** X30. [fd_event] on the exec-status pipe. When [exec()] failed ([0 < r]) the
    watch of the child is removed if there is a child, the pid becomes -1,
    one error is logged, and a STARTING service has failed to start, a
    STOPPING one is stopped. When [exec()] succeeded and the child still runs,
    a PROCESS service that is STARTING is started and any other service is
    left as it is. The queues are processed last in every case. *)
Theorem fd_event_outcome (h : handle) (r : Z) (s : sset) :
  let p := pid (records s h) in
  let starting_process :=
    type_eqb (record_type (cfg (records s h))) PROCESS && state_is s h STARTING in
  (0 < r ->
     direct s (fd_event h r s)
     = (if p =? -1 then [] else [Effect (fx_deregister_child p) h])
       ++ Log (msg_text ERROR) h
          :: match service_state (records s h) with
             | STARTING => [Enter (c_failed_to_start false) h]
             | STOPPING => [Enter c_stopped h]
             | _ => []
             end
       ++ [Enter c_process_queues O]
     /\ exists x k,
          fd_event h r s = emit (Leave c_fd_event h) (process_queues (k x))
          /\ pid (records x h) = -1
          /\ waiting_for_execstat (records x h) = false
          /\ k = match service_state (records s h) with
                 | STARTING => failed_to_start h false
                 | STOPPING => stopped h
                 | _ => fun y => y
                 end)
  /\ (r <= 0 -> starting_process = false -> p <> -1 ->
      direct s (fd_event h r s) = [Enter c_process_queues O])
  /\ (r <= 0 -> starting_process = true ->
      pid (records (fd_event_pid_test h s) h) <> -1 ->
      direct s (fd_event h r s) = [Enter c_started h; Enter c_process_queues O]).
Proof.
  intros p starting_process.
  unfold fd_event, call. cbv zeta.
  set (s0 := emit (Enter c_fd_event h) s).
  set (s1 := upd h (set_waiting_for_execstat false) s0).
  assert (R1 : records s1 h = set_waiting_for_execstat false (records s h)).
  { unfold s1. now rewrite records_upd_eq. }
  split; [|split].
  - intro Hr. apply Z.ltb_lt in Hr. rewrite Hr. rewrite R1.
    change (pid (set_waiting_for_execstat false (records s h))) with p.
    set (s2 := if negb (p =? -1) then emit (Effect (fx_deregister_child p) h) s1 else s1).
    set (s3 := emit (Log (msg_text ERROR) h) (upd h (set_pid (-1)) s2)).
    assert (R3 : records s3 h = set_pid (-1) (set_waiting_for_execstat false (records s h))).
    { unfold s3. rewrite records_emit, records_upd_eq. unfold s2.
      destruct (p =? -1); cbn [negb]; rewrite ?records_emit; now rewrite R1. }
    assert (T3 : steps s0 s3
                   ((if p =? -1 then [] else [Effect (fx_deregister_child p) h])
                    ++ [Log (msg_text ERROR) h])).
    { unfold s3, s2, s1. destruct (p =? -1); cbn [negb app].
      - change [Log (msg_text ERROR) h] with ([] ++ [Log (msg_text ERROR) h]). steps_go.
      - change [Effect (fx_deregister_child p) h; Log (msg_text ERROR) h]
          with (([] ++ [Effect (fx_deregister_child p) h]) ++ [Log (msg_text ERROR) h]).
        steps_go. }
    unfold state_is. rewrite R3.
    change (service_state (set_pid (-1) (set_waiting_for_execstat false (records s h))))
      with (service_state (records s h)).
    split.
    + destruct (service_state (records s h)); cbn [state_eqb].
      all: eapply direct_steps; [steps_go; exact T3 |].
      all: rewrite <- ?app_assoc; reflexivity.
    + exists s3. eexists. split; [|split; [|split; [|reflexivity]]].
      * destruct (service_state (records s h)); reflexivity.
      * now rewrite R3.
      * now rewrite R3.
  - intros Hr Sp Np. replace (0 <? r) with false by (symmetry; apply Z.ltb_ge; exact Hr).
    assert (F : fd_event_started h s1 = s1).
    { unfold fd_event_started, state_is. rewrite R1.
      change (cfg (set_waiting_for_execstat false (records s h))) with (cfg (records s h)).
      change (service_state (set_waiting_for_execstat false (records s h)))
        with (service_state (records s h)).
      unfold starting_process, state_is in Sp.
      destruct (type_eqb (record_type (cfg (records s h))) PROCESS); [|reflexivity].
      cbn [andb] in Sp. now rewrite Sp. }
    rewrite F, R1.
    change (pid (set_waiting_for_execstat false (records s h))) with p.
    apply Z.eqb_neq in Np. rewrite Np.
    eapply direct_steps; [unfold s1; steps_go | reflexivity].
  - intros Hr Sp Np. replace (0 <? r) with false by (symmetry; apply Z.ltb_ge; exact Hr).
    set (x := fd_event_pid_test h s) in *.
    change (fd_event_started h s1) with x.
    assert (Tx : steps s0 x [Enter c_started h]).
    { unfold x, fd_event_pid_test, fd_event_started, state_is. fold s0. fold s1. rewrite R1.
      change (cfg (set_waiting_for_execstat false (records s h))) with (cfg (records s h)).
      change (service_state (set_waiting_for_execstat false (records s h)))
        with (service_state (records s h)).
      unfold starting_process, state_is in Sp. apply andb_prop in Sp.
      destruct Sp as [Sp1 Sp2]. rewrite Sp1, Sp2.
      change [Enter c_started h] with ([] ++ [Enter c_started h]). unfold s1. steps_go. }
    apply Z.eqb_neq in Np. rewrite Np.
    eapply direct_steps; [steps_go; exact Tx | reflexivity].
Qed.
End ExecStatusMore.

(** * More of the control utility *)

(** ** What a computation returns *)

(** Every value that [m] returns satisfies [P]. *)
Definition yields {A : Type} (P : A -> Prop) (m : ctl A) : Prop :=
  forall c a c', m c = Returned a c' -> P a.

Definition exit_code_ok (code : Z) : Prop := code = 0 \/ code = 1.

Lemma yields_ret {A : Type} (P : A -> Prop) (a : A) : P a -> yields P (ret a).
Proof. intros H c a' c' E. inversion E. now subst. Qed.

Lemma yields_hung {A : Type} (P : A -> Prop) : yields P (fun c => @Hung A c).
Proof. intros c a c' E. discriminate E. Qed.

Lemma yields_terminated {A : Type} (P : A -> Prop) : yields P (fun c => @Terminated A c).
Proof. intros c a c' E. discriminate E. Qed.

Lemma yields_bind {A B : Type} (Q : A -> Prop) (P : B -> Prop) (m : ctl A) (k : A -> ctl B) :
  yields Q m -> (forall a, Q a -> yields P (k a)) -> yields P (bind m k).
Proof.
  intros Hm Hk c b c' E. unfold bind in E.
  destruct (m c) as [a c1|e c1|c1|c1] eqn:M; try discriminate E.
  exact (Hk a (Hm c a c1 M) c1 b c' E).
Qed.

Lemma yields_any {A : Type} (m : ctl A) : yields (fun _ => True) m.
Proof. intros c a c' _. exact I. Qed.

Lemma yields_then {A B : Type} (P : B -> Prop) (m : ctl A) (k : A -> ctl B) :
  (forall a, yields P (k a)) -> yields P (bind m k).
Proof. intro H. apply (yields_bind (fun _ => True)); [apply yields_any | intros a _; apply H]. Qed.

Ltac yields_go :=
  repeat first
    [ apply yields_hung
    | apply yields_terminated
    | apply yields_ret; first [now left | now right | exact I]
    | assumption
    | apply yields_then; intro
    | match goal with
      | |- yields _ (if ?b then _ else _) => destruct b
      | |- yields _ (match ?o with Some _ => _ | None => _ end) => destruct o
      | |- yields _ (let '(_, _) := ?p in _) => destruct p
      end ].

Section ExitCodes.
Context {lib : ClientLib}.
Local Open Scope ctl_scope.

Lemma exit_code_wait_for_event (fuel : nat) :
  forall (handle : handle_t) (do_stop verbose : bool) (ce cc r : Z),
    yields exit_code_ok (wait_for_event fuel handle do_stop verbose ce cc r).
Proof.
  unfold exit_code_ok.
  induction fuel as [|fuel IH]; intros handle do_stop verbose ce cc r;
    cbn [wait_for_event].
  - yields_go.
  - destruct (0 <? r); [|yields_go].
    apply yields_then; intro b0. destruct (100 <=? b0); [|yields_go].
    apply yields_then; intro b1. apply yields_then; intros _.
    apply yields_then; intro b0'.
    apply (yields_bind (fun o => o = None \/ o = Some 0 \/ o = Some 1)).
    + yields_go; apply yields_ret; auto.
    + intros o [->|[->| ->]]; [|apply yields_ret; auto..].
      yields_go. apply IH.
Qed.

Lemma exit_code_start_stop_service (fuel : nat) (name : string) (command : command_t)
    (do_pin wait_for_service verbose : bool) :
  yields exit_code_ok (start_stop_service fuel name command do_pin wait_for_service verbose).
Proof.
  unfold start_stop_service, exit_code_ok. yields_go. apply exit_code_wait_for_event.
Qed.

Lemma exit_code_unpin_service (name : string) (verbose : bool) :
  yields exit_code_ok (unpin_service name verbose).
Proof. unfold unpin_service, exit_code_ok. yields_go. Qed.

Lemma exit_code_unload_service (name : string) :
  yields exit_code_ok (unload_service name).
Proof. unfold unload_service, exit_code_ok. yields_go. Qed.

Lemma exit_code_list_services (fuel : nat) : yields exit_code_ok (list_services fuel).
Proof. unfold list_services, exit_code_ok. yields_go. Qed.

Lemma exit_code_shutdown_dinit (fuel : nat) : yields exit_code_ok (shutdown_dinit fuel).
Proof. unfold shutdown_dinit, exit_code_ok. yields_go. Qed.

Lemma exit_code_main_try (fuel : nat) (a : parsed_args) :
  yields exit_code_ok (main_try fuel a).
Proof.
  unfold main_try. apply yields_then; intros _.
  destruct (arg_command a);
    first [ apply exit_code_start_stop_service | apply exit_code_unpin_service
          | apply exit_code_unload_service | apply exit_code_list_services
          | apply exit_code_shutdown_dinit ].
Qed.

Lemma exit_code_main_catch (m : ctl Z) :
  yields exit_code_ok m -> yields exit_code_ok (main_catch m).
Proof.
  intros H c code c' E. unfold main_catch in E.
  destruct (m c) as [a c1|e c1|c1|c1] eqn:M.
  - inversion E. subst. exact (H c code c' M).
  - destruct e; try discriminate E; cbv in E; inversion E; now right.
  - discriminate E.
  - discriminate E.
Qed.

(** X22. Whatever the daemon answers and whatever the environment does, an exit
    code of [main] is 0 or 1. *)
Theorem main_exit_code_0_or_1 (fuel : nat) (a : parsed_args) (c c' : client) (code : Z) :
  main fuel a c = Returned code c' -> code = 0 \/ code = 1.
Proof.
  unfold main. cbv zeta.
  assert (One : forall m c0, (say m ;;; ret 1) c0 = Returned code c' -> code = 0 \/ code = 1).
  { intros m c0 E. cbv in E. inversion E. now right. }
  repeat match goal with
         | |- (if ?b then _ else _) _ = _ -> _ => destruct b
         | |- (if ?b then _ else _) = _ -> _ => destruct b
         end; try apply One.
  all: apply (exit_code_main_catch _ (exit_code_main_try fuel a)).
Qed.
End ExitCodes.

Lemma main_exit_code_0_or_1_witness :
  let o := @main sample_lib 5 (sample_args START_SERVICE)
             (sample_client (version_reply ++ record_reply ++ [61])) in
  o = Returned 0 (final o) /\ (0 = 0 \/ 0 = 1).
Proof.
  intro o. assert (E : o = Returned 0 (final o)) by (vm_compute; reflexivity).
  split; [exact E|].
  exact (main_exit_code_0_or_1 (lib := sample_lib) 5 _ _ _ 0 E).
Defined.

(** ** The load command *)

Lemma nth_poke (buf : char_buf) :
  forall (i j : nat) (v : Z),
    nth i (poke j v buf) None
    = if Nat.eqb i j && Nat.ltb j (length buf) then Some v else nth i buf None.
Proof.
  induction buf as [|x rest IH]; intros i j v.
  - cbn [length]. rewrite andb_false_r. destruct j, i; reflexivity.
  - destruct j as [|j], i as [|i]; cbn [poke nth length Nat.eqb]; try reflexivity.
    rewrite IH. change (Nat.ltb (S j) (S (length rest))) with (Nat.ltb j (length rest)).
    reflexivity.
Qed.

Lemma nth_memcpy (src : list Z) :
  forall (off : nat) (buf : char_buf) (i : nat),
    nth i (memcpy off src buf) None
    = if Nat.leb off i && Nat.ltb i (off + length src) && Nat.ltb i (length buf)
      then Some (nth (i - off) src 0) else nth i buf None.
Proof.
  induction src as [|b rest IH]; intros off buf i; cbn [memcpy length].
  - replace (Nat.leb off i && Nat.ltb i (off + 0))%bool with false; [reflexivity|].
    symmetry. apply andb_false_iff.
    destruct (Nat.leb_spec off i); [right; apply Nat.ltb_ge; lia | now left].
  - rewrite IH, poke_length, nth_poke.
    destruct (Nat.eqb_spec i off) as [->|N].
    + rewrite Nat.leb_refl.
      replace (Nat.leb (S off) off) with false by (symmetry; apply Nat.leb_gt; lia).
      replace (Nat.ltb off (off + S (length rest))) with true
        by (symmetry; apply Nat.ltb_lt; lia).
      cbn [andb]. rewrite Nat.sub_diag. cbn [nth]. reflexivity.
    + cbn [andb]. destruct (Nat.leb_spec (S off) i) as [L|L].
      * replace (Nat.leb off i) with true by (symmetry; apply Nat.leb_le; lia).
        replace (off + S (length rest))%nat with (S off + length rest)%nat by lia.
        destruct (Nat.ltb i (S off + length rest)), (Nat.ltb i (length buf));
          cbn [andb]; try reflexivity.
        replace (i - off)%nat with (S (i - S off)) by lia. reflexivity.
      * replace (Nat.leb off i) with false by (symmetry; apply Nat.leb_gt; lia).
        reflexivity.
Qed.

Lemma map_nth_seq {A B : Type} (f : A -> B) (d : A) (l : list A) :
  forall off : nat, map (fun i => f (nth (i - off) l d)) (seq off (length l)) = map f l.
Proof.
  induction l as [|a l IH]; intro off; cbn [length seq map]; [reflexivity|].
  rewrite Nat.sub_diag. cbn [nth]. f_equal. rewrite <- (IH (S off)).
  apply map_ext_in. intros i Hi. apply in_seq in Hi.
  replace (i - off)%nat with (S (i - S off)) by lia. reflexivity.
Qed.

Lemma length_chars_of (s : string) : length (chars_of s) = String.length s.
Proof.
  unfold chars_of. rewrite length_map.
  induction s as [|a s IH]; cbn; [reflexivity | now rewrite IH].
Qed.

(** What a buffer of [3 + length body] cells holds once the command byte, the
    two length bytes and the body are stored. *)
Lemma read_chars_packet (cmd lo hi : Z) (body : list Z) :
  let n := (3 + length body)%nat in
  read_chars (memcpy 3 body (memcpy 1 [lo; hi] (poke 0 cmd (repeat None n)))) n
  = map Some (cmd :: lo :: hi :: body).
Proof.
  intro n. unfold read_chars, n.
  change (3 + length body)%nat with (S (S (S (length body)))).
  cbn [seq map]. f_equal; [|f_equal; [|f_equal]].
  - rewrite !nth_memcpy. reflexivity.
  - rewrite !nth_memcpy. reflexivity.
  - rewrite !nth_memcpy. cbn [Nat.leb andb Nat.sub nth length Nat.add Nat.ltb].
    rewrite ?memcpy_length, ?poke_length, ?repeat_length. cbn [Nat.leb andb]. reflexivity.
  - rewrite <- (map_nth_seq Some 0 body 3).
    apply map_ext_in. intros i Hi. apply in_seq in Hi.
    rewrite nth_memcpy, memcpy_length, poke_length, repeat_length.
    replace (Nat.leb 3 i) with true by (symmetry; apply Nat.leb_le; lia).
    replace (Nat.ltb i (3 + length body)) with true by (symmetry; apply Nat.ltb_lt; lia).
    replace (Nat.ltb i (S (S (S (length body))))) with true
      by (symmetry; apply Nat.ltb_lt; lia).
    reflexivity.
Qed.

Section LoadCommand.
Context {lib : ClientLib}.

(** X23. The load command is one write of a buffer of [3 + n] bytes, all of them
    stored: the command byte, the two bytes of [n] (low byte first) and the
    first [n] characters of the name, where [n] is the length of the name
    modulo 65536 - the whole name when it is shorter than that. The write is
    within the buffer and the result is 1 exactly when the write fails. When
    the buffer cannot be allocated nothing is written and the result is 1. *)
Theorem issue_load_service_packet (name : string) (find_only : bool) (c : client) :
  let n := Z.to_nat (Z.of_nat (String.length name) mod 65536) in
  let cmd := if find_only then DINIT_CP_FINDSERVICE else DINIT_CP_LOADSERVICE in
  let w := mk_write_call (3 + n) (3 + n)
             (map Some (cmd :: uint16_bytes (Z.of_nat n) ++ firstn n (chars_of name))) in
  (alloc_answers c (allocs c) = true ->
   exists c',
     issue_load_service name find_only c
     = Returned (if write_answers c (length (sent c)) =? -1 then 1 else 0) c'
     /\ sent c' = sent c ++ [w] /\ in_bounds w = true /\ lnk c' = lnk c)
  /\ (alloc_answers c (allocs c) = false ->
      exists c',
        issue_load_service name find_only c = Returned 1 c'
        /\ sent c' = sent c /\ lnk c' = lnk c
        /\ console c' = console c ++ [cerr "dinitctl: std::bad_alloc"])
  /\ (Z.of_nat (String.length name) < 65536 -> firstn n (chars_of name) = chars_of name).
Proof.
  intros n cmd w.
  assert (Hn : Z.of_nat n = Z.of_nat (String.length name) mod 65536).
  { unfold n. rewrite Z2Nat.id; [reflexivity|]. apply Z.mod_pos_bound. lia. }
  assert (Ln : (n <= String.length name)%nat).
  { apply Nat2Z.inj_le. rewrite Hn. apply Z.mod_le; lia. }
  assert (Lb : length (firstn n (chars_of name)) = n).
  { rewrite length_firstn, length_chars_of. lia. }
  split; [|split].
  - intro A. unfold issue_load_service, try_alloc, bind, new_chars, write_all. cbv zeta.
    rewrite A. rewrite <- Hn.
    replace (Z.to_nat (3 + Z.of_nat n)) with (3 + n)%nat by lia.
    rewrite Nat2Z.id. fold cmd.
    assert (R : read_chars
                  (memcpy 3 (firstn n (chars_of name))
                     (memcpy 1 (uint16_bytes (Z.of_nat n))
                        (poke 0 cmd (repeat None (3 + n))))) (3 + n)
                = map Some (cmd :: uint16_bytes (Z.of_nat n) ++ firstn n (chars_of name))).
    { pose proof (read_chars_packet cmd (Z.of_nat n mod 256) ((Z.of_nat n / 256) mod 256)
                    (firstn n (chars_of name))) as P.
      cbv zeta in P. rewrite Lb in P. exact P. }
    rewrite R, !memcpy_length, poke_length, repeat_length. fold w.
    change (write_answers (set_allocs (S (allocs c)) c)) with (write_answers c).
    change (sent (set_allocs (S (allocs c)) c)) with (sent c).
    destruct (write_answers c (length (sent c)) =? -1); eexists;
      (split; [reflexivity|]); (split; [reflexivity|]);
      (split; [apply Nat.leb_refl | reflexivity]).
  - intro A. unfold issue_load_service, try_alloc, bind, new_chars. cbv zeta.
    rewrite A. eexists. split; [reflexivity|]. repeat split.
  - intro L. apply firstn_all2. rewrite length_chars_of. unfold n.
    rewrite Z.mod_small by lia. rewrite Nat2Z.id. lia.
Qed.
End LoadCommand.

(** ** Waiting for the daemon *)

Section WaitingForDaemon.
Context {lib : ClientLib}.
Local Open Scope ctl_scope.

(** Waiting for the end of the rollback prints nothing and writes nothing. *)
Lemma rollback_loop_silent (fuel : nat) (c : client) :
  console (final (rollback_loop fuel c)) = console c
  /\ sent (final (rollback_loop fuel c)) = sent c.
Proof.
  revert c. induction fuel as [|fuel IH]; intro c; cbn [rollback_loop]; [now split|].
  unfold bind, on_link, peek.
  destruct (wait_for_info (lnk c)) as [e|l]; [now split|].
  destruct (_ =? _); [now split|].
  destruct (IH (set_lnk l c)) as [A B]. now rewrite A, B.
Qed.

(** X24. A halt is asked for with one write of two bytes. After the daemon has
    acknowledged it, the exit code is 0 whether the rollback is reported
    complete or the connection fails while waiting for it, and nothing is
    printed. *)
Theorem shutdown_dinit_after_ack (fuel : nat) (c : client) (l1 : link) :
  write_answers c (length (sent c)) <> -1 ->
  wait_for_reply (lnk c) = inr l1 ->
  nth 0 (rbuffer l1) 0 = DINIT_RP_ACK ->
  let w := mk_write_call 2 2 [Some DINIT_CP_SHUTDOWN; Some shutdown_type_HALT] in
  let c2 := set_lnk l1 (set_sent (sent c ++ [w]) c) in
  (forall c3,
     (exists x, rollback_loop fuel c2 = Returned x c3)
     \/ (exists n, rollback_loop fuel c2 = Thrown (cp_read_exception n) c3) ->
     shutdown_dinit fuel c = Returned 0 c3)
  /\ (forall code c', shutdown_dinit fuel c = Returned code c' ->
        code = 0 /\ console c' = console c /\ sent c' = sent c ++ [w]).
Proof.
  intros W R A w c2.
  assert (E : shutdown_dinit fuel c
              = (catch_read (rollback_loop fuel) ;;; ret 0) c2).
  { unfold shutdown_dinit. unfold bind at 1. unfold write_all at 1.
    apply Z.eqb_neq in W. rewrite W.
    unfold bind at 1. unfold on_link at 1. cbn [lnk set_sent]. rewrite R.
    unfold bind at 1. unfold peek at 1. unfold rb_at. cbn [lnk set_lnk]. rewrite A.
    rewrite Z.eqb_refl. cbn [negb]. reflexivity. }
  rewrite E. unfold bind, catch_read.
  pose proof (rollback_loop_silent fuel c2) as [S1 S2].
  split.
  - intros c3 [[x ->]|[n ->]]; reflexivity.
  - intros code c'.
    destruct (rollback_loop fuel c2) as [x c3|e c3|c3|c3]; cbn [final] in S1, S2.
    + intro H. inversion H. subst. repeat split; assumption.
    + destruct e; intro H; try discriminate H. inversion H. subst.
      repeat split; assumption.
    + discriminate.
    + discriminate.
Qed.

(** X25. Waiting for the service event ends with 0 only on the completion event
    of the service that was asked for: the packet at the front of the buffer
    is then a service event that carries the handle and the completion
    event, and the only thing printed since is the report of it. *)
Theorem wait_for_event_success_is_completion (fuel : nat) :
  forall (handle : handle_t) (do_stop verbose : bool) (ce cc r : Z) (c c' : client),
  wait_for_event fuel handle do_stop verbose ce cc r c = Returned 0 c' ->
  exists c1,
    rb_at 0 c1 = DINIT_IP_SERVICEEVENT
    /\ rb_extract 2 sizeof_handle c1 = handle
    /\ rb_at (2 + sizeof_handle) c1 = ce
    /\ c' = (if verbose
             then set_console
                    (console c1 ++ [cout ("Service " ++ describeState do_stop ++ ".")]) c1
             else c1).
Proof.
  induction fuel as [|fuel IH]; intros handle do_stop verbose ce cc r c c';
    cbn [wait_for_event].
  - destruct (0 <? r); [discriminate|].
    unfold bind. destruct (r =? -1); cbv; discriminate.
  - destruct (0 <? r).
    2:{ unfold bind. destruct (r =? -1); cbv; discriminate. }
    unfold bind at 1. unfold peek at 1.
    destruct (100 <=? rb_at 0 c); [|cbv; discriminate].
    unfold bind at 1. unfold peek at 1.
    unfold bind at 1. unfold on_link at 1.
    destruct (fill_buffer_to (unsigned_char (rb_at 1 c)) (lnk c)) as [e|l]; [discriminate|].
    set (c1 := set_lnk l c).
    unfold bind at 1. unfold peek at 1.
    unfold bind at 1.
    destruct (rb_at 0 c1 =? DINIT_IP_SERVICEEVENT) eqn:B0.
    + unfold bind at 1. unfold extract at 1.
      unfold bind at 1. unfold peek at 1.
      unfold handle_eqb.
      destruct (list_eq_dec Z.eq_dec (rb_extract 2 sizeof_handle c1) handle) as [Eh|Nh].
      * destruct (rb_at (2 + sizeof_handle) c1 =? ce) eqn:Ev.
        -- intro H. exists c1. apply Z.eqb_eq in B0, Ev.
           split; [exact B0|]. split; [exact Eh|]. split; [exact Ev|].
           destruct verbose; cbv [bind say_if say ret] in H; now inversion H.
        -- destruct (rb_at (2 + sizeof_handle) c1 =? cc).
           { destruct verbose; cbv [bind say_if say ret]; discriminate. }
           destruct (negb do_stop && (rb_at (2 + sizeof_handle) c1 =? event_code ev_FAILEDSTART)).
           { destruct verbose; cbv [bind say_if say ret]; discriminate. }
           unfold ret at 1. unfold bind, rb_consume, rb_fill_to.
           destruct (fill_to 2 _) as [r' l']. apply IH.
      * unfold ret at 1. unfold bind, rb_consume, rb_fill_to.
        destruct (fill_to 2 _) as [r' l']. apply IH.
    + unfold ret at 1. unfold bind, rb_consume, rb_fill_to.
      destruct (fill_to 2 _) as [r' l']. apply IH.
Qed.
End WaitingForDaemon.

(** The daemon acknowledges the halt and closes the connection. *)
Lemma shutdown_dinit_after_ack_witness :
  let c := set_lnk (mk_link [] [50] 0) (sample_client []) in
  let w := mk_write_call 2 2 [Some 10; Some 1] in
  exists c3,
    @shutdown_dinit sample_lib 5 c = Returned 0 c3
    /\ console c3 = console c /\ sent c3 = sent c ++ [w].
Proof.
  intros c w.
  assert (W : write_answers c (length (sent c)) <> -1) by discriminate.
  destruct (shutdown_dinit_after_ack (lib := sample_lib) 5 c (mk_link [50] [] 0)
              W eq_refl eq_refl) as [A B].
  eexists. split; [apply A; right; exists 0; reflexivity|].
  split; reflexivity.
Defined.

(** The service whose handle is 1 reports that it has started. *)
Lemma wait_for_event_success_is_completion_witness :
  let c := set_lnk (mk_link (event_packet 0) [] 0) (sample_client []) in
  @wait_for_event sample_lib 5 [1; 0; 0; 0] false true 0 3 1 c
  = Returned 0 (set_console [cout "Service started."] c)
  /\ exists c1, rb_at 0 c1 = 100
                /\ @rb_extract 2 4 c1 = [1; 0; 0; 0]
                /\ rb_at 6 c1 = 0.
Proof.
  intro c.
  assert (E : @wait_for_event sample_lib 5 [1; 0; 0; 0] false true 0 3 1 c
              = Returned 0 (set_console [cout "Service started."] c)) by reflexivity.
  split; [exact E|].
  destruct (wait_for_event_success_is_completion (lib := sample_lib) 5 _ _ _ _ _ _ _ _ E)
    as (c1 & A1 & A2 & A3 & _).
  exists c1. split; [exact A1|]. split; [exact A2 | exact A3].
Defined.

(** ** The listing *)

Lemma length_append (a b : string) :
  String.length (a ++ b) = (String.length a + String.length b)%nat.
Proof. induction a as [|x a IH]; cbn; [reflexivity | now rewrite IH]. Qed.

(** The state marks that [list_services] prints before the name of a
    service. *)
Definition state_marks {lib : ClientLib} (current target : Z) : string :=
  "["
  ++ (if target =? state_code STARTED then "{" else " ")
  ++ (if current =? state_code STARTED then "+" else " ")
  ++ (if target =? state_code STARTED then "}" else " ")
  ++ (if current =? state_code STARTING then "<<"
      else if current =? state_code STOPPING then ">>"
      else "  ")
  ++ (if target =? state_code STOPPED then "{" else " ")
  ++ (if current =? state_code STOPPED then "-" else " ")
  ++ (if target =? state_code STOPPED then "}" else " ")
  ++ "] ".

(** What [list_services] prints: the line of a service, or one of its two
    error messages. *)
Inductive listing_message {lib : ClientLib} : ctl_msg -> Prop :=
  | listing_line (current target : Z) (name : string) :
      listing_message (cout (service_line current target name))
  | listing_write_error : listing_message (perror "dinitctl: write")
  | listing_protocol_error :
      listing_message (cerr "dinitctl: Control socket protocol error").

(** Everything that [m] prints satisfies [P]. *)
Definition prints {A : Type} (P : ctl_msg -> Prop) (m : ctl A) : Prop :=
  forall c, exists said, console (final (m c)) = console c ++ said /\ Forall P said.

Lemma prints_nothing {A : Type} (P : ctl_msg -> Prop) (m : ctl A) :
  (forall c, console (final (m c)) = console c) -> prints P m.
Proof.
  intros H c. exists []. split; [now rewrite H, app_nil_r | constructor].
Qed.

Lemma prints_say (P : ctl_msg -> Prop) (m : ctl_msg) : P m -> prints P (say m).
Proof.
  intros H c. exists [m]. split; [reflexivity | now constructor].
Qed.

Lemma prints_bind {A B : Type} (P : ctl_msg -> Prop) (m : ctl A) (k : A -> ctl B) :
  prints P m -> (forall a, prints P (k a)) -> prints P (bind m k).
Proof.
  intros Hm Hk c. unfold bind. destruct (Hm c) as (s1 & E1 & F1).
  destruct (m c) as [a c1|e c1|c1|c1]; cbn [final] in *;
    try (exists s1; split; assumption).
  destruct (Hk a c1) as (s2 & E2 & F2).
  exists (s1 ++ s2). split.
  - now rewrite E2, E1, app_assoc.
  - apply Forall_app. now split.
Qed.

Section Listing.
Context {lib : ClientLib}.
Local Open Scope ctl_scope.

Lemma prints_on_link (P : ctl_msg -> Prop) (f : link -> cp_exception + link) :
  prints P (on_link f).
Proof.
  apply prints_nothing. intro c. unfold on_link. destruct (f (lnk c)); reflexivity.
Qed.

Lemma service_line_marks (current target : Z) (name : string) :
  service_line current target name = (state_marks current target ++ name)%string.
Proof.
  unfold service_line, state_marks.
  destruct (target =? state_code STARTED), (current =? state_code STARTED),
    (current =? state_code STARTING), (current =? state_code STOPPING),
    (target =? state_code STOPPED), (current =? state_code STOPPED); reflexivity.
Qed.

Lemma state_marks_length (current target : Z) :
  String.length (state_marks current target) = 11%nat.
Proof.
  unfold state_marks.
  destruct (target =? state_code STARTED), (current =? state_code STARTED),
    (current =? state_code STARTING), (current =? state_code STOPPING),
    (target =? state_code STOPPED), (current =? state_code STOPPED); reflexivity.
Qed.

Lemma prints_list_services_loop (fuel : nat) :
  prints listing_message (list_services_loop fuel).
Proof.
  induction fuel as [|fuel IH]; cbn [list_services_loop].
  - apply prints_bind; [now apply prints_nothing|]. intro b.
    destruct (b =? DINIT_RP_SVCINFO); now apply prints_nothing.
  - apply prints_bind; [now apply prints_nothing|]. intro b.
    destruct (b =? DINIT_RP_SVCINFO); [|now apply prints_nothing].
    apply prints_bind; [apply prints_on_link|]. intros _.
    apply prints_bind; [now apply prints_nothing|]. intro nameLen.
    apply prints_bind; [now apply prints_nothing|]. intro current.
    apply prints_bind; [now apply prints_nothing|]. intro target.
    apply prints_bind; [apply prints_on_link|]. intros _.
    destruct (nameLen <? 0); [now apply prints_nothing|].
    apply prints_bind; [now apply prints_nothing|]. intro name.
    apply prints_bind; [apply prints_say; constructor|]. intros _.
    apply prints_bind; [now apply prints_nothing|]. intros _.
    apply prints_bind; [apply prints_on_link|]. intros _.
    exact IH.
Qed.

(** X26. Every line that [list_services] prints for a service puts the name in
    the same column: the line is the state marks followed by the name, and
    the marks are 11 characters wide whatever the current and target states
    are. Apart from such lines [list_services] prints nothing but its two
    error messages. *)
Theorem service_line_width (fuel : nat) (c : client) :
  (forall current target name,
     service_line current target name = (state_marks current target ++ name)%string
     /\ String.length (state_marks current target) = 11%nat
     /\ String.length (service_line current target name)
        = (11 + String.length name)%nat)
  /\ exists said,
       console (final (list_services fuel c)) = console c ++ said
       /\ Forall listing_message said.
Proof.
  split.
  - intros current target name.
    split; [apply service_line_marks|]. split; [apply state_marks_length|].
    now rewrite service_line_marks, length_append, state_marks_length.
  - revert c. change (prints listing_message (list_services fuel)).
    unfold list_services.
    apply prints_bind; [now apply prints_nothing|]. intro r.
    destruct (r =? -1).
    + apply prints_bind; [apply prints_say; constructor | intros _; now apply prints_nothing].
    + apply prints_bind; [apply prints_on_link|]. intros _.
      apply prints_bind; [apply prints_list_services_loop|]. intros _.
      apply prints_bind; [now apply prints_nothing|]. intro b.
      destruct (negb (b =? DINIT_RP_LISTDONE)); [|now apply prints_nothing].
      apply prints_bind; [apply prints_say; constructor | intros _; now apply prints_nothing].
Qed.
End Listing.

(** Two services are listed, one started and one stopped; the names start in
    the same column. *)
Lemma service_line_width_witness :
  let c := sample_client
             [62; 3; 2; 2; 0; 0; 0; 0; 119; 101; 98;
              62; 2; 0; 0; 0; 0; 0; 0; 100; 98;
              63] in
  let o := @list_services sample_lib 5 c in
  o = Returned 0 (final o)
  /\ console (final o) = [cout "[{+}     ] web"; cout "[     {-}] db"]
  /\ Forall (@listing_message sample_lib) (console (final o))
  /\ String.length (@state_marks sample_lib 2 2) = 11%nat
  /\ String.length (@state_marks sample_lib 0 0) = 11%nat.
Proof.
  intros c o.
  destruct (service_line_width (lib := sample_lib) 5 c) as (W & said & E & F).
  split; [vm_compute; reflexivity|].
  split; [vm_compute; reflexivity|].
  split; [unfold o; rewrite E; exact F|].
  split; [exact (proj1 (proj2 (W 2 2 EmptyString)))
         | exact (proj1 (proj2 (W 0 0 EmptyString)))].
Defined.

(** A name length that is negative as a [char] ends the listing, and the
    utility with it, before anything is printed. *)
Lemma list_services_negative_name_length :
  let c := sample_client [62; -3; 2; 2; 0; 0; 0; 0; 63] in
  exists c', @list_services sample_lib 5 c = Terminated c' /\ console c' = [].
Proof. intro c. eexists. split; vm_compute; reflexivity. Qed.

(** * The engine on concrete sets *)

(** A PROCESS service that runs as pid 42 and is wanted. *)
Definition running_record : service_record :=
  set_pid 42
    (set_service_state STARTED
       (set_desired_state STARTED (fresh_record (plain_config PROCESS)))).

Definition running_set : sset :=
  fresh_set (fun _ => running_record) (fun _ => calm (mk_time 100 0) 42%positive).

(** Two PROCESS services: the database (handle 0) and the web server (handle
    1), which depends on it. *)
Definition db_config : service_config :=
  mk_service_config PROCESS [] [1%nat] [] [] no_flags false false EmptyString EmptyString
    EmptyString (-1) (mk_time 0 200000000) (mk_time 10 0) 3.

Definition web_config : service_config :=
  mk_service_config PROCESS [O] [] [] [] no_flags false false EmptyString EmptyString
    EmptyString (-1) (mk_time 0 200000000) (mk_time 10 0) 3.

Definition pair_set (db web : service_record -> service_record) : sset :=
  fresh_set
    (fun k => match k with
              | O => db (fresh_record db_config)
              | _ => web (fresh_record web_config)
              end)
    (fun _ => calm (mk_time 100 0) 42%positive).

(** The running process exits with code 1 (wait status 256): the exit is
    logged and the service is stopped in an emergency. *)
Lemma process_handle_exit_status_outcome_witness :
  let s := running_set in
  record_type (cfg (records s O)) = PROCESS
  /\ direct s (@handle_exit_status engine5 O 256 s)
     = [Log (msg_text ERROR) O; Enter c_emergency_stop O; Enter c_process_queues O].
Proof.
  intro s. split; [reflexivity|].
  pose proof (process_handle_exit_status_outcome
                (ops := engine5) (ok := engine_ops_ok _ _ 5) O 256 s eq_refl) as T.
  cbv zeta in T. destruct T as (_ & _ & T & _).
  apply T; [discriminate | discriminate | reflexivity].
Defined.

(** The running process terminates while no exec status is awaited. *)
Lemma status_change_handles_exit_at_once_witness :
  let s := running_set in
  waiting_for_execstat (records s O) = false
  /\ exit_calls (news s (@status_change engine5 O 42 256 s)) = [(O, 256)].
Proof.
  intro s. split; [reflexivity|].
  pose proof (status_change_handles_exit_at_once
                (ops := engine5) (ok := engine_ops_ok _ _ 5) O 42 256 s eq_refl) as T.
  cbv zeta in T. exact (proj1 T).
Defined.

(** A service that nobody requires is started and then stopped on request. *)
Lemma start_then_stop_restores_activation_witness :
  let s := fresh_set (fun _ => fresh_record (plain_config INTERNAL))
             (fun _ => calm time0 42%positive) in
  let started := @start engine5 O true s in
  let stopped := @stop engine5 O true started in
  (required_by (records s O) = 0 /\ start_explicit (records s O) = false)
  /\ required_by (records started O) = 1
  /\ start_explicit (records started O) = true
  /\ required_by (records stopped O) = 0
  /\ start_explicit (records stopped O) = false.
Proof.
  intros s started stopped. split; [split; reflexivity|].
  pose proof (start_then_stop_restores_activation (ops := engine5) O true s
                eq_refl eq_refl) as T.
  cbv zeta in T. destruct T as (A & B & C & D & _).
  split; [exact A|]. split; [exact B|]. split; [exact C | exact D].
Defined.

(** A stop request for a running service that is pinned started. *)
Lemma pinned_started_survives_stop_witness :
  let s := fresh_set (fun _ => set_pinned_started true running_record)
             (fun _ => calm (mk_time 100 0) 42%positive) in
  let after := @stop engine5 O true s in
  pinned_started (records s O) = true
  /\ service_state (records after O) = STARTED
  /\ pinned_started (records after O) = true.
Proof.
  intros s after. split; [reflexivity|].
  pose proof (pinned_started_survives_stop (ops := engine5) O O true s eq_refl) as T.
  cbv zeta in T. destruct T as (A & B & _).
  split; [exact A | exact B].
Defined.

(** The database is brought down while the web server runs. *)
Lemma do_stop_brings_down_started_witness :
  let up := fun r => set_service_state STARTED (set_desired_state STARTED r) in
  let s := pair_set up up in
  let after := @do_stop engine5 O s in
  (pinned_started (records s O) = false
   /\ start_explicit (records s O) = false
   /\ service_state (records s O) = STARTED)
  /\ service_state (records after O) = STOPPING
  /\ prop_stop (records after 1%nat) = true
  /\ In 1%nat (prop_queue after).
Proof.
  intros up s after. split; [repeat split|].
  pose proof (do_stop_brings_down_started (ops := engine5) O s eq_refl eq_refl eq_refl) as T.
  cbv zeta in T. destruct T as (A & _ & B & _).
  split; [exact A|]. apply (B 1%nat). now left.
Defined.

(** A service that has been forked turns out started: it is wanted and no
    stop is forced, so it is STARTED. *)
Lemma started_tells_dependents_or_stops_witness :
  let s := forked_set in
  direct s (@started engine5 O s) = [Log msg_service_started O; Notify O ev_STARTED]
  /\ service_state (records (@started engine5 O s) O) = STARTED.
Proof.
  intro s.
  pose proof (started_tells_dependents_or_stops
                (ops := engine5) (ok := engine_ops_ok _ _ 5) O s) as T.
  cbv zeta in T. destruct T as (_ & T). exact (T eq_refl).
Defined.

(** The restart timer of a STARTING service expires in a world where every
    system call succeeds. *)
Lemma do_restart_outcome_witness :
  let s := restart_set (mk_time 101 0) in
  direct s (@do_restart engine5 O s) = [Enter (c_start_ps_process_cmd false) O]
  /\ 0 < pid (records (@do_restart engine5 O s) O)
  /\ waiting_for_execstat (records (@do_restart engine5 O s) O) = true.
Proof.
  intro s.
  pose proof (do_restart_outcome (ops := engine5) (ok := engine_ops_ok _ _ 5) O s) as T.
  cbv zeta in T. destruct T as (A & B & _). destruct (B eq_refl) as (P & W & _).
  split; [exact A|]. split; [exact P | exact W].
Defined.

(** A PROCESS service that is STOPPING while its process 42 runs: the
    process group is sent SIGTERM and the service waits for the exit. *)
Lemma all_deps_stopped_signals_process_witness :
  let s := fresh_set (fun _ => set_service_state STOPPING running_record)
             (fun _ => calm (mk_time 100 0) 42%positive) in
  is_process_variant (record_type (cfg (records s O))) = true
  /\ direct s (@all_deps_stopped engine5 O s) = [Effect (fx_kill (-42) SIGTERM) O]
  /\ service_state (records (@all_deps_stopped engine5 O s) O) = STOPPING.
Proof.
  intro s. split; [reflexivity|].
  pose proof (all_deps_stopped_signals_process
                (ops := engine5) (ok := engine_ops_ok _ _ 5) O s eq_refl) as T.
  cbv zeta in T. destruct T as (_ & T).
  assert (N : pid (records s O) <> -1) by discriminate.
  destruct (T N) as (A & B). split; [exact A|].
  now rewrite (B eq_refl).
Defined.

(** A SCRIPTED service with no stop command. *)
Lemma all_deps_stopped_runs_stop_script_witness :
  let s := stopping_script_set in
  record_type (cfg (records s O)) = SCRIPTED
  /\ direct s (@all_deps_stopped engine5 O s) = [Enter c_stopped O].
Proof.
  intro s. split; [reflexivity|].
  pose proof (all_deps_stopped_runs_stop_script
                (ops := engine5) (ok := engine_ops_ok _ _ 5) O s eq_refl) as T.
  cbv zeta in T. destruct T as (T & _). exact (T eq_refl).
Defined.

(** The web server is STARTING while the database is STOPPED: the
    dependencies are checked and nothing else happens. *)
Lemma execute_transition_gating_witness :
  let s := pair_set (fun r => r) (set_service_state STARTING) in
  let s' := @execute_transition engine5 1%nat s in
  direct s s' = [Enter (c_startCheckDependencies false) 1%nat]
  /\ records s' = records s.
Proof.
  intros s s'.
  pose proof (execute_transition_gating
                (ops := engine5) (ok := engine_ops_ok _ _ 5) 1%nat s) as T.
  cbv zeta in T. destruct T as (A & B).
  split; [exact A|]. exact (proj1 (B eq_refl)).
Defined.

(** A STARTING service that is pinned stopped is left alone. *)
Lemma do_start_gating_witness :
  let s := fresh_set
             (fun _ => set_pinned_stopped true
                         (set_service_state STARTING (fresh_record (plain_config PROCESS))))
             (fun _ => calm (mk_time 100 0) 42%positive) in
  direct s (@do_start engine5 O s) = []
  /\ @do_start engine5 O s = emit (Leave c_do_start O) (emit (Enter c_do_start O) s).
Proof.
  intro s.
  pose proof (do_start_gating (ops := engine5) (ok := engine_ops_ok _ _ 5) O s) as T.
  cbv zeta in T. destruct T as (A & B & _).
  split; [exact A | exact (B eq_refl)].
Defined.

(** The database fails to start while the web server is STARTING. *)
Lemma failed_to_start_cancels_dependents_witness :
  let s := pair_set (set_service_state STARTING) (set_service_state STARTING) in
  let s' := @failed_to_start engine5 O false s in
  service_state (records s' O) = STOPPED
  /\ service_state (records s' 1%nat) = STARTING
  /\ prop_failure (records s' 1%nat) = true
  /\ In 1%nat (prop_queue s').
Proof.
  intros s s'.
  pose proof (failed_to_start_cancels_dependents
                (ops := engine5) (ok := engine_ops_ok _ _ 5) O false s) as T.
  cbv zeta in T. destruct T as (A & _ & B & C & D & _).
  split; [exact A|]. split; [exact (B 1%nat (fun E => Nat.neq_succ_0 _ E))|].
  split; [exact (C 1%nat) | exact (D 1%nat eq_refl)].
Defined.

(** A running service that is pinned started and was started on request is
    asked to stop, and then unpinned. *)
Lemma unpin_after_pinned_stop_witness :
  let s := fresh_set
             (fun _ => set_pinned_started true
                         (set_required_by 1 (set_start_explicit true running_record)))
             (fun _ => calm (mk_time 100 0) 42%positive) in
  let after := @stop engine5 O true s in
  (pinned_started (records s O) = true /\ start_explicit (records s O) = true
   /\ required_by (records s O) = 1)
  /\ firstn 2 (direct after (@unpin engine5 O after))
     = [Enter c_do_stop O; Enter c_process_queues O].
Proof.
  intros s after. split; [repeat split|].
  destruct (unpin_after_pinned_stop (ops := engine5) (ok := engine_ops_ok _ _ 5) O s eq_refl)
    as [T _].
  exact (T eq_refl eq_refl).
Defined.

(** A BGPROCESS service that is STARTING; its launcher exits with status 0
    and the pid file names a child that runs. *)
Definition launching_bgprocess : service_record :=
  set_service_state STARTING
    (set_desired_state STARTED (fresh_record (plain_config BGPROCESS))).

(** An environment like [calm], in which the process that the pid file names
    is a child that has exited already, with status 0. *)
Definition gone_child (now : time_val) (child : positive) : sys_answers :=
  mk_sys_answers now true 7 0 0 0 0 0 0 true (Some child) 5 3 (Z.pos child) (Z.pos child)
    false 0 0.

Lemma bgproc_handle_exit_status_outcome_witness :
  let s := fresh_set (fun _ => launching_bgprocess)
             (fun _ => calm (mk_time 100 0) 42%positive) in
  let t := fresh_set (fun _ => launching_bgprocess)
             (fun _ => gone_child (mk_time 100 0) 42%positive) in
  (record_type (cfg (records s O)) = BGPROCESS /\ doing_recovery (records s O) = false)
  /\ direct s (@handle_exit_status engine5 O 0 s)
     = [Enter c_read_pid_file O; Enter c_started O; Enter c_process_queues O]
  /\ @handle_exit_status engine5 O 0 t
     = emit (Leave (c_handle_exit_status 0) O)
         (@bgproc_service_loop engine5 4 O 0
            (@started engine5 O
               (snd (read_pid_file O 0 (emit (Enter (c_handle_exit_status 0) O) t))))).
Proof.
  intros s t. split; [split; reflexivity|].
  pose proof (bgproc_handle_exit_status_outcome
                (ops := engine5) (ok := engine_ops_ok _ _ 5) O 0 s eq_refl eq_refl) as T.
  cbv zeta in T. destruct T as (_ & T & _).
  split; [apply T; [reflexivity | reflexivity | discriminate]|].
  pose proof (bgproc_handle_exit_status_outcome
                (ops := engine5) (ok := engine_ops_ok _ _ 5) O 0 t eq_refl eq_refl) as U.
  cbv zeta in U. destruct U as (_ & _ & _ & _ & _ & U).
  exact (U eq_refl eq_refl eq_refl 4%nat eq_refl).
Defined.

(** A BGPROCESS service that is recovering; the new launcher exits with
    status 0. With no pid file nothing happens but the end of the recovery;
    with a pid file that names a child that has exited already, the exit of
    that child is handled from [begin]. *)
Definition recovering_bgprocess (pid_file : string) : service_record :=
  set_doing_recovery true
    (set_service_state STARTED
       (set_desired_state STARTED
          (fresh_record
             (mk_service_config BGPROCESS [] [] [] [] no_flags false true EmptyString
                pid_file EmptyString (-1) (mk_time 0 200000000) (mk_time 10 0) 3)))).

Lemma bgproc_recovery_outcome_witness :
  let s := fresh_set (fun _ => recovering_bgprocess EmptyString)
             (fun _ => calm (mk_time 100 0) 42%positive) in
  let t := fresh_set (fun _ => recovering_bgprocess "/run/db.pid")
             (fun _ => gone_child (mk_time 100 0) 42%positive) in
  let x := upd O (set_doing_recovery false) (emit (Enter (c_handle_exit_status 0) O) t) in
  (record_type (cfg (records s O)) = BGPROCESS /\ doing_recovery (records s O) = true)
  /\ direct s (@handle_exit_status engine5 O 0 s) = []
  /\ doing_recovery (records (@handle_exit_status engine5 O 0 s) O) = false
  /\ @handle_exit_status engine5 O 0 t
     = emit (Leave (c_handle_exit_status 0) O)
         (@bgproc_service_loop engine5 4 O 0 (snd (read_pid_file O 0 x)))
  /\ doing_recovery (records (snd (read_pid_file O 0 x)) O) = false.
Proof.
  intros s t x. split; [split; reflexivity|].
  pose proof (bgproc_recovery_outcome
                (ops := engine5) (ok := engine_ops_ok _ _ 5) O 0 s eq_refl eq_refl) as T.
  cbv zeta in T. destruct T as (_ & _ & T & _).
  destruct (T eq_refl eq_refl) as (_ & A & B & _).
  split; [exact A|]. split; [now rewrite B|].
  pose proof (bgproc_recovery_outcome
                (ops := engine5) (ok := engine_ops_ok _ _ 5) O 0 t eq_refl eq_refl) as U.
  cbv zeta in U. destruct U as ((_ & D) & _ & _ & U).
  split; [|exact D].
  assert (N : pid_file (cfg (records t O)) <> EmptyString) by discriminate.
  exact (U eq_refl N 4%nat eq_refl).
Defined.

(** The child of a STARTING service could not [exec()]: four bytes of error
    code arrive on the pipe. *)
Lemma fd_event_outcome_witness :
  let s := forked_set in
  direct s (@fd_event engine5 O 4 s)
  = [Effect (fx_deregister_child 42) O; Log (msg_text ERROR) O;
     Enter (c_failed_to_start false) O; Enter c_process_queues O].
Proof.
  intro s.
  pose proof (fd_event_outcome (ops := engine5) (ok := engine_ops_ok _ _ 5) O 4 s) as T.
  cbv zeta in T. destruct T as (T & _).
  assert (P : 0 < 4) by reflexivity.
  exact (proj1 (T P)).
Defined.
